(* ===== verification/_CoqProject ===== *)
-Q . S2P
Prelude.v
GoStrings.v
GoUtf8.v
GoTime.v
GoFormat.v
GoFloat.v
GoDuration.v
GoOS.v
Labels.v
Identity.v
Crypto.v
SymCrypto.v
PkiCA.v
PkiPem.v
PkiPairing.v
PairerSys.v
PairerExpiry.v
PairerProgress.v
PairerGuesses.v
PairerSpec.v
GoGrpc.v
Transport.v
GoNet.v
GoFlag.v
Peer.v
Ifaces.v
Mdns.v
PairingServer.v
PairingClient.v
PairingNet.v
Coordinator.v
CoordinatorSys.v
Meshctl.v
MeshctlOut.v
Meshd.v
MeshdLife.v
Discovery.v
Bootstrap.v
