(* ===== verification/Prelude.v ===== *)
(** * Local Compute Mesh: a verification development

    The program is a control plane for the machines of a home or an office.
    One binary, [meshd], runs on every machine; one of them is started as the
    coordinator.  The operator's command is [meshctl].  Every connection is
    gRPC over mutual TLS with certificates of a certificate authority that
    [meshctl init] makes; a new machine gets its certificate by pairing: the
    operator mints an eight-digit code ([meshctl pair]), and whoever types it on
    the new machine ([meshctl join]) proves to the coordinator that it knows the
    code, and checks that the coordinator does, through two MACs under a key
    derived from the code.  Machines find each other by multicast DNS.

    ** How the parts are modelled

    Operations are functions with the names of the source, on records with its
    fields.  The readings of the clock, random bytes, the order in which Go
    iterates over a map, and the answers of the network and the operating system
    are arguments, so a theorem holds for all of them.  An operation on files is
    of type [M A]: it maps a file system to a file system and a value or an
    error ([GoOS.v]); one on the coordinator's memory maps a [Pairer] to a
    [Pairer] and an answer.  Integers are [Z] with their wrap-around where the
    code can reach it ([GoTime.int64_wrap], the [uint32] of a request).  Strings
    are byte strings, and ranging over one decodes UTF-8 as Go does.

    - The base.  [Prelude.v]: errors and results, with the tactics that open
      them.  [GoStrings.v], [GoUtf8.v], [GoTime.v], [GoFormat.v],
      [GoFloat.v], [GoDuration.v], [GoOS.v], [GoNet.v], [GoFlag.v], [GoGrpc.v]: what the program uses of Go's library
      and of gRPC.
    - [Labels.v], [Identity.v]: [src/internal/identity/nodeid.go], the persistent
      node_id.
    - [Crypto.v]: the cryptographic library, as a class of operations [Crypto]
      and a class of its documented laws [CryptoLaws].  [SymCrypto.v]: an instance
      of both that computes, in which the witnesses run.  This is the interface
      between the program and what it trusts: the other files are proved against
      the classes.
    - [PkiCA.v], [PkiPem.v]: [src/internal/pki/ca.go] and [pem.go], principals and
      certificates, and the files that hold them.
    - [PkiPairing.v]: [src/internal/pki/pairing.go], the codes, the MACs, the
      coordinator's [Pairer] and the joiner's [VerifyBundle].  [PairerSys.v]: the
      same operations as a labelled transition system in which the two critical
      sections of concurrent [Complete] calls interleave.  [PairerSpec.v]: the
      abstract specification and the simulation.  [PairerExpiry.v]: expiry
      without a timer.  [PairerProgress.v]: what the others cannot prevent.
      [PairerGuesses.v]: how many codes can be tried.
    - [Transport.v]: [src/internal/transport/grpc_mtls.go], identities, the two
      TLS configurations and the role guard.  [GoGrpc.tls_connect] is the part of
      a handshake that decides about certificates.
    - [Peer.v], [Ifaces.v], [Mdns.v]: [src/internal/discovery], advertisements,
      interfaces and the browser, whose goroutine is a list of items.
    - [PairingServer.v], [PairingClient.v]: [src/internal/pairing], the service of
      the coordinator and [Join].  [PairingNet.v]: both at once over a network
      that belongs to an attacker, a transition system that contains the one of
      [PairerSys.v] and [Join] cut in two where it waits for [Complete].
    - [Coordinator.v]: [src/internal/coordinator/admin.go] with the dispatch of
      its method.  [CoordinatorSys.v]: any sequence of calls to a coordinator.
    - [Meshctl.v], [MeshctlOut.v]: [src/cmd/meshctl/main.go], the commands, and
      what they print.  [Meshd.v]: [src/cmd/meshd/main.go], what it computes, and
      [MeshdLife.v]: what it does to the world, in order, with its deferred
      calls.  [Discovery.v] and [Bootstrap.v]: the programs together.

    ** What the theorems show

    - The whole: from an empty directory the mesh comes up, a second node joins
      and is recognised by the coordinator ([Bootstrap.mesh_bootstrap]); a joiner
      takes the first coordinator that it hears, and what a daemon advertises leads
      it to the daemon's pairing listener ([Discovery.coordinator_found]), and the daemons of a mesh find and reach
      each other ([daemons_meet]); the
      lines that [pair] prints are commands that join
      ([MeshctlOut.printed_commands_join]).
    - Pairing is safe: what a coordinator has checked when it admits a node
      ([PkiPairing.Complete_sound], [Complete_request_bound]), what a joiner may
      believe ([VerifyBundle_authentic], [PairingClient.Join_authentic]), that an
      honest one gets in ([PairingClient.Join_honest]) and, with any calls of
      others in between, is still admitted
      ([PairerProgress.honest_joiner_admitted]), single
      use of codes and the limit of failures under concurrency
      ([PairerSys.codes_single_use], [rate_limit], [PairerGuesses.guesses_bounded],
      and [rate_limit_not_atomic] without a bound on overlap),
      refinement of the abstract office ([PairerSpec.pairer_refines_office],
      [admissions_bounded]), and that no node gets in without an administrator's
      call ([CoordinatorSys.nodes_need_an_administrator]).  On a hostile network
      both ends agree when the code is unknown to the attacker: whoever is admitted
      under a key that the attacker does not have is a joiner that holds it
      ([PairingNet.admitted_is_joiner]); and, provided that the session id it was
      given has 16 bytes, which [Join] does not check, a joiner is not led into
      another mesh ([joiner_not_misled]) and, from what it stored, trusts the
      coordinator's only ([paired_node_trusts_its_mesh]).  A code gives one
      certificate ([one_certificate_per_code]).
    - Certificates and connections: what [Sign] certifies, what the handshakes
      establish about the other side, who passes the guard of the admin API
      ([PkiCA], [Transport], [Coordinator]).
    - Discovery: the peer table, and the events in their bounded channel as a
      consumer reads them ([Mdns]), and exactly which TXT records are accepted
      ([Peer]).
    - The daemon: what it announces can be reached at every moment at which its
      servers have not failed, and what is left when it returns: nothing after a
      signal, and after an error at most the control-plane port, when it was not
      served yet ([MeshdLife.announced_is_reachable]); it runs until it is told to
      stop ([Meshd.run_until_signal]).
    - The commands: what [init] and [join] leave on disk, that no existing file is
      overwritten without [--force] (the [node_id] if it can be looked up), that
      the node_id stays ([Identity.LoadOrCreate_stable]), command lines, text and
      exit status ([Meshctl], [MeshctlOut], [Meshd]).

    Theorems about the coordinator that speak of an order of iteration ask that
    it is a permutation, which is all that Go says.  Those that rest on
    cryptography assume [CryptoLaws]: parsing inverts encoding, what a CA
    issued verifies under it while both are valid, and so on; collisions of the
    hash and of the MAC are not excluded but named in the conclusions.  Only
    [PairingNet.v] idealises the MAC: the guard [unforged] of its steps says that
    the attacker sends no MAC under a key derived from a code it does not know
    that an honest party did not make.  Which codes these are is a parameter: a
    code has eight digits, so an attacker that sees a MAC may search for it, and
    what the program does about that is to make the search slow and the code
    short-lived.

    ** Fuel

    [Itoa] writes at most 20 digits, enough for 64 bits ([Atoi_Itoa]).  Loops
    over a string take its length as fuel and consume a byte in every round
    ([range_go_fuel], [quote_go_fuel], [strip_local_done],
    [ParseDuration_String]).  Everything else is
    structural.

    ** Not modelled

    Generated protobuf and gRPC code: messages are records of the fields in use,
    and the services without an implementation (inference, node, scheduler) have
    none here.  The zeroconf library beyond the answers of its calls, and the
    transport of gRPC beyond certificates, options and interceptors.  Log lines,
    the health service, the text of errors (their identity under [errors.Is] is
    kept), and standard error.  A conversion of a [float64] outside the range of
    [uint32] is a parameter, since Go leaves it to the machine.  What [Server.Serve]
    and [Stop] do beyond the acts of [MeshdLife.v] (serving, failing, stopping),
    which is gRPC's.  Links and concurrent writers of the file system.  Certificate
    chains longer than one, which the CA's path length of zero rules out.

    ** Left for later

    The errors' text, so that [main] of both programs can print it; the browser
    under two clocks. *)
From Stdlib Require Export ZArith Lia Ascii.
From stdpp Require Export base gmap strings list sorting.
From stdpp Require Import options.

#[export] Set Default Goal Selector "!".

(** ** Scope and error values

    A Go [error] is either a value built by [errors.New] (compared by
    identity, here by its text, which is unique for each package variable of
    the program), an error that wraps another one ([fmt.Errorf] with [%w]),
    or an opaque one ([fmt.Errorf] without [%w]).  Formatted arguments are not
    part of the model: nothing in the program inspects them. *)
Declare Scope go_scope.
Delimit Scope go_scope with go.
Open Scope go_scope.

Inductive error : Type :=
  | ErrorsNew (text : string)
  | Wrap (fmt : string) (e : error)
  | Errorf (fmt : string).

#[export] Instance error_eq_dec : EqDecision error.
Proof. solve_decision. Defined.

(** [errors.Is]: walk the chain of wrapped errors. *)
Fixpoint errors_Is (e target : error) : bool :=
  bool_decide (e = target) ||
  match e with
  | Wrap _ e' => errors_Is e' target
  | _ => false
  end.

(** The error at the end of the chain decides what [errors.Is] finds. *)
Fixpoint error_base (e : error) : error :=
  match e with Wrap _ e' => error_base e' | _ => e end.

Lemma errors_Is_base e t :
  errors_Is e (ErrorsNew t) = bool_decide (error_base e = ErrorsNew t).
Proof.
  induction e as [u|f e IH|f]; cbn [errors_Is error_base].
  - apply orb_false_r.
  - by rewrite IH, bool_decide_false.
  - apply orb_false_r.
Qed.

(** ** Fallible results: Go's [(T, error)] pair, with exactly one side used. *)
Inductive result (A : Type) : Type :=
  | Ok (a : A)
  | Err (e : error).
Arguments Ok {A} a.
Arguments Err {A} e.

#[export] Instance result_eq_dec {A} `{EqDecision A} : EqDecision (result A).
Proof. solve_decision. Defined.

Definition is_ok {A} (r : result A) : bool :=
  match r with Ok _ => true | Err _ => false end.

Definition rbind {A B} (r : result A) (k : A → result B) : result B :=
  match r with Ok a => k a | Err e => Err e end.

(** [if err != nil { return fmt.Errorf("fmt: %w", err) }] *)
Definition wrap_err {A} (fmt : string) (r : result A) : result A :=
  match r with Ok a => Ok a | Err e => Err (Wrap fmt e) end.

(** [if !cond { return err }] *)
Definition guard_err (b : bool) (e : error) : result unit :=
  if b then Ok tt else Err e.

Definition of_option {A} (o : option A) (e : error) : result A :=
  match o with Some a => Ok a | None => Err e end.

Notation "'let?' x := e 'in' k" := (rbind e (λ x, k))
  (at level 10, x name, e at level 100, k at level 200) : go_scope.
Notation "'check?' e 'in' k" := (rbind e (λ _ : unit, k))
  (at level 10, e at level 100, k at level 200) : go_scope.

Lemma Ok_inj {A} (a b : A) : Ok a = Ok b → a = b.
Proof. congruence. Qed.

Lemma rbind_Ok {A B} (r : result A) (k : A → result B) b :
  rbind r k = Ok b ↔ ∃ a, r = Ok a ∧ k a = Ok b.
Proof. destruct r; naive_solver. Qed.

Lemma rbind_Err {A B} (r : result A) (k : A → result B) e :
  rbind r k = Err e ↔ r = Err e ∨ ∃ a, r = Ok a ∧ k a = Err e.
Proof. destruct r; naive_solver. Qed.

Lemma wrap_err_Ok {A} fmt (r : result A) a : wrap_err fmt r = Ok a ↔ r = Ok a.
Proof. destruct r; naive_solver. Qed.

Lemma guard_err_Ok b e u : guard_err b e = Ok u ↔ b = true.
Proof. destruct b, u; naive_solver. Qed.

Lemma guard_err_Err b e e' : guard_err b e = Err e' ↔ b = false ∧ e' = e.
Proof. destruct b; naive_solver. Qed.

Lemma of_option_Ok {A} (o : option A) e a : of_option o e = Ok a ↔ o = Some a.
Proof. destruct o; naive_solver. Qed.

Lemma of_option_Err {A} (o : option A) e e' :
  of_option o e = Err e' ↔ o = None ∧ e' = e.
Proof. destruct o; naive_solver. Qed.

Create HintDb go.
Create Rewrite HintDb go.

(** Open a chain of successful steps, or split on the step that failed. *)
Ltac inv_ok :=
  repeat match goal with
  | H : rbind _ _ = Ok _ |- _ =>
      apply rbind_Ok in H; let a := fresh "a" in let E := fresh "Eq" in
      destruct H as (a & E & H); cbv beta in H
  | H : wrap_err _ _ = Ok _ |- _ => apply wrap_err_Ok in H
  | H : guard_err _ _ = Ok _ |- _ => apply guard_err_Ok in H
  | H : of_option _ _ = Ok _ |- _ => apply of_option_Ok in H
  | H : Ok _ = Ok _ |- _ => injection H as H; subst
  | H : Err _ = Ok _ |- _ => discriminate H
  | H : Ok _ = Err _ |- _ => discriminate H
  | H : (_ && _)%bool = true |- _ => apply andb_true_iff in H; destruct H
  | H : bool_decide _ = true |- _ => apply bool_decide_eq_true in H
  | H : negb _ = true |- _ => apply negb_true_iff in H
  | H : bool_decide _ = false |- _ => apply bool_decide_eq_false in H
  end.

(** The outermost test of a computation that succeeded: it did not return. *)
Ltac guard_false H Hn :=
  match type of H with
  | (if bool_decide ?P then Err _ else _) = Ok _ =>
      destruct (bool_decide_reflect P) as [Hn|Hn]; [discriminate H|]
  end.

(** Follow a computation whose steps are known to succeed. *)
Ltac step_ok := repeat (simpl; match goal with
  | H : ?x = Ok _ |- context [rbind ?x _] => rewrite H
  | H : ?x = Ok _ |- context [wrap_err _ ?x] => rewrite H
  | H : ?x = Some _ |- context [of_option ?x _] => rewrite H
  | H : ?x = true |- context [guard_err ?x _] => rewrite H
  end).

(** ** Sizes of maps *)

Section MapSize.
Context {V : Type}.
Implicit Types (m : gmap string V) (k : string).

Lemma size_insert_le k (v : V) m : (size (<[k := v]> m) ≤ S (size m))%nat.
Proof. rewrite map_size_insert. destruct (m !! k); cbn; lia. Qed.

Lemma size_delete_le k m : (size (delete k m) ≤ size m)%nat.
Proof. rewrite map_size_delete. destruct (m !! k); cbn; lia. Qed.

Lemma size_delete_lt k m : is_Some (m !! k) → S (size (delete k m)) = size m.
Proof.
  intros H. rewrite map_size_delete_Some by done.
  destruct H as [v H]. pose proof (map_size_ne_0_lookup_2 m k) as Hn.
  assert (size m ≠ 0%nat) by (apply map_size_ne_0_lookup_2 with k; eauto). lia.
Qed.
End MapSize.
