(* ===== verification/GoStrings.v ===== *)
(** * The parts of Go's string libraries the program uses

    A Go [string] is an immutable sequence of bytes, and the [[]byte] values
    of the program are never written after they are built, so both are
    Rocq's [string], one [ascii] per byte.  This file models the functions of
    [strings], [strconv] and [encoding/hex] that the program calls, with the
    lemmas the components share; [GoUtf8.v] has runes and the matcher of
    [regexp]. *)
From S2P Require Import Prelude.

(** ** Bytes *)

Definition byte_val (a : ascii) : Z := Z.of_N (N_of_ascii a).
Definition byte_of (z : Z) : ascii := ascii_of_N (Z.to_N z).

Definition in_range (lo hi z : Z) : bool := ((lo <=? z) && (z <=? hi))%Z.

Lemma in_range_true lo hi z : in_range lo hi z = true ↔ (lo ≤ z ≤ hi)%Z.
Proof. unfold in_range. lia. Qed.

Lemma in_range_false lo hi z : in_range lo hi z = false ↔ ¬ (lo ≤ z ≤ hi)%Z.
Proof. unfold in_range. lia. Qed.

Lemma byte_val_bounds a : (0 ≤ byte_val a < 256)%Z.
Proof.
  unfold byte_val. pose proof (N_ascii_bounded a). lia.
Qed.

Lemma byte_val_of z : (0 ≤ z < 256)%Z → byte_val (byte_of z) = z.
Proof.
  intros. unfold byte_val, byte_of. rewrite N_ascii_embedding; lia.
Qed.

Lemma byte_of_val a : byte_of (byte_val a) = a.
Proof.
  unfold byte_val, byte_of. rewrite N2Z.id. apply ascii_N_embedding.
Qed.

Lemma byte_val_inj a b : byte_val a = byte_val b → a = b.
Proof. intros H. by rewrite <-(byte_of_val a), H, byte_of_val. Qed.

(** ** Basic string operations *)

Fixpoint slen (s : string) : nat :=
  match s with "" => 0 | String _ s' => S (slen s') end.

(** [s[:n]] and [s[n:]] *)
Fixpoint stake (n : nat) (s : string) : string :=
  match n, s with
  | S n', String a s' => String a (stake n' s')
  | _, _ => ""
  end.
Fixpoint sdrop (n : nat) (s : string) : string :=
  match n, s with
  | S n', String _ s' => sdrop n' s'
  | _, _ => s
  end.

(** Every byte satisfies [P]. *)
Fixpoint sall (P : ascii → bool) (s : string) : bool :=
  match s with "" => true | String a s' => P a && sall P s' end.

Fixpoint sfilter (P : ascii → bool) (s : string) : string :=
  match s with
  | "" => ""
  | String a s' => if P a then String a (sfilter P s') else sfilter P s'
  end.

Fixpoint smap (f : ascii → ascii) (s : string) : string :=
  match s with "" => "" | String a s' => String (f a) (smap f s') end.

Lemma app_nil_l_s (s : string) : "" +:+ s = s.
Proof. done. Qed.
Lemma app_cons_s a (s t : string) : String a s +:+ t = String a (s +:+ t).
Proof. done. Qed.
Lemma app_nil_r_s (s : string) : s +:+ "" = s.
Proof. induction s as [|a s IH]; [done|]. by rewrite app_cons_s, IH. Qed.
Lemma app_assoc_s (s t u : string) : (s +:+ t) +:+ u = s +:+ (t +:+ u).
Proof.
  induction s as [|a s IH]; [done|]. by rewrite !app_cons_s, IH.
Qed.
Lemma slen_app s t : slen (s +:+ t) = slen s + slen t.
Proof.
  induction s as [|a s IH]; [done|]. rewrite app_cons_s; simpl. by rewrite IH.
Qed.
Lemma sall_app P s t : sall P (s +:+ t) = sall P s && sall P t.
Proof.
  induction s as [|a s IH]; [done|]. rewrite app_cons_s; simpl.
  by rewrite IH, andb_assoc.
Qed.
#[export] Hint Rewrite app_nil_l_s app_cons_s app_nil_r_s app_assoc_s
  slen_app sall_app : go.

Lemma slen_0 s : slen s = 0 ↔ s = "".
Proof. by destruct s. Qed.

Lemma app_inj_len s s' t t' :
  slen s = slen s' → s +:+ t = s' +:+ t' → s = s' ∧ t = t'.
Proof.
  revert s'. induction s as [|a s IH]; intros [|b s']; simpl; intros Hl H;
    try lia; [done|].
  rewrite !app_cons_s in H. injection H as -> H.
  destruct (IH s') as [-> ->]; auto with lia.
Qed.

Lemma app_inj_tail_s s s' t : s +:+ t = s' +:+ t → s = s'.
Proof.
  intros H. apply app_inj_len in H as [? _]; [done|].
  apply (f_equal slen) in H. rewrite !slen_app in H. lia.
Qed.

Lemma stake_sdrop n s : stake n s +:+ sdrop n s = s.
Proof.
  revert s. induction n as [|n IH]; intros [|a s]; try done.
  simpl. by rewrite app_cons_s, IH.
Qed.
Lemma stake_app s t : stake (slen s) (s +:+ t) = s.
Proof.
  induction s as [|a s IH]; [by destruct t|].
  rewrite app_cons_s; simpl. by rewrite IH.
Qed.
Lemma sdrop_app s t : sdrop (slen s) (s +:+ t) = t.
Proof. induction s as [|a s IH]; [done|]. by rewrite app_cons_s. Qed.
Lemma slen_stake n s : slen (stake n s) = min n (slen s).
Proof. revert s; induction n as [|n IH]; intros [|a s]; simpl; auto. Qed.
Lemma slen_sdrop n s : slen (sdrop n s) = slen s - n.
Proof. revert s; induction n as [|n IH]; intros [|a s]; simpl; auto. Qed.
Lemma sall_stake P n s : sall P s = true → sall P (stake n s) = true.
Proof.
  revert s; induction n as [|n IH]; intros [|a s]; simpl; try done.
  intros [-> ?]%andb_true_iff. by rewrite IH.
Qed.
Lemma sall_sfilter P Q s :
  (∀ a, P a = true → Q a = true) → sall Q (sfilter P s) = true.
Proof.
  intros HPQ. induction s as [|a s IH]; simpl; [done|].
  destruct (P a) eqn:E; simpl; [|done]. by rewrite IH, (HPQ a E).
Qed.
Lemma sfilter_id P s : sall P s = true → sfilter P s = s.
Proof.
  induction s as [|a s IH]; simpl; [done|].
  intros [-> ?]%andb_true_iff. by rewrite IH.
Qed.
Lemma slen_sfilter P s : slen (sfilter P s) ≤ slen s.
Proof. induction s as [|a s IH]; simpl; [done|]. destruct (P a); simpl; lia. Qed.
Lemma sall_impl P Q s :
  (∀ a, P a = true → Q a = true) → sall P s = true → sall Q s = true.
Proof.
  intros HPQ. induction s as [|a s IH]; simpl; [done|].
  intros [? ?]%andb_true_iff. rewrite IH, HPQ; done.
Qed.

Lemma sall_ext P Q s : (∀ a, P a = Q a) → sall P s = sall Q s.
Proof. intros HPQ. induction s as [|a s IH]; simpl; by rewrite ?HPQ, ?IH. Qed.

(** ** Package [strings] *)

Definition HasPrefix (s p : string) : bool := bool_decide (stake (slen p) s = p).
Definition TrimPrefix (s p : string) : string :=
  if HasPrefix s p then sdrop (slen p) s else s.
Definition HasSuffix (s p : string) : bool :=
  (slen p <=? slen s)%nat && bool_decide (sdrop (slen s - slen p) s = p).
Definition TrimSuffix (s p : string) : string :=
  if HasSuffix s p then stake (slen s - slen p) s else s.

(** [strings.IndexByte]; [None] is Go's -1. *)
Fixpoint IndexByte (s : string) (c : ascii) : option nat :=
  match s with
  | "" => None
  | String a s' => if decide (a = c) then Some 0 else S <$> IndexByte s' c
  end.
Fixpoint LastIndexByte (s : string) (c : ascii) : option nat :=
  match s with
  | "" => None
  | String a s' =>
      match LastIndexByte s' c with
      | Some i => Some (S i)
      | None => if decide (a = c) then Some 0 else None
      end
  end.

(** [strings.Cut] for a one-byte separator; [None] when it is absent. *)
Definition Cut (s : string) (c : ascii) : option (string * string) :=
  match IndexByte s c with
  | Some i => Some (stake i s, sdrop (S i) s)
  | None => None
  end.

(** [strings.Split] for a one-byte separator. *)
Fixpoint Split (s : string) (c : ascii) : list string :=
  match s with
  | "" => [""]
  | String a s' =>
      if decide (a = c) then "" :: Split s' c
      else match Split s' c with
           | [] => [String a ""]
           | p :: ps => String a p :: ps
           end
  end.

(** [strings.TrimLeft], [TrimRight] and [Trim] for a one-byte cutset. *)
Fixpoint TrimLeft (s : string) (c : ascii) : string :=
  match s with
  | "" => ""
  | String a s' => if decide (a = c) then TrimLeft s' c else s
  end.
Fixpoint TrimRight (s : string) (c : ascii) : string :=
  match s with
  | "" => ""
  | String a s' =>
      match TrimRight s' c with
      | "" => if decide (a = c) then "" else String a ""
      | t => String a t
      end
  end.
Definition Trim (s : string) (c : ascii) : string := TrimRight (TrimLeft s c) c.

(** The byte [c] does not occur in [s]. *)
Definition lacks (c : ascii) (s : string) : bool :=
  sall (λ a, negb (bool_decide (a = c))) s.

Lemma IndexByte_lacks s c : IndexByte s c = None ↔ lacks c s = true.
Proof.
  unfold lacks. induction s as [|a s IH]; simpl; [done|].
  destruct (decide (a = c)); [by rewrite bool_decide_true|].
  rewrite bool_decide_false by done. simpl. rewrite <-IH.
  by destruct (IndexByte s c).
Qed.
Lemma IndexByte_app s t c :
  lacks c s = true → IndexByte (s +:+ String c t) c = Some (slen s).
Proof.
  unfold lacks. induction s as [|a s IH]; simpl; intros H.
  - rewrite ?app_nil_l_s; simpl. by rewrite decide_True.
  - rewrite ?app_cons_s; simpl. inv_ok. rewrite decide_False by done.
    by rewrite IH.
Qed.
Lemma IndexByte_Some s c i :
  IndexByte s c = Some i →
  lacks c (stake i s) = true ∧ s = stake i s +:+ String c (sdrop (S i) s).
Proof.
  unfold lacks. revert i. induction s as [|a s IH]; simpl; intros i H; [done|].
  destruct (decide (a = c)) as [->|Hne].
  - by injection H as <-.
  - apply fmap_Some in H as (j & Hj & ->). destruct (IH j Hj) as [H1 H2].
    simpl. rewrite bool_decide_false by done. split; [done|].
    rewrite app_cons_s. by f_equal.
Qed.
Lemma Cut_app k v c : lacks c k = true → Cut (k +:+ String c v) c = Some (k, v).
Proof.
  intros H. unfold Cut. rewrite (IndexByte_app _ _ _ H).
  rewrite stake_app. do 2 f_equal.
  replace (S (slen k)) with (slen (k +:+ String c "")) by (rewrite slen_app; simpl; lia).
  replace (k +:+ String c v) with ((k +:+ String c "") +:+ v) by (by rewrite app_assoc_s).
  by rewrite sdrop_app.
Qed.

Lemma Split_lacks s c : lacks c s = true → Split s c = [s].
Proof.
  unfold lacks. induction s as [|a s IH]; simpl; intros H; [done|].
  inv_ok. rewrite decide_False by done. by rewrite IH.
Qed.
Lemma Split_app s t c :
  lacks c s = true → Split (s +:+ String c t) c = s :: Split t c.
Proof.
  unfold lacks. induction s as [|a s IH]; simpl; intros H.
  - rewrite ?app_nil_l_s; simpl. by rewrite decide_True.
  - rewrite ?app_cons_s; simpl. inv_ok. rewrite decide_False by done.
    by rewrite IH.
Qed.

Lemma HasPrefix_app s p : HasPrefix (p +:+ s) p = true.
Proof. unfold HasPrefix. rewrite stake_app. by apply bool_decide_true. Qed.
Lemma HasPrefix_spec s p : HasPrefix s p = true ↔ ∃ t, s = p +:+ t.
Proof.
  split.
  - unfold HasPrefix. intros H. inv_ok. exists (sdrop (slen p) s).
    rewrite <-H at 1. by rewrite stake_sdrop.
  - intros [t ->]. apply HasPrefix_app.
Qed.
Lemma TrimPrefix_app s p : TrimPrefix (p +:+ s) p = s.
Proof. unfold TrimPrefix. by rewrite HasPrefix_app, sdrop_app. Qed.
Lemma HasSuffix_app s p : HasSuffix (s +:+ p) p = true.
Proof.
  unfold HasSuffix. rewrite slen_app.
  replace (slen s + slen p - slen p) with (slen s) by lia.
  rewrite sdrop_app, bool_decide_true by done.
  rewrite andb_true_r. apply Nat.leb_le. lia.
Qed.
Lemma HasSuffix_spec s p : HasSuffix s p = true ↔ ∃ t, s = t +:+ p.
Proof.
  split.
  - unfold HasSuffix. intros H. inv_ok. exists (stake (slen s - slen p) s).
    match goal with H : sdrop _ _ = _ |- _ => rewrite <-H at 2 end.
    by rewrite stake_sdrop.
  - intros [t ->]. apply HasSuffix_app.
Qed.
Lemma TrimSuffix_app s p : TrimSuffix (s +:+ p) p = s.
Proof.
  unfold TrimSuffix. rewrite HasSuffix_app, slen_app.
  replace (slen s + slen p - slen p) with (slen s) by lia.
  apply stake_app.
Qed.

Lemma TrimLeft_sall P s c : sall P s = true → sall P (TrimLeft s c) = true.
Proof.
  induction s as [|a s IH]; simpl; [done|]. intros [? ?]%andb_true_iff.
  case_decide; [auto|]. simpl. by apply andb_true_iff.
Qed.
Lemma TrimRight_cons a s c :
  TrimRight (String a s) c =
    if decide (TrimRight s c = "" ∧ a = c) then ""
    else String a (TrimRight s c).
Proof.
  simpl. destruct (TrimRight s c) as [|b t]; simpl.
  - repeat case_decide; naive_solver.
  - done.
Qed.
Lemma TrimRight_sall P s c : sall P s = true → sall P (TrimRight s c) = true.
Proof.
  induction s as [|a s IH]; [done|]. rewrite TrimRight_cons.
  simpl. intros [? ?]%andb_true_iff. case_decide; [done|].
  simpl. apply andb_true_iff; auto.
Qed.
Lemma slen_TrimLeft s c : slen (TrimLeft s c) ≤ slen s.
Proof. induction s as [|a s IH]; simpl; [done|]. case_decide; simpl; lia. Qed.
Lemma slen_TrimRight s c : slen (TrimRight s c) ≤ slen s.
Proof.
  induction s as [|a s IH]; [done|]. rewrite TrimRight_cons.
  case_decide; simpl; lia.
Qed.

(** The first byte of [s] is not [c]. *)
Definition first_ne (c : ascii) (s : string) : bool :=
  match s with "" => true | String a _ => negb (bool_decide (a = c)) end.

Lemma TrimLeft_first s c : first_ne c (TrimLeft s c) = true.
Proof.
  induction s as [|a s IH]; simpl; [done|]. case_decide; [done|].
  simpl. by rewrite bool_decide_false.
Qed.
Lemma TrimRight_first d s c : first_ne d s = true → first_ne d (TrimRight s c) = true.
Proof. destruct s; [done|]. rewrite TrimRight_cons. by case_decide. Qed.
Lemma stake_first d n s : first_ne d s = true → first_ne d (stake n s) = true.
Proof. by destruct s, n. Qed.
Lemma TrimLeft_id s c : first_ne c s = true → TrimLeft s c = s.
Proof.
  destruct s as [|a s]; simpl; [done|]. intros H. inv_ok.
  by rewrite decide_False.
Qed.

(** ** Package [strconv] and [encoding/hex]: decimal and hexadecimal digits *)

Definition digit (d : Z) : ascii := byte_of (48 + d).
Definition is_digit (a : ascii) : bool := in_range 48 57 (byte_val a).
Definition is_lower (a : ascii) : bool := in_range 97 122 (byte_val a).

(** Decimal digits of [n], least significant first found, in front of [acc].
    20 rounds are enough for every 64-bit integer. *)
Fixpoint itoa_go (fuel : nat) (n : Z) (acc : string) : string :=
  match fuel with
  | 0 => acc
  | S f =>
      let acc' := String (digit (n mod 10)) acc in
      if (n <? 10)%Z then acc' else itoa_go f (n / 10) acc'
  end.
Definition Itoa (z : Z) : string :=
  if (z <? 0)%Z then String "-" (itoa_go 20 (- z) "") else itoa_go 20 z "".

Definition max_int : Z := 9223372036854775807.
Definition min_int : Z := -9223372036854775808.

(** The value of a string of decimal digits, from the accumulator [acc]. *)
Fixpoint digits_val (acc : Z) (s : string) : option Z :=
  match s with
  | "" => Some acc
  | String a s' =>
      if is_digit a then digits_val (acc * 10 + (byte_val a - 48)) s' else None
  end.

Inductive num_error := ErrSyntax | ErrRange.

(** [strconv.Atoi]: an optional sign, one digit or more, and the int range. *)
Definition Atoi (s : string) : Z + num_error :=
  let '(neg, ds) :=
    match s with
    | String a s' =>
        if decide (a = "-"%char) then (true, s')
        else if decide (a = "+"%char) then (false, s')
        else (false, s)
    | "" => (false, "")
    end in
  match ds with
  | "" => inr ErrSyntax
  | _ =>
      match digits_val 0 ds with
      | None => inr ErrSyntax
      | Some v =>
          let v' := if (neg : bool) then (- v)%Z else v in
          if in_range min_int max_int v' then inl v' else inr ErrRange
      end
  end.

Lemma digit_val d : (0 ≤ d < 10)%Z → byte_val (digit d) = (48 + d)%Z.
Proof. intros. unfold digit. apply byte_val_of. lia. Qed.
Lemma digit_is_digit d : (0 ≤ d < 10)%Z → is_digit (digit d) = true.
Proof. intros. unfold is_digit. rewrite digit_val by done. by apply in_range_true; lia. Qed.

Lemma itoa_go_val f n acc :
  (0 < f)%nat → (0 ≤ n < 10 ^ Z.of_nat f)%Z →
  digits_val 0 (itoa_go f n acc) = digits_val n acc.
Proof.
  revert n acc. induction f as [|f IH]; intros n acc Hf Hn; [lia|].
  pose proof (Z.mod_pos_bound n 10). pose proof (Z.div_mod n 10).
  rewrite Nat2Z.inj_succ, Z.pow_succ_r in Hn by lia.
  assert (Hstep : ∀ m, digits_val m (String (digit (n mod 10)) acc)
                       = digits_val (m * 10 + n mod 10) acc).
  { intros m. simpl. rewrite digit_is_digit, digit_val by lia. f_equal. lia. }
  cbn [itoa_go]. destruct (Z.ltb_spec n 10).
  - rewrite Hstep. f_equal. lia.
  - destruct f as [|f]; [simpl in Hn; lia|].
    rewrite IH, Hstep; [f_equal; lia|lia|].
    split; [apply Z.div_pos; lia|apply Z.div_lt_upper_bound; lia].
Qed.

Lemma itoa_go_digits f n acc :
  (0 ≤ n)%Z → sall is_digit (itoa_go f n acc) = sall is_digit acc.
Proof.
  revert n acc. induction f as [|f IH]; intros n acc Hn; [done|].
  pose proof (Z.mod_pos_bound n 10). cbn [itoa_go].
  assert (sall is_digit (String (digit (n mod 10)) acc) = sall is_digit acc) as He.
  { simpl. by rewrite digit_is_digit by lia. }
  destruct (n <? 10)%Z; [done|]. rewrite IH; [done|]. apply Z.div_pos; lia.
Qed.

Lemma itoa_go_len f n k acc :
  (0 < k ≤ f)%nat → (0 ≤ n < 10 ^ Z.of_nat k)%Z →
  (0 < slen (itoa_go f n acc) - slen acc ≤ k)%nat ∧
  (slen acc ≤ slen (itoa_go f n acc))%nat.
Proof.
  revert n k acc. induction f as [|f IH]; intros n k acc Hk Hn; [lia|].
  cbn [itoa_go]. destruct (Z.ltb_spec n 10); [simpl; lia|].
  destruct k as [|[|k]]; [lia|simpl in Hn; lia|].
  rewrite Nat2Z.inj_succ, Z.pow_succ_r in Hn by lia.
  destruct (IH (n / 10)%Z (S k) (String (digit (n mod 10)) acc)); [lia| |simpl in *; lia].
  split; [apply Z.div_pos; lia|apply Z.div_lt_upper_bound; lia].
Qed.

Lemma Itoa_nonneg z : (0 ≤ z)%Z → Itoa z = itoa_go 20 z "".
Proof. intros. unfold Itoa. destruct (Z.ltb_spec z 0); [lia|done]. Qed.

Lemma Itoa_digits z : (0 ≤ z)%Z → sall is_digit (Itoa z) = true.
Proof. intros. rewrite Itoa_nonneg, itoa_go_digits; done. Qed.

Lemma Itoa_nonempty z : (0 ≤ z ≤ max_int)%Z → Itoa z ≠ "".
Proof.
  unfold max_int. intros Hz. rewrite Itoa_nonneg by lia. intros E.
  assert (0 < 20 ≤ 20)%nat as Hk by lia.
  destruct (itoa_go_len 20 z 20 "" Hk); [lia|]. rewrite E in *. simpl in *. lia.
Qed.

(** [Atoi] inverts [Itoa] on every non-negative [int]. *)
Lemma Atoi_Itoa z : (0 ≤ z ≤ max_int)%Z → Atoi (Itoa z) = inl z.
Proof.
  intros Hz. pose proof (Itoa_nonempty z Hz) as Hne.
  pose proof (Itoa_digits z ltac:(lia)) as Hd.
  assert (digits_val 0 (Itoa z) = Some z) as Hv.
  { unfold max_int in Hz. rewrite Itoa_nonneg by lia.
    rewrite itoa_go_val by lia. done. }
  assert (Hr : in_range min_int max_int z = true).
  { apply in_range_true. unfold min_int. lia. }
  unfold Atoi. destruct (Itoa z) as [|a s] eqn:E; [done|].
  simpl in Hd. apply andb_true_iff in Hd as [Ha _].
  rewrite !decide_False by (intros ->; done). by rewrite Hv, Hr.
Qed.

Lemma Atoi_range s z : Atoi s = inl z → (min_int ≤ z ≤ max_int)%Z.
Proof.
  unfold Atoi. intros H. repeat (case_match; simplify_eq/=);
    by apply in_range_true.
Qed.

Definition hexdigit (d : Z) : ascii :=
  if (d <? 10)%Z then byte_of (48 + d) else byte_of (87 + d).
Definition is_hex (a : ascii) : bool :=
  is_digit a || in_range 97 102 (byte_val a).

(** [hex.EncodeToString] *)
Fixpoint HexEncode (s : string) : string :=
  match s with
  | "" => ""
  | String a s' =>
      String (hexdigit (byte_val a / 16))
        (String (hexdigit (byte_val a mod 16)) (HexEncode s'))
  end.

Lemma hexdigit_val d : (0 ≤ d < 16)%Z →
  byte_val (hexdigit d) = (if (d <? 10)%Z then 48 + d else 87 + d)%Z.
Proof. intros. unfold hexdigit. destruct (Z.ltb_spec d 10); apply byte_val_of; lia. Qed.
Lemma hexdigit_is_hex d : (0 ≤ d < 16)%Z → is_hex (hexdigit d) = true.
Proof.
  intros. unfold is_hex, is_digit, in_range. rewrite hexdigit_val by done.
  destruct (Z.ltb_spec d 10); lia.
Qed.
Lemma HexEncode_hex s : sall is_hex (HexEncode s) = true.
Proof.
  induction s as [|a s IH]; simpl; [done|]. pose proof (byte_val_bounds a).
  rewrite IH, !hexdigit_is_hex; [done| |].
  - apply Z.mod_pos_bound; lia.
  - split; [apply Z.div_pos; lia|apply Z.div_lt_upper_bound; lia].
Qed.
Lemma slen_HexEncode s : slen (HexEncode s) = 2 * slen s.
Proof. induction s as [|a s IH]; simpl; [done|]. rewrite IH. lia. Qed.

Lemma hexdigit_inj d e :
  (0 ≤ d < 16)%Z → (0 ≤ e < 16)%Z → hexdigit d = hexdigit e → d = e.
Proof.
  intros Hd He H. apply (f_equal byte_val) in H.
  rewrite !hexdigit_val in H by done.
  destruct (Z.ltb_spec d 10), (Z.ltb_spec e 10); lia.
Qed.
Lemma HexEncode_inj s t : HexEncode s = HexEncode t → s = t.
Proof.
  revert t. induction s as [|a s IH]; intros [|b t]; simpl; intros H; try done.
  injection H as H1 H2 H3. pose proof (byte_val_bounds a). pose proof (byte_val_bounds b).
  apply hexdigit_inj in H1; [|split; [apply Z.div_pos|apply Z.div_lt_upper_bound]; lia..].
  apply hexdigit_inj in H2; [|apply Z.mod_pos_bound; lia..].
  rewrite (IH t H3). f_equal. apply byte_val_inj.
  rewrite (Z.div_mod (byte_val a) 16), (Z.div_mod (byte_val b) 16) by lia. lia.
Qed.

(** Splitting in exactly two parts. *)
Lemma Split_nonempty s c : Split s c ≠ [].
Proof. destruct s; simpl; [done|]. repeat case_match; done. Qed.

Lemma Split_one s c p : Split s c = [p] → s = p ∧ lacks c p = true.
Proof.
  revert p. induction s as [|a s IH]; simpl; intros p H; [by simplify_eq|].
  case_decide; [pose proof (Split_nonempty s c); by simplify_eq/=|].
  destruct (Split s c) as [|q l] eqn:E; [by destruct (Split_nonempty s c)|].
  simplify_eq/=. destruct (IH q eq_refl) as [-> Hl]. split; [done|].
  unfold lacks in *. simpl. by rewrite Hl, bool_decide_false.
Qed.

Lemma Split_two s c a b :
  Split s c = [a; b] ↔ s = a +:+ String c b ∧ lacks c a = true ∧ lacks c b = true.
Proof.
  split.
  - revert a. induction s as [|x s IH]; simpl; intros a H; [done|].
    case_decide as Hx.
    + injection H as <- H. apply Split_one in H as [-> Hl]. by rewrite app_nil_l_s, Hx.
    + destruct (Split s c) as [|q l] eqn:E; [done|]. simplify_eq/=.
      destruct (IH q eq_refl) as (-> & Hl & Hb). rewrite app_cons_s.
      split_and!; [done| |done]. unfold lacks in *. simpl. by rewrite Hl, bool_decide_false.
  - intros (-> & Ha & Hb). by rewrite Split_app, Split_lacks.
Qed.
