(* ===== verification/GoUtf8.v ===== *)
(** * Runes: ranging over a string, [unicode/utf8], [strings.ToLower],
    [strings.TrimSpace] and the regular expression matcher

    [for i, r := range s] decodes UTF-8; an invalid sequence yields
    U+FFFD with width one.  The decoder below is that of [unicode/utf8],
    with the accepted ranges of the second byte written out. *)
From S2P Require Import Prelude GoStrings.

Definition RuneError : Z := 65533.

(** Size and accepted range of the second byte, from the first byte. *)
Definition utf8_first (b : Z) : option (nat * Z * Z) :=
  if in_range 0xC2 0xDF b then Some (2, 0x80%Z, 0xBF%Z)
  else if (b =? 0xE0)%Z then Some (3, 0xA0%Z, 0xBF%Z)
  else if in_range 0xE1 0xEC b then Some (3, 0x80%Z, 0xBF%Z)
  else if (b =? 0xED)%Z then Some (3, 0x80%Z, 0x9F%Z)
  else if in_range 0xEE 0xEF b then Some (3, 0x80%Z, 0xBF%Z)
  else if (b =? 0xF0)%Z then Some (4, 0x90%Z, 0xBF%Z)
  else if in_range 0xF1 0xF3 b then Some (4, 0x80%Z, 0xBF%Z)
  else if (b =? 0xF4)%Z then Some (4, 0x80%Z, 0x8F%Z)
  else None.

(** The low six bits of a continuation byte. *)
Definition cont (a : ascii) : option Z :=
  let b := byte_val a in if in_range 0x80 0xBF b then Some (b - 0x80)%Z else None.

(** [utf8.DecodeRuneInString]: the rune and its width. *)
Definition decode_rune (s : string) : Z * nat :=
  match s with
  | "" => (RuneError, 0)
  | String a s1 =>
    let b := byte_val a in
    if (b <? 0x80)%Z then (b, 1) else
    match utf8_first b, s1 with
    | Some (size, lo, hi), String a1 s2 =>
      let b1 := byte_val a1 in
      if negb (in_range lo hi b1) then (RuneError, 1) else
      let c1 := (b1 - 0x80)%Z in
      if (size =? 2)%nat then (((b - 0xC0) * 64 + c1)%Z, 2) else
      match s2 with
      | "" => (RuneError, 1)
      | String a2 s3 =>
        match cont a2 with
        | None => (RuneError, 1)
        | Some c2 =>
          if (size =? 3)%nat then (((b - 0xE0) * 4096 + c1 * 64 + c2)%Z, 3) else
          match s3 with
          | "" => (RuneError, 1)
          | String a3 _ =>
            match cont a3 with
            | None => (RuneError, 1)
            | Some c3 =>
              (((b - 0xF0) * 262144 + c1 * 4096 + c2 * 64 + c3)%Z, 4)
            end
          end
        end
      end
    | _, _ => (RuneError, 1)
    end
  end.

#[global] Arguments decode_rune : simpl never.

(** [for i, r := range s], as the list of pairs it visits.  Every round
    consumes a byte, so [slen s] rounds are enough ([range_complete]). *)
Fixpoint range_go (fuel : nat) (i : nat) (s : string) : list (nat * Z) :=
  match fuel, s with
  | S f, String _ _ =>
      let '(r, w) := decode_rune s in (i, r) :: range_go f (i + w) (sdrop w s)
  | _, _ => []
  end.
Definition range (s : string) : list (nat * Z) := range_go (slen s) 0 s.
Definition runes (s : string) : list Z := (range s).*2.

Lemma decode_ascii a s :
  (byte_val a < 0x80)%Z → decode_rune (String a s) = (byte_val a, 1).
Proof. intros H. unfold decode_rune. by destruct (Z.ltb_spec (byte_val a) 128); [|lia]. Qed.

Lemma utf8_first_spec b n lo hi :
  utf8_first b = Some (n, lo, hi) →
  (0x80 ≤ lo ∧ hi ≤ 0xBF)%Z ∧
  (n = 2 ∧ (0xC2 ≤ b ≤ 0xDF)%Z ∨
   n = 3 ∧ (0xE1 ≤ b ≤ 0xEF ∨ b = 0xE0 ∧ 0xA0 ≤ lo)%Z ∨
   n = 4 ∧ (0xF1 ≤ b ≤ 0xF4 ∨ b = 0xF0 ∧ 0x90 ≤ lo)%Z).
Proof.
  unfold utf8_first. intros H.
  repeat match type of H with
  | (if in_range ?l ?h b then _ else _) = _ =>
      destruct (in_range l h b) eqn:?; [rewrite in_range_true in *|]
  | (if (b =? ?x)%Z then _ else _) = _ => destruct (Z.eqb_spec b x)
  end; try done; injection H as <- <- <-; lia.
Qed.

Lemma cont_bounds a c :
  cont a = Some c → (0 ≤ c < 64)%Z ∧ (0x80 ≤ byte_val a)%Z.
Proof.
  unfold cont. case_match eqn:E; [|done]. intros [= <-].
  apply in_range_true in E. lia.
Qed.

Definition non_ascii (a : ascii) : bool := (0x80 <=? byte_val a)%Z.

(** A byte outside ASCII never decodes to an ASCII rune, and the bytes the
    decoder consumes with it are all outside ASCII. *)
Lemma decode_non_ascii a s r w :
  (0x80 ≤ byte_val a)%Z → decode_rune (String a s) = (r, w) →
  (0x80 ≤ r)%Z ∧ 1 ≤ w ≤ 4 ∧ sall non_ascii (stake w (String a s)) = true.
Proof.
  unfold decode_rune, RuneError. intros Ha H. unfold non_ascii.
  assert (Ha' : (0x80 <=? byte_val a)%Z = true) by lia.
  destruct (Z.ltb_spec (byte_val a) 128); [lia|].
  destruct (utf8_first (byte_val a)) as [[[n lo] hi]|] eqn:E;
    [|by simplify_eq/=; rewrite ?Ha'; auto with lia].
  apply utf8_first_spec in E as [Hlh E].
  destruct s as [|a1 s2]; [by simplify_eq/=; rewrite ?Ha'; auto with lia|].
  destruct (in_range lo hi (byte_val a1)) eqn:E1;
    [|by simplify_eq/=; rewrite ?Ha'; auto with lia].
  apply in_range_true in E1. simpl in H.
  destruct (Nat.eqb_spec n 2); [simplify_eq/=; lia|].
  destruct s2 as [|a2 s3]; [by simplify_eq/=; rewrite ?Ha'; auto with lia|].
  destruct (cont a2) eqn:E2; [apply cont_bounds in E2 as [? ?]|
    by simplify_eq/=; rewrite ?Ha'; auto with lia].
  destruct (Nat.eqb_spec n 3); [simplify_eq/=; lia|].
  destruct s3 as [|a3 s4]; [by simplify_eq/=; rewrite ?Ha'; auto with lia|].
  destruct (cont a3) eqn:E3; [apply cont_bounds in E3 as [? ?]|
    by simplify_eq/=; rewrite ?Ha'; auto with lia].
  simplify_eq/=. lia.
Qed.

Lemma decode_width a s : 1 ≤ (decode_rune (String a s)).2.
Proof.
  destruct (Z.lt_ge_cases (byte_val a) 128) as [H|H].
  - by rewrite decode_ascii.
  - destruct (decode_rune (String a s)) as [r w] eqn:E.
    apply decode_non_ascii in E; simpl; lia.
Qed.

(** More fuel than bytes changes nothing: the loop always ends by itself. *)
Lemma range_go_fuel f f' i s :
  slen s ≤ f → slen s ≤ f' → range_go f i s = range_go f' i s.
Proof.
  revert f' i s. induction f as [|f IH]; intros f' i [|a s] Hf Hf'; simpl in *;
    try lia; [by destruct f'..|].
  destruct f' as [|f']; [lia|]. cbn [range_go].
  pose proof (decode_width a s).
  destruct (decode_rune (String a s)) as [r w] eqn:E. simpl in *.
  f_equal. apply IH; rewrite slen_sdrop; simpl; lia.
Qed.

Lemma range_go_cons f i a s :
  slen (String a s) ≤ f →
  range_go f i (String a s) =
    (i, (decode_rune (String a s)).1) ::
    range_go f (i + (decode_rune (String a s)).2)
      (sdrop (decode_rune (String a s)).2 (String a s)).
Proof.
  intros Hf. destruct f as [|f]; [simpl in Hf; lia|]. simpl in Hf.
  pose proof (decode_width a s).
  rewrite (range_go_fuel (S f) f _ (sdrop _ _)) by (rewrite slen_sdrop; simpl in *; lia).
  cbn [range_go]. by destruct (decode_rune (String a s)).
Qed.

(** A test that accepts ASCII runes only sees a string the way a byte loop
    does: the loops of the program that validate or filter labels, host names
    and codes may be read byte by byte.  [P] is the test at the first
    position, [Q] at every other one. *)
Lemma range_forallb_bytes (P : nat → Z → bool) f i s :
  slen s ≤ f →
  (∀ j r, (0x80 ≤ r)%Z → P j r = false) →
  (∀ j r, i < j → P j r = P (S i) r) →
  forallb (λ ir, P ir.1 ir.2) (range_go f i s) =
    match s with
    | "" => true
    | String a s' => P i (byte_val a) && sall (λ b, P (S i) (byte_val b)) s'
    end.
Proof.
  revert i s. induction f as [|f IH]; intros i s Hf Hhi Hj;
    (destruct s as [|a s]; [done|]); [simpl in Hf; lia|].
  simpl in Hf. cbn [range_go].
  destruct (Z.lt_ge_cases (byte_val a) 128) as [H|H].
  - rewrite decode_ascii by done. cbn [forallb sdrop fst snd]. f_equal.
    rewrite IH; [|lia|done|].
    + destruct s as [|b s]; [done|]. simpl. rewrite Nat.add_1_r. f_equal.
      apply sall_ext. intros c. apply Hj. lia.
    + intros j r Hlt. rewrite (Hj j), (Hj (S (i + 1))); [done|lia..].
  - destruct (decode_rune (String a s)) as [r w] eqn:E.
    apply decode_non_ascii in E as [Hr _]; [|done].
    cbn [forallb fst snd]. by rewrite (Hhi i r Hr), (Hhi i (byte_val a)).
Qed.

(** The same for a loop that does not look at the index. *)
Lemma runes_forallb_bytes (P : Z → bool) s :
  (∀ r, (0x80 ≤ r)%Z → P r = false) →
  forallb P (runes s) = sall (λ b, P (byte_val b)) s.
Proof.
  intros HP. unfold runes, range.
  transitivity (forallb (λ ir : nat * Z, P ir.2) (range_go (slen s) 0 s)).
  { generalize (range_go (slen s) 0 s). intros l.
    induction l as [|x l IH]; simpl; [done|]. by rewrite <-IH. }
  rewrite (range_forallb_bytes (λ _, P)); [by destruct s|done..|]; auto.
Qed.


(** The byte values of a string; for ASCII these are its runes. *)
Fixpoint bytes (s : string) : list Z :=
  match s with "" => [] | String a s' => byte_val a :: bytes s' end.

Lemma length_bytes s : length (bytes s) = slen s.
Proof. induction s as [|a s IH]; simpl; by rewrite ?IH. Qed.

Lemma runes_ascii s :
  sall (λ a, negb (non_ascii a)) s = true → runes s = bytes s.
Proof.
  unfold runes, range. generalize 0. induction s as [|a s IH]; [done|].
  intros i. simpl. intros [Ha Hs]%andb_true_iff. unfold non_ascii in Ha.
  rewrite decode_ascii by lia. simpl. by rewrite IH.
Qed.

(** *** Writing runes *)

(** [utf8.AppendRune] on the empty buffer: surrogates and values outside
    Unicode are written as U+FFFD. *)
Definition encode_rune (r : Z) : string :=
  let enc3 r := String (byte_of (0xE0 + r / 4096)) (String (byte_of (0x80 + r / 64 mod 64))
                 (String (byte_of (0x80 + r mod 64)) "")) in
  if in_range 0 0x7F r then String (byte_of r) ""
  else if in_range 0x80 0x7FF r then
    String (byte_of (0xC0 + r / 64)) (String (byte_of (0x80 + r mod 64)) "")
  else if in_range 0xD800 0xDFFF r || negb (in_range 0 0x10FFFF r) then enc3 RuneError
  else if (r <=? 0xFFFF)%Z then enc3 r
  else String (byte_of (0xF0 + r / 262144)) (String (byte_of (0x80 + r / 4096 mod 64))
         (String (byte_of (0x80 + r / 64 mod 64)) (String (byte_of (0x80 + r mod 64)) ""))).

Definition write_runes (rs : list Z) : string :=
  foldr (λ r s, encode_rune r +:+ s) "" rs.

(** [for _, r := range s { if P(r) { sb.WriteRune(r) } }] *)
Definition filter_runes (P : Z → bool) (s : string) : string :=
  write_runes (List.filter P (runes s)).

Lemma sfilter_drop_non_ascii (P : Z → bool) s n :
  (∀ r, (0x80 ≤ r)%Z → P r = false) →
  sall non_ascii (stake n s) = true →
  sfilter (λ b, P (byte_val b)) s = sfilter (λ b, P (byte_val b)) (sdrop n s).
Proof.
  intros HP. revert s. induction n as [|n IH]; intros [|a s]; try done.
  simpl. intros [Ha ?]%andb_true_iff. unfold non_ascii in Ha.
  rewrite HP by lia. by apply IH.
Qed.

(** For an ASCII test the rune loop is the byte filter. *)
Lemma filter_runes_bytes (P : Z → bool) s :
  (∀ r, (0x80 ≤ r)%Z → P r = false) →
  (∀ r, (r < 0)%Z → P r = false) →
  filter_runes P s = sfilter (λ b, P (byte_val b)) s.
Proof.
  intros HP HN. unfold filter_runes, runes, range. generalize 0.
  assert (Hlen : slen s ≤ slen s) by lia. revert Hlen.
  generalize (slen s) at 2 3. intros f. revert s.
  induction f as [|f IH]; intros [|a s] Hf i; try done; [simpl in Hf; lia|].
  rewrite range_go_cons by done. simpl in Hf.
  pose proof (byte_val_bounds a).
  rewrite (range_go_fuel _ f) by
    (pose proof (decode_width a s); rewrite slen_sdrop; simpl; lia).
  cbn [fmap list_fmap List.map fst snd List.filter].
  destruct (Z.lt_ge_cases (byte_val a) 128) as [H'|H'].
  - rewrite decode_ascii by done. cbn [fst snd sdrop sfilter].
    assert (slen s ≤ f) as Hs by lia. specialize (IH s Hs (i + 1)).
    destruct (P (byte_val a)); [|done].
    cbn [write_runes foldr]. fold write_runes. unfold encode_rune at 1.
    replace (in_range 0 127 (byte_val a)) with true
      by (symmetry; apply in_range_true; lia).
    rewrite byte_of_val, app_cons_s. by f_equal.
  - destruct (decode_rune (String a s)) as [r w] eqn:E.
    apply decode_non_ascii in E as (Hr & Hw & Hall); [|done].
    cbn [fst snd]. rewrite (HP r Hr), IH by (rewrite slen_sdrop; simpl; lia).
    symmetry. by apply sfilter_drop_non_ascii.
Qed.

(** ** [strings.ToLower]

    Outside ASCII the mapping is [unicode.ToLower]'s table, a parameter: no
    statement of the development depends on what it holds. *)
Section ToLower.
Context (lower_tab : Z → Z).

Definition ascii_lower (a : ascii) : ascii :=
  if in_range 65 90 (byte_val a) then byte_of (byte_val a + 32) else a.

Definition unicode_ToLower (r : Z) : Z :=
  if (r <=? 0x7F)%Z
  then if in_range 65 90 r then (r + 32)%Z else r
  else lower_tab r.

(** ASCII strings take the byte path, the others [strings.Map]. *)
Definition ToLower (s : string) : string :=
  if sall (λ a, negb (non_ascii a)) s then smap ascii_lower s
  else write_runes (unicode_ToLower <$> runes s).
End ToLower.

(** ** [strings.TrimSpace] *)

Definition unicode_IsSpace (r : Z) : bool :=
  in_range 9 13 r || (r =? 0x20)%Z || (r =? 0x85)%Z || (r =? 0xA0)%Z ||
  (r =? 0x1680)%Z || in_range 0x2000 0x200A r || (r =? 0x2028)%Z ||
  (r =? 0x2029)%Z || (r =? 0x202F)%Z || (r =? 0x205F)%Z || (r =? 0x3000)%Z.

(** The runes of [s] with the bytes each was decoded from. *)
Fixpoint pieces_go (fuel : nat) (s : string) : list (Z * string) :=
  match fuel, s with
  | S f, String _ _ =>
      let '(r, w) := decode_rune s in
      (r, stake w s) :: pieces_go f (sdrop w s)
  | _, _ => []
  end.
Definition pieces (s : string) : list (Z * string) := pieces_go (slen s) s.

Fixpoint drop_while {A} (P : A → bool) (l : list A) : list A :=
  match l with
  | [] => []
  | x :: l' => if P x then drop_while P l' else l
  end.

Definition sconcat (l : list string) : string := foldr String.append "" l.

Definition TrimSpace (s : string) : string :=
  let sp (p : Z * string) := unicode_IsSpace p.1 in
  sconcat (rev (drop_while sp (rev (drop_while sp (pieces s))))).*2.

Definition ascii_nonspace (a : ascii) : bool :=
  negb (non_ascii a) && negb (unicode_IsSpace (byte_val a)).

Fixpoint byte_pieces (s : string) : list (Z * string) :=
  match s with
  | "" => []
  | String a s' => (byte_val a, String a "") :: byte_pieces s'
  end.

Lemma pieces_ascii s :
  sall (λ a, negb (non_ascii a)) s = true → pieces s = byte_pieces s.
Proof.
  unfold pieces. induction s as [|a s IH]; [done|].
  simpl. intros [Ha Hs]%andb_true_iff. unfold non_ascii in Ha.
  rewrite decode_ascii by lia. simpl. by rewrite IH.
Qed.

Lemma byte_pieces_app s t : byte_pieces (s +:+ t) = byte_pieces s ++ byte_pieces t.
Proof.
  induction s as [|a s IH]; [done|]. rewrite app_cons_s. simpl. by rewrite IH.
Qed.

Lemma byte_pieces_concat s : sconcat (byte_pieces s).*2 = s.
Proof.
  induction s as [|a s IH]; [done|]. cbn [byte_pieces fmap list_fmap List.map].
  unfold sconcat in *. cbn [foldr snd]. by rewrite IH, app_cons_s, app_nil_l_s.
Qed.

Lemma drop_while_none {A} (P : A → bool) l :
  Forall (λ x, P x = false) l → drop_while P l = l.
Proof. destruct 1 as [|x l H]; simpl; [done|]. by rewrite H. Qed.

(** [TrimSpace] gives back a word written with a final newline. *)
Lemma TrimSpace_line s :
  sall ascii_nonspace s = true → TrimSpace (s +:+ String "010" "") = s.
Proof.
  intros Hs. unfold TrimSpace.
  assert (Hf : Forall (λ p, unicode_IsSpace p.1 = false) (byte_pieces s)).
  { induction s as [|a s IH]; simpl in *; [constructor|].
    unfold ascii_nonspace in Hs at 1. inv_ok. constructor; auto. }
  rewrite pieces_ascii.
  2:{ rewrite sall_app. apply andb_true_iff. split; [|done].
      eapply sall_impl; [|exact Hs]. intros a H. by apply andb_true_iff in H as [? _]. }
  rewrite byte_pieces_app.
  destruct (byte_pieces s) as [|p l] eqn:E.
  { destruct s; [done|discriminate E]. }
  cbn [app drop_while]. rewrite (Forall_inv Hf).
  cbn [rev]. rewrite rev_app_distr. cbn [byte_pieces rev app drop_while].
  assert (Hnl : unicode_IsSpace (byte_val "010") = true) by done.
  cbn [fst]. rewrite Hnl.
  rewrite drop_while_none.
  - change (rev l ++ [p]) with (rev (p :: l)).
    rewrite rev_involutive, <-E. apply byte_pieces_concat.
  - change (rev l ++ [p]) with (rev (p :: l)). by apply Forall_rev.
Qed.

(** ** Package [regexp], for patterns anchored at both ends

    [MatchString] of a pattern [^r$] tells whether the whole rune sequence
    belongs to the language of [r]; the matcher is by derivatives and
    [re_matches_spec] proves it against the language. *)
Inductive re : Type :=
  | RNull
  | REps
  | RClass (cls : list (Z * Z))
  | RCat (r1 r2 : re)
  | RAlt (r1 r2 : re)
  | RUpTo (r : re) (n : nat).

Definition in_class (cls : list (Z * Z)) (c : Z) : bool :=
  existsb (λ lh, in_range lh.1 lh.2 c) cls.

Fixpoint nullable (r : re) : bool :=
  match r with
  | RNull | RClass _ => false
  | REps | RUpTo _ _ => true
  | RCat r1 r2 => nullable r1 && nullable r2
  | RAlt r1 r2 => nullable r1 || nullable r2
  end.

Fixpoint deriv (c : Z) (r : re) : re :=
  match r with
  | RNull | REps => RNull
  | RClass cls => if in_class cls c then REps else RNull
  | RCat r1 r2 =>
      if nullable r1 then RAlt (RCat (deriv c r1) r2) (deriv c r2)
      else RCat (deriv c r1) r2
  | RAlt r1 r2 => RAlt (deriv c r1) (deriv c r2)
  | RUpTo r 0 => RNull
  | RUpTo r (S n) => RCat (deriv c r) (RUpTo r n)
  end.

Fixpoint re_matches (r : re) (cs : list Z) : bool :=
  match cs with
  | [] => nullable r
  | c :: cs' => re_matches (deriv c r) cs'
  end.

Definition MatchString (r : re) (s : string) : bool := re_matches r (runes s).

(** The language of an expression. *)
Inductive lang : re → list Z → Prop :=
  | lang_eps : lang REps []
  | lang_class cls c : in_class cls c = true → lang (RClass cls) [c]
  | lang_cat r1 r2 u v : lang r1 u → lang r2 v → lang (RCat r1 r2) (u ++ v)
  | lang_alt_l r1 r2 u : lang r1 u → lang (RAlt r1 r2) u
  | lang_alt_r r1 r2 u : lang r2 u → lang (RAlt r1 r2) u
  | lang_upto_nil r n : lang (RUpTo r n) []
  | lang_upto_cons r n u v :
      lang r u → lang (RUpTo r n) v → lang (RUpTo r (S n)) (u ++ v).

Lemma lang_upto_le r n m u : n ≤ m → lang (RUpTo r n) u → lang (RUpTo r m) u.
Proof.
  intros Hle H. revert m Hle. remember (RUpTo r n) as e eqn:He.
  revert n He. induction H; intros k He m Hle; simplify_eq; [constructor|].
  destruct m as [|m]; [lia|]. constructor; [done|].
  eapply IHlang2; [done|lia].
Qed.

Lemma nullable_lang r : nullable r = true ↔ lang r [].
Proof.
  split.
  - induction r; simpl; intros H; try done; try (by constructor).
    + inv_ok. rewrite <-(app_nil_r []). constructor; auto.
    + apply orb_true_iff in H as [?|?]; [apply lang_alt_l|apply lang_alt_r]; auto.
  - remember [] as u eqn:Hu. induction 1; simplify_eq/=; try done.
    + destruct u, v; simplify_eq/=. by rewrite IHlang1, IHlang2.
    + by rewrite IHlang.
    + rewrite IHlang by done. apply orb_true_r.
Qed.

Lemma deriv_lang c r u : lang (deriv c r) u ↔ lang r (c :: u).
Proof.
  split.
  - revert u. induction r as [| |cls|r1 IH1 r2 IH2|r1 IH1 r2 IH2|r IH n];
      simpl; intros u H; try (by inversion H).
    + destruct (in_class cls c) eqn:E; inversion H; subst. by constructor.
    + assert (Hcat : lang (RCat (deriv c r1) r2) u → lang (RCat r1 r2) (c :: u)).
      { inversion 1; subst. rewrite app_comm_cons. constructor; auto. }
      destruct (nullable r1) eqn:E; [|auto].
      inversion H; subst; [auto|]. apply nullable_lang in E.
      change (c :: u) with ([] ++ c :: u). constructor; auto.
    + inversion H; subst; [apply lang_alt_l|apply lang_alt_r]; auto.
    + destruct n as [|n]; [inversion H|]. inversion H; subst.
      rewrite app_comm_cons. constructor; auto.
  - remember (c :: u) as w eqn:Hw. intros H. revert u Hw.
    induction H; intros w Hw; simplify_eq/=; try done.
    + rewrite H. constructor.
    + destruct u as [|c' u]; simplify_eq/=.
      * apply nullable_lang in H. rewrite H. apply lang_alt_r. eauto.
      * destruct (nullable r1); [apply lang_alt_l|]; constructor; eauto.
    + apply lang_alt_l; eauto.
    + apply lang_alt_r; eauto.
    + destruct u as [|c' u]; simplify_eq/=; [|by constructor; eauto].
      specialize (IHlang2 w eq_refl). destruct n as [|n]; [inversion IHlang2|].
      inversion IHlang2; subst. constructor; [done|].
      by apply lang_upto_le with n; [lia|].
Qed.

Lemma re_matches_spec r cs : re_matches r cs = true ↔ lang r cs.
Proof.
  revert r. induction cs as [|c cs IH]; intros r; simpl.
  - apply nullable_lang.
  - by rewrite IH, deriv_lang.
Qed.
