(* ===== verification/GoTime.v ===== *)
(** * Package [time]

    A [time.Duration] is a signed 64-bit number of nanoseconds; its products
    are taken modulo 2^64.  A [time.Time] is an instant, an integer number of
    nanoseconds from 1 January 1970 UTC; the program compares, adds and
    subtracts instants, and prints those of certificates. *)
From S2P Require Import Prelude GoStrings.
Local Open Scope Z_scope.

Definition Time := Z.
Definition Duration := Z.

(** Two's complement wrap-around of the 64-bit signed integers. *)
Definition int64_wrap (z : Z) : Z := (z + 2 ^ 63) mod 2 ^ 64 - 2 ^ 63.

Definition Nanosecond : Duration := 1.
Definition Second : Duration := 1000000000.
Definition Minute : Duration := 60 * Second.
Definition Hour : Duration := 60 * Minute.

(** [t.Add(d)], [t.After(u)] and [t.Before(u)]. *)
Definition time_Add (t : Time) (d : Duration) : Time := t + d.
Definition time_After (t u : Time) : bool := u <? t.

(** [t.Sub(u)] saturates at the bounds of [Duration]. *)
Definition time_Sub (t u : Time) : Duration :=
  Z.min max_int (Z.max min_int (t - u)).

(** [time.Duration(n) * d], for integers already in the 64-bit range. *)
Definition dur_mul (n d : Z) : Duration := int64_wrap (n * d).

Lemma int64_wrap_id z : min_int ≤ z ≤ max_int → int64_wrap z = z.
Proof.
  unfold min_int, max_int, int64_wrap. intros. rewrite Z.mod_small; lia.
Qed.

Lemma int64_wrap_range z : min_int ≤ int64_wrap z ≤ max_int.
Proof.
  unfold min_int, max_int, int64_wrap.
  pose proof (Z.mod_pos_bound (z + 2 ^ 63) (2 ^ 64)). lia.
Qed.

Lemma time_Sub_lt t u d :
  min_int < d ≤ max_int → (time_Sub t u < d ↔ t < u + d).
Proof. unfold time_Sub, min_int, max_int. lia. Qed.

Lemma time_Sub_gt t u d :
  min_int ≤ d < max_int → (d < time_Sub t u ↔ u + d < t).
Proof. unfold time_Sub, min_int, max_int. lia. Qed.
