(* ===== verification/GoFormat.v ===== *)
(** * Text that is printed: [%q], [%0*d], durations and dates

    What the program uses of [strconv.Quote], [fmt], [time.Duration] and
    [time.Time.Format] to tell its user something. *)
From S2P Require Import Prelude GoStrings GoUtf8 GoTime.
Local Open Scope Z_scope.

(** ** [strconv.Quote], which is [%q] *)

Definition dquote : ascii := "034"%char.

Section Quote.
(** The table of [strconv.IsPrint], outside ASCII. *)
Context (print_tab : Z → bool).

Definition IsPrint (r : Z) : bool := if r <? 0x80 then in_range 0x20 0x7E r else print_tab r.

(** The lowest [n] hexadecimal digits of [z]. *)
Fixpoint hex_digits (n : nat) (z : Z) : string :=
  match n with
  | 0%nat => ""
  | S n => hex_digits n (z / 16) +:+ String (hexdigit (z mod 16)) ""
  end.

(** [appendEscapedRune]; [raw] is the rune as it stands in the string, and the
    decoder yields valid runes only. *)
Definition escaped_rune (r : Z) (raw : string) : string :=
  if (r =? byte_val dquote) || (r =? 0x5C) then String "\" raw
  else if IsPrint r then raw
  else match List.find (λ p, r =? p.1)
               [(7, "\a"); (8, "\b"); (12, "\f"); (10, "\n"); (13, "\r"); (9, "\t"); (11, "\v")] with
  | Some (_, e) => e
  | None =>
      if (r <? 0x20) || (r =? 0x7F) then "\x" +:+ hex_digits 2 r
      else if r <? 0x10000 then "\u" +:+ hex_digits 4 r
      else "\U" +:+ hex_digits 8 r
  end.

(** Every round consumes a byte. *)
Fixpoint quote_go (fuel : nat) (s : string) : string :=
  match fuel, s with
  | S fuel, String a _ =>
      let '(r, w) := decode_rune s in
      (if (w =? 1)%nat && (r =? RuneError) then "\x" +:+ hex_digits 2 (byte_val a)
       else escaped_rune r (stake w s)) +:+ quote_go fuel (sdrop w s)
  | _, _ => ""
  end.
Definition Quote (s : string) : string :=
  String dquote (quote_go (slen s) s +:+ String dquote "").

(** More fuel than bytes changes nothing. *)
Lemma quote_go_fuel f f' s : (slen s ≤ f)%nat → (slen s ≤ f')%nat → quote_go f s = quote_go f' s.
Proof.
  revert f' s. induction f as [|f IH]; intros [|f'] [|a s] Hf Hf'; cbn [slen] in *; try done; try lia.
  cbn [quote_go]. pose proof (decode_width a s) as Hw.
  destruct (decode_rune (String a s)) as [r w]. cbn [snd] in Hw. f_equal.
  apply IH; rewrite slen_sdrop; cbn [slen]; lia.
Qed.

(** Text that stands for itself. *)
Definition unescaped (a : ascii) : bool :=
  in_range 0x20 0x7E (byte_val a) && negb (bool_decide (a = dquote)) && negb (bool_decide (a = "\"%char)).

Lemma quote_go_plain f s : (slen s ≤ f)%nat → sall unescaped s = true → quote_go f s = s.
Proof.
  revert f. induction s as [|a s IH]; intros [|f] Hf Hs; cbn [slen] in Hf; try done; [lia|].
  cbn [sall] in Hs. apply andb_true_iff in Hs as [Ha Hs].
  unfold unescaped in Ha. rewrite !andb_true_iff, !negb_true_iff in Ha.
  destruct Ha as [[Ha%in_range_true H1%bool_decide_eq_false] H2%bool_decide_eq_false].
  cbn [quote_go]. rewrite decode_ascii by lia. cbn [stake sdrop].
  assert (byte_val a ≠ byte_val dquote) as H1' by (intros E; by apply H1, byte_val_inj).
  assert (byte_val a ≠ 0x5C) as H2' by (intros E; by apply H2, byte_val_inj).
  assert ((byte_val a =? RuneError) = false) as -> by (unfold RuneError; lia).
  unfold escaped_rune. rewrite (proj2 (Z.eqb_neq _ _) H1'), (proj2 (Z.eqb_neq _ _) H2').
  cbn [orb andb]. unfold IsPrint. rewrite (proj2 (Z.ltb_lt _ _)) by lia.
  rewrite (proj2 (in_range_true _ _ _)) by done. cbn [Nat.eqb andb].
  rewrite app_cons_s, app_nil_l_s, IH; [done|lia|done].
Qed.

Lemma Quote_plain s : sall unescaped s = true → Quote s = String dquote (s +:+ String dquote "").
Proof. intros Hs. unfold Quote. by rewrite quote_go_plain. Qed.
End Quote.

(** ** [fmt.Sprintf("%0*d", width, n)] for [n >= 0] *)

Fixpoint zeros (n : nat) : string :=
  match n with 0%nat => "" | S n => String "0" (zeros n) end.
Definition Sprintf_0d (width : nat) (n : Z) : string :=
  zeros (width - slen (Itoa n)) +:+ Itoa n.

Lemma zeros_facts k :
  slen (zeros k) = k ∧ sall is_digit (zeros k) = true ∧
  ∀ a s, digits_val a (zeros k +:+ s) = digits_val (a * 10 ^ Z.of_nat k) s.
Proof.
  induction k as [|k (Hl & Hd & Hv)]; cbn [zeros slen sall].
  - split_and!; [done|done|]. intros. cbn. f_equal. lia.
  - rewrite Hl, Hd. split_and!; [done|done|]. intros a s.
    rewrite app_cons_s. cbn [digits_val]. change (is_digit "0") with true. cbv iota.
    rewrite Hv. f_equal. change (byte_val "0" - 48) with 0.
    rewrite Nat2Z.inj_succ, Z.pow_succ_r by lia. lia.
Qed.

(** A number below [10^w] is written in exactly [w] digits. *)
Lemma Sprintf_0d_digits w n :
  (0 < w ≤ 20)%nat → 0 ≤ n < 10 ^ Z.of_nat w →
  slen (Sprintf_0d w n) = w ∧ sall is_digit (Sprintf_0d w n) = true ∧
  digits_val 0 (Sprintf_0d w n) = Some n.
Proof.
  intros Hw Hn. unfold Sprintf_0d. destruct (zeros_facts (w - slen (Itoa n))) as (Hl & Hd & Hv).
  rewrite sall_app, slen_app, Hl, Hd, Hv, Itoa_digits by lia.
  pose proof (Z.pow_le_mono_r 10 (Z.of_nat w) 20 ltac:(lia) ltac:(lia)).
  destruct (itoa_go_len 20 n w "") as [Hlen _]; [lia|lia|].
  rewrite Itoa_nonneg in * by lia. change (slen "") with 0%nat in Hlen.
  split_and!; [lia|done|]. rewrite Z.mul_0_l, itoa_go_val; [done|lia|].
  split; [lia|]. change (Z.of_nat 20) with 20. lia.
Qed.

(** ** [time.Duration]: [Round] and [String] *)

(** [d % m] truncates.  The sums of [lessThanHalf] are of unsigned integers and
    do not overflow, the others are checked. *)
Definition Round (d m : Duration) : Duration :=
  if m <=? 0 then d
  else
    let r := Z.rem d m in
    if d <? 0 then
      let r := - r in
      if r + r <? m then int64_wrap (d + r)
      else let d1 := int64_wrap (d - m + r) in if d1 <? d then d1 else min_int
    else
      if r + r <? m then int64_wrap (d - r)
      else let d1 := int64_wrap (d + m - r) in if d <? d1 then d1 else max_int.

(** [fmtFrac]: the last [prec] digits of [v] as a fraction without trailing
    zeros, in front of [acc], and the rest of [v]. *)
Fixpoint frac_go (prec : nat) (print : bool) (v : Z) (acc : string) : bool * Z * string :=
  match prec with
  | 0%nat => (print, v, acc)
  | S prec =>
      let d := v mod 10 in
      let print := print || negb (d =? 0) in
      frac_go prec print (v / 10) (if print then String (digit d) acc else acc)
  end.
Definition fmtFrac (v : Z) (prec : nat) (acc : string) : Z * string :=
  let '(print, v, acc) := frac_go prec false v acc in (v, if print then String "." acc else acc).

Definition Microsecond : Duration := 1000.
Definition Millisecond : Duration := 1000000.

Definition micro_s : string := String "194" (String "181" "s").

Definition Duration_String (d : Duration) : string :=
  let u := Z.abs d in
  let text :=
    if u <? Second then
      if u =? 0 then "0s"
      else
        let '(v, acc) :=
          if u <? Microsecond then fmtFrac u 0 "ns"
          else if u <? Millisecond then fmtFrac u 3 micro_s
          else fmtFrac u 6 "ms" in
        Itoa v +:+ acc
    else
      let '(v, acc) := fmtFrac u 9 "s" in
      let acc := Itoa (v mod 60) +:+ acc in
      let v := v / 60 in
      if 0 <? v then
        let acc := Itoa (v mod 60) +:+ String "m" acc in
        let v := v / 60 in
        if 0 <? v then Itoa v +:+ String "h" acc else acc
      else acc in
  if d <? 0 then String "-" text else text.

Example Duration_String_90 : Duration_String (90 * Second + 500 * Millisecond) = "1m30.5s".
Proof. reflexivity. Qed.
Example Duration_String_0 : Duration_String (2 * Hour) = "2h0m0s".
Proof. reflexivity. Qed.
Example Duration_String_small : Duration_String (-1500) = "-1.5" +:+ micro_s.
Proof. reflexivity. Qed.

(** Rounding to the second goes up from the half. *)
Lemma Round_second d :
  0 ≤ d → d + Second ≤ max_int → Round d Second = (d + Second / 2) / Second * Second.
Proof.
  intros H0 Hm. unfold Round. change (Second <=? 0) with false. cbv iota.
  rewrite (proj2 (Z.ltb_ge d 0)) by lia. rewrite Z.rem_mod_nonneg by done.
  pose proof (Z.mod_pos_bound d Second ltac:(done)) as Hr.
  pose proof (Z.div_mod d Second ltac:(done)) as Hd.
  set (r := d mod Second) in *. set (q := d / Second) in *.
  change (Second / 2) with 500000000. unfold Second, max_int in *.
  assert (Hq : (d + 500000000) / 1000000000 = if r + r <? 1000000000 then q else q + 1).
  { symmetry. destruct (Z.ltb_spec (r + r) 1000000000).
    - apply (Z.div_unique_pos _ _ _ (r + 500000000)); lia.
    - apply (Z.div_unique_pos _ _ _ (r - 500000000)); lia. }
  rewrite Hq. destruct (Z.ltb_spec (r + r) 1000000000).
  - rewrite int64_wrap_id; unfold min_int, max_int; lia.
  - rewrite int64_wrap_id by (unfold min_int, max_int; lia).
    rewrite (proj2 (Z.ltb_lt _ _)); lia.
Qed.

(** ** Dates: [t.Format(time.RFC3339)] in UTC *)

(** The civil date of a day counted from 1 January 1970, through eras of 400
    years that begin on 1 March. *)
Definition era_formula (doe : Z) : Z := (doe - doe / 1460 + doe / 36524 - doe / 146096) / 365.
Definition era_year (yoe : Z) : Z := 365 * yoe + yoe / 4 - yoe / 100.
Definition march_date (doy : Z) : Z * Z :=
  let mp := (5 * doy + 2) / 153 in
  (if mp <? 10 then mp + 3 else mp - 9, doy - (153 * mp + 2) / 5 + 1).
Definition civil_of_era (doe : Z) : Z * Z * Z :=
  let yoe := era_formula doe in
  let '(m, d) := march_date (doe - era_year yoe) in
  (if m <=? 2 then yoe + 1 else yoe, m, d).
Definition civil (day : Z) : Z * Z * Z :=
  let z := day + 719468 in
  let '(y, m, d) := civil_of_era (z mod 146097) in (y + 400 * (z / 146097), m, d).

(** For the years 0 to 9999; a certificate has no others. *)
Definition RFC3339 (t : Time) : string :=
  let s := t / Second in
  let '(y, m, d) := civil (s / 86400) in
  let sod := s mod 86400 in
  Sprintf_0d 4 y +:+ "-" +:+ Sprintf_0d 2 m +:+ "-" +:+ Sprintf_0d 2 d +:+ "T" +:+
  Sprintf_0d 2 (sod / 3600) +:+ ":" +:+ Sprintf_0d 2 (sod / 60 mod 60) +:+ ":" +:+
  Sprintf_0d 2 (sod mod 60) +:+ "Z".

Example RFC3339_2024 : RFC3339 (1709210096 * Second + 5) = "2024-02-29T12:34:56Z".
Proof. vm_compute. reflexivity. Qed.

(** *** The calendar *)

Definition leap (y : Z) : bool :=
  (y mod 4 =? 0) && (negb (y mod 100 =? 0) || (y mod 400 =? 0)).
Definition month_days (y m : Z) : Z :=
  if m =? 2 then (if leap y then 29 else 28)
  else if bool_decide (m ∈ [4; 6; 9; 11]) then 30 else 31.
Fixpoint days_before_month (y : Z) (months : nat) : Z :=
  match months with
  | 0%nat => 0
  | S n => days_before_month y n + month_days y (Z.of_nat (S n))
  end.

(** The years before [y], from 1 January of the year 0. *)
Definition days_before_year (y : Z) : Z := 365 * y + (y + 3) / 4 - (y + 99) / 100 + (y + 399) / 400.

(** The days from 1 January 1970, by the rules of the calendar. *)
Definition days_of_civil (c : Z * Z * Z) : Z :=
  let '(y, m, d) := c in
  days_before_year y - days_before_year 1970 + days_before_month y (Z.to_nat (m - 1)) + d - 1.

Definition valid_date (c : Z * Z * Z) : bool :=
  let '(y, m, d) := c in in_range 1 12 m && in_range 1 (month_days y m) d.

Lemma days_before_year_next y : days_before_year (y + 1) = days_before_year y + (if leap y then 366 else 365).
Proof.
  unfold days_before_year, leap.
  pose proof (Z.div_mod y 4 ltac:(done)). pose proof (Z.mod_pos_bound y 4 ltac:(done)).
  pose proof (Z.div_mod y 100 ltac:(done)). pose proof (Z.mod_pos_bound y 100 ltac:(done)).
  pose proof (Z.div_mod y 400 ltac:(done)). pose proof (Z.mod_pos_bound y 400 ltac:(done)).
  assert (∀ k, 0 < k → (y + 1 + (k - 1)) / k = y / k + 1) as Hup.
  { intros k Hk. replace (y + 1 + (k - 1)) with (y + 1 * k) by lia. by rewrite Z.div_add by lia. }
  assert (∀ k, 0 < k → (y + (k - 1)) / k = if y mod k =? 0 then y / k else y / k + 1) as Hdn.
  { intros k Hk. pose proof (Z.div_mod y k ltac:(lia)). pose proof (Z.mod_pos_bound y k Hk).
    symmetry. destruct (Z.eqb_spec (y mod k) 0).
    - apply (Z.div_unique_pos _ _ _ (k - 1)); lia.
    - apply (Z.div_unique_pos _ _ _ (y mod k - 1)); lia. }
  change (y + 1 + 3) with (y + 1 + (4 - 1)). change (y + 1 + 99) with (y + 1 + (100 - 1)).
  change (y + 1 + 399) with (y + 1 + (400 - 1)). change (y + 3) with (y + (4 - 1)).
  change (y + 99) with (y + (100 - 1)). change (y + 399) with (y + (400 - 1)).
  rewrite (Hup 4), (Hup 100), (Hup 400), (Hdn 4), (Hdn 100), (Hdn 400) by lia.
  assert (y mod 100 = 0 → y mod 4 = 0) as Hc.
  { intros E. rewrite (Z.div_mod y 100), E by done. rewrite Z.add_0_r.
    replace (100 * (y / 100)) with (25 * (y / 100) * 4) by lia. apply Z.mod_mul. done. }
  assert (y mod 400 = 0 → y mod 100 = 0) as Hcc.
  { intros E. rewrite (Z.div_mod y 400), E by done. rewrite Z.add_0_r.
    replace (400 * (y / 400)) with (4 * (y / 400) * 100) by lia. apply Z.mod_mul. done. }
  destruct (Z.eqb_spec (y mod 4) 0), (Z.eqb_spec (y mod 100) 0), (Z.eqb_spec (y mod 400) 0);
    cbn; try lia; tauto.
Qed.

(** *** [civil] inverts the calendar *)

Fixpoint all_from (f : Z → bool) (z : Z) (n : nat) : bool :=
  match n with 0%nat => true | S n => f z && all_from f (z + 1) n end.
Lemma all_from_spec f z n : all_from f z n = true → ∀ x, z ≤ x < z + Z.of_nat n → f x = true.
Proof.
  revert z. induction n as [|n IH]; cbn [all_from]; intros z H x Hx; [lia|].
  apply andb_true_iff in H as [H1 H2].
  destruct (decide (x = z)) as [->|]; [done|]. apply (IH (z + 1)); [done|lia].
Qed.

(** The year of a day of the era; [era_year] is the first day of a year, which
    begins in March. *)
Lemma era_year_of doe : 0 ≤ doe < 146097 →
  ∃ y, 0 ≤ y < 400 ∧ era_year y ≤ doe ∧ (doe < era_year (y + 1) ∨ y = 399).
Proof.
  intros Hd. assert (∀ n : nat, doe < era_year (Z.of_nat n) →
    ∃ y, 0 ≤ y < Z.of_nat n ∧ era_year y ≤ doe < era_year (y + 1)) as Hn.
  { induction n as [|n IH]; intros H; [change (era_year (Z.of_nat 0)) with 0 in H; lia|].
    destruct (Z.lt_ge_cases doe (era_year (Z.of_nat n))) as [Hlt|Hge].
    - destruct (IH Hlt) as (y & ? & ?). exists y. split; [lia|done].
    - exists (Z.of_nat n). rewrite Nat2Z.inj_succ in H. split; [lia|]. done. }
  destruct (Z.lt_ge_cases doe (era_year 400)) as [H|H].
  - destruct (Hn 400%nat H) as (y & ? & ? & ?). exists y. auto.
  - exists 399. split; [done|]. split; [|by right]. change (era_year 400) with 146096 in H. change (era_year 399) with 145731. lia.
Qed.

(** The formula for the year of a day does not decrease. *)
Lemma era_formula_mono a b : 0 ≤ a ≤ b → era_formula a ≤ era_formula b.
Proof.
  intros [Ha Hab]. unfold era_formula. apply Z.div_le_mono; [done|].
  revert b Hab. apply (Zlt_lower_bound_ind _ a). intros b IH Hab.
  destruct (decide (a = b)) as [->|Hne]; [done|].
  etrans; [apply (IH (b - 1)); lia|].
  pose proof (Z.div_mod b 1460 ltac:(done)). pose proof (Z.mod_pos_bound b 1460 ltac:(done)).
  pose proof (Z.div_mod b 36524 ltac:(done)). pose proof (Z.mod_pos_bound b 36524 ltac:(done)).
  pose proof (Z.div_mod b 146096 ltac:(done)). pose proof (Z.mod_pos_bound b 146096 ltac:(done)).
  pose proof (Z.div_mod (b - 1) 1460 ltac:(done)). pose proof (Z.mod_pos_bound (b - 1) 1460 ltac:(done)).
  pose proof (Z.div_mod (b - 1) 36524 ltac:(done)). pose proof (Z.mod_pos_bound (b - 1) 36524 ltac:(done)).
  pose proof (Z.div_mod (b - 1) 146096 ltac:(done)). pose proof (Z.mod_pos_bound (b - 1) 146096 ltac:(done)).
  lia.
Qed.

Lemma era_formula_year y doe : 0 ≤ y < 400 → era_year y ≤ doe →
  (doe < era_year (y + 1) ∨ y = 399) → doe < 146097 → era_formula doe = y.
Proof.
  intros Hy Hlo Hhi Hd.
  assert (era_formula (era_year y) = y ∧
          era_formula (if y =? 399 then 146096 else era_year (y + 1) - 1) = y) as [E1 E2].
  { apply (all_from_spec (λ y, (era_formula (era_year y) =? y) &&
      (era_formula (if y =? 399 then 146096 else era_year (y + 1) - 1) =? y)) 0 400) in Hy;
      [|vm_compute; reflexivity].
    apply andb_true_iff in Hy as [?%Z.eqb_eq ?%Z.eqb_eq]. done. }
  assert (0 ≤ era_year y).
  { unfold era_year. pose proof (Z.div_pos y 4). pose proof (Z.div_le_upper_bound y 100 y). lia. }
  apply Z.le_antisymm.
  - etrans; [apply era_formula_mono|apply Z.eq_le_incl, E2]. destruct (Z.eqb_spec y 399); lia.
  - etrans; [apply Z.eq_le_incl; symmetry; exact E1|]. apply era_formula_mono. lia.
Qed.

Lemma leap_era y k : leap (y + 400 * k) = leap y.
Proof.
  unfold leap.
  rewrite (Z.mul_comm 400), Z.mod_add by done.
  replace (k * 400) with (k * 4 * 100) by lia. rewrite Z.mod_add by done.
  replace (k * 4 * 100) with (k * 100 * 4) by lia. by rewrite Z.mod_add by done.
Qed.
Lemma month_days_era y k m : month_days (y + 400 * k) m = month_days y m.
Proof. unfold month_days. by rewrite leap_era. Qed.
Lemma days_before_month_era y k n : days_before_month (y + 400 * k) n = days_before_month y n.
Proof. induction n as [|n IH]; cbn; [done|]. by rewrite IH, month_days_era. Qed.
Lemma days_before_year_era y k : days_before_year (y + 400 * k) = days_before_year y + 146097 * k.
Proof.
  unfold days_before_year.
  replace (y + 400 * k + 3) with (y + 3 + 100 * k * 4) by lia.
  replace (y + 400 * k + 99) with (y + 99 + 4 * k * 100) by lia.
  replace (y + 400 * k + 399) with (y + 399 + k * 400) by lia.
  rewrite !Z.div_add by done. lia.
Qed.


(** One such year, day by day: the month and the day of the month. *)
Definition march_day_ok (doy : Z) : bool :=
  let '(m, d) := march_date doy in
  if m <=? 2 then
    in_range 1 2 m && in_range 1 (month_days (if doy =? 365 then 2000 else 2001) m) d &&
    (doy =? 306 + days_before_month 2001 (Z.to_nat (m - 1)) + d - 1)
  else
    in_range 3 12 m && in_range 1 (month_days 2001 m) d &&
    (doy =? days_before_month 2001 (Z.to_nat (m - 1)) - 59 + d - 1) && (doy <? 306).
Lemma march_ok doy : 0 ≤ doy < 366 → march_day_ok doy = true.
Proof. intros H. apply (all_from_spec _ 0 366); [vm_compute; reflexivity|lia]. Qed.

Lemma month_days_leap y m : month_days y m = month_days 2001 m + (if (m =? 2) && leap y then 1 else 0).
Proof. unfold month_days. destruct (m =? 2); cbn [andb]; [by destruct (leap y)|lia]. Qed.
Lemma days_before_month_leap y n : (n < 13)%nat →
  days_before_month y n = days_before_month 2001 n + (if (2 <=? Z.of_nat n) && leap y then 1 else 0).
Proof.
  intros Hn. do 13 (destruct n as [|n]; [cbn [days_before_month]; rewrite ?(month_days_leap y);
    cbn; destruct (leap y); reflexivity|]). lia.
Qed.

Lemma days_before_year_march y : 0 ≤ y < 400 →
  days_before_year y + (if leap y then 1 else 0) = era_year y + 1 ∧
  days_before_year (y + 1) = era_year y + 366.
Proof.
  intros Hy. pose proof (days_before_year_next y) as Hn.
  assert (days_before_year (y + 1) = era_year y + 366) as E.
  { unfold days_before_year, era_year.
    replace (y + 1 + 3) with (y + 1 * 4) by lia. replace (y + 1 + 99) with (y + 1 * 100) by lia.
    replace (y + 1 + 399) with (y + 1 * 400) by lia. rewrite !Z.div_add by done.
    rewrite (Z.div_small y 400) by lia. lia. }
  split; [|done]. destruct (leap y); lia.
Qed.

Lemma civil_of_era_ok doe : 0 ≤ doe < 146097 →
  let c := civil_of_era doe in
  valid_date c = true ∧ days_of_civil c = doe - 719468 ∧
  0 ≤ c.1.1 ≤ 400 ∧ (c.1.1 = 400 ↔ 146037 ≤ doe).
Proof.
  intros Hd. destruct (era_year_of doe Hd) as (y & Hy & Hlo & Hhi).
  pose proof (era_formula_year y doe Hy Hlo Hhi ltac:(lia)) as Ef.
  destruct (days_before_year_march y Hy) as [B1 B2]. pose proof (days_before_year_next y) as Bn.
  set (doy := doe - era_year y).
  assert (0 ≤ doy < 366 ∧ (doy = 365 → leap (y + 1) = true)) as [Hdoy Hleap].
  { assert (doe < era_year y + 365 + (if leap (y + 1) then 1 else 0)) as H; [|unfold doy; destruct (leap (y + 1)); lia].
    destruct (decide (y = 399)) as [->|Hne].
    - change (era_year 399) with 145731. change (leap (399 + 1)) with true. lia.
    - destruct Hhi as [Hhi|]; [|done]. destruct (days_before_year_march (y + 1) ltac:(lia)) as [B3 _].
      destruct (leap y), (leap (y + 1)); lia. }
  pose proof (march_ok doy Hdoy) as Hm. unfold march_day_ok in Hm. cbv zeta.
  unfold civil_of_era. rewrite Ef. fold doy. destruct (march_date doy) as [m d]. cbn [fst].
  unfold valid_date, days_of_civil. change (days_before_year 1970) with 719528.
  assert (y = 399 → era_year y = 145731) as H399 by (by intros ->).
  assert (y ≠ 399 → doe < 146037) as Hlast.
  { intros Hne. destruct Hhi as [Hhi|]; [|done]. unfold era_year in Hhi.
    pose proof (Z.div_le_upper_bound (y + 1) 4 100). pose proof (Z.div_pos (y + 1) 100). lia. }
  destruct (Z.leb_spec m 2) as [Hm2|Hm2]; rewrite !andb_true_iff, !in_range_true, Z.eqb_eq in Hm.
  - destruct Hm as [[Hmr Hdr] Hday]. rewrite days_before_month_leap, andb_true_iff, !in_range_true by lia.
    rewrite month_days_leap. rewrite month_days_leap in Hdr.
    rewrite (proj2 (Z.leb_gt 2 _)) by lia. cbn [andb].
    assert (0 ≤ days_before_month 2001 (Z.to_nat (m - 1))) by (assert (m = 1 ∨ m = 2) as [->| ->] by lia; done).
    split_and!; try (unfold doy in *; destruct (decide (y = 399)); intuition lia).
    destruct Hdr as [_ Hdr]. etrans; [exact Hdr|]. apply Z.add_le_mono_l.
    destruct (m =? 2); [|done]. cbn [andb]. destruct (Z.eqb_spec doy 365) as [E|]; [|by destruct (leap (y + 1))].
    by rewrite (Hleap E).
  - rewrite Z.ltb_lt in Hm. destruct Hm as [[[Hmr Hdr] Hday] H306].
    rewrite days_before_month_leap, andb_true_iff, !in_range_true by lia. rewrite month_days_leap.
    rewrite (proj2 (Z.leb_le 2 _)) by lia. cbn [andb].
    rewrite (proj2 (Z.eqb_neq m 2)) by lia. cbn [andb]. unfold doy in *.
    destruct (decide (y = 399)), (leap y); split_and!; intuition lia.
Qed.

(** Every day has a date of the calendar, and it is this day's. *)
Lemma civil_correct day : valid_date (civil day) = true ∧ days_of_civil (civil day) = day.
Proof.
  unfold civil. set (z := day + 719468).
  pose proof (Z.mod_pos_bound z 146097 ltac:(done)) as Hm. pose proof (Z.div_mod z 146097 ltac:(done)) as Hz.
  destruct (civil_of_era_ok _ Hm) as (Hv & Hd & _).
  destruct (civil_of_era (z mod 146097)) as [[y m] d]. unfold valid_date, days_of_civil in *.
  rewrite month_days_era, days_before_month_era, days_before_year_era. split; [done|lia].
Qed.

(** The days of the years 0 to 9999. *)
Lemma civil_year day : -719528 ≤ day < 2932897 → 0 ≤ (civil day).1.1 < 10000.
Proof.
  intros Hday. unfold civil. set (z := day + 719468).
  pose proof (Z.mod_pos_bound z 146097 ltac:(done)) as Hm. pose proof (Z.div_mod z 146097 ltac:(done)) as Hz.
  destruct (civil_of_era_ok _ Hm) as (_ & _ & Hy & Hlast).
  destruct (civil_of_era (z mod 146097)) as [[y m] d]. cbn [fst] in *. unfold z in *. lia.
Qed.

(** *** A printed date can be read back *)

(** The seconds that a date in this format stands for, by the calendar. *)
Definition rfc3339_seconds (s : string) : option Z :=
  let field i n := digits_val 0 (stake n (sdrop i s)) in
  match field 0%nat 4%nat, field 5%nat 2%nat, field 8%nat 2%nat,
        field 11%nat 2%nat, field 14%nat 2%nat, field 17%nat 2%nat with
  | Some y, Some m, Some d, Some h, Some mi, Some sec =>
      Some (days_of_civil (y, m, d) * 86400 + h * 3600 + mi * 60 + sec)
  | _, _, _, _, _, _ => None
  end.

Lemma string_of_len s n : slen s = S n → ∃ a s', s = String a s' ∧ slen s' = n.
Proof. destruct s as [|a s]; [done|]. intros [= H]. by exists a, s. Qed.

Lemma two_chars s : slen s = 2%nat → ∃ a b, s = String a (String b "").
Proof.
  intros (a & s1 & -> & (b & s2 & -> & H%slen_0)%string_of_len)%string_of_len.
  rewrite H. by exists a, b.
Qed.
Lemma four_chars s : slen s = 4%nat → ∃ a b c d, s = String a (String b (String c (String d ""))).
Proof.
  intros (a & s1 & -> & (b & s2 & -> & (c & d & ->)%two_chars)%string_of_len)%string_of_len.
  by exists a, b, c, d.
Qed.

Lemma RFC3339_reads t :
  -62167219200 ≤ t / Second < 253402300800 → rfc3339_seconds (RFC3339 t) = Some (t / Second).
Proof.
  intros Ht. unfold RFC3339. set (s := t / Second) in *.
  pose proof (Z.div_mod s 86400 ltac:(done)) as Hs. pose proof (Z.mod_pos_bound s 86400 ltac:(done)) as Hr.
  set (day := s / 86400) in *. set (sod := s mod 86400) in *.
  destruct (civil_correct day) as [Hv Hd]. pose proof (civil_year day ltac:(lia)) as Hy.
  destruct (civil day) as [[y m] d]. cbn [fst] in Hy. unfold valid_date in Hv.
  rewrite andb_true_iff, !in_range_true in Hv. destruct Hv as [Hm Hday].
  assert (month_days y m ≤ 31) by (unfold month_days; repeat case_match; lia).
  pose proof (Z.div_mod sod 60 ltac:(done)). pose proof (Z.mod_pos_bound sod 60 ltac:(done)).
  pose proof (Z.div_mod (sod / 60) 60 ltac:(done)). pose proof (Z.mod_pos_bound (sod / 60) 60 ltac:(done)).
  assert (sod / 3600 = sod / 60 / 60) as Eh by (rewrite Z.div_div by done; done).
  destruct (Sprintf_0d_digits 4 y) as (L1 & _ & V1); [lia|cbn; lia|].
  destruct (Sprintf_0d_digits 2 m) as (L2 & _ & V2); [lia|cbn; lia|].
  destruct (Sprintf_0d_digits 2 d) as (L3 & _ & V3); [lia|cbn; lia|].
  destruct (Sprintf_0d_digits 2 (sod / 3600)) as (L4 & _ & V4); [lia|cbn; lia|].
  destruct (Sprintf_0d_digits 2 (sod / 60 mod 60)) as (L5 & _ & V5); [lia|cbn; lia|].
  destruct (Sprintf_0d_digits 2 (sod mod 60)) as (L6 & _ & V6); [lia|cbn; lia|].
  apply four_chars in L1 as (a1 & a2 & a3 & a4 & E1). apply two_chars in L2 as (b1 & b2 & E2).
  apply two_chars in L3 as (c1 & c2 & E3). apply two_chars in L4 as (d1 & d2 & E4).
  apply two_chars in L5 as (e1 & e2 & E5). apply two_chars in L6 as (f1 & f2 & E6).
  rewrite E1, E2, E3, E4, E5, E6 in *. rewrite !app_cons_s, !app_nil_l_s.
  unfold rfc3339_seconds. cbn [stake sdrop]. rewrite V1, V2, V3, V4, V5, V6, Hd. f_equal. lia.
Qed.
