(* ===== verification/GoFloat.v ===== *)
(** * [float64]

    The binary64 numbers of the Standard Library's [SpecFloat], and the facts
    about rounding that the program's three floating-point expressions need:
    the fraction of a parsed duration and [Duration.Seconds]. *)
From S2P Require Import Prelude.
From Stdlib Require Export SpecFloat.
Local Open Scope Z_scope.

Definition float64 := spec_float.
Definition f64 (z : Z) : float64 := binary_normalize 53 1024 z 0 false.
Definition fadd : float64 → float64 → float64 := SFadd 53 1024.
Definition fmul : float64 → float64 → float64 := SFmul 53 1024.
Definition fdiv : float64 → float64 → float64 := SFdiv 53 1024.

(** A conversion to an integer type truncates; it is only defined for finite
    numbers. *)
Definition Ftrunc (x : float64) : option Z :=
  match x with
  | S754_zero _ => Some 0
  | S754_finite s m e =>
      let a := if 0 <=? e then Zpos m * 2 ^ e else Zpos m / 2 ^ (- e) in
      Some (if (s : bool) then - a else a)
  | _ => None
  end.

(** ** Shifting with the bits that fall out *)

Lemma digits_log2 p : Zpos (digits2_pos p) = Z.log2 (Zpos p) + 1.
Proof.
  induction p as [p IH|p IH|]; cbn [digits2_pos]; [| |done].
  - rewrite Pos2Z.inj_succ, IH, Pos2Z.inj_xI, Z.log2_succ_double; lia.
  - rewrite Pos2Z.inj_succ, IH, Pos2Z.inj_xO, Z.log2_double; lia.
Qed.

Lemma Zdigits2_spec m : 0 < m → 2 ^ (Zdigits2 m - 1) ≤ m < 2 ^ Zdigits2 m.
Proof.
  intros Hm. destruct m as [|p|p]; [lia| |lia]. cbn [Zdigits2]. rewrite digits_log2.
  replace (Z.log2 (Zpos p) + 1 - 1) with (Z.log2 (Zpos p)) by lia.
  pose proof (Z.log2_spec (Zpos p) ltac:(lia)) as [H1 H2]. rewrite <-Z.add_1_r in H2. done.
Qed.

Lemma Zdigits2_unique m d : 0 ≤ d → 2 ^ d ≤ m < 2 ^ (d + 1) → Zdigits2 m = d + 1.
Proof.
  intros Hd Hm. pose proof (Z.pow_pos_nonneg 2 d ltac:(lia) Hd).
  destruct m as [|p|p]; [lia| |lia]. cbn [Zdigits2]. rewrite digits_log2. f_equal.
  apply Z.log2_unique; [done|]. by rewrite <-Z.add_1_r.
Qed.

Lemma Zdigits2_pos m : 0 < m → 1 ≤ Zdigits2 m.
Proof. destruct m; cbn; lia. Qed.

(** The number of digits of a number between two powers of two. *)
Lemma Zdigits2_lower m a : 0 ≤ a → 2 ^ a ≤ m → a < Zdigits2 m.
Proof.
  intros Ha Hm. pose proof (Z.pow_pos_nonneg 2 a ltac:(lia) Ha).
  pose proof (Zdigits2_spec m ltac:(lia)) as [_ H2]. pose proof (Zdigits2_pos m ltac:(lia)).
  apply (Z.pow_lt_mono_r_iff 2); lia.
Qed.
Lemma Zdigits2_upper m b : 0 < m → 0 ≤ b → m < 2 ^ b → Zdigits2 m ≤ b.
Proof.
  intros H0 Hb Hm. pose proof (Zdigits2_spec m H0) as [H1 _]. pose proof (Zdigits2_pos m H0) as Hp.
  assert (2 ^ (Zdigits2 m - 1) < 2 ^ b) as H by lia. apply Z.pow_lt_mono_r_iff in H; lia.
Qed.

Lemma iter_pos_nat {A} (f : A → A) p x : iter_pos f p x = Nat.iter (Pos.to_nat p) f x.
Proof.
  revert x. induction p as [p IH|p IH|]; intros x; cbn [iter_pos]; [| |done].
  - rewrite !IH, Pos2Nat.inj_xI, <-Nat.iter_add, Nat.iter_succ_r.
    f_equal. lia.
  - rewrite !IH, Pos2Nat.inj_xO, <-Nat.iter_add. f_equal. lia.
Qed.

(** Nothing has fallen out yet. *)
Definition exact (r : shr_record) : bool := negb (shr_r r || shr_s r).

Lemma shr_1_spec r : 0 ≤ shr_m r →
  shr_m (shr_1 r) = shr_m r / 2 ∧ exact (shr_1 r) = exact r && Z.even (shr_m r).
Proof.
  destruct r as [m a b]. cbn [shr_m]. intros Hm. destruct m as [|[p|p|]|p]; [| | | |lia]; cbn.
  - by destruct a, b.
  - rewrite Pos2Z.inj_xI. split; [|by destruct a, b].
    apply (Z.div_unique_pos _ _ _ 1); lia.
  - rewrite Pos2Z.inj_xO. split; [|by destruct a, b]. by rewrite Z.mul_comm, Z.div_mul.
  - by destruct a, b.
Qed.

Lemma shr_iter n r : 0 ≤ shr_m r →
  let r' := Nat.iter n shr_1 r in
  shr_m r' = shr_m r / 2 ^ Z.of_nat n ∧ (exact r = true → shr_m r mod 2 ^ Z.of_nat n = 0 → exact r' = true).
Proof.
  intros Hm. induction n as [|n [IH1 IH2]]; [cbn; by rewrite Z.div_1_r|].
  cbn [Nat.iter nat_rect]. fold (Nat.iter n shr_1 r). set (r' := Nat.iter n shr_1 r) in *.
  assert (H2 : 0 < 2 ^ Z.of_nat n) by (apply Z.pow_pos_nonneg; lia).
  destruct (shr_1_spec r') as [E1 E2]; [rewrite IH1; by apply Z.div_pos|].
  rewrite E1, E2, IH1, Nat2Z.inj_succ, Z.pow_succ_r by lia.
  split; [rewrite (Z.mul_comm 2); by rewrite Z.div_div by lia|].
  intros Hex Hmod. apply Z.mod_divide in Hmod as [k Hk]; [|lia].
  rewrite IH2; [|done|].
  - rewrite Hk. replace (k * (2 * 2 ^ Z.of_nat n)) with (2 * k * 2 ^ Z.of_nat n) by lia.
    rewrite Z.div_mul by lia. by rewrite Z.even_mul.
  - apply Z.mod_divide; [lia|]. exists (2 * k). lia.
Qed.

Lemma round_even_spec m r :
  m ≤ round_nearest_even m (loc_of_shr_record r) ≤ m + 1 ∧
  (exact r = true → round_nearest_even m (loc_of_shr_record r) = m).
Proof. destruct r as [k [] []]; cbn; try destruct (Z.even m); split; try done; lia. Qed.

(** ** Rounding *)

Section Round.
Context (s : bool) (mx ex : Z) (lx : location) (Hmx : 0 < mx).

(** The bits of the mantissa that do not fit. *)
Definition excess : Z := Z.max 0 (Zdigits2 mx - 53).

(** The number is neither too large nor too small to be normal. *)
Definition normal : Prop := -1074 ≤ ex + Zdigits2 mx - 53 ∧ ex + excess < 971.

(** The rounded mantissa is the truncated one or the next. *)
Definition rounded (r : Z) : Prop :=
  mx / 2 ^ excess ≤ r ≤ mx / 2 ^ excess + 1 ∧
  (lx = loc_Exact → mx mod 2 ^ excess = 0 → r = mx / 2 ^ excess).

Lemma shr_fexp_spec m e l : 0 ≤ m → 0 ≤ Zdigits2 m → -1074 ≤ e + Z.max 0 (Zdigits2 m - 53) →
  let n := Z.max 0 (Zdigits2 m - 53) in
  let '(r, e') := shr_fexp 53 1024 m e l in
  e' = e + n ∧ shr_m r = m / 2 ^ n ∧ (l = loc_Exact → m mod 2 ^ n = 0 → exact r = true).
Proof.
  intros Hm Hd He n. unfold shr_fexp, fexp, emin.
  assert (E0 : shr_m (shr_record_of_loc m l) = m) by by destruct l as [|[]].
  assert (Ex : l = loc_Exact → exact (shr_record_of_loc m l) = true) by by intros ->.
  assert (Hn : Z.max (Zdigits2 m + e - 53) (3 - 1024 - 53) - e ≤ n) by (fold n in He; lia).
  destruct (decide (n = 0)) as [E|E].
  - rewrite E in *. destruct (Z.max _ _ - e) eqn:Es; [| lia |];
      cbn [shr]; rewrite Z.div_1_r; split_and!; [lia|done|tauto|lia|done|tauto].
  - assert (Es : Z.max (Zdigits2 m + e - 53) (3 - 1024 - 53) - e = n) by (fold n in He; lia).
    rewrite Es. destruct n as [|p|p] eqn:En; [done| |lia]. cbn [shr]. rewrite iter_pos_nat.
    pose proof (shr_iter (Pos.to_nat p) (shr_record_of_loc m l)) as H. cbv zeta in H.
    rewrite E0, positive_nat_Z in H. destruct (H Hm) as [H1 H2].
    split; [done|]. split; [done|]. intros Hl. apply H2. by apply Ex.
Qed.

Lemma excess_quotient : 1 ≤ mx / 2 ^ excess < 2 ^ 53.
Proof.
  pose proof (Zdigits2_pos mx Hmx). pose proof (Zdigits2_spec mx Hmx) as [Hd2 Hd3].
  assert (H2 : 0 < 2 ^ excess) by (apply Z.pow_pos_nonneg; unfold excess; lia).
  split; [apply Z.div_le_lower_bound; [done|]|apply Z.div_lt_upper_bound; [done|]].
  - rewrite Z.mul_1_r. etransitivity; [|exact Hd2].
    destruct (Z.le_gt_cases (Zdigits2 mx) 53); [|apply Z.pow_le_mono_r; unfold excess; lia].
    unfold excess. rewrite Z.max_l by lia. pose proof (Z.pow_pos_nonneg 2 (Zdigits2 mx - 1)). lia.
  - rewrite <-Z.pow_add_r by (unfold excess; lia).
    eapply Z.lt_le_trans; [exact Hd3|]. apply Z.pow_le_mono_r; unfold excess; lia.
Qed.

Lemma round_aux_spec : normal → ∃ m e r,
  binary_round_aux 53 1024 s mx ex lx = S754_finite s m e ∧ rounded r ∧ 0 < r ∧
  ((e = ex + excess ∧ Zpos m = r) ∨ (e = ex + excess + 1 ∧ r = 2 ^ 53 ∧ Zpos m = 2 ^ 52)).
Proof.
  intros [Hlo Hhi]. unfold binary_round_aux.
  pose proof (Zdigits2_pos mx Hmx) as Hd1.
  pose proof (shr_fexp_spec mx ex lx ltac:(lia) ltac:(lia) ltac:(lia)) as H1. fold excess in H1. cbv zeta in H1.
  destruct (shr_fexp 53 1024 mx ex lx) as [r1 e1]. destruct H1 as (-> & E1 & X1). rewrite E1.
  destruct (round_even_spec (mx / 2 ^ excess) r1) as [Hr Hrx].
  set (r := round_nearest_even _ _) in *.
  pose proof excess_quotient as Hq.
  assert (Hro : rounded r) by (split; [done|]; intros Hl Hz; by apply Hrx, X1).
  assert (He : -1074 ≤ ex + excess) by (unfold excess; lia).
  destruct (decide (r = 2 ^ 53)) as [E|E].
  - rewrite E. pose proof (shr_fexp_spec (2 ^ 53) (ex + excess) loc_Exact ltac:(lia) ltac:(done) ltac:(cbn; lia)) as H3.
    cbv zeta in H3. destruct (shr_fexp _ _ _ _ _) as [r2 e2]. destruct H3 as (-> & -> & _).
    change (Z.max 0 _) with 1. change (2 ^ 53 / 2 ^ 1) with (2 ^ 52). cbv iota beta.
    rewrite (proj2 (Z.leb_le _ _)) by lia.
    change (2 ^ 52) with (Zpos 4503599627370496). cbv iota beta. eexists _, _, _. split; [done|].
    rewrite <-E. split; [done|]. split; [lia|]. right. split; [lia|]. done.
  - assert (Hd : Zdigits2 r ≤ 53).
    { apply Zdigits2_upper; lia. }
    pose proof (shr_fexp_spec r (ex + excess) loc_Exact ltac:(lia)) as H3.
    pose proof (Zdigits2_pos r ltac:(lia)). cbv zeta in H3. rewrite Z.max_l in H3 by lia.
    specialize (H3 ltac:(lia) ltac:(lia)). destruct (shr_fexp _ _ _ _ _) as [r2 e2].
    destruct H3 as (-> & -> & _). rewrite Z.add_0_r, Z.div_1_r. 
    destruct r as [|p|p] eqn:Er; [lia| |lia]. rewrite (proj2 (Z.leb_le _ _)) by lia.
    eexists _, _, _. split; [done|]. split; [done|]. split; [lia|]. by left.
Qed.

(** Rounding does not pass a number that is representable. *)
Lemma rounded_le r c k :
  rounded r → 53 ≤ Zdigits2 mx → 0 < c < 2 ^ 53 → mx ≤ c * 2 ^ (k - ex) →
  (lx ≠ loc_Exact → mx < c * 2 ^ (k - ex)) →
  0 ≤ k - (ex + excess) ∧ r ≤ c * 2 ^ (k - (ex + excess)).
Proof.
  intros [Hr Hx] Hd Hc Hle Hlt. pose proof (Zdigits2_spec mx Hmx) as [Hd2 _].
  assert (En : excess = Zdigits2 mx - 53) by (unfold excess; lia).
  assert (Hk : 0 ≤ k - ex).
  { destruct (Z.le_gt_cases 0 (k - ex)) as [?|?]; [done|]. rewrite Z.pow_neg_r in Hle by lia. lia. }
  assert (Hke : 0 ≤ k - ex - excess).
  { assert (2 ^ (Zdigits2 mx - 1) < 2 ^ (53 + (k - ex))).
    { rewrite Z.pow_add_r by lia. pose proof (Z.pow_pos_nonneg 2 (k - ex)). nia. }
    apply Z.pow_lt_mono_r_iff in H; lia. }
  replace (k - (ex + excess)) with (k - ex - excess) by lia. split; [done|].
  assert (E2 : 2 ^ (k - ex) = 2 ^ (k - ex - excess) * 2 ^ excess).
  { rewrite <-Z.pow_add_r by lia. f_equal. lia. }
  assert (H2 : 0 < 2 ^ excess) by (apply Z.pow_pos_nonneg; lia).
  rewrite E2 in *. set (a := 2 ^ (k - ex - excess)) in *. set (b := 2 ^ excess) in *.
  assert (Hstrict : mx < c * (a * b) → r ≤ c * a).
  { intros H. assert (mx / b < c * a) by (apply Z.div_lt_upper_bound; [done|lia]). lia. }
  destruct (decide (mx < c * (a * b))) as [H|H]; [by apply Hstrict|].
  destruct lx as [|l]; [|by apply Hstrict, Hlt].
  assert (Em : mx = c * a * b) by lia.
  rewrite Hx; [|done|rewrite Em; apply Z.mod_mul; lia]. rewrite Em, Z.div_mul by lia. done.
Qed.
End Round.

(** The integer below a number. *)
Lemma Ftrunc_rounded m e e0 r :
  (e = e0 ∧ Zpos m = r) ∨ (e = e0 + 1 ∧ r = 2 ^ 53 ∧ Zpos m = 2 ^ 52) → e0 ≤ 0 →
  Ftrunc (S754_finite false m e) = Some (r / 2 ^ (- e0)).
Proof.
  intros H He. cbn [Ftrunc]. f_equal. destruct H as [[-> <-]|(-> & -> & Hm)].
  - destruct (Z.leb_spec 0 e0); [|done]. replace e0 with 0 by lia. cbn. by rewrite Z.mul_1_r, Z.div_1_r.
  - rewrite Hm. destruct (Z.leb_spec 0 (e0 + 1)) as [H|H].
    + assert (e0 = 0 ∨ e0 = -1) as [->| ->] by lia; done.
    + replace (- e0) with (1 + - (e0 + 1)) by lia. rewrite Z.pow_add_r by lia.
      rewrite <-Z.div_div by (try apply Z.pow_pos_nonneg; lia). done.
Qed.

(** ** Integers, products, quotients, sums *)

Lemma iter_xO p k : Zpos (Pos.iter xO p k) = Zpos p * 2 ^ Zpos k.
Proof. pose proof (Zpower.shift_pos_correct k p) as H. unfold Zpower.shift_pos in H. rewrite H. apply Z.mul_comm. Qed.

(** Integers of at most 53 bits are numbers, here with a mantissa of 53 bits. *)
Lemma f64_exact z : 0 < z < 2 ^ 53 → ∃ m e,
  f64 z = S754_finite false m e ∧ e = Zdigits2 z - 53 ∧ Zpos m = z * 2 ^ (- e) ∧
  e ≤ 0 ∧ Zdigits2 (Zpos m) = 53.
Proof.
  intros Hz. destruct z as [|p|p]; [lia| |lia].
  pose proof (Zdigits2_spec (Zpos p) ltac:(done)) as Hd. pose proof (Zdigits2_pos (Zpos p) ltac:(done)) as Hd1.
  pose proof (Zdigits2_upper (Zpos p) 53 ltac:(done) ltac:(done) ltac:(lia)) as Hd2.
  unfold f64, binary_normalize, binary_round. cbn [Zdigits2] in *. set (d := Zpos (digits2_pos p)) in *.
  assert (Ha : shl_align p 0 (fexp 53 1024 (d + 0)) =
    (Z.to_pos (Zpos p * 2 ^ (53 - d)), d - 53)).
  { unfold fexp, emin, shl_align. rewrite Z.add_0_r, Z.max_l, Z.sub_0_r by lia.
    destruct (d - 53) as [|q|q] eqn:E; [|lia|].
    - replace (53 - d) with 0 by lia. cbn [Z.pow]. rewrite Z.mul_1_r, Pos2Z.id. done.
    - replace (53 - d) with (Zpos q) by lia. f_equal. apply Pos2Z.inj.
      rewrite iter_xO, Z2Pos.id; [done|]. apply Z.mul_pos_pos; [lia|]. by apply Z.pow_pos_nonneg. }
  rewrite Ha. set (m := Zpos p * 2 ^ (53 - d)).
  assert (Hm : 0 < m) by (apply Z.mul_pos_pos; [lia|]; apply Z.pow_pos_nonneg; lia).
  assert (Hdm : Zdigits2 m = 53).
  { apply (Zdigits2_unique m 52); [lia|]. unfold m. destruct Hd as [Ha1 Ha2].
    assert (E1 : 2 ^ 52 = 2 ^ (d - 1) * 2 ^ (53 - d)) by (rewrite <-Z.pow_add_r by lia; f_equal; lia).
    assert (E2 : 2 ^ (52 + 1) = 2 ^ d * 2 ^ (53 - d)) by (rewrite <-Z.pow_add_r by lia; f_equal; lia).
    rewrite E1, E2. pose proof (Z.pow_pos_nonneg 2 (53 - d)). nia. }
  rewrite (Z2Pos.id m Hm). destruct (round_aux_spec false m (d - 53) loc_Exact Hm) as (m' & e' & r & E & [_ Hr] & _ & H).
  { unfold normal, excess. rewrite Hdm. lia. }
  unfold excess in *. rewrite Hdm in *. cbn [Z.max Z.sub] in *.
  change (2 ^ Z.max 0 (53 - 53)) with 1 in *. rewrite Z.mod_1_r, Z.div_1_r in Hr. specialize (Hr eq_refl eq_refl).
  rewrite E. change (Z.max 0 (53 - 53)) with 0 in H. rewrite !Z.add_0_r in H.
  destruct H as [[-> H]|(_ & H & _)].
  - eexists m', _. split; [done|]. split; [done|]. rewrite H, Hr. split; [by replace (- (d - 53)) with (53 - d) by lia|].
    split; [lia|]. change (Zdigits2 (Zpos m') = 53). by rewrite H, Hr.
  - rewrite Hr in H. rewrite H in Hdm. done.
Qed.

(** A product that is a small integer is exact. *)
Lemma fmul_exact a b :
  0 < a < 2 ^ 53 → 0 < b < 2 ^ 53 → a * b < 2 ^ 53 → Ftrunc (fmul (f64 a) (f64 b)) = Some (a * b).
Proof.
  intros Ha Hb Hab.
  destruct (f64_exact a Ha) as (ma & ea & -> & Ea & Ma & La & Da).
  destruct (f64_exact b Hb) as (mb & eb & -> & Eb & Mb & Lb & Db).
  unfold fmul. cbn [SFmul xorb]. set (mx := Zpos (ma * mb)).
  assert (Emx : mx = a * b * 2 ^ (- (ea + eb))).
  { unfold mx. rewrite Pos2Z.inj_mul, Ma, Mb. replace (- (ea + eb)) with (- ea + - eb) by lia.
    rewrite Z.pow_add_r by lia. lia. }
  pose proof (Zdigits2_spec (Zpos ma) ltac:(done)) as [Sa _]. pose proof (Zdigits2_spec (Zpos mb) ltac:(done)) as [Sb _].
  rewrite Da in Sa. rewrite Db in Sb.
  assert (Hbig : 2 ^ 104 ≤ mx) by (unfold mx; rewrite Pos2Z.inj_mul; change (2 ^ 104) with (2 ^ (53 - 1) * 2 ^ (53 - 1)); by apply Z.mul_le_mono_nonneg).
  pose proof (Zdigits2_lower mx 104 ltac:(done) Hbig) as Hd1.
  assert (Hd2 : Zdigits2 mx ≤ 53 - (ea + eb)).
  { apply Zdigits2_upper; [done|lia|]. rewrite Emx. replace (53 - (ea + eb)) with (53 + - (ea + eb)) by lia.
    rewrite Z.pow_add_r by lia. apply Z.mul_lt_mono_pos_r; [apply Z.pow_pos_nonneg; lia|done]. }
  pose proof (Zdigits2_pos a ltac:(lia)) as Hda. pose proof (Zdigits2_pos b ltac:(lia)) as Hdb.
  assert (En : excess mx = Zdigits2 mx - 53) by (unfold excess; lia).
  destruct (round_aux_spec false mx (ea + eb) loc_Exact ltac:(done)) as (m & e & r & -> & [_ Hr] & _ & H).
  { unfold normal. lia. }
  rewrite (Ftrunc_rounded m e (ea + eb + excess mx) r) by (done || lia). f_equal.
  assert (E : mx = a * b * 2 ^ (- (ea + eb) - excess mx) * 2 ^ excess mx).
  { rewrite <-Z.mul_assoc, <-Z.pow_add_r by lia. rewrite Emx at 1. do 2 f_equal. lia. }
  assert (0 < 2 ^ excess mx) by (apply Z.pow_pos_nonneg; lia).
  rewrite E in Hr at 1. rewrite Z.mod_mul in Hr by lia. rewrite Hr by done. rewrite E at 1. rewrite Z.div_mul by lia.
  replace (- (ea + eb + excess mx)) with (- (ea + eb) - excess mx) by lia.
  apply Z.div_mul. apply Z.pow_nonzero; lia.
Qed.

(** The fraction of a second is below one by more than [2 ^ -30]. *)
Lemma fdiv_second n : 0 < n < 1000000000 → ∃ m e,
  fdiv (f64 n) (f64 1000000000) = S754_finite false m e ∧ -100 ≤ e ≤ -53 ∧
  2 ^ 52 ≤ Zpos m ≤ (2 ^ 30 - 1) * 2 ^ (-30 - e).
Proof.
  intros Hn. destruct (f64_exact n ltac:(lia)) as (ma & ea & -> & Ea & Ma & La & Da).
  destruct (f64_exact 1000000000 ltac:(lia)) as (mb & eb & -> & Eb & Mb & Lb & Db).
  change (Zdigits2 1000000000) with 30 in Eb. 
  assert (Hda : 1 ≤ Zdigits2 n ≤ 30) by (split; [apply Zdigits2_pos|apply Zdigits2_upper]; lia).
  pose proof (Zdigits2_spec (Zpos ma) ltac:(done)) as [Sa1 Sa2]. pose proof (Zdigits2_spec (Zpos mb) ltac:(done)) as [Sb1 Sb2].
  rewrite Da in *. rewrite Db in *.
  unfold fdiv, SFdiv, SFdiv_core_binary, fexp, emin. rewrite Da, Db.
  rewrite (Z.min_l _ (ea - eb)) by lia. rewrite Z.max_l by lia.
  set (e' := 53 + ea - (53 + eb) - 53). replace (ea - eb - e') with 53 by lia.
  cbv iota. rewrite Z.shiftl_mul_pow2 by lia.
  pose proof (Z_div_mod (Zpos ma * 2 ^ 53) (Zpos mb) ltac:(done)) as Hdm.
  destruct (Z.div_eucl _ _) as [q z]. destruct Hdm as [Hq Hz]. cbn [xorb].
  assert (Hq1 : 2 ^ 52 ≤ q) by nia.
  assert (Hq2 : q < (2 ^ 30 - 1) * 2 ^ (-30 - e')).
  { assert (E1 : Zpos ma * 2 ^ 53 = n * 2 ^ 30 * 2 ^ (-30 - e' - eb)).
    { rewrite Ma, <-!Z.mul_assoc, <-!Z.pow_add_r by lia. do 2 f_equal. lia. }
    assert (E2 : 2 ^ (-30 - e') * Zpos mb = 1000000000 * 2 ^ (-30 - e' - eb)).
    { rewrite Mb, (Z.mul_comm 1000000000), Z.mul_assoc, <-Z.pow_add_r by lia.
      apply Z.mul_comm. }
    pose proof (Z.pow_pos_nonneg 2 (-30 - e' - eb) ltac:(lia) ltac:(lia)).
    assert (q * Zpos mb < (2 ^ 30 - 1) * 2 ^ (-30 - e') * Zpos mb); [|nia].
    rewrite <-Z.mul_assoc, E2. nia. }
  assert (Hd : 53 ≤ Zdigits2 q ≤ 54).
  { pose proof (Zdigits2_lower q 52 ltac:(lia) Hq1). split; [lia|]. apply Zdigits2_upper; [lia|lia|nia]. }
  assert (Hn54 : excess q = 0 ∨ excess q = 1) by (unfold excess; lia).
  destruct (round_aux_spec false q e' (new_location (Zpos mb) z) ltac:(lia)) as (m & e & r & E & Hr & _ & H).
  { unfold normal. lia. }
  pose proof (rounded_le q e' (new_location (Zpos mb) z) ltac:(lia) r (2 ^ 30 - 1) (-30) Hr
    ltac:(lia) ltac:(lia) ltac:(lia) ltac:(done)) as [Hk Hle].
  destruct Hr as [[Hr _] _].
  assert (Hr52 : 2 ^ 52 ≤ r).
  { pose proof (Zdigits2_spec q ltac:(lia)) as [Hs _]. destruct Hn54 as [X|X]; rewrite X in Hr.
    - rewrite Z.div_1_r in Hr. lia.
    - assert (Zdigits2 q = 54) as Y by (unfold excess in X; lia). rewrite Y in Hs.
      assert (2 ^ 52 ≤ q / 2 ^ 1) by (apply Z.div_le_lower_bound; lia). lia. }
  assert (Hm : 2 ^ 52 ≤ Zpos m ≤ (2 ^ 30 - 1) * 2 ^ (-30 - e)).
  { destruct H as [[-> ->]|(-> & Hr2 & ->)]; [done|].
    replace (-30 - (e' + excess q)) with (1 + (-30 - (e' + excess q + 1))) in Hle by lia.
    rewrite Z.pow_add_r in Hle by lia. lia. }
  exists m, e. split; [exact E|]. split; [|exact Hm]. split; [destruct H as [[-> _]|[-> _]]; lia|].
  assert (2 ^ 52 < 2 ^ (30 + (-30 - e))) as H5 by (rewrite Z.pow_add_r by lia; lia).
  apply Z.pow_lt_mono_r_iff in H5; lia.
Qed.

Lemma shl_align_le p e e' : e' ≤ e → Zpos (shl_align p e e').1 = Zpos p * 2 ^ (e - e').
Proof.
  intros H. unfold shl_align. destruct (e' - e) as [|k|k] eqn:E; [|lia|].
  - replace (e - e') with 0 by lia. cbn. lia.
  - cbn [fst]. rewrite iter_xO. do 2 f_equal. lia.
Qed.

(** A sum with a positive number below one, rounded, does not reach the next
    integer. *)
Lemma fadd_small sec mx ex :
  0 < sec < 2 ^ 23 → -100 ≤ ex ≤ -53 → 2 ^ 52 ≤ Zpos mx ≤ (2 ^ 30 - 1) * 2 ^ (-30 - ex) →
  Ftrunc (fadd (f64 sec) (S754_finite false mx ex)) = Some sec.
Proof.
  intros Hs He Hm. destruct (f64_exact sec ltac:(lia)) as (ms & es & -> & Ees & Ems & Hes & Ds).
  pose proof (Zdigits2_pos sec ltac:(lia)) as Hds.
  unfold fadd, SFadd. rewrite (Z.min_r es ex) by lia. cbn [cond_Zopp].
  rewrite !shl_align_le, Z.sub_diag, Z.mul_1_r by lia.
  assert (E : Zpos ms * 2 ^ (es - ex) = sec * 2 ^ (- ex)).
  { rewrite Ems, <-Z.mul_assoc, <-Z.pow_add_r by lia. do 2 f_equal. lia. }
  rewrite E. set (p2 := 2 ^ (-30 - ex)) in *.
  assert (E2 : 2 ^ (- ex) = 2 ^ 30 * p2) by (unfold p2; rewrite <-Z.pow_add_r by lia; f_equal; lia).
  set (M := sec * 2 ^ (- ex) + Zpos mx).
  assert (HM0 : 0 < M) by (unfold M; pose proof (Z.pow_nonneg 2 (- ex)); nia).
  assert (HM : M ≤ ((sec + 1) * 2 ^ 30 - 1) * p2) by (unfold M; rewrite E2; lia).
  assert (HM2 : 2 ^ 52 ≤ M) by (unfold M; pose proof (Z.pow_nonneg 2 (- ex)); nia).
  assert (Hd : 53 ≤ Zdigits2 M) by (pose proof (Zdigits2_lower M 52 ltac:(done) HM2); lia).
  assert (En : excess M = Zdigits2 M - 53) by (unfold excess; lia).
  assert (Hd2 : Zdigits2 M ≤ 23 - ex).
  { apply Zdigits2_upper; [done|lia|]. replace (23 - ex) with (53 + (-30 - ex)) by lia. rewrite Z.pow_add_r by lia. fold p2. nia. }
  assert (Eb : binary_normalize 53 1024 M ex false = binary_round_aux 53 1024 false M ex loc_Exact).
  { destruct M as [|p|p]; [lia| |lia]. unfold binary_normalize, binary_round, shl_align, fexp, emin.
    change (Zpos (digits2_pos p)) with (Zdigits2 (Zpos p)). rewrite Z.max_l by lia.
    assert (Hk : 0 ≤ Zdigits2 (Zpos p) + ex - 53 - ex) by lia.
    destruct (Zdigits2 (Zpos p) + ex - 53 - ex); [done|done|lia]. }
  rewrite Eb. destruct (round_aux_spec false M ex loc_Exact HM0) as (m & e & r & -> & Hr & _ & H).
  { unfold normal. lia. }
  destruct (rounded_le M ex loc_Exact HM0 r ((sec + 1) * 2 ^ 30 - 1) (-30) Hr Hd ltac:(lia) HM ltac:(done)) as [Hk Hle].
  rewrite (Ftrunc_rounded m e (ex + excess M) r H) by lia. f_equal.
  destruct Hr as [[Hr _] _]. set (e0 := ex + excess M) in *. set (p0 := 2 ^ (-30 - e0)) in *.
  assert (E0 : 2 ^ (- e0) = 2 ^ 30 * p0) by (unfold p0; rewrite <-Z.pow_add_r by lia; f_equal; lia).
  assert (Hp0 : 0 < p0) by (apply Z.pow_pos_nonneg; lia).
  assert (sec * 2 ^ (- e0) ≤ r).
  { etransitivity; [|exact Hr]. apply Z.div_le_lower_bound; [apply Z.pow_pos_nonneg; lia|].
    replace (2 ^ excess M * (sec * 2 ^ (- e0))) with (sec * (2 ^ excess M * 2 ^ (- e0))) by lia.
    rewrite <-Z.pow_add_r by lia. replace (excess M + - e0) with (- ex) by lia. unfold M. lia. }
  symmetry. apply (Z.div_unique_pos _ _ _ (r - sec * 2 ^ (- e0))); [|lia]. rewrite E0 in *. lia.
Qed.

Lemma fadd_fraction sec n :
  0 ≤ sec < 2 ^ 23 → 0 ≤ n < 1000000000 →
  Ftrunc (fadd (f64 sec) (fdiv (f64 n) (f64 1000000000))) = Some sec.
Proof.
  intros Hs Hn. destruct (decide (n = 0)) as [->|Hn0].
  { change (fdiv (f64 0) (f64 1000000000)) with (S754_zero false).
    destruct (decide (sec = 0)) as [->|H0]; [done|].
    destruct (f64_exact sec ltac:(lia)) as (m & e & -> & Ee & Em & He & _). unfold fadd. cbn [SFadd].
    rewrite (Ftrunc_rounded m e e (Zpos m)) by (lia || by left).
    rewrite Em, Z.div_mul; [done|]. apply Z.pow_nonzero; lia. }
  destruct (fdiv_second n ltac:(lia)) as (mx & ex & -> & He & Hm).
  destruct (decide (sec = 0)) as [->|Hs0]; [|apply fadd_small; lia].
  unfold fadd. cbn [SFadd f64 binary_normalize]. rewrite (Ftrunc_rounded mx ex ex (Zpos mx)) by (lia || by left).
  rewrite Z.div_small; [done|]. replace (- ex) with (30 + (-30 - ex)) by lia. rewrite Z.pow_add_r by lia.
  pose proof (Z.pow_pos_nonneg 2 (-30 - ex)). lia.
Qed.
