(* ===== verification/GoDuration.v ===== *)
(** * [time.ParseDuration] and [Duration.Seconds]

    The two operations of [time.Duration] that go through [float64], and the
    conversion of its seconds to [uint32]. *)
From S2P Require Import Prelude GoStrings GoTime GoFormat GoFloat.
Local Open Scope Z_scope.

(** ** [ParseDuration] *)

(** [leadingInt]: the digits in front, unless their number exceeds [1<<63]. *)
Fixpoint leadingInt (x : Z) (s : string) : option (Z * string) :=
  match s with
  | "" => Some (x, "")
  | String c s' =>
      if negb (is_digit c) then Some (x, s)
      else if 2 ^ 63 / 10 <? x then None
      else
        let x := x * 10 + (byte_val c - 48) in
        if 2 ^ 63 <? x then None else leadingInt x s'
  end.

(** [leadingFraction]: the digits in front as [x / scale]; those that would
    overflow are skipped. *)
Fixpoint leadingFraction (x : Z) (scale : float64) (overflow : bool) (s : string)
  : Z * float64 * string :=
  match s with
  | "" => (x, scale, "")
  | String c s' =>
      if negb (is_digit c) then (x, scale, s)
      else if overflow then leadingFraction x scale overflow s'
      else if (2 ^ 63 - 1) / 10 <? x then leadingFraction x scale true s'
      else
        let y := x * 10 + (byte_val c - 48) in
        if 2 ^ 63 <? y then leadingFraction x scale true s'
        else leadingFraction y (fmul scale (f64 10)) overflow s'
  end.

(** The bytes of a unit, up to a period or a digit. *)
Definition is_number_byte (c : ascii) : bool := bool_decide (c = "."%char) || is_digit c.
Fixpoint take_unit (s : string) : string * string :=
  match s with
  | "" => ("", "")
  | String c s' =>
      if is_number_byte c then ("", s) else let '(u, r) := take_unit s' in (String c u, r)
  end.

(** The micro sign and the Greek letter mu are both microseconds. *)
Definition mu_s : string := String "206" (String "188" "s").
Definition unitMap (u : string) : option Z :=
  if bool_decide (u = "ns") then Some Nanosecond
  else if bool_decide (u = "us") then Some Microsecond
  else if bool_decide (u = micro_s) then Some Microsecond
  else if bool_decide (u = mu_s) then Some Microsecond
  else if bool_decide (u = "ms") then Some Millisecond
  else if bool_decide (u = "s") then Some Second
  else if bool_decide (u = "m") then Some Minute
  else if bool_decide (u = "h") then Some Hour
  else None.

(** [uint64(float64(f) * (float64(unit) / scale))], for a product that is a
    finite number. *)
Definition fraction_of (f unit : Z) (scale : float64) : option Z :=
  Ftrunc (fmul (f64 f) (fdiv (f64 unit) scale)).

(** One number with its unit, in nanoseconds, and what follows.  The sums are
    of [uint64]. *)
Definition parse_item (s : string) : option (Z * string) :=
  match s with
  | "" => None
  | String c _ =>
      if negb (is_number_byte c) then None
      else
        match leadingInt 0 s with
        | None => None
        | Some (v, s1) =>
            let pre := negb (slen s =? slen s1)%nat in
            let '(f, scale, s2, post) :=
              match s1 with
              | String c1 s1' =>
                  if bool_decide (c1 = "."%char) then
                    let '(f, scale, s2) := leadingFraction 0 (f64 1) false s1' in
                    (f, scale, s2, negb (slen s1' =? slen s2)%nat)
                  else (0, f64 1, s1, false)
              | "" => (0, f64 1, "", false)
              end in
            if negb pre && negb post then None
            else
              let '(u, s3) := take_unit s2 in
              if bool_decide (u = "") then None
              else match unitMap u with
              | None => None
              | Some unit =>
                  if 2 ^ 63 / unit <? v then None
                  else if 0 <? f then
                    match fraction_of f unit scale with
                    | None => None
                    | Some g =>
                        let v := (v * unit + g) mod 2 ^ 64 in
                        if 2 ^ 63 <? v then None else Some (v, s3)
                    end
                  else Some (v * unit, s3)
              end
        end
  end.

Fixpoint parse_items (fuel : nat) (d : Z) (s : string) : option Z :=
  match fuel, s with
  | _, "" => Some d
  | 0%nat, _ => None
  | S fuel, _ =>
      match parse_item s with
      | None => None
      | Some (v, s') =>
          let d := (d + v) mod 2 ^ 64 in
          if 2 ^ 63 <? d then None else parse_items fuel d s'
      end
  end.

Definition ParseDuration (s : string) : option Duration :=
  let '(neg, s) :=
    match s with
    | String c s' =>
        if bool_decide (c = "-"%char) then (true, s')
        else if bool_decide (c = "+"%char) then (false, s') else (false, s)
    | "" => (false, "")
    end in
  if bool_decide (s = "0") then Some 0
  else if bool_decide (s = "") then None
  else
    match parse_items (slen s) 0 s with
    | None => None
    | Some d =>
        if (neg : bool) then Some (int64_wrap (- int64_wrap d))
        else if 2 ^ 63 - 1 <? d then None else Some d
    end.

Example ParseDuration_60s : ParseDuration "60s" = Some (60 * Second). Proof. vm_compute. reflexivity. Qed.
Example ParseDuration_parts : ParseDuration "+1h2m3.25s" = Some 3723250000000.
Proof. vm_compute. reflexivity. Qed.
Example ParseDuration_frac : ParseDuration ".5h" = Some (30 * Minute). Proof. vm_compute. reflexivity. Qed.
Example ParseDuration_zero : ParseDuration "0" = Some 0. Proof. reflexivity. Qed.
Example ParseDuration_no_unit : ParseDuration "90" = None. Proof. vm_compute. reflexivity. Qed.
Example ParseDuration_big : ParseDuration "9223372036854775808ns" = None. Proof. vm_compute. reflexivity. Qed.
Example ParseDuration_min : ParseDuration "-9223372036854775808ns" = Some min_int.
Proof. vm_compute. reflexivity. Qed.

(** ** [Seconds] *)

Definition Seconds (d : Duration) : float64 :=
  fadd (f64 (Z.quot d Second)) (fdiv (f64 (Z.rem d Second)) (f64 1000000000)).

(** [uint32(f)] of a number outside the type is left to the machine. *)
Definition uint32_of (other : float64 → Z) (x : float64) : Z :=
  match Ftrunc x with
  | Some z => if in_range 0 (2 ^ 32 - 1) z then z else other x
  | None => other x
  end.

Lemma Seconds_whole other d :
  0 ≤ d < 2 ^ 23 * Second → uint32_of other (Seconds d) = d / Second.
Proof.
  intros Hd. unfold Seconds, uint32_of. rewrite Z.quot_div_nonneg, Z.rem_mod_nonneg by (unfold Second in *; lia).
  pose proof (Z.mod_pos_bound d Second ltac:(done)) as Hm.
  assert (0 ≤ d / Second < 2 ^ 23).
  { split; [apply Z.div_pos; unfold Second in *; lia|]. apply Z.div_lt_upper_bound; unfold Second in *; lia. }
  rewrite fadd_fraction by (unfold Second in *; lia).
  by rewrite (proj2 (in_range_true _ _ _)) by lia.
Qed.

(** ** Reading back what [String] prints *)

Lemma digits_val_app a s t :
  digits_val a (s +:+ t) = match digits_val a s with Some b => digits_val b t | None => None end.
Proof.
  revert a. induction s as [|c s IH]; intros a; [done|]. rewrite app_cons_s. cbn [digits_val].
  destruct (is_digit c); [apply IH|done].
Qed.

Lemma digits_val_mono a s b : 0 ≤ a → digits_val a s = Some b → a ≤ b.
Proof.
  revert a. induction s as [|c s IH]; intros a Ha; cbn [digits_val]; [intros [= ->]; lia|].
  destruct (is_digit c) eqn:Hc; [|done]. apply in_range_true in Hc.
  intros H. apply IH in H; lia.
Qed.

Definition no_digit (s : string) : bool :=
  match s with String c _ => negb (is_digit c) | "" => true end.

Lemma leadingInt_digits s x y rest :
  0 ≤ x → digits_val x s = Some y → y ≤ 2 ^ 63 → no_digit rest = true →
  leadingInt x (s +:+ rest) = Some (y, rest).
Proof.
  revert x. induction s as [|c s IH]; intros x Hx Hv Hy Hr.
  - cbn in Hv. injection Hv as <-. rewrite app_nil_l_s. destruct rest as [|c rest]; [done|].
    cbn in *. by rewrite Hr.
  - rewrite app_cons_s. cbn [leadingInt digits_val] in *. destruct (is_digit c) eqn:Hc; [|done].
    cbn [negb]. apply in_range_true in Hc.
    pose proof (digits_val_mono (x * 10 + (byte_val c - 48)) s y ltac:(lia) Hv).
    rewrite (proj2 (Z.ltb_ge _ _)) by (apply Z.div_le_lower_bound; lia).
    rewrite (proj2 (Z.ltb_ge _ _)) by lia. apply IH; [lia|done..].
Qed.

(** The scale behind [k] digits. *)
Definition scale_of (k : nat) : float64 := Nat.iter k (λ x, fmul x (f64 10)) (f64 1).

Lemma leadingFraction_digits s x y k rest :
  0 ≤ x → digits_val x s = Some y → y < 2 ^ 63 → no_digit rest = true →
  leadingFraction x (scale_of k) false (s +:+ rest) = (y, scale_of (slen s + k), rest).
Proof.
  revert x k. induction s as [|c s IH]; intros x k Hx Hv Hy Hr.
  - cbn in Hv. injection Hv as <-. rewrite app_nil_l_s. destruct rest as [|c rest]; [done|].
    cbn in *. by rewrite Hr.
  - rewrite app_cons_s. cbn [leadingFraction digits_val] in *. destruct (is_digit c) eqn:Hc; [|done].
    cbn [negb]. apply in_range_true in Hc.
    pose proof (digits_val_mono (x * 10 + (byte_val c - 48)) s y ltac:(lia) Hv).
    rewrite (proj2 (Z.ltb_ge _ _)) by (apply Z.div_le_lower_bound; lia).
    rewrite (proj2 (Z.ltb_ge _ _)) by lia.
    change (fmul (scale_of k) (f64 10)) with (scale_of (S k)). rewrite IH by (lia || done).
    cbn [slen]. by replace (S (slen s) + k)%nat with (slen s + S k)%nat by lia.
Qed.

(** The quotients of a unit by a power of ten that divides it are exact. *)
Definition quotient_ok (w k : nat) : bool :=
  match fdiv (f64 (10 ^ Z.of_nat w)) (scale_of k), f64 (10 ^ (Z.of_nat w - Z.of_nat k)) with
  | S754_finite false m e, S754_finite false m' e' => (Pos.eqb m m') && (e =? e')
  | _, _ => false
  end.
Lemma quotient_exact w k : (w ≤ 9)%nat → (k ≤ w)%nat →
  fdiv (f64 (10 ^ Z.of_nat w)) (scale_of k) = f64 (10 ^ (Z.of_nat w - Z.of_nat k)).
Proof.
  intros Hw Hk.
  assert (H : forallb (λ w, forallb (quotient_ok w) (seq 0 (S w))) (seq 0 10) = true) by (vm_compute; reflexivity).
  rewrite forallb_forall in H. specialize (H w). rewrite List.in_seq in H. specialize (H ltac:(lia)).
  rewrite forallb_forall in H. specialize (H k). rewrite List.in_seq in H. specialize (H ltac:(lia)).
  unfold quotient_ok in H. destruct (fdiv _ _) as [| | |[] m e]; try done. destruct (f64 _) as [| | |[] m' e']; try done.
  apply andb_true_iff in H as [->%Pos.eqb_eq ->%Z.eqb_eq]. done.
Qed.

Lemma fraction_exact w k f : (w ≤ 9)%nat → (k ≤ w)%nat → 0 < f < 10 ^ Z.of_nat k →
  fraction_of f (10 ^ Z.of_nat w) (scale_of k) = Some (f * 10 ^ (Z.of_nat w - Z.of_nat k)).
Proof.
  intros Hw Hk Hf. unfold fraction_of. rewrite quotient_exact by done.
  pose proof (Z.pow_pos_nonneg 10 (Z.of_nat w - Z.of_nat k) ltac:(lia) ltac:(lia)) as Hp.
  assert (E : 10 ^ Z.of_nat w = 10 ^ Z.of_nat k * 10 ^ (Z.of_nat w - Z.of_nat k))
    by (rewrite <-Z.pow_add_r by lia; f_equal; lia).
  pose proof (Z.pow_le_mono_r 10 (Z.of_nat w) 9 ltac:(lia) ltac:(lia)).
  apply fmul_exact; nia.
Qed.

(** *** [fmtFrac] *)

Lemma mod_pow10_succ v n : 0 ≤ v →
  v mod 10 ^ Z.of_nat (S n) = (v / 10) mod 10 ^ Z.of_nat n * 10 + v mod 10.
Proof.
  intros Hv. rewrite Nat2Z.inj_succ, Z.pow_succ_r by lia.
  pose proof (Z.pow_pos_nonneg 10 (Z.of_nat n) ltac:(lia) ltac:(lia)).
  rewrite Z.rem_mul_r by lia. lia.
Qed.

Lemma div_pow10_succ v n : v / 10 / 10 ^ Z.of_nat n = v / 10 ^ Z.of_nat (S n).
Proof.
  pose proof (Z.pow_pos_nonneg 10 (Z.of_nat n) ltac:(lia) ltac:(lia)).
  rewrite Nat2Z.inj_succ, Z.pow_succ_r, Z.div_div by lia. done.
Qed.

(** The text of a number in [n] digits. *)
Definition numeral (n : nat) (x : Z) (s : string) : Prop :=
  slen s = n ∧ ∀ a, digits_val a s = Some (a * 10 ^ Z.of_nat n + x).

Lemma numeral_snoc n x d s acc : 0 ≤ d < 10 → numeral n x s →
  numeral (S n) (x * 10 + d) (s +:+ String (digit d) "") ∧
  (s +:+ String (digit d) "") +:+ acc = s +:+ String (digit d) acc.
Proof.
  intros Hd [Hl Hv]. split; [|by rewrite app_assoc_s, app_cons_s, app_nil_l_s].
  split; [rewrite slen_app, Hl; cbn; lia|]. intros a. rewrite digits_val_app, Hv. cbn [digits_val].
  rewrite digit_is_digit, digit_val by lia. rewrite Nat2Z.inj_succ, Z.pow_succ_r by lia. f_equal. lia.
Qed.

Lemma frac_go_true n v acc : 0 ≤ v → ∃ s,
  frac_go n true v acc = (true, v / 10 ^ Z.of_nat n, s +:+ acc) ∧ numeral n (v mod 10 ^ Z.of_nat n) s.
Proof.
  revert v acc. induction n as [|n IH]; intros v acc Hv.
  - exists "". change (10 ^ Z.of_nat 0) with 1. rewrite Z.div_1_r, Z.mod_1_r. split; [done|]. split; [done|].
    intros a. cbn. f_equal. lia.
  - cbn [frac_go orb]. cbv zeta. destruct (IH (v / 10) (String (digit (v mod 10)) acc)) as (s & -> & Hs).
    { apply Z.div_pos; lia. }
    pose proof (Z.mod_pos_bound v 10 ltac:(lia)) as Hd.
    destruct (numeral_snoc _ _ _ _ acc Hd Hs) as [Hn <-].
    rewrite div_pow10_succ, mod_pow10_succ by done. by eexists.
Qed.

(** What [fmtFrac] writes for the fraction [r] of [10 ^ n]. *)
Definition fraction_text (n : nat) (r : Z) (s : string) : Prop :=
  (r = 0 ∧ s = "") ∨
  ∃ k x t, s = String "." t ∧ (1 ≤ k ≤ n)%nat ∧ numeral k x t ∧ 0 < x < 10 ^ Z.of_nat k ∧
    r = x * 10 ^ (Z.of_nat n - Z.of_nat k).

Lemma frac_go_false n v acc : 0 ≤ v → ∃ p s,
  frac_go n false v acc = (p, v / 10 ^ Z.of_nat n, s +:+ acc) ∧
  fraction_text n (v mod 10 ^ Z.of_nat n) (if p then String "." s else "") ∧ (p = false → s = "").
Proof.
  revert v acc. induction n as [|n IH]; intros v acc Hv.
  - exists false, "". cbn. rewrite Z.div_1_r, Z.mod_1_r. split; [done|]. split; [by left|done].
  - pose proof (Z.mod_pos_bound v 10 ltac:(lia)) as Hd.
    assert (Hv10 : 0 ≤ v / 10) by (apply Z.div_pos; lia).
    cbn [frac_go orb]. cbv zeta. rewrite mod_pow10_succ by done. destruct (Z.eqb_spec (v mod 10) 0) as [E|E]; cbn [negb].
    + destruct (IH (v / 10) acc Hv10) as (p & s & -> & Hf & Hp). exists p, s. rewrite div_pow10_succ.
      split; [done|]. split; [|done]. rewrite E, Z.add_0_r.
      destruct Hf as [[-> ->]|(k & x & t & -> & Hk & Hn & Hx & ->)]; [by left|]. right.
      exists k, x, t. split_and!; [done|lia|lia|done|lia|lia|].
      rewrite <-Z.mul_assoc. f_equal. replace (Z.of_nat (S n) - Z.of_nat k) with (Z.succ (Z.of_nat n - Z.of_nat k)) by lia.
      rewrite Z.pow_succ_r by lia. lia.
    + destruct (frac_go_true n (v / 10) (String (digit (v mod 10)) acc) Hv10) as (s & -> & Hs).
      destruct (numeral_snoc _ _ _ _ acc Hd Hs) as [Hn <-]. exists true. eexists. rewrite div_pow10_succ.
      split; [done|]. split; [|done]. right. eexists (S n), _, _. split; [done|]. split; [lia|]. split; [exact Hn|].
      rewrite Z.sub_diag, Z.pow_0_r, Z.mul_1_r. split; [|done].
      pose proof (Z.mod_pos_bound (v / 10) (10 ^ Z.of_nat n) ltac:(apply Z.pow_pos_nonneg; lia)) as Hm.
      pose proof (Z.mod_pos_bound v 10 ltac:(lia)). rewrite Nat2Z.inj_succ, Z.pow_succ_r by lia. lia.
Qed.

Lemma fmtFrac_spec v n acc : 0 ≤ v → ∃ fr,
  fmtFrac v n acc = (v / 10 ^ Z.of_nat n, fr +:+ acc) ∧ fraction_text n (v mod 10 ^ Z.of_nat n) fr.
Proof.
  intros Hv. unfold fmtFrac. destruct (frac_go_false n v acc Hv) as (p & s & -> & Hf & Hp).
  destruct p; [by exists (String "." s)|]. exists "". by rewrite Hp.
Qed.

(** *** Items *)

Lemma Itoa_val v : 0 ≤ v ≤ max_int → digits_val 0 (Itoa v) = Some v.
Proof. unfold max_int. intros. rewrite Itoa_nonneg, itoa_go_val by lia. done. Qed.

(** The end, or the beginning of the next number. *)
Definition at_number (s : string) : bool :=
  match s with String c _ => is_number_byte c | "" => true end.
Definition is_unit (u : string) : bool := sall (λ c, negb (is_number_byte c)) u && negb (bool_decide (u = "")).

Lemma take_unit_app u rest : is_unit u = true → at_number rest = true → take_unit (u +:+ rest) = (u, rest).
Proof.
  unfold is_unit. intros [Hu _]%andb_true_iff Hr. revert Hu. induction u as [|c u IH]; cbn [sall].
  - intros _. rewrite app_nil_l_s. destruct rest as [|c rest]; [done|]. cbn in *. by rewrite Hr.
  - intros [Hc Hu]%andb_true_iff. rewrite app_cons_s. cbn [take_unit].
    apply negb_true_iff in Hc. rewrite Hc, IH by done. done.
Qed.

Lemma is_unit_head u : is_unit u = true → ∃ c u', u = String c u' ∧ is_number_byte c = false.
Proof.
  unfold is_unit. destruct u as [|c u]; [done|]. cbn [sall].
  intros [[Hc _]%andb_true_iff _]%andb_true_iff. apply negb_true_iff in Hc. by exists c, u.
Qed.

Lemma unit_no_digit u rest : is_unit u = true → no_digit (u +:+ rest) = true.
Proof.
  intros (c & u' & -> & Hc)%is_unit_head. unfold is_number_byte in Hc. apply orb_false_iff in Hc as [_ Hc].
  rewrite app_cons_s. cbn. by rewrite Hc.
Qed.

Lemma slen_neq s t : s ≠ "" → (slen (s +:+ t) =? slen t)%nat = false.
Proof.
  intros Hs. rewrite slen_app. apply Nat.eqb_neq. destruct s; [done|]. cbn. lia.
Qed.

(** A number with a fraction and a unit is read as such. *)
Lemma parse_item_text v w r fr u unit rest :
  0 ≤ v ≤ max_int → fraction_text w r fr → (w ≤ 9)%nat → (fr = "" ∨ unit = 10 ^ Z.of_nat w) →
  unitMap u = Some unit → is_unit u = true → at_number rest = true → 0 < unit →
  v * unit + r ≤ 2 ^ 63 → 0 ≤ r →
  parse_item (Itoa v +:+ (fr +:+ (u +:+ rest))) = Some (v * unit + r, rest).
Proof.
  intros Hv Hfr Hw Hu1 Hum Hu Hrest Hpos Hle Hr0.
  pose proof (Itoa_digits v ltac:(lia)) as Hd. pose proof (Itoa_nonempty v Hv) as Hne.
  pose proof (Itoa_val v Hv) as Hval. destruct (Itoa v) as [|c s] eqn:Es; [done|].
  assert (Hc : is_number_byte c = true).
  { cbn [sall] in Hd. apply andb_true_iff in Hd as [Hd _]. unfold is_number_byte. rewrite Hd. apply orb_true_r. }
  assert (Hv63 : v ≤ 2 ^ 63) by (unfold max_int in Hv; lia).
  assert (Hvu : (2 ^ 63 / unit <? v) = false) by (apply Z.ltb_ge, Z.div_le_lower_bound; lia).
  assert (Hnil : bool_decide (u = "") = false).
  { apply bool_decide_false. intros ->. done. }
  unfold parse_item. rewrite app_cons_s, <-(app_cons_s c s), Hc. cbn [negb].
  pose proof (is_unit_head u Hu) as (cu & u' & Eu & Hcu).
  destruct Hfr as [[-> ->]|(k & x & t & -> & Hk & [Hlt Hnt] & Hx & ->)].
  - rewrite app_nil_l_s. rewrite (leadingInt_digits _ _ v) by (done || lia || by apply unit_no_digit).
    rewrite slen_neq by done. cbn [negb andb].
    assert (E : u +:+ rest = String cu (u' +:+ rest)) by by rewrite Eu, app_cons_s.
    rewrite E. unfold is_number_byte in Hcu. apply orb_false_iff in Hcu as [-> _].
    rewrite <-E, take_unit_app, Hnil, Hum, Hvu by done. change (0 <? 0) with false. cbv iota.
    do 2 f_equal. lia.
  - destruct Hu1 as [Hu1| ->]; [done|].
    rewrite (app_cons_s "."%char t). rewrite (leadingInt_digits _ _ v) by (done || lia).
    rewrite slen_neq by done. cbn [negb andb]. rewrite bool_decide_true by done.
    assert (E10 : 10 ^ Z.of_nat k ≤ 10 ^ 9) by (apply Z.pow_le_mono_r; lia).
    change (f64 1) with (scale_of 0).
    rewrite (leadingFraction_digits t 0 x 0 (u +:+ rest)); [|lia|by rewrite Hnt|lia|by apply unit_no_digit].
    rewrite take_unit_app, Hnil, Hum, Hvu by done. rewrite (proj2 (Z.ltb_lt 0 x)) by lia.
    rewrite Hlt, Nat.add_0_r, fraction_exact by lia.
    rewrite Z.mod_small by lia. by rewrite (proj2 (Z.ltb_ge _ _)) by lia.
Qed.

(** A text that reads as [n] nanoseconds. *)
Definition reads (s : string) (n : Z) : Prop :=
  at_number s = true ∧ 0 ≤ n ∧
  ∀ f d, (slen s ≤ f)%nat → 0 ≤ d → d + n ≤ 2 ^ 63 → parse_items f d s = Some (d + n).

Lemma reads_nil : reads "" 0.
Proof. split; [done|]. split; [done|]. intros f d _ _ _. destruct f; cbn; f_equal; lia. Qed.

Lemma reads_item v w r fr u unit rest n :
  0 ≤ v ≤ max_int → fraction_text w r fr → (w ≤ 9)%nat → (fr = "" ∨ unit = 10 ^ Z.of_nat w) →
  unitMap u = Some unit → is_unit u = true → 0 < unit → 0 ≤ r →
  reads rest n → reads (Itoa v +:+ (fr +:+ (u +:+ rest))) (v * unit + r + n).
Proof.
  intros Hv Hfr Hw Hf Hum Hu Hpos Hr (Hat & Hn & Hrest).
  pose proof (Itoa_nonempty v Hv) as Hne. pose proof (Itoa_digits v ltac:(lia)) as Hd.
  assert (Hlen : (slen rest < slen (Itoa v +:+ (fr +:+ (u +:+ rest))))%nat).
  { rewrite !slen_app. destruct (Itoa v); [done|]. cbn. lia. }
  split; [|split; [nia|]].
  - destruct (Itoa v) as [|c s]; [done|]. rewrite app_cons_s. cbn [sall at_number] in *.
    apply andb_true_iff in Hd as [Hd _]. unfold is_number_byte. rewrite Hd. apply orb_true_r.
  - intros f d Hlf Hd0 Hle. assert (0 ≤ v * unit) by nia.
    pose proof (parse_item_text v w r fr u unit rest Hv Hfr Hw Hf Hum Hu Hat Hpos ltac:(lia) Hr) as Hp.
    revert Hlf Hlen Hp. generalize (Itoa v +:+ (fr +:+ (u +:+ rest))). intros s Hlf Hlen Hp.
    destruct f as [|f]; [lia|]. destruct s as [|c s]; [done|]. cbn [parse_items]. rewrite Hp.
    cbv zeta. rewrite Z.mod_small by lia. rewrite (proj2 (Z.ltb_ge _ _)) by lia.
    rewrite Hrest by lia. f_equal. lia.
Qed.

(** The same without a fraction. *)
Lemma reads_whole v u unit rest n :
  0 ≤ v ≤ max_int → unitMap u = Some unit → is_unit u = true → 0 < unit →
  reads rest n → reads (Itoa v +:+ (u +:+ rest)) (v * unit + n).
Proof.
  intros Hv Hum Hu Hpos Hrest. replace (v * unit + n) with (v * unit + 0 + n) by lia.
  rewrite <-(app_nil_l_s (u +:+ rest)). apply (reads_item _ 0); try done; [by left|lia|by left].
Qed.

(** A number that [fmtFrac] has split. *)
Lemma reads_frac u w name unit :
  0 ≤ u ≤ 2 ^ 63 → (w ≤ 9)%nat → 10 ^ Z.of_nat w = unit → unitMap name = Some unit → is_unit name = true →
  ∃ fr, fmtFrac u w name = (u / unit, fr +:+ name) ∧
    ∀ v, 0 ≤ v ≤ max_int → reads (Itoa v +:+ (fr +:+ name)) (v * unit + u mod unit).
Proof.
  intros Hu Hw <- Hum Hname. destruct (fmtFrac_spec u w name ltac:(lia)) as (fr & -> & Hfr).
  exists fr. split; [done|]. intros v Hv. pose proof (Z.pow_pos_nonneg 10 (Z.of_nat w) ltac:(lia) ltac:(lia)) as Hp.
  pose proof (Z.mod_pos_bound u _ Hp) as Hm. set (m := u mod _) in *.
  replace (v * 10 ^ Z.of_nat w + m) with (v * 10 ^ Z.of_nat w + m + 0) by lia.
  rewrite <-(app_nil_r_s name). apply (reads_item _ w); try done; [by right|lia|apply reads_nil].
Qed.

Lemma reads_magnitude u : 0 ≤ u ≤ 2 ^ 63 → reads (Duration_String u) u.
Proof.
  intros Hu. unfold Duration_String. rewrite Z.abs_eq by lia. rewrite (proj2 (Z.ltb_ge u 0)) by lia.
  assert (Hmi : 2 ^ 63 / Microsecond ≤ max_int) by (vm_compute; discriminate).
  destruct (Z.ltb_spec u Second) as [Hs|Hs].
  - destruct (Z.eqb_spec u 0) as [->|H0].
    { replace 0 with (0 * Second + 0) by lia. apply (reads_whole 0 "s" Second "" 0); try done. apply reads_nil. }
    assert (Hfin : ∀ w name unit, (w ≤ 9)%nat → 10 ^ Z.of_nat w = unit → unitMap name = Some unit → is_unit name = true →
      reads (let '(v, acc) := fmtFrac u w name in Itoa v +:+ acc) u).
    { intros w name unit Hw He Hum Hn. destruct (reads_frac u w name unit ltac:(lia) Hw He Hum Hn) as (fr & -> & Hr).
      assert (0 < unit) by (rewrite <-He; apply Z.pow_pos_nonneg; lia).
      specialize (Hr (u / unit)). rewrite (Z.mul_comm _ unit), <-Z.div_mod in Hr by lia. apply Hr.
      split; [apply Z.div_pos; lia|]. unfold Second, max_int in *. apply Z.div_le_upper_bound; nia. }
    destruct (u <? Microsecond). { apply (Hfin 0%nat _ Nanosecond); [lia|reflexivity|reflexivity|reflexivity]. }
    destruct (u <? Millisecond); [apply (Hfin 3%nat _ Microsecond)|apply (Hfin 6%nat _ Millisecond)]; lia || reflexivity.
  - destruct (reads_frac u 9 "s" Second ltac:(lia) ltac:(lia) eq_refl eq_refl eq_refl) as (fr & -> & Hr).
    set (v := u / Second).
    assert (Hv : 1 ≤ v ≤ 10 ^ 10).
    { unfold v. split; [apply Z.div_le_lower_bound|apply Z.div_le_upper_bound]; unfold Second in *; lia. }
    assert (Ev : u = v * Second + u mod Second) by (unfold v; rewrite (Z.mul_comm _ Second); by apply Z.div_mod).
    pose proof (Z.div_mod v 60 ltac:(lia)) as E60. pose proof (Z.mod_pos_bound v 60 ltac:(lia)) as B60.
    pose proof (Hr (v mod 60) ltac:(unfold max_int; lia)) as R1.
    destruct (Z.ltb_spec 0 (v / 60)) as [Hm|Hm].
    2:{ assert (v / 60 = 0) as E by (pose proof (Z.div_pos v 60); lia). rewrite E in E60.
        replace (v mod 60 * Second + u mod Second) with u in R1 by lia. exact R1. }
    set (m := v / 60) in *. pose proof (Z.div_mod m 60 ltac:(lia)) as Em. pose proof (Z.mod_pos_bound m 60 ltac:(lia)) as Bm.
    pose proof (reads_whole (m mod 60) "m" Minute _ _ ltac:(unfold max_int; lia) eq_refl eq_refl eq_refl R1) as R2.
    destruct (Z.ltb_spec 0 (m / 60)) as [Hh|Hh].
    2:{ assert (m / 60 = 0) as E by (pose proof (Z.div_pos m 60); lia). rewrite E in Em.
        replace (m mod 60 * Minute + _) with u in R2 by (unfold Minute, Second in *; lia).
        exact R2. }
    pose proof (reads_whole (m / 60) "h" Hour _ _ ltac:(unfold max_int; lia) eq_refl eq_refl eq_refl R2) as R3.
    replace (m / 60 * Hour + _) with u in R3
      by (unfold Hour, Minute, Second in *; lia).
    exact R3.
Qed.

Lemma Duration_String_sign d : d < 0 → Duration_String d = String "-" (Duration_String (- d)).
Proof.
  intros Hd. unfold Duration_String. rewrite Z.abs_opp. rewrite (proj2 (Z.ltb_lt d 0)) by lia.
  by rewrite (proj2 (Z.ltb_ge (- d) 0)) by lia.
Qed.

Lemma reads_text s n : reads s n → n ≤ 2 ^ 63 → n ≠ 0 ∨ s = "0s" →
  parse_items (slen s) 0 s = Some n ∧ at_number s = true ∧ s ≠ "" ∧ s ≠ "0".
Proof.
  intros (Hat & Hn & Hr) Hle Hs. specialize (Hr (slen s) 0 ltac:(lia) ltac:(lia) ltac:(lia)).
  split; [done|]. split; [done|]. destruct Hs as [Hs| ->]; [|done].
  split; intros ->; [injection Hr as Hr; lia|discriminate Hr].
Qed.

(** Every duration is read back from its text, the smallest included, whose
    magnitude is not a duration. *)
Lemma ParseDuration_String d : min_int ≤ d ≤ max_int → ParseDuration (Duration_String d) = Some d.
Proof.
  intros Hd.
  assert (Hm : ∀ u, 0 ≤ u ≤ 2 ^ 63 → let s := Duration_String u in
    parse_items (slen s) 0 s = Some u ∧ at_number s = true ∧ s ≠ "" ∧ s ≠ "0").
  { intros u Hu s. apply reads_text; [by apply reads_magnitude|lia|].
    destruct (decide (u = 0)) as [->|]; [by right|by left]. }
  unfold min_int, max_int in Hd. destruct (Z.lt_ge_cases d 0) as [Hneg|Hpos].
  - rewrite Duration_String_sign by done. destruct (Hm (- d) ltac:(lia)) as (Hp & _ & H1 & H0).
    unfold ParseDuration. rewrite bool_decide_true by done. rewrite !bool_decide_false by done. rewrite Hp. f_equal.
    unfold int64_wrap. destruct (Z.eq_dec d (- 2 ^ 63)) as [->|]; [done|].
    rewrite (Z.mod_small (- d + 2 ^ 63)) by lia. rewrite Z.mod_small by lia. lia.
  - destruct (Hm d ltac:(lia)) as (Hp & Hat & H1 & H0). unfold ParseDuration.
    destruct (Duration_String d) as [|c s]; [done|]. cbn [at_number] in Hat.
    rewrite (bool_decide_false (c = "-"%char)) by by intros ->.
    rewrite (bool_decide_false (c = "+"%char)) by by intros ->.
    rewrite !bool_decide_false by done. rewrite Hp. by rewrite (proj2 (Z.ltb_ge _ _)) by lia.
Qed.
