(* ===== verification/GoOS.v ===== *)
(** * Packages [os] and [path/filepath]: the files the program reads and writes

    A path is what [filepath.Clean] makes of a string: whether it is rooted,
    and its elements, the last one first.  The file system maps paths to
    regular files and holds the set of directories; [OSEnv] says what the
    environment refuses (permissions, a full disk), so that every error branch
    of the program can be taken.  Links are not modelled. *)
From S2P Require Import Prelude GoStrings.

Definition path : Type := bool * list string.

(** One element of a path, in front of the reversed elements so far. *)
Definition clean_step (rooted : bool) (st : list string) (e : string) : list string :=
  if decide (e = "" ∨ e = ".") then st
  else if decide (e = "..") then
    match st with
    | [] => if rooted then [] else [".."]
    | t :: st' => if decide (t = "..") then e :: st else st'
    end
  else e :: st.

Definition Clean (s : string) : path :=
  let rooted := HasPrefix s "/" in
  (rooted, foldl (clean_step rooted) [] (Split s "/")).

(** [filepath.Join(dir, name)] *)
Definition Join (dir name : string) : path :=
  if decide (dir = "") then Clean name
  else if decide (name = "") then Clean dir
  else Clean (dir +:+ "/" +:+ name).

(** The text of a path, as [filepath.Clean] returns it. *)
Definition path_string (p : path) : string :=
  match rev p.2 with
  | [] => if p.1 then "/" else "."
  | e :: es => (if p.1 then "/" else "") +:+ fold_left (λ s x, s +:+ "/" +:+ x) es e
  end.

(** A name that is one element: what the program joins to its data directory. *)
Definition plain_name (n : string) : bool :=
  lacks "/" n && negb (bool_decide (n = "" ∨ n = "." ∨ n = "..")).

Lemma Split_app_slash s n :
  lacks "/" n = true → Split (s +:+ String "/" n) "/" = Split s "/" ++ [n].
Proof.
  intros Hn. induction s as [|a s IH].
  - rewrite app_nil_l_s. simpl. by rewrite Split_lacks.
  - rewrite app_cons_s. simpl. destruct (decide (a = "/"%char)).
    + by rewrite IH.
    + rewrite IH. destruct (Split s "/") eqn:E; [|done].
      destruct s; simpl in E; repeat case_match; done.
Qed.

Lemma Join_plain dir n :
  plain_name n = true → Join dir n = ((Clean dir).1, n :: (Clean dir).2).
Proof.
  unfold plain_name. intros [Hl Hn]%andb_true_iff.
  apply negb_true_iff, bool_decide_eq_false in Hn.
  assert (Hstep : ∀ b st, clean_step b st n = n :: st).
  { intros b st. unfold clean_step. rewrite !decide_False; naive_solver. }
  unfold Join. case_decide as Hd; [subst dir|].
  - unfold Clean. rewrite (Split_lacks n) by done. cbn [foldl]. rewrite Hstep.
    destruct n as [|a n]; [naive_solver|].
    assert (a ≠ "/"%char) as Ha.
    { unfold lacks in Hl. simpl in Hl. by inv_ok. }
    unfold HasPrefix. simpl. rewrite bool_decide_false; [done|naive_solver].
  - rewrite decide_False by naive_solver. unfold Clean.
    replace (dir +:+ "/" +:+ n) with (dir +:+ String "/" n) by done.
    rewrite Split_app_slash by done. rewrite foldl_app. cbn [foldl].
    destruct dir as [|a dir]; [done|]. rewrite app_cons_s.
    assert (HasPrefix (String a (dir +:+ String "/" n)) "/" = HasPrefix (String a dir) "/")
      as ->; [|by rewrite Hstep].
    unfold HasPrefix. done.
Qed.

(** ** The file system *)

Record file := mkFile { fmode : Z; fdata : string }.

#[export] Instance file_eq_dec : EqDecision file.
Proof. solve_decision. Defined.

Record FS := mkFS { files : gmap path file; dirs : gset path; umask : Z }.

(** What the environment refuses.  [write_limit p = Some n]: only [n] bytes of
    a longer write to [p] reach the disk. *)
Record OSEnv := mkOSEnv {
  open_fault : path → bool;
  stat_fault : path → bool;
  mkdir_fault : path → bool;
  chmod_fault : path → bool;
  close_fault : path → bool;
  write_limit : path → option nat
}.

(** An environment that refuses nothing. *)
Definition no_faults : OSEnv :=
  mkOSEnv (λ _, false) (λ _, false) (λ _, false) (λ _, false) (λ _, false) (λ _, None).

(** Permission bits 0600, 0644 and 0700. *)
Definition mode_0600 : Z := 6 * 64.
Definition mode_0644 : Z := 6 * 64 + 4 * 8 + 4.
Definition mode_0700 : Z := 7 * 64.

Definition ErrNotExist : error := ErrorsNew "file does not exist".
Definition ErrExist : error := ErrorsNew "file already exists".
Definition EACCES : error := ErrorsNew "permission denied".
Definition ENOTDIR : error := ErrorsNew "not a directory".
Definition EISDIR : error := ErrorsNew "is a directory".
Definition ENOSPC : error := ErrorsNew "no space left on device".
Definition EIO : error := ErrorsNew "input/output error".

Definition is_dir (fs : FS) (p : path) : bool :=
  match p.2 with [] => true | _ => bool_decide (p ∈ dirs fs) end.

(** Some proper ancestor of the path is a regular file. *)
Fixpoint under_file (fs : FS) (rooted : bool) (st : list string) : bool :=
  match st with
  | [] => false
  | _ :: st' => bool_decide (is_Some (files fs !! (rooted, st'))) || under_file fs rooted st'
  end.

(** ** State and error monad over the file system *)

Definition M (A : Type) : Type := FS → FS * result A.
Definition ret {A} (a : A) : M A := λ fs, (fs, Ok a).
Definition fail {A} (e : error) : M A := λ fs, (fs, Err e).
Definition lift {A} (r : result A) : M A := λ fs, (fs, r).
Definition bind {A B} (m : M A) (k : A → M B) : M B := λ fs,
  match m fs with
  | (fs', Ok a) => k a fs'
  | (fs', Err e) => (fs', Err e)
  end.
(** The value and the error are both inspected by the caller. *)
Definition try {A} (m : M A) : M (result A) := λ fs, let '(fs', r) := m fs in (fs', Ok r).
Definition wrapM {A} (fmt : string) (m : M A) : M A := λ fs,
  let '(fs', r) := m fs in (fs', wrap_err fmt r).

Notation "'let!' x := m 'in' k" := (bind m (λ x, k))
  (at level 10, x name, m at level 100, k at level 200) : go_scope.
Notation "'do!' m 'in' k" := (bind m (λ _, k))
  (at level 10, m at level 100, k at level 200) : go_scope.

(** Running a step whose outcome is known. *)
Lemma run_bind {A B} (m : M A) (k : A → M B) fs fs1 a :
  m fs = (fs1, Ok a) → bind m k fs = k a fs1.
Proof. unfold bind. by intros ->. Qed.
Lemma run_bind_Err {A B} (m : M A) (k : A → M B) fs fs1 e :
  m fs = (fs1, Err e) → bind m k fs = (fs1, Err e).
Proof. unfold bind. by intros ->. Qed.
Lemma run_try {A} (m : M A) fs fs1 r : m fs = (fs1, r) → try m fs = (fs1, Ok r).
Proof. unfold try. by intros ->. Qed.
Lemma run_wrap {A} fmt (m : M A) fs fs1 r :
  m fs = (fs1, r) → wrapM fmt m fs = (fs1, wrap_err fmt r).
Proof. unfold wrapM. by intros ->. Qed.

Lemma bind_Ok {A B} (m : M A) (k : A → M B) fs fs' b :
  bind m k fs = (fs', Ok b) ↔ ∃ fs1 a, m fs = (fs1, Ok a) ∧ k a fs1 = (fs', Ok b).
Proof. unfold bind. destruct (m fs) as [fs1 [a|e]]; naive_solver. Qed.

Lemma wrapM_Ok {A} fmt (m : M A) fs fs' a :
  wrapM fmt m fs = (fs', Ok a) ↔ m fs = (fs', Ok a).
Proof. unfold wrapM. destruct (m fs) as [fs1 [x|e]]; naive_solver. Qed.

(** ** Operations *)

Section Ops.
Context (env : OSEnv).

Definition set_file (p : path) (f : file) (fs : FS) : FS :=
  mkFS (<[p := f]> (files fs)) (dirs fs) (umask fs).

Definition ReadFile (p : path) : M string := λ fs,
  (fs,
   if open_fault env p then Err EACCES
   else if under_file fs p.1 p.2 then Err ENOTDIR
   else match files fs !! p with
        | Some f => Ok (fdata f)
        | None => if is_dir fs p then Err EISDIR else Err ErrNotExist
        end).

Definition Stat (p : path) : M unit := λ fs,
  (fs,
   if stat_fault env p then Err EACCES
   else if under_file fs p.1 p.2 then Err ENOTDIR
   else if is_dir fs p then Ok tt
   else match files fs !! p with Some _ => Ok tt | None => Err ErrNotExist end).

(** [os.MkdirAll]: parents first; directories made before a failure stay. *)
Fixpoint mkdir_all (rooted : bool) (st : list string) : M unit := λ fs,
  match st with
  | [] => (fs, Ok tt)
  | _ :: st' =>
      if is_dir fs (rooted, st) then (fs, Ok tt)
      else if decide (is_Some (files fs !! (rooted, st))) then (fs, Err ENOTDIR)
      else bind (mkdir_all rooted st')
        (λ _ fs1, if mkdir_fault env (rooted, st) then (fs1, Err EACCES)
                  else (mkFS (files fs1) ({[ (rooted, st) ]} ∪ dirs fs1) (umask fs1), Ok tt)) fs
  end.
Definition MkdirAll (p : path) : M unit := mkdir_all p.1 p.2.

(** [os.OpenFile] with [O_WRONLY|O_CREATE|O_TRUNC], and [O_EXCL] or not: the
    file is created with [perm &^ umask], or kept with its mode and emptied. *)
Definition OpenFile (p : path) (excl : bool) (perm : Z) : M unit := λ fs,
  if open_fault env p then (fs, Err EACCES)
  else if under_file fs p.1 p.2 then (fs, Err ENOTDIR)
  else if is_dir fs p then (fs, Err (if excl then ErrExist else EISDIR))
  else match files fs !! p with
       | Some f =>
           if excl then (fs, Err ErrExist)
           else (set_file p (mkFile (fmode f) "") fs, Ok tt)
       | None =>
           if is_dir fs (p.1, tail p.2)
           then (set_file p (mkFile (Z.ldiff perm (umask fs)) "") fs, Ok tt)
           else (fs, Err ErrNotExist)
       end.

(** The first write to a file just opened with [O_TRUNC]. *)
Definition Write (p : path) (data : string) : M unit := λ fs,
  match files fs !! p with
  | None => (fs, Err EIO)
  | Some f =>
      match write_limit env p with
      | Some n =>
          if (n <? slen data)%nat
          then (set_file p (mkFile (fmode f) (stake n data)) fs, Err ENOSPC)
          else (set_file p (mkFile (fmode f) data) fs, Ok tt)
      | None => (set_file p (mkFile (fmode f) data) fs, Ok tt)
      end
  end.

Definition Chmod (p : path) (perm : Z) : M unit := λ fs,
  match files fs !! p with
  | None => (fs, Err EIO)
  | Some f =>
      if chmod_fault env p then (fs, Err EACCES)
      else (set_file p (mkFile perm (fdata f)) fs, Ok tt)
  end.

Definition Close (p : path) : M unit := λ fs,
  (fs, if close_fault env p then Err EIO else Ok tt).

(** [os.WriteFile]: open, write, close; the first error is returned. *)
Definition WriteFile (p : path) (data : string) (perm : Z) : M unit :=
  do! OpenFile p false perm in
  let! w := try (Write p data) in
  let! c := try (Close p) in
  lift (match w with Ok _ => c | Err e => Err e end).
End Ops.

(** ** What an operation may change *)

(** Only files in [P] change; directories are only added. *)
Definition frame (P : path → Prop) (fs fs' : FS) : Prop :=
  (∀ q, ¬ P q → files fs' !! q = files fs !! q) ∧
  dirs fs ⊆ dirs fs' ∧ umask fs' = umask fs.

Lemma frame_refl P fs : frame P fs fs.
Proof. done. Qed.

Lemma frame_trans P fs1 fs2 fs3 : frame P fs1 fs2 → frame P fs2 fs3 → frame P fs1 fs3.
Proof.
  intros (F1 & D1 & U1) (F2 & D2 & U2). split_and!; [|set_solver|congruence].
  intros q Hq. by rewrite F2, F1.
Qed.

Lemma frame_weaken (P Q : path → Prop) fs fs' :
  (∀ q, P q → Q q) → frame P fs fs' → frame Q fs fs'.
Proof. intros HPQ (F & D & U). split_and!; auto. Qed.

#[export] Instance frame_preorder P : PreOrder (frame P).
Proof. split; [intros ?; apply frame_refl|intros ???; apply frame_trans]. Qed.

(** An operation that may change files in [P] only. *)
Definition framed {A} (P : path → Prop) (m : M A) : Prop :=
  ∀ fs, frame P fs (m fs).1.

Create HintDb frame.
#[export] Hint Resolve frame_refl : frame.

Lemma framed_ret {A} P (a : A) : framed P (ret a).
Proof. intros fs. apply frame_refl. Qed.
Lemma framed_fail {A} P e : framed P (@fail A e).
Proof. intros fs. apply frame_refl. Qed.
Lemma framed_lift {A} P (r : result A) : framed P (lift r).
Proof. intros fs. apply frame_refl. Qed.
Lemma framed_bind {A B} P (m : M A) (k : A → M B) :
  framed P m → (∀ a, framed P (k a)) → framed P (bind m k).
Proof.
  intros Hm Hk fs. unfold bind. specialize (Hm fs).
  destruct (m fs) as [fs1 [a|e]]; [|done]. by etrans; [|apply Hk].
Qed.
Lemma framed_try {A} P (m : M A) : framed P m → framed P (try m).
Proof. intros Hm fs. unfold try. specialize (Hm fs). by destruct (m fs). Qed.
Lemma framed_wrap {A} P fmt (m : M A) : framed P m → framed P (wrapM fmt m).
Proof. intros Hm fs. unfold wrapM. specialize (Hm fs). by destruct (m fs). Qed.
#[export] Hint Resolve framed_ret framed_fail framed_lift framed_bind
  framed_try framed_wrap : frame.

Lemma frame_set_file (P : path → Prop) p f fs : P p → frame P fs (set_file p f fs).
Proof.
  intros Hp. split_and!; [|done|done]. intros q Hq. simpl.
  apply lookup_insert_ne. naive_solver.
Qed.
#[export] Hint Resolve frame_set_file : frame.

Section OpsFrame.
Context (env : OSEnv).

Lemma framed_ReadFile P p : framed P (ReadFile env p).
Proof. intros fs. apply frame_refl. Qed.
Lemma framed_Stat P p : framed P (Stat env p).
Proof. intros fs. apply frame_refl. Qed.
Lemma framed_Close P p : framed P (Close env p).
Proof. intros fs. apply frame_refl. Qed.
Lemma framed_MkdirAll P p : framed P (MkdirAll env p).
Proof.
  destruct p as [r st]. unfold MkdirAll. simpl.
  induction st as [|c st IH]; intros fs; simpl; [apply frame_refl|].
  destruct (is_dir _ _); [apply frame_refl|].
  case_decide; [apply frame_refl|].
  unfold bind. specialize (IH fs).
  destruct (mkdir_all env r st fs) as [fs1 [u|e]]; [|done].
  destruct (mkdir_fault env _); [done|].
  etrans; [exact IH|]. split_and!; [done|set_solver|done].
Qed.
Lemma framed_OpenFile (P : path → Prop) p excl perm :
  P p → framed P (OpenFile env p excl perm).
Proof.
  intros Hp fs. unfold OpenFile. repeat case_match; simpl; auto with frame.
Qed.
Lemma framed_Write (P : path → Prop) p data : P p → framed P (Write env p data).
Proof. intros Hp fs. unfold Write. repeat case_match; simpl; auto with frame. Qed.
Lemma framed_Chmod (P : path → Prop) p perm : P p → framed P (Chmod env p perm).
Proof. intros Hp fs. unfold Chmod. repeat case_match; simpl; auto with frame. Qed.
End OpsFrame.
#[export] Hint Resolve framed_ReadFile framed_Stat framed_Close framed_MkdirAll
  framed_OpenFile framed_Write framed_Chmod : frame.

Lemma framed_WriteFile env (P : path → Prop) p data perm :
  P p → framed P (WriteFile env p data perm).
Proof. intros Hp. unfold WriteFile. auto 8 with frame. Qed.
#[export] Hint Resolve framed_WriteFile : frame.

(** ** What a successful write leaves on disk *)

Lemma under_file_insert fs p f :
  under_file (set_file p f fs) p.1 p.2 = under_file fs p.1 p.2.
Proof.
  destruct p as [r st]. simpl.
  assert (Hgen : ∀ st', length st' ≤ length st →
            under_file (set_file (r, st) f fs) r st' = under_file fs r st').
  { induction st' as [|c st' IH]; simpl; [done|]. intros Hl.
    rewrite IH by lia. f_equal. rewrite lookup_insert_ne; [done|].
    intros [= ->]. lia. }
  by apply Hgen.
Qed.

(** A file just written is what reading finds. *)
Definition holds (env : OSEnv) (p : path) (f : file) (fs : FS) : Prop :=
  files fs !! p = Some f ∧ under_file fs p.1 p.2 = false ∧ open_fault env p = false.

Lemma ReadFile_holds env p f fs :
  holds env p f fs → ReadFile env p fs = (fs, Ok (fdata f)).
Proof. intros (H1 & H2 & H3). unfold ReadFile. by rewrite H3, H2, H1. Qed.

Lemma OpenFile_Ok env p excl perm fs fs' u :
  OpenFile env p excl perm fs = (fs', Ok u) →
  under_file fs p.1 p.2 = false ∧ open_fault env p = false ∧
  fs' = set_file p (mkFile (match files fs !! p with
                            | Some f => fmode f
                            | None => Z.ldiff perm (umask fs) end) "") fs ∧
  (excl = true → files fs !! p = None).
Proof.
  unfold OpenFile. intros H. repeat case_match; naive_solver.
Qed.

Lemma Write_Ok env p data f fs fs' u :
  files fs !! p = Some f → Write env p data fs = (fs', Ok u) →
  fs' = set_file p (mkFile (fmode f) data) fs.
Proof. unfold Write. intros -> H. repeat case_match; naive_solver. Qed.

Lemma set_file_twice p f g fs : set_file p f (set_file p g fs) = set_file p f fs.
Proof. unfold set_file. simpl. by rewrite insert_insert_eq. Qed.

Lemma WriteFile_Ok env p data perm fs fs' u :
  WriteFile env p data perm fs = (fs', Ok u) →
  let mode := match files fs !! p with
              | Some f => fmode f | None => Z.ldiff perm (umask fs) end in
  holds env p (mkFile mode data) fs' ∧ fs' = set_file p (mkFile mode data) fs.
Proof.
  unfold WriteFile. intros (fs1 & a & Ho & H)%bind_Ok.
  apply OpenFile_Ok in Ho as (Hu & Hf & -> & _). simpl.
  set (m := match files fs !! p with Some f => _ | None => _ end) in *.
  unfold bind, try in H. 
  destruct (Write env p data _) as [fs2 w] eqn:Ew.
  unfold Close, lift in H. destruct w as [[]|]; [|by repeat case_match].
  destruct (close_fault env p); [done|]. injection H as <- _.
  apply (Write_Ok _ _ _ (mkFile m "")) in Ew; [|simpl; by rewrite lookup_insert_eq].
  rewrite set_file_twice in Ew. subst fs2. split; [|done].
  split_and!; [by simpl; rewrite lookup_insert_eq| |done].
  by rewrite under_file_insert.
Qed.

(** ** Operations that leave the existing files of a set [K] alone *)

Definition keeps {A} (K : path → Prop) (m : M A) : Prop :=
  ∀ fs q f, K q → files fs !! q = Some f → files (m fs).1 !! q = Some f.

Lemma keeps_ret {A} K (a : A) : keeps K (ret a).
Proof. by intros fs q f. Qed.
Lemma keeps_fail {A} K e : keeps K (@fail A e).
Proof. by intros fs q f. Qed.
Lemma keeps_lift {A} K (r : result A) : keeps K (lift r).
Proof. by intros fs q f. Qed.
Lemma keeps_bind {A B} K (m : M A) (k : A → M B) :
  keeps K m → (∀ a, keeps K (k a)) → keeps K (bind m k).
Proof.
  intros Hm Hk fs q f Hq Hf. unfold bind. pose proof (Hm fs q f Hq Hf) as H.
  destruct (m fs) as [fs1 [a|e]]; [by apply Hk|done].
Qed.
Lemma keeps_try {A} K (m : M A) : keeps K m → keeps K (try m).
Proof.
  intros Hm fs q f Hq Hf. unfold try. pose proof (Hm fs q f Hq Hf) as H. by destruct (m fs).
Qed.
Lemma keeps_wrap {A} K fmt (m : M A) : keeps K m → keeps K (wrapM fmt m).
Proof.
  intros Hm fs q f Hq Hf. unfold wrapM. pose proof (Hm fs q f Hq Hf) as H. by destruct (m fs).
Qed.
Lemma keeps_framed {A} K (m : M A) : framed (λ _, False) m → keeps K m.
Proof. intros Hm fs q f _ Hf. destruct (Hm fs) as [F _]. by rewrite F by tauto. Qed.

Create HintDb keeps.
#[export] Hint Resolve keeps_ret keeps_fail keeps_lift keeps_try keeps_wrap : keeps.

Lemma under_file_same fs fs' r st :
  (∀ q, files fs' !! q = files fs !! q) → under_file fs' r st = under_file fs r st.
Proof. intros F. induction st as [|c st IH]; [done|]. cbn. by rewrite IH, F. Qed.

(** ** Operations that only read *)

Definition reads {A} (m : M A) : Prop := ∀ fs, (m fs).1 = fs.

Lemma reads_ret {A} (a : A) : reads (ret a).
Proof. by intros fs. Qed.
Lemma reads_fail {A} e : reads (@fail A e).
Proof. by intros fs. Qed.
Lemma reads_lift {A} (r : result A) : reads (lift r).
Proof. by intros fs. Qed.
Lemma reads_bind {A B} (m : M A) (k : A → M B) : reads m → (∀ a, reads (k a)) → reads (bind m k).
Proof.
  intros Hm Hk fs. specialize (Hm fs). unfold bind.
  destruct (m fs) as [fs1 [a|e]]; cbn in *; subst fs1; [apply Hk|done].
Qed.
Lemma reads_try {A} (m : M A) : reads m → reads (try m).
Proof. intros Hm fs. specialize (Hm fs). unfold try. by destruct (m fs). Qed.
Lemma reads_wrap {A} fmt (m : M A) : reads m → reads (wrapM fmt m).
Proof. intros Hm fs. specialize (Hm fs). unfold wrapM. by destruct (m fs) as [? []]. Qed.
Lemma reads_ReadFile env p : reads (ReadFile env p).
Proof. intros fs. unfold ReadFile. repeat case_match; done. Qed.
Lemma reads_run {A} (m : M A) fs fs' r : reads m → m fs = (fs', r) → fs' = fs.
Proof. intros Hm H. specialize (Hm fs). by rewrite H in Hm. Qed.

Create HintDb reads.
#[export] Hint Resolve reads_ret reads_fail reads_lift reads_bind reads_try reads_wrap
  reads_ReadFile : reads.
