(* ===== verification/Labels.v ===== *)
(** * Labels: the shared syntax of node_id, mesh_id and operator names

    The specification that both [identity.Validate] (a regular expression) and
    [pki.validateLabel] (a loop over runes) are proved to decide. *)
From S2P Require Import Prelude GoStrings GoUtf8.

(** What a node_id, a mesh_id or an operator name may be: 1 to 63 bytes among
    [a-z], [0-9] and [-], the first one not a dash. *)
Definition label_byte (a : ascii) : bool :=
  is_lower a || is_digit a || bool_decide (a = "-"%char).
Definition is_label (s : string) : bool :=
  (1 <=? slen s)%nat && (slen s <=? 63)%nat && sall label_byte s && first_ne "-" s.

(** ** Lemmas on labels *)

Lemma label_byte_val a :
  label_byte a = (in_range 97 122 (byte_val a) || in_range 48 57 (byte_val a)
                  || (byte_val a =? 45)%Z).
Proof.
  unfold label_byte, is_lower, is_digit. f_equal.
  apply eq_true_iff_eq. rewrite bool_decide_eq_true, Z.eqb_eq. split; [by intros ->|].
  intros H. by apply byte_val_inj.
Qed.

Lemma label_byte_nonspace a : label_byte a = true → ascii_nonspace a = true.
Proof.
  rewrite label_byte_val. unfold ascii_nonspace, non_ascii, unicode_IsSpace, in_range.
  lia.
Qed.

Lemma is_label_spec s :
  is_label s = true ↔
  1 ≤ slen s ≤ 63 ∧ sall label_byte s = true ∧ first_ne "-" s = true.
Proof.
  unfold is_label. rewrite !andb_true_iff, !Nat.leb_le. tauto.
Qed.

Lemma is_label_nonspace s : is_label s = true → sall ascii_nonspace s = true.
Proof.
  intros (_ & H & _)%is_label_spec. eapply sall_impl; [|exact H].
  apply label_byte_nonspace.
Qed.

Lemma is_label_line s : is_label s = true → TrimSpace (s +:+ String "010" "") = s.
Proof. intros H. by apply TrimSpace_line, is_label_nonspace. Qed.

