(* ===== verification/Identity.v ===== *)
(** * Package [internal/identity]: the node's stable identifier

    Models [src/internal/identity/nodeid.go]: the syntax of a node_id, the
    generated ids, and the file [node_id] of the data directory with the
    operations that read and write it. *)
From S2P Require Import Prelude GoStrings GoUtf8 GoOS Labels.

(** ** Definitions *)

Definition nodeIDFile : string := "node_id".

(** [^[a-z0-9][a-z0-9-]{0,62}$] *)
Definition validNodeID : re :=
  RCat (RClass [(97, 122); (48, 57)]%Z)
       (RUpTo (RClass [(97, 122); (48, 57); (45, 45)]%Z) 62).

Definition ErrInvalidNodeID : error :=
  ErrorsNew "identity: node_id must match ^[a-z0-9][a-z0-9-]{0,62}$".

Definition Validate (id : string) : result unit :=
  if negb (MatchString validNodeID id) then Err (Wrap "%w: %q" ErrInvalidNodeID)
  else Ok tt.

Section Identity.
(** [unicode.ToLower] outside ASCII. *)
Context (lower_tab : Z → Z).

Definition host_rune (r : Z) : bool :=
  in_range 97 122 r || in_range 48 57 r || (r =? 45)%Z.

Definition maxHost : nat := 63 - slen "-abcdef".

Definition sanitizeHost (h : string) : string :=
  let h := ToLower lower_tab h in
  let h := match IndexByte h "." with Some i => stake i h | None => h end in
  let out := Trim (filter_runes host_rune h) "-" in
  let out := if (maxHost <? slen out)%nat then TrimRight (stake maxHost out) "-" else out in
  if decide (out = "") then "node" else out.

(** The environment gives the three random bytes, or an error, and the
    host name ([os.Hostname] errors give the empty name). *)
Definition rand3 : Type := option (ascii * ascii * ascii).

Definition Generate (rnd : rand3) (host : string) : result string :=
  match rnd with
  | None => Err (Errorf "identity: random: %w")
  | Some (a, b, c) =>
      Ok (sanitizeHost host +:+ "-" +:+ HexEncode (String a (String b (String c ""))))
  end.

Context (env : OSEnv).

Definition LoadOrCreate (dir : string) (rnd : rand3) (host : string) : M string :=
  let path := Join dir nodeIDFile in
  let! b := try (ReadFile env path) in
  match b with
  | Ok b =>
      let id := TrimSpace b in
      lift (wrap_err "%s: %w" (check? Validate id in Ok id))
  | Err e =>
      if negb (errors_Is e ErrNotExist) then fail (Wrap "identity: read %s: %w" e)
      else
        let! id := lift (Generate rnd host) in
        do! wrapM "identity: create %s: %w" (MkdirAll env (Clean dir)) in
        do! wrapM "identity: write %s: %w"
              (WriteFile env path (id +:+ String "010" "") mode_0600) in
        ret id
  end.

(** [Set] of the source; [rnd] and [host] feed its call of [LoadOrCreate]. *)
Definition Set_ (dir id : string) (overwrite : bool) (rnd : rand3) (host : string)
  : M unit :=
  do! lift (Validate id) in
  let path := Join dir nodeIDFile in
  let! st := try (Stat env path) in
  if is_ok st && negb overwrite then
    let! existing := try (LoadOrCreate dir rnd host) in
    let existing := match existing with Ok x => x | Err _ => "" end in
    if decide (existing = id) then ret tt
    else fail (Errorf "identity: %s already holds node_id %q; certs are bound to it")
  else
    do! wrapM "identity: create %s: %w" (MkdirAll env (Clean dir)) in
    wrapM "identity: write %s: %w"
      (WriteFile env path (id +:+ String "010" "") mode_0600).
End Identity.

(** ** The regular expression *)

Lemma lang_upto_class cls n cs :
  lang (RUpTo (RClass cls) n) cs ↔ length cs ≤ n ∧ forallb (in_class cls) cs = true.
Proof.
  split.
  - remember (RUpTo (RClass cls) n) as e eqn:He. intros H. revert n He.
    induction H as [| | | | | |r n u v Hu _ Hv IHv]; intros k He; simplify_eq/=; [split; [lia|done]|].
    inversion Hu; subst. destruct (IHv n eq_refl) as [? IH]. simpl.
    split; [lia|]. by apply andb_true_iff.
  - revert n. induction cs as [|c cs IH]; intros n [Hl Hc]; [constructor|].
    simpl in *. destruct n as [|n]; [lia|]. apply andb_true_iff in Hc as [? ?].
    change (c :: cs) with ([c] ++ cs). constructor; [by constructor|].
    apply IH. split; [lia|done].
Qed.

(** The regular expression is the label syntax. *)
Lemma validNodeID_runes cs :
  re_matches validNodeID cs = true ↔
  ∃ c cs', cs = c :: cs' ∧ host_rune c = true ∧ c ≠ 45%Z ∧
           length cs' ≤ 62 ∧ forallb host_rune cs' = true.
Proof.
  rewrite re_matches_spec. unfold validNodeID.
  assert (Hc : ∀ c, in_class [(97, 122); (48, 57); (45, 45)]%Z c = host_rune c).
  { intros c. unfold in_class, host_rune. simpl. rewrite orb_false_r, <-orb_assoc.
    do 2 f_equal. unfold in_range. lia. }
  assert (Hf : ∀ l, forallb (in_class [(97, 122); (48, 57); (45, 45)]%Z) l
                    = forallb host_rune l).
  { induction l as [|x l IH]; cbn [forallb]; [done|]. by rewrite Hc, IH. }
  split.
  - intros H. inversion H as [| |? ? u v Hu Hv| | | |]; subst.
    inversion Hu as [|? c Hcl| | | | |]; subst.
    apply lang_upto_class in Hv as [? Hv]. exists c, v.
    rewrite Hf in Hv. unfold in_class in Hcl. simpl in Hcl.
    unfold host_rune at 1. unfold in_range in *. split_and!; try done; lia.
  - intros (c & cs' & -> & Hr & Hne & Hl & Hall).
    change (c :: cs') with ([c] ++ cs'). constructor.
    + constructor. unfold in_class. unfold host_rune, in_range in *. simpl. lia.
    + apply lang_upto_class. by rewrite Hf.
Qed.

Lemma host_rune_ascii r : (0x80 ≤ r)%Z → host_rune r = false.
Proof. unfold host_rune, in_range. lia. Qed.

Lemma label_byte_host a : label_byte a = host_rune (byte_val a).
Proof. apply label_byte_val. Qed.

Lemma runes_label s :
  forallb host_rune (runes s) = sall label_byte s.
Proof.
  rewrite runes_forallb_bytes by apply host_rune_ascii.
  apply sall_ext. intros a. by rewrite label_byte_host.
Qed.

Lemma label_byte_ascii s : sall label_byte s = true → sall (λ a, negb (non_ascii a)) s = true.
Proof.
  apply sall_impl. intros a. rewrite label_byte_host.
  unfold host_rune, in_range, non_ascii. lia.
Qed.

(** The regular expression accepts exactly the labels. *)
Lemma MatchString_label s : MatchString validNodeID s = is_label s.
Proof.
  apply eq_true_iff_eq. unfold MatchString.
  rewrite validNodeID_runes, is_label_spec. split.
  - intros (c & cs & E & Hc & Hne & Hl & Hcs).
    assert (Hall : sall label_byte s = true).
    { rewrite <-runes_label, E. simpl. by rewrite Hc. }
    rewrite runes_ascii in E by by apply label_byte_ascii.
    destruct s as [|a s]; [done|]. simpl in E. injection E as <- <-.
    rewrite length_bytes in Hl. simpl. split_and!; [lia|lia|done|].
    apply negb_true_iff, bool_decide_eq_false. by intros ->.
  - intros (Hl & Hall & Hf). pose proof Hall as Hr. rewrite <-runes_label in Hr.
    rewrite runes_ascii in * by by apply label_byte_ascii.
    destruct s as [|a s]; simpl in *; [lia|].
    exists (byte_val a), (bytes s). apply andb_true_iff in Hr as [? ?].
    rewrite length_bytes. split_and!; try done; [|lia].
    intros E. apply (byte_val_inj _ "-") in E. subst a. by inv_ok.
Qed.

Lemma Validate_label id :
  Validate id = if is_label id then Ok tt else Err (Wrap "%w: %q" ErrInvalidNodeID).
Proof. unfold Validate. rewrite MatchString_label. by destruct (is_label id). Qed.

(** *** Host names *)

Lemma sanitizeHost_label tab h :
  1 ≤ slen (sanitizeHost tab h) ≤ maxHost ∧
  sall label_byte (sanitizeHost tab h) = true ∧ first_ne "-" (sanitizeHost tab h) = true.
Proof.
  unfold sanitizeHost. set (h' := match IndexByte _ _ with Some i => _ | None => _ end).
  set (o := Trim _ _).
  assert (Ho : sall label_byte o = true ∧ first_ne "-" o = true).
  { unfold o, Trim. split; [|apply TrimRight_first, TrimLeft_first].
    apply TrimRight_sall, TrimLeft_sall.
    rewrite filter_runes_bytes.
    - apply sall_sfilter. intros a. by rewrite label_byte_host.
    - apply host_rune_ascii.
    - intros r Hr. unfold host_rune, in_range. lia. }
  destruct Ho as [Ho Hf].
  set (o' := if (maxHost <? slen o)%nat then _ else _).
  assert (Ho' : slen o' ≤ maxHost ∧ sall label_byte o' = true ∧ first_ne "-" o' = true).
  { unfold o'. destruct (Nat.ltb_spec maxHost (slen o)); [|auto].
    split_and!; [|by apply TrimRight_sall, sall_stake|by apply TrimRight_first, stake_first].
    etrans; [apply slen_TrimRight|]. rewrite slen_stake. lia. }
  case_decide as He; [by split_and!; vm_compute; auto with lia|].
  rewrite <-slen_0 in He. destruct Ho' as (? & ? & ?). split_and!; auto with lia.
Qed.

Lemma hex_label a : is_hex a = true → label_byte a = true.
Proof.
  rewrite label_byte_val. unfold is_hex, is_digit, in_range. lia.
Qed.

Lemma Generate_label tab rnd host id :
  Generate tab rnd host = Ok id → is_label id = true.
Proof.
  unfold Generate. destruct rnd as [[[a b] c]|]; [|done]. intros H.
  assert (∃ buf, slen buf = 3 ∧ id = sanitizeHost tab host +:+ "-" +:+ HexEncode buf)
    as (buf & Hb & ->) by (eexists; split; [|by apply Ok_inj in H]; done).
  clear H a b c.
  pose proof (sanitizeHost_label tab host) as ([Hl1 Hl2] & Hs & Hf).
  set (s := sanitizeHost tab host) in *. apply is_label_spec.
  unfold maxHost in Hl2. rewrite !slen_app, slen_HexEncode. rewrite Hb. simpl in *.
  split_and!; [lia|lia| |].
  - rewrite !sall_app, Hs. simpl. apply (sall_impl is_hex); [apply hex_label|].
    apply HexEncode_hex.
  - destruct s as [|x s]; [simpl in Hl1; lia|]. by rewrite app_cons_s.
Qed.

(** ** The node_id file *)

Section IdentityFile.
Context (tab : Z → Z) (env : OSEnv).

Definition id_path (dir : string) : path := Join dir nodeIDFile.

(** The file of [dir] holds [id] the way the program writes it, and can be
    read back. *)
Definition id_stored (dir id : string) (fs : FS) : Prop :=
  ∃ mode, holds env (id_path dir) (mkFile mode (id +:+ String "010" "")) fs.

Lemma LoadOrCreate_stored dir id rnd host fs :
  is_label id = true → id_stored dir id fs →
  LoadOrCreate tab env dir rnd host fs = (fs, Ok id).
Proof.
  intros Hl [mode Hh]. unfold LoadOrCreate, bind, try.
  change (Join dir nodeIDFile) with (id_path dir).
  rewrite (ReadFile_holds _ _ _ _ Hh). simpl.
  rewrite is_label_line by done. unfold lift. by rewrite Validate_label, Hl.
Qed.

Lemma write_id_stored dir id fs fs' u :
  wrapM "identity: write %s: %w"
    (WriteFile env (id_path dir) (id +:+ String "010" "") mode_0600) fs = (fs', Ok u) →
  id_stored dir id fs'.
Proof.
  intros H%wrapM_Ok. apply WriteFile_Ok in H as [H _]. by eexists.
Qed.

(** Whatever [LoadOrCreate] returns is a label, and is what a second call
    finds, with other random bytes and another host name. *)
Lemma LoadOrCreate_Ok dir rnd host fs fs' id :
  LoadOrCreate tab env dir rnd host fs = (fs', Ok id) →
  is_label id = true ∧
  ∀ rnd' host', LoadOrCreate tab env dir rnd' host' fs' = (fs', Ok id).
Proof.
  intros H. pose proof H as H0. unfold LoadOrCreate in H.
  apply bind_Ok in H as (fs1 & b & Hr & H).
  unfold try, ReadFile in Hr. simpl in Hr. injection Hr as <- <-.
  destruct (if open_fault env (Join dir nodeIDFile) then _ else _) as [b|e] eqn:E.
  - unfold lift in H. injection H as <- H. simpl in H.
    apply wrap_err_Ok, rbind_Ok in H as ([] & Hv & [= <-]).
    rewrite Validate_label in Hv. destruct (is_label _) eqn:Hl; [|done].
    split; [done|]. intros rnd' host'. unfold LoadOrCreate, bind, try, ReadFile.
    rewrite E. simpl. unfold lift. by rewrite Validate_label, Hl.
  - destruct (negb (errors_Is e ErrNotExist)); [done|].
    apply bind_Ok in H as (fs2 & id' & Hg & H).
    unfold lift in Hg. injection Hg as <- Hg. apply Generate_label in Hg.
    apply bind_Ok in H as (fs3 & [] & Hm & H).
    apply bind_Ok in H as (fs4 & [] & Hw & [= <- <-]).
    split; [done|]. intros. apply LoadOrCreate_stored; [done|].
    by eapply write_id_stored.
Qed.

(** The file that a successful [LoadOrCreate] read or wrote. *)
Lemma LoadOrCreate_holds dir rnd host fs fs' id :
  LoadOrCreate tab env dir rnd host fs = (fs', Ok id) →
  is_label id = true ∧ ∃ f, holds env (id_path dir) f fs' ∧ TrimSpace (fdata f) = id.
Proof.
  intros H. pose proof (LoadOrCreate_Ok _ _ _ _ _ _ H) as [Hl _]. split; [done|].
  unfold LoadOrCreate in H. apply bind_Ok in H as (fs1 & b & Hr & H).
  unfold try, ReadFile in Hr. simpl in Hr. injection Hr as <- <-.
  destruct (open_fault env (Join dir nodeIDFile)) eqn:Eo; [done|].
  destruct (under_file fs (Join dir nodeIDFile).1 (Join dir nodeIDFile).2) eqn:Eu; [done|].
  destruct (files fs !! Join dir nodeIDFile) as [f|] eqn:Ef.
  - unfold lift in H. injection H as <- H. apply wrap_err_Ok, rbind_Ok in H as ([] & Hv & [= <-]).
    exists f. split; [|done]. by split_and!.
  - destruct (is_dir fs _); [done|]. cbn in H.
    apply bind_Ok in H as (fs2 & id' & Hg & H). apply bind_Ok in H as (fs3 & [] & Hm & H).
    apply bind_Ok in H as (fs4 & [] & Hw & [= <- <-]). apply write_id_stored in Hw as [mode Hw].
    eexists. split; [exact Hw|]. cbn [fdata]. by apply is_label_line.
Qed.

Lemma LoadOrCreate_reads dir rnd host fs f :
  holds env (id_path dir) f fs → is_label (TrimSpace (fdata f)) = true →
  LoadOrCreate tab env dir rnd host fs = (fs, Ok (TrimSpace (fdata f))).
Proof.
  intros Hh Hl. unfold LoadOrCreate, bind, try. fold (id_path dir).
  rewrite (ReadFile_holds _ _ _ _ Hh). unfold lift. by rewrite Validate_label, Hl.
Qed.

Lemma framed_LoadOrCreate dir rnd host :
  framed (λ q, q = id_path dir) (LoadOrCreate tab env dir rnd host).
Proof.
  unfold LoadOrCreate. apply framed_bind; [auto with frame|].
  intros [b|e]; [auto with frame|]. destruct (negb _); [auto with frame|].
  apply framed_bind; [auto with frame|]. intros id.
  apply framed_bind; [auto with frame|]. intros _.
  apply framed_bind; auto with frame.
Qed.

Lemma framed_Set dir id ow rnd host :
  framed (λ q, q = id_path dir) (Set_ tab env dir id ow rnd host).
Proof.
  unfold Set_. apply framed_bind; [auto with frame|]. intros _.
  apply framed_bind; [auto with frame|]. intros st.
  destruct (is_ok st && negb ow).
  - apply framed_bind; [apply framed_try, framed_LoadOrCreate|].
    intros x. case_decide; auto with frame.
  - apply framed_bind; auto with frame.
Qed.

(** After a successful [Set], [LoadOrCreate] returns the id that was set. *)
Lemma Set_then_load dir id ow rnd host fs fs' u rnd' host' :
  Set_ tab env dir id ow rnd host fs = (fs', Ok u) →
  is_label id = true ∧ LoadOrCreate tab env dir rnd' host' fs' = (fs', Ok id).
Proof.
  unfold Set_. intros H. apply bind_Ok in H as (fs1 & [] & Hv & H).
  unfold lift in Hv. injection Hv as <- Hv. rewrite Validate_label in Hv.
  destruct (is_label id) eqn:Hl; [|done]. split; [done|].
  apply bind_Ok in H as (fs2 & st & Hst & H).
  destruct (is_ok st && negb ow).
  - apply bind_Ok in H as (fs3 & x & Hx & H). unfold try in Hx.
    destruct (LoadOrCreate tab env dir rnd host fs2) as [fs4 [y|e]] eqn:E;
      injection Hx as <- <-; cbn in H.
    + case_decide as Hd; [|done]. unfold ret in H. injection H as <- _. subst y.
      by apply LoadOrCreate_Ok in E as [_ E].
    + case_decide as Hd; [|done]. by subst id.
  - apply bind_Ok in H as (fs3 & [] & _ & H).
    apply LoadOrCreate_stored; [done|]. by apply write_id_stored in H.
Qed.

(** With a readable node_id present, [LoadOrCreate] writes nothing. *)
Lemma LoadOrCreate_keeps dir rnd host fs f :
  files fs !! id_path dir = Some f →
  (LoadOrCreate tab env dir rnd host fs).1 = fs.
Proof.
  intros Hf. unfold LoadOrCreate, bind, try, ReadFile.
  fold (id_path dir). rewrite Hf.
  destruct (open_fault env (id_path dir)); [done|].
  by destruct (under_file _ _ _).
Qed.
Lemma keeps_LoadOrCreate K dir rnd host : keeps K (LoadOrCreate tab env dir rnd host).
Proof.
  intros fs q f _ Hf. destruct (decide (q = id_path dir)) as [->|Hne].
  - by rewrite (LoadOrCreate_keeps _ _ _ _ _ Hf).
  - destruct (framed_LoadOrCreate dir rnd host fs) as [F _]. by rewrite F.
Qed.

(** So does [Set] without [overwrite], when [os.Stat] of the file works; in any
    case it leaves the other files alone. *)
Lemma keeps_Set (K : path → Prop) dir id rnd host :
  (K (id_path dir) → stat_fault env (id_path dir) = false) →
  keeps K (Set_ tab env dir id false rnd host).
Proof.
  intros HK fs q f Hq Hf. destruct (decide (q = id_path dir)) as [->|Hne].
  2:{ destruct (framed_Set dir id false rnd host fs) as [F _]. by rewrite F. }
  specialize (HK Hq) as Hst. unfold Set_. unfold bind at 1, lift. destruct (Validate id); [|done].
  unfold bind at 1, try, Stat. fold (id_path dir). rewrite Hst.
  destruct (under_file fs (id_path dir).1 (id_path dir).2) eqn:Eu.
  - cbn [is_ok andb negb]. unfold bind.
    pose proof (framed_wrap (λ _, False) "identity: create %s: %w" _
                  (framed_MkdirAll env (λ _, False) (Clean dir)) fs) as [F _].
    destruct (wrapM _ _ fs) as [fs1 [[]|e]]; cbn in F; [|by rewrite F by tauto].
    unfold wrapM, WriteFile, bind, OpenFile.
    destruct (open_fault env (id_path dir)); [cbn; by rewrite F by tauto|].
    rewrite (under_file_same fs fs1) by (intros; by rewrite F by tauto). rewrite Eu.
    cbn. by rewrite F by tauto.
  - assert (is_ok (if is_dir fs (id_path dir) then Ok tt
                   else match files fs !! id_path dir with Some _ => Ok tt | None => Err ErrNotExist end)
            = true) as Ho by (rewrite Hf; by destruct (is_dir fs (id_path dir))).
    rewrite Ho. cbn [andb negb].
    apply (keeps_bind K _ _ (keeps_try _ _ (keeps_LoadOrCreate K dir rnd host))); [|exact Hq|exact Hf].
    intros x. case_decide; auto with keeps.
Qed.

(** A [Set] without [overwrite] that finds the file changes nothing. *)
Lemma Set_refuses dir new id rnd host fs f :
  files fs !! id_path dir = Some f → under_file fs (id_path dir).1 (id_path dir).2 = false →
  TrimSpace (fdata f) = id → stat_fault env (id_path dir) = false →
  ∃ out, Set_ tab env dir new false rnd host fs = (fs, out) ∧ (out = Ok tt → new = id).
Proof.
  intros Hf Hu Hid Hst. unfold Set_. destruct (Validate new) as [[]|e] eqn:Ev;
    [|exists (Err e); by rewrite (run_bind_Err _ _ _ fs e)].
  rewrite (run_bind _ _ fs fs tt) by done.
  assert (HS : Stat env (id_path dir) fs = (fs, Ok tt)).
  { unfold Stat. rewrite Hst, Hu, Hf. by destruct (is_dir fs _). }
  rewrite (run_bind _ _ fs fs (Ok tt)) by by apply run_try.
  change (is_ok (Ok tt) && negb false) with true. cbv beta iota.
  pose proof (LoadOrCreate_keeps dir rnd host fs f Hf) as Hk.
  destruct (LoadOrCreate tab env dir rnd host fs) as [fs1 out] eqn:El. cbn [fst] in Hk. subst fs1.
  rewrite (run_bind _ _ fs fs out) by by apply run_try.
  case_decide as E; [|eexists; by split]. exists (Ok tt). split; [done|]. intros _.
  destruct out as [old|e]; subst new.
  - apply LoadOrCreate_holds in El as (_ & f' & (Hf' & _) & <-). rewrite Hf in Hf'. by injection Hf' as <-.
  - rewrite Validate_label in Ev. by vm_compute in Ev.
Qed.
End IdentityFile.

(** ** Properties *)

(** [Validate], which runs the regular expression over the runes of the
    string, accepts exactly the labels: 1 to 63 bytes among lower-case letters,
    digits and dashes, not starting with a dash.  No non-ASCII or badly encoded
    string passes. *)
Theorem Validate_spec id : Validate id = Ok tt ↔ is_label id = true.
Proof. rewrite Validate_label. by destruct (is_label id). Qed.

(** Whatever the host name is (empty, not ASCII, badly encoded, longer
    than 63 bytes, made of dashes) and whatever the Unicode lower-case table
    says, a generated node_id is one that [Validate] accepts. *)
Theorem Generate_valid tab a b c host :
  ∃ id, Generate tab (Some (a, b, c)) host = Ok id ∧ Validate id = Ok tt.
Proof.
  destruct (Generate tab (Some (a, b, c)) host) as [id|e] eqn:E; [|done].
  exists id. split; [done|]. rewrite Validate_label.
  by rewrite (Generate_label _ _ _ _ E).
Qed.

(** C40: the node_id is created once and stays.  When [LoadOrCreate] returns an id,
    with any faults of the file system before, it is a valid one, and afterwards,
    under any faults: every call of [LoadOrCreate] leaves the file system as it is,
    and returns the same id if it can open the file, whatever the random source and
    the host name have become; [Set] without [overwrite] leaves the file system as
    it is when [os.Stat] can look the file up, and accepts no other id.  Only a
    [Set] with [overwrite] is there to change it: then the next [LoadOrCreate]
    returns the new id. *)
Theorem LoadOrCreate_stable tab env dir rnd host fs fs' id :
  LoadOrCreate tab env dir rnd host fs = (fs', Ok id) →
  Validate id = Ok tt ∧
  (∀ rnd' host', LoadOrCreate tab env dir rnd' host' fs' = (fs', Ok id)) ∧
  ∀ env' rnd' host',
    (LoadOrCreate tab env' dir rnd' host' fs').1 = fs' ∧
    (open_fault env' (id_path dir) = false →
       LoadOrCreate tab env' dir rnd' host' fs' = (fs', Ok id)) ∧
    (∀ new, stat_fault env' (id_path dir) = false →
       ∃ out, Set_ tab env' dir new false rnd' host' fs' = (fs', out) ∧ (out = Ok tt → new = id)) ∧
    (∀ new fs'', Set_ tab env' dir new true rnd' host' fs' = (fs'', Ok tt) →
       LoadOrCreate tab env' dir rnd' host' fs'' = (fs'', Ok new)).
Proof.
  intros H. pose proof (LoadOrCreate_holds _ _ _ _ _ _ _ _ H) as (Hl & f & (Hf & Hu & Ho) & Hid).
  assert (Hload : ∀ env' rnd' host', open_fault env' (id_path dir) = false →
            LoadOrCreate tab env' dir rnd' host' fs' = (fs', Ok id)).
  { intros env' rnd' host' Ho'. rewrite <-Hid in *. by apply LoadOrCreate_reads. }
  split; [by rewrite Validate_label, Hl|]. split; [intros; by apply Hload|].
  intros env' rnd' host'. split_and!.
  - by eapply LoadOrCreate_keeps.
  - apply Hload.
  - intros new Hst. by apply (Set_refuses tab env' dir new id rnd' host' fs' f).
  - intros new fs'' Hs. by apply (Set_then_load _ _ _ _ _ _ _ _ _ _ rnd' host') in Hs as [_ Hs].
Qed.

Definition fs0 : FS := mkFS ∅ ∅ 18.
Definition fs1 : FS :=
  mkFS {[ (false, ["node_id"; ".lcm"]) := mkFile mode_0600 ("box-010203" +:+ String "010" "") ]}
       {[ (false, [".lcm"]) ]} 18.

Lemma LoadOrCreate_stable_witness :
  LoadOrCreate id no_faults ".lcm" (Some ("001", "002", "003")%char) "Box.local" fs0
    = (fs1, Ok "box-010203") ∧
  LoadOrCreate id no_faults ".lcm" None "other" fs1 = (fs1, Ok "box-010203").
Proof.
  assert (H : LoadOrCreate id no_faults ".lcm" (Some ("001", "002", "003")%char)
            "Box.local" fs0 = (fs1, Ok "box-010203")) by (vm_compute; reflexivity).
  split; [exact H|].
  exact (proj1 (proj2 (LoadOrCreate_stable id no_faults ".lcm" _ _ fs0 fs1 "box-010203" H)) None "other").
Defined.

(** [Set] without [overwrite] never replaces a node_id: when the file is
    there (and can be looked up), no file changes, and the call succeeds exactly
    when the file already holds the requested id. *)
Theorem Set_keeps_existing tab env dir new old rnd host fs :
  is_label old = true →
  id_stored env dir old fs →
  is_dir fs (id_path dir) = false →
  stat_fault env (id_path dir) = false →
  Set_ tab env dir new false rnd host fs =
    (fs, check? Validate new in
         if decide (old = new) then Ok tt
         else Err (Errorf "identity: %s already holds node_id %q; certs are bound to it")).
Proof.
  intros Hl Hst Hd Hsf. pose proof Hst as [mode (Hf & Hu & Ho)].
  unfold Set_. destruct (Validate new) as [[]|e] eqn:Ev;
    [|by rewrite (run_bind_Err _ _ _ fs e)].
  rewrite (run_bind _ _ fs fs tt) by done.
  assert (HS : Stat env (id_path dir) fs = (fs, Ok tt)).
  { unfold Stat. by rewrite Hsf, Hu, Hd, Hf. }
  rewrite (run_bind _ _ fs fs (Ok tt)) by by apply run_try.
  change (is_ok (Ok tt) && negb false) with true. cbv beta iota.
  rewrite (run_bind _ _ fs fs (Ok old)); [by cbn; case_decide|].
  by apply run_try, LoadOrCreate_stored.
Qed.

Lemma Set_keeps_existing_witness :
  Set_ id no_faults ".lcm" "other" false None "" fs1 =
    (fs1, Err (Errorf "identity: %s already holds node_id %q; certs are bound to it")).
Proof.
  rewrite (Set_keeps_existing id no_faults ".lcm" "other" "box-010203" None "" fs1);
    [vm_compute; reflexivity|vm_compute; reflexivity| |vm_compute; reflexivity|reflexivity].
  exists mode_0600. split_and!; vm_compute; reflexivity.
Defined.

(** [Set] takes any error of [os.Stat] for the absence of the file, so a node_id
    that cannot be looked up is replaced without [overwrite]. *)
Theorem Set_trusts_any_stat_error :
  let env := mkOSEnv (λ _, false) (λ p, bool_decide (p = id_path ".lcm")) (λ _, false) (λ _, false)
               (λ _, false) (λ _, None) in
  (LoadOrCreate id no_faults ".lcm" None "" fs1).2 = Ok "box-010203" ∧
  let '(fs2, out) := Set_ id env ".lcm" "other" false None "" fs1 in
  out = Ok tt ∧ (LoadOrCreate id no_faults ".lcm" None "" fs2).2 = Ok "other".
Proof. vm_compute. done. Qed.
