(* ===== verification/Crypto.v ===== *)
(** * The cryptographic libraries, as an interface

    What the program uses of [crypto/x509], [crypto/ecdsa], [crypto/sha256],
    [crypto/hmac], [encoding/pem] and [golang.org/x/crypto/argon2]: the Go
    structures it reads and builds, the operations as a class, and the
    documented behaviour its correctness relies on as a second class,
    [CryptoLaws].  [SymCrypto.v] has a concrete instance of both, in which the
    witnesses compute. *)
From S2P Require Import Prelude GoStrings GoTime Labels.

(** ** Structures *)

Inductive curve := P256 | OtherCurve.
#[export] Instance curve_eq_dec : EqDecision curve.
Proof. solve_decision. Defined.

(** [ecdsa.PublicKey]: the curve and the coordinates, encoded. *)
Record PublicKey := mkPub { pub_curve : curve; pub_point : string }.
#[export] Instance PublicKey_eq_dec : EqDecision PublicKey.
Proof. solve_decision. Defined.

(** [ecdsa.PrivateKey] *)
Record PrivateKey := mkPriv { priv_pub : PublicKey; priv_d : string }.
#[export] Instance PrivateKey_eq_dec : EqDecision PrivateKey.
Proof. solve_decision. Defined.

(** A public key of type [any]: nil, an ECDSA key, or another algorithm's. *)
Inductive any_pub := NilPub | ECDSAPub (k : PublicKey) | OtherPub (k : string).
#[export] Instance any_pub_eq_dec : EqDecision any_pub.
Proof. solve_decision. Defined.

(** A private key of type [any], as PKCS#8 holds it. *)
Inductive any_priv := ECDSAPriv (k : PrivateKey) | OtherPriv (k : string).

(** [key.PublicKey.Equal(pub)] *)
Definition pub_Equal (k : PublicKey) (pub : any_pub) : bool := bool_decide (pub = ECDSAPub k).

(** The fields of [url.URL] the program reads. *)
Record URL := mkURL { Scheme : string; Host : string; Path : string }.
#[export] Instance URL_eq_dec : EqDecision URL.
Proof. solve_decision. Defined.

(** [x509.Certificate], also used as a template. *)
Record Certificate := mkCert {
  Raw : string;
  SerialNumber : Z;
  CommonName : string;
  Organization : list string;
  NotBefore : Time;
  NotAfter : Time;
  KeyUsage : Z;
  ExtKeyUsage : list Z;
  BasicConstraintsValid : bool;
  IsCA : bool;
  MaxPathLen : Z;
  MaxPathLenZero : bool;
  URIs : list URL;
  DNSNames : list string;
  cert_pub : any_pub
}.
#[export] Instance Certificate_eq_dec : EqDecision Certificate.
Proof. solve_decision. Defined.

(** [x509.KeyUsage] bits and [x509.ExtKeyUsage] values. *)
Definition KeyUsageDigitalSignature : Z := 1.
Definition KeyUsageCertSign : Z := 32.
Definition KeyUsageCRLSign : Z := 64.
Definition ExtKeyUsageServerAuth : Z := 1.
Definition ExtKeyUsageClientAuth : Z := 2.

(** [x509.CertificateRequest] *)
Record CSR := mkCSR { csr_raw : string; csr_cn : string; csr_pub : any_pub }.

(** X.509 times have no fraction of a second. *)
Definition trunc_sec (t : Time) : Time := (t / Second * Second)%Z.

(** URIs made of lower-case letters, digits, dashes and slashes: the ones that
    are the same after [URL.String] and [url.Parse]. *)
Definition plain_uri (u : URL) : bool :=
  sall is_lower (Scheme u) && negb (bool_decide (Scheme u = "")) &&
  sall label_byte (Host u) && negb (bool_decide (Host u = "")) &&
  HasPrefix (Path u) "/" && sall (λ a, label_byte a || bool_decide (a = "/"%char)) (Path u).

(** The path length that a template's certificate has: none ([-1]) when the
    template has the zero value of both fields. *)
Definition path_len (t : Certificate) : Z :=
  if bool_decide (MaxPathLen t = 0%Z) && negb (MaxPathLenZero t) then (-1)%Z else MaxPathLen t.

(** The templates that come back as they are: plain URIs, the basic constraints
    present, at most one organisation (more are sorted). *)
Definition plain_template (t : Certificate) : Prop :=
  Forall (λ u, plain_uri u = true) (URIs t) ∧ BasicConstraintsValid t = true ∧
  (length (Organization t) ≤ 1)%nat.

(** The certificate that such a template becomes, once issued and parsed: times are
    in whole seconds, and [MaxPathLenZero] says that the path length is zero. *)
Definition issued_cert (der : string) (t : Certificate) (pub : PublicKey) : Certificate :=
  mkCert der (SerialNumber t) (CommonName t) (Organization t)
    (trunc_sec (NotBefore t)) (trunc_sec (NotAfter t))
    (KeyUsage t) (ExtKeyUsage t) (BasicConstraintsValid t) (IsCA t)
    (path_len t) (bool_decide (path_len t = 0%Z)) (URIs t) (DNSNames t) (ECDSAPub pub).

(** Only a CA may have a path length, and none below [-1]. *)
Definition path_len_ok (t : Certificate) : Prop :=
  (-1 ≤ MaxPathLen t)%Z ∧ (IsCA t = false → path_len t = (-1)%Z).

(** X.509 represents the years 0 to 9999. *)
Definition x509_time (t : Time) : bool :=
  in_range (-62167219200) 253402300799 (t / Second).

(** ** Operations *)

Class Crypto := {
  sha256_Sum256 : string → string;
  (** HMAC-SHA256 of a message under a key *)
  hmac_sha256 : string → string → string;
  (** password, salt, time, memory, threads, key length *)
  argon2_IDKey : string → string → Z → Z → Z → Z → string;
  (** [ecdsa.GenerateKey(elliptic.P256(), r)] on the bytes read from [r] *)
  GenerateKey : string → PrivateKey;
  (** random bytes, template, parent, public key of the subject, key of the
      parent; the DER bytes, or an error *)
  CreateCertificate :
    string → Certificate → Certificate → PublicKey → PrivateKey → option string;
  ParseCertificate : string → option Certificate;
  (** random bytes, common name, key *)
  CreateCertificateRequest : string → string → PrivateKey → option string;
  ParseCertificateRequest : string → option CSR;
  CheckSignature : CSR → bool;
  (** [leaf.Verify] with the single root, any key usage and the current time *)
  x509_Verify : Certificate → Certificate → Time → bool;
  pem_Encode : string → string → string;
  pem_Decode : string → option (string * string);
  MarshalPKCS8PrivateKey : PrivateKey → option string;
  ParsePKCS8PrivateKey : string → option any_priv;
  ParseECPrivateKey : string → option PrivateKey
}.

(** The certificate a CA keeps with its key, and may sign with. *)
Definition signing_pair {C : Crypto} (cert : Certificate) (key : PrivateKey) : Prop :=
  IsCA cert = true ∧ BasicConstraintsValid cert = true ∧
  Z.testbit (KeyUsage cert) 5 = true ∧ cert_pub cert = ECDSAPub (priv_pub key).

(** ** Documented behaviour *)

Class CryptoLaws (C : Crypto) : Prop := {
  sha256_len s : slen (sha256_Sum256 s) = 32;
  GenerateKey_P256 r : pub_curve (priv_pub (GenerateKey r)) = P256;
  (** [ParseCertificate] keeps the bytes it parsed ... *)
  parse_Raw der c : ParseCertificate der = Some c → Raw c = der;
  (** ... and refuses trailing data: DER is self-delimiting. *)
  parse_prefix_free a b x y c d :
    ParseCertificate a = Some c → ParseCertificate b = Some d →
    a +:+ x = b +:+ y → a = b;
  (** Certificates carry the template's fields. *)
  create_parse r t parent pub key der :
    CreateCertificate r t parent pub key = Some der → plain_template t →
    ParseCertificate der = Some (issued_cert der t pub);
  (** A CA certificate whose key signs can be used as a parent, for itself too. *)
  create_ok r t parent pub key :
    cert_pub parent = ECDSAPub (priv_pub key) ∨ parent = t ∧ pub = priv_pub key →
    (0 < SerialNumber t)%Z → path_len_ok t →
    x509_time (NotBefore t) = true → x509_time (NotAfter t) = true →
    Forall (λ u, plain_uri u = true) (URIs t) →
    Forall (λ d, sall label_byte d = true) (DNSNames t) →
    is_Some (CreateCertificate r t parent pub key);
  (** What a CA issued verifies under it while both are valid. *)
  verify_issued r t ca key pub der leaf now :
    CreateCertificate r t ca pub key = Some der → ParseCertificate der = Some leaf →
    signing_pair ca key → IsCA leaf = false →
    (NotBefore leaf ≤ now ≤ NotAfter leaf)%Z → (NotBefore ca ≤ now ≤ NotAfter ca)%Z →
    x509_Verify leaf ca now = true;
  csr_parse r cn key der :
    CreateCertificateRequest r cn key = Some der →
    ∃ csr, ParseCertificateRequest der = Some csr ∧ csr_cn csr = cn ∧
           csr_pub csr = ECDSAPub (priv_pub key) ∧ CheckSignature csr = true;
  csr_ok r cn key : sall label_byte cn = true → is_Some (CreateCertificateRequest r cn key);
  pem_roundtrip ty b : pem_Decode (pem_Encode ty b) = Some (ty, b);
  pkcs8_roundtrip key der :
    MarshalPKCS8PrivateKey key = Some der → ParsePKCS8PrivateKey der = Some (ECDSAPriv key);
  pkcs8_ok key : is_Some (MarshalPKCS8PrivateKey key)
}.
