(* ===== verification/SymCrypto.v ===== *)
(** * A symbolic instance of the cryptographic interface

    Certificates, requests, keys and PEM blocks are written as self-delimiting
    records, a signature is the public key of the signer, and a MAC is the pair
    of its key and its message.  The instance satisfies every law of
    [CryptoLaws], so the theorems that assume them are not vacuous, and it
    computes, so witnesses evaluate the definitions on concrete inputs. *)
From S2P Require Import Prelude GoStrings GoTime Crypto.

(** ** Self-delimiting encodings *)

(** A string with an escape before each byte and a terminator. *)
Fixpoint esc (s : string) : string :=
  match s with
  | "" => "."
  | String a s' => String "," (String a (esc s'))
  end.

Fixpoint unesc (s : string) : option (string * string) :=
  match s with
  | String "." r => Some ("", r)
  | String "," (String a r) =>
      match unesc r with Some (t, r') => Some (String a t, r') | None => None end
  | _ => None
  end.

Lemma unesc_esc s r : unesc (esc s +:+ r) = Some (s, r).
Proof.
  induction s as [|a s IH]; [done|].
  cbn [esc]. rewrite !app_cons_s. cbn [unesc]. by rewrite IH.
Qed.

(** A list of strings. *)
Fixpoint enc_list (l : list string) : string :=
  match l with
  | [] => "."
  | s :: l' => String "," (esc s +:+ enc_list l')
  end.

Fixpoint dec_list_go (fuel : nat) (s : string) : option (list string * string) :=
  match fuel, s with
  | _, String "." r => Some ([], r)
  | S f, String "," r =>
      match unesc r with
      | Some (t, r') =>
          match dec_list_go f r' with
          | Some (l, r'') => Some (t :: l, r'')
          | None => None
          end
      | None => None
      end
  | _, _ => None
  end.
Definition dec_list (s : string) : option (list string) :=
  match dec_list_go (slen s) s with Some (l, "") => Some l | _ => None end.

Lemma slen_esc s : 1 ≤ slen (esc s).
Proof. destruct s; simpl; lia. Qed.

Lemma dec_enc_go l f r :
  slen (enc_list l) ≤ f → dec_list_go f (enc_list l +:+ r) = Some (l, r).
Proof.
  revert f. induction l as [|s l IH]; intros f Hf; [by destruct f|].
  cbn [enc_list slen] in *. rewrite slen_app in Hf. pose proof (slen_esc s).
  destruct f as [|f]; [lia|]. rewrite app_cons_s, app_assoc_s. cbn [dec_list_go].
  rewrite unesc_esc, IH by lia. done.
Qed.

Lemma dec_enc l : dec_list (enc_list l) = Some l.
Proof.
  unfold dec_list. rewrite <-(app_nil_r_s (enc_list l)) at 2.
  by rewrite dec_enc_go.
Qed.

Lemma enc_list_prefix_free l l' x y :
  enc_list l +:+ x = enc_list l' +:+ y → l = l'.
Proof.
  intros H. set (f := slen (enc_list l) + slen (enc_list l')).
  pose proof (dec_enc_go l f x ltac:(lia)) as H1.
  pose proof (dec_enc_go l' f y ltac:(lia)) as H2. congruence.
Qed.

(** Integers, by their binary expansion. *)
Fixpoint enc_pos (p : positive) : string :=
  match p with
  | xH => ""
  | xO p' => String "0" (enc_pos p')
  | xI p' => String "1" (enc_pos p')
  end.
Fixpoint dec_pos (s : string) : positive :=
  match s with
  | "" => xH
  | String a s' => if decide (a = "1"%char) then xI (dec_pos s') else xO (dec_pos s')
  end.
Definition enc_Z (z : Z) : string :=
  match z with
  | Z0 => "z"
  | Zpos p => String "+" (enc_pos p)
  | Zneg p => String "-" (enc_pos p)
  end.
Definition dec_Z (s : string) : Z :=
  match s with
  | String "+" s' => Zpos (dec_pos s')
  | String "-" s' => Zneg (dec_pos s')
  | _ => 0%Z
  end.
Lemma dec_enc_pos p : dec_pos (enc_pos p) = p.
Proof. induction p as [p IH|p IH|]; cbn; by rewrite ?IH. Qed.
Lemma dec_enc_Z z : dec_Z (enc_Z z) = z.
Proof. destruct z; cbn; by rewrite ?dec_enc_pos. Qed.

Definition enc_bool (b : bool) : string := if b then "1" else "0".
Definition dec_bool (s : string) : bool := bool_decide (s = "1").
Definition enc_map {A} (f : A → string) (l : list A) : string := enc_list (f <$> l).
Definition dec_map {A} (f : string → A) (s : string) : list A :=
  match dec_list s with Some l => f <$> l | None => [] end.

Lemma dec_enc_bool b : dec_bool (enc_bool b) = b.
Proof. by destruct b. Qed.
Lemma dec_enc_map {A} (f : A → string) (g : string → A) l :
  (∀ a, g (f a) = a) → dec_map g (enc_map f l) = l.
Proof.
  intros Hgf. unfold dec_map, enc_map. rewrite dec_enc.
  induction l as [|a l IH]; [done|]. cbn. by rewrite Hgf, IH.
Qed.

Definition enc_url (u : URL) : string := enc_list [Scheme u; Host u; Path u].
Definition dec_url (s : string) : URL :=
  match dec_list s with Some [a; b; c] => mkURL a b c | _ => mkURL "" "" "" end.
Lemma dec_enc_url u : dec_url (enc_url u) = u.
Proof. unfold dec_url, enc_url. rewrite dec_enc. by destruct u. Qed.

Definition enc_pub (k : PublicKey) : string :=
  String (if decide (pub_curve k = P256) then "p" else "o")%char (pub_point k).
Definition dec_pub (s : string) : PublicKey :=
  match s with
  | String "p" r => mkPub P256 r
  | String _ r => mkPub OtherCurve r
  | "" => mkPub OtherCurve ""
  end.
Lemma dec_enc_pub k : dec_pub (enc_pub k) = k.
Proof. by destruct k as [[] ?]. Qed.

(** ** Certificates and requests *)

(** The signature comes first: it is the key that signed. *)
Definition sym_der (sig : PublicKey) (t : Certificate) (pub : PublicKey) : string :=
  enc_list [enc_pub sig; enc_Z (SerialNumber t); CommonName t;
            enc_map id (Organization t);
            enc_Z (trunc_sec (NotBefore t)); enc_Z (trunc_sec (NotAfter t));
            enc_Z (KeyUsage t); enc_map enc_Z (ExtKeyUsage t);
            enc_bool (BasicConstraintsValid t); enc_bool (IsCA t);
            enc_Z (path_len t);
            enc_map enc_url (URIs t); enc_map id (DNSNames t); enc_pub pub].

Definition sym_parse (der : string) : option Certificate :=
  match dec_list der with
  | Some [sig; sn; cn; org; nb; na; ku; eku; bcv; ca; mpl; uris; dns; pub] =>
      if decide (enc_list [sig; sn; cn; org; nb; na; ku; eku; bcv; ca; mpl; uris; dns; pub] = der)
      then Some (mkCert der (dec_Z sn) cn (dec_map id org) (dec_Z nb) (dec_Z na)
             (dec_Z ku) (dec_map dec_Z eku) (dec_bool bcv) (dec_bool ca)
             (dec_Z mpl) (bool_decide (dec_Z mpl = 0%Z)) (dec_map dec_url uris) (dec_map id dns)
             (ECDSAPub (dec_pub pub)))
      else None
  | _ => None
  end.

Definition sym_sig (der : string) : option PublicKey :=
  match dec_list der with Some (sig :: _) => Some (dec_pub sig) | _ => None end.

(** The certificate can be a parent: its key is the one that signs, or it is
    the self-signed template.  Only a CA may have a path length. *)
Definition sym_create (r : string) (t parent : Certificate) (pub : PublicKey)
    (key : PrivateKey) : option string :=
  if decide ((cert_pub parent = ECDSAPub (priv_pub key) ∨ parent = t ∧ pub = priv_pub key) ∧ path_len_ok t)
  then Some (sym_der (priv_pub key) t pub) else None.

Definition sym_verify (leaf root : Certificate) (now : Time) : bool :=
  IsCA root && BasicConstraintsValid root && Z.testbit (KeyUsage root) 5 &&
  in_range (NotBefore leaf) (NotAfter leaf) now &&
  in_range (NotBefore root) (NotAfter root) now &&
  match sym_sig (Raw leaf) with
  | Some k => bool_decide (cert_pub root = ECDSAPub k)
  | None => false
  end.

Definition sym_csr (r cn : string) (key : PrivateKey) : option string :=
  Some (enc_list [cn; enc_pub (priv_pub key); enc_pub (priv_pub key)]).
Definition sym_parse_csr (der : string) : option CSR :=
  match dec_list der with
  | Some [cn; pub; _] => Some (mkCSR der cn (ECDSAPub (dec_pub pub)))
  | _ => None
  end.
Definition sym_check_csr (csr : CSR) : bool :=
  match dec_list (csr_raw csr) with
  | Some [_; pub; sig] => bool_decide (pub = sig)
  | _ => false
  end.

Definition sym_pkcs8 (key : PrivateKey) : string :=
  enc_list [enc_pub (priv_pub key); priv_d key].
Definition sym_parse_pkcs8 (der : string) : option any_priv :=
  match dec_list der with
  | Some [p; d] => Some (ECDSAPriv (mkPriv (dec_pub p) d))
  | _ => None
  end.

(** Cut or padded to 32 bytes, as a digest is. *)
Definition sym_sha256 (s : string) : string :=
  stake 32 (s +:+ "................................").

Lemma sym_sha256_len s : slen (sym_sha256 s) = 32.
Proof.
  unfold sym_sha256. rewrite slen_stake, slen_app.
  change (slen "................................") with 32. lia.
Qed.

#[export] Instance sym_crypto : Crypto := {|
  sha256_Sum256 := sym_sha256;
  hmac_sha256 k m := enc_list [k; m];
  argon2_IDKey pw salt _ _ _ _ := enc_list [pw; salt];
  GenerateKey r := mkPriv (mkPub P256 r) r;
  CreateCertificate := sym_create;
  ParseCertificate := sym_parse;
  CreateCertificateRequest := sym_csr;
  ParseCertificateRequest := sym_parse_csr;
  CheckSignature := sym_check_csr;
  x509_Verify := sym_verify;
  pem_Encode ty b := enc_list [ty; b];
  pem_Decode s := match dec_list s with Some [ty; b] => Some (ty, b) | _ => None end;
  MarshalPKCS8PrivateKey k := Some (sym_pkcs8 k);
  ParsePKCS8PrivateKey := sym_parse_pkcs8;
  ParseECPrivateKey _ := None
|}.

Lemma sym_parse_der sig t pub :
  sym_parse (sym_der sig t pub) = Some (issued_cert (sym_der sig t pub) t pub).
Proof.
  unfold sym_parse, sym_der. rewrite dec_enc, decide_True by done.
  by rewrite !dec_enc_Z, !dec_enc_bool, !(dec_enc_map id), (dec_enc_map enc_Z),
    (dec_enc_map enc_url), dec_enc_pub by (auto using dec_enc_Z, dec_enc_url).
Qed.

Lemma sym_parse_Some der c :
  sym_parse der = Some c → Raw c = der ∧ ∃ l, der = enc_list l.
Proof.
  unfold sym_parse. intros H. destruct (dec_list der) as [l|]; [|done].
  repeat (destruct l as [|? l]; try done).
  case_decide as E; [|done]. injection H as <-. split; [done|]. by eexists.
Qed.

#[export] Instance sym_laws : CryptoLaws sym_crypto.
Proof.
  split; cbn -[sym_sha256 enc_list].
  - apply sym_sha256_len.
  - done.
  - intros der c H. by apply sym_parse_Some in H as [? _].
  - intros a b x y c d Ha Hb E.
    apply sym_parse_Some in Ha as [_ [l ->]]. apply sym_parse_Some in Hb as [_ [l' ->]].
    by rewrite (enc_list_prefix_free _ _ _ _ E).
  - unfold sym_create. intros r t parent pub key der H _.
    case_decide; [|done]. injection H as <-. apply sym_parse_der.
  - unfold sym_create. intros. rewrite decide_True by done. by eexists.
  - unfold sym_create. intros r t ca key pub der leaf now Hc Hp (H1 & H2 & H3 & H4) Hl Hn Hn'.
    case_decide; [|done]. injection Hc as <-. rewrite sym_parse_der in Hp.
    unfold sym_verify. rewrite H1, H2, H3, H4.
    rewrite !(proj2 (in_range_true _ _ _)) by done.
    assert (Raw leaf = sym_der (priv_pub key) t pub) as -> by by apply (inj Some) in Hp as <-.
    unfold sym_sig, sym_der. rewrite dec_enc, dec_enc_pub.
    by rewrite bool_decide_true.
  - intros r cn key der H. apply (inj Some) in H as <-. eexists. split; [unfold sym_parse_csr; by rewrite dec_enc|].
    split_and!; [done|by cbn [csr_pub]; rewrite dec_enc_pub|]. unfold sym_check_csr. cbn [csr_raw].
    rewrite dec_enc. by rewrite bool_decide_true.
  - intros. by eexists.
  - intros ty b. by rewrite dec_enc.
  - intros key der H. apply (inj Some) in H as <-. unfold sym_parse_pkcs8, sym_pkcs8.
    rewrite dec_enc, dec_enc_pub. by destruct key.
  - intros. by eexists.
Qed.
