(* ===== verification/PkiCA.v ===== *)
(** * Package [internal/pki], the certificate authority

    Models [src/internal/pki/ca.go]: principals and their URIs, the mesh CA,
    the certificates it issues and their verification. *)
From S2P Require Import Prelude GoStrings GoUtf8 GoTime Labels Crypto SymCrypto.
From S2P Require Identity.
Local Open Scope Z_scope.

(** ** Constants and errors *)

Definition URIScheme : string := "lcm".
Definition RoleNode : string := "node".
Definition RoleAdmin : string := "admin".

Definition CACertTTL : Duration := 10 * 365 * 24 * Hour.
Definition DefaultNodeCertTTL : Duration := 30 * 24 * Hour.
Definition DefaultAdminCertTTL : Duration := 365 * 24 * Hour.
Definition backdate : Duration := 5 * Minute.

Definition ErrNoMeshURI := ErrorsNew "pki: certificate has no lcm:// SAN URI".
Definition ErrMeshMismatch := ErrorsNew "pki: certificate belongs to a different mesh".
Definition ErrBadPrincipal := ErrorsNew "pki: malformed lcm:// SAN URI".
Definition ErrBadCSR := ErrorsNew "pki: invalid certificate request".
Definition ErrNotCA := ErrorsNew "pki: certificate is not a CA".
Definition ErrKeyMismatch := ErrorsNew "pki: certificate does not match private key".
Definition ErrInvalidNodeID :=
  ErrorsNew "pki: node_id must match ^[a-z0-9][a-z0-9-]{0,62}$".

(** ** Principals *)

Record Principal := mkPrincipal { MeshID : string; Role : string; Name : string }.

#[export] Instance Principal_eq_dec : EqDecision Principal.
Proof. solve_decision. Defined.

(** [Principal.URI] *)
Definition principal_URI (p : Principal) : URL :=
  mkURL URIScheme (MeshID p) ("/" +:+ Role p +:+ "/" +:+ Name p).

(** [ParsePrincipal]; [None] is the nil pointer. *)
Definition ParsePrincipal (u : option URL) : result Principal :=
  match u with
  | None => Err ErrBadPrincipal
  | Some u =>
      if negb (bool_decide (Scheme u = URIScheme)) || bool_decide (Host u = "")
      then Err ErrBadPrincipal
      else
        match Split (TrimPrefix (Path u) "/") "/" with
        | [role; name] =>
            if bool_decide (role = "") || bool_decide (name = "")
            then Err (Wrap "%w: %s" ErrBadPrincipal)
            else if negb (bool_decide (role = RoleNode)) && negb (bool_decide (role = RoleAdmin))
            then Err (Wrap "%w: unknown role %q" ErrBadPrincipal)
            else Ok (mkPrincipal (Host u) role name)
        | _ => Err (Wrap "%w: %s" ErrBadPrincipal)
        end
  end.

(** The loop of [PrincipalFromCert] over the URIs. *)
Fixpoint principal_from_uris (us : list URL) : result Principal :=
  match us with
  | [] => Err ErrNoMeshURI
  | u :: us' =>
      if bool_decide (Scheme u = URIScheme) then ParsePrincipal (Some u)
      else principal_from_uris us'
  end.
Definition PrincipalFromCert (cert : Certificate) : result Principal :=
  principal_from_uris (URIs cert).

(** ** Labels and serial numbers *)

(** The loop body of [validateLabel], at byte index [i]. *)
Definition label_rune (i : nat) (r : Z) : bool :=
  in_range 97 122 r || in_range 48 57 r || ((r =? 45) && (0 <? i)%nat).

Definition validateLabel (s : string) : result unit :=
  if (slen s =? 0)%nat || (63 <? slen s)%nat then Err (Errorf "%q length must be 1..63")
  else if forallb (λ ir, label_rune ir.1 ir.2) (range s) then Ok tt
  else Err (Errorf "%q contains invalid character %q").

(** [rand.Int(rand.Reader, 2^128)] is the argument, [None] when it fails. *)
Definition newSerial (rnd : option Z) : result Z :=
  match rnd with
  | Some s => Ok (s + 1)
  | None => Err (Errorf "pki: serial: %w")
  end.

(** ** The certificate authority *)

Record CA := mkCA { Cert : Certificate; Key : PrivateKey }.

(** [CA.MeshID] *)
Definition ca_MeshID (ca : CA) : string :=
  match Organization (Cert ca) with o :: _ => o | [] => "" end.

(** [CA.Pool]: the certificates added to a new pool. *)
Definition ca_Pool (ca : CA) : list Certificate := [Cert ca].

(** A pointer to a public key may be nil. *)
Record SignRequest := mkSignRequest {
  req_Principal : Principal;
  req_PublicKey : option PublicKey;
  req_TTL : Duration
}.

(** What the environment gives to a call that issues a certificate: the serial
    number drawn, the reading of the clock and the randomness of the signature. *)
Record IssueEnv := mkIssueEnv { serial_rnd : option Z; issue_now : Time; sig_rnd : string }.

Section PkiCA.
Context {C : Crypto}.

(** [NewKey]; [None] when the random source fails. *)
Definition NewKey (rnd : option string) : result PrivateKey :=
  match rnd with
  | Some r => Ok (GenerateKey r)
  | None => Err (Errorf "ecdsa: %w")
  end.

Definition ca_template (meshID : string) (serial : Z) (now : Time) : Certificate :=
  mkCert "" serial "Local Compute Mesh CA" [meshID]
    (time_Add now (- backdate)) (time_Add now CACertTTL)
    (Z.lor (Z.lor KeyUsageCertSign KeyUsageCRLSign) KeyUsageDigitalSignature) []
    true true 0 true [] [] NilPub.

Definition parse_cert (der : string) : result Certificate :=
  of_option (ParseCertificate der) (Errorf "x509: malformed certificate").

Definition NewCA (meshID : string) (key_rnd : option string) (e : IssueEnv) : result CA :=
  check? wrap_err "pki: mesh_id: %w" (validateLabel meshID) in
  let? key := wrap_err "pki: generate CA key: %w" (NewKey key_rnd) in
  let? serial := newSerial (serial_rnd e) in
  let tmpl := ca_template meshID serial (issue_now e) in
  let? der := of_option (CreateCertificate (sig_rnd e) tmpl tmpl (priv_pub key) key)
                (Errorf "pki: self-sign CA: %w") in
  let? cert := parse_cert der in
  Ok (mkCA cert key).

Definition LoadCA (cert : Certificate) (key : PrivateKey) : result CA :=
  if negb (IsCA cert) then Err ErrNotCA
  else if negb (pub_Equal (priv_pub key) (cert_pub cert)) then Err ErrKeyMismatch
  else Ok (mkCA cert key).

Definition leaf_template (p : Principal) (serial : Z) (now : Time) (ttl : Duration)
  : Certificate :=
  mkCert "" serial (Name p) [MeshID p]
    (time_Add now (- backdate)) (time_Add now ttl)
    KeyUsageDigitalSignature [ExtKeyUsageServerAuth; ExtKeyUsageClientAuth]
    true false 0 false [principal_URI p]
    (if decide (Role p = RoleNode) then [Name p] else []) NilPub.

(** [CA.Sign] *)
Definition Sign (ca : CA) (req : SignRequest) (e : IssueEnv) : result Certificate :=
  let p := req_Principal req in
  if negb (bool_decide (MeshID p = ca_MeshID ca))
  then Err (Wrap "%w: CA is %q, request is %q" ErrMeshMismatch)
  else if negb (is_ok (validateLabel (Name p))) then Err (Wrap "%w: %v" ErrInvalidNodeID)
  else if negb (bool_decide (Role p = RoleNode)) && negb (bool_decide (Role p = RoleAdmin))
  then Err (Wrap "%w: role %q" ErrBadPrincipal)
  else match req_PublicKey req with
  | None => Err (ErrorsNew "pki: public key required")
  | Some pub =>
    if req_TTL req <=? 0 then Err (ErrorsNew "pki: TTL must be positive")
    else
      let? serial := newSerial (serial_rnd e) in
      let tmpl := leaf_template p serial (issue_now e) (req_TTL req) in
      let? der := of_option (CreateCertificate (sig_rnd e) tmpl (Cert ca) pub (Key ca))
                    (Errorf "pki: sign: %w") in
      parse_cert der
  end.

(** [CA.SignCSR] *)
Definition SignCSR (ca : CA) (csrDER : string) (p : Principal) (ttl : Duration)
    (e : IssueEnv) : result Certificate :=
  match ParseCertificateRequest csrDER with
  | None => Err (Wrap "%w: %v" ErrBadCSR)
  | Some csr =>
    if negb (CheckSignature csr) then Err (Wrap "%w: bad signature: %v" ErrBadCSR)
    else match csr_pub csr with
    | ECDSAPub pub =>
        if negb (bool_decide (pub_curve pub = P256))
        then Err (Wrap "%w: key must be ECDSA P-256" ErrBadCSR)
        else Sign ca (mkSignRequest p (Some pub) ttl) e
    | _ => Err (Wrap "%w: key must be ECDSA P-256" ErrBadCSR)
    end
  end.

Definition VerifyAgainst (caCert leaf : Certificate) (now : Time) : result Principal :=
  if negb (x509_Verify leaf caCert now) then Err (Errorf "pki: verify: %w")
  else
    let? p := PrincipalFromCert leaf in
    let meshID := match Organization caCert with o :: _ => o | [] => "" end in
    if negb (bool_decide (MeshID p = meshID))
    then Err (Wrap "%w: cert %q, CA %q" ErrMeshMismatch)
    else Ok p.

(** [CA.Verify] *)
Definition ca_Verify (ca : CA) (leaf : Certificate) (now : Time) : result Principal :=
  VerifyAgainst (Cert ca) leaf now.

Definition NewCSR (nodeID : string) (key : PrivateKey) (rnd : string) : result string :=
  if negb (is_ok (validateLabel nodeID)) then Err (Wrap "%w: %v" ErrInvalidNodeID)
  else of_option (CreateCertificateRequest rnd nodeID key) (Errorf "x509: %w").

Definition Fingerprint (cert : Certificate) : string := HexEncode (sha256_Sum256 (Raw cert)).
End PkiCA.

(** ** Lemmas on labels and principals *)

Lemma validateLabel_label s : is_ok (validateLabel s) = is_label s.
Proof.
  unfold validateLabel, is_label.
  destruct (slen s =? 0)%nat eqn:E0; [by destruct s|].
  destruct (63 <? slen s)%nat eqn:E1; cbn [orb].
  { apply Nat.ltb_lt in E1. rewrite (proj2 (Nat.leb_gt _ 63)) by lia.
    by rewrite andb_false_r. }
  apply Nat.eqb_neq in E0. apply Nat.ltb_ge in E1.
  rewrite (proj2 (Nat.leb_le 1 _)), (proj2 (Nat.leb_le _ 63)) by lia. cbn [andb].
  transitivity (forallb (λ ir, label_rune ir.1 ir.2) (range s)).
  { by destruct (forallb _ _). }
  unfold range. rewrite (range_forallb_bytes label_rune).
  - destruct s as [|a s]; [done|]. cbn [sall first_ne].
    rewrite label_byte_val. unfold label_rune.
    assert (sall (λ b, in_range 97 122 (byte_val b) || in_range 48 57 (byte_val b)
                       || (byte_val b =? 45) && (0 <? 1)%nat) s = sall label_byte s) as ->.
    { apply sall_ext. intros b. rewrite label_byte_val. by rewrite andb_true_r. }
    destruct (decide (a = "-"%char)) as [->|Hne].
    + rewrite (bool_decide_true (_ = _)) by done. by destruct (sall label_byte s).
    + rewrite (bool_decide_false (a = _)) by done. cbn [negb]. rewrite andb_true_r.
      assert ((byte_val a =? 45) = false) as ->; [|by rewrite andb_false_l].
      apply Z.eqb_neq. intros H. apply Hne. by apply byte_val_inj.
  - done.
  - intros j r Hr. unfold label_rune, in_range. lia.
  - intros j r Hj. unfold label_rune.
    by rewrite (proj2 (Nat.ltb_lt 0 j)).
Qed.

Lemma validateLabel_Ok s u : validateLabel s = Ok u ↔ is_label s = true.
Proof.
  rewrite <-validateLabel_label. destruct u, (validateLabel s) as [[]|]; done.
Qed.

(** What a principal of the mesh looks like. *)
Definition role_ok (r : string) : bool := bool_decide (r = RoleNode ∨ r = RoleAdmin).
Definition wf_principal (p : Principal) : Prop :=
  MeshID p ≠ "" ∧ role_ok (Role p) = true ∧ Name p ≠ "" ∧ lacks "/" (Name p) = true.

Lemma role_ok_spec r : role_ok r = true ↔ r = RoleNode ∨ r = RoleAdmin.
Proof. apply bool_decide_eq_true. Qed.

Lemma role_ok_guard r :
  negb (bool_decide (r = RoleNode)) && negb (bool_decide (r = RoleAdmin)) = negb (role_ok r).
Proof. unfold role_ok. repeat case_bool_decide; naive_solver. Qed.

Lemma role_ok_lacks r : role_ok r = true → lacks "/" r = true ∧ r ≠ "".
Proof. by intros [->| ->]%role_ok_spec. Qed.

Lemma ParsePrincipal_Ok u p :
  ParsePrincipal (Some u) = Ok p ↔
  wf_principal p ∧ Scheme u = URIScheme ∧ Host u = MeshID p ∧
  TrimPrefix (Path u) "/" = Role p +:+ String "/" (Name p).
Proof.
  unfold ParsePrincipal, wf_principal. split.
  - destruct (negb _ || _) eqn:E; [done|]. apply orb_false_iff in E as [E1 E2].
    inv_ok. apply negb_false_iff, bool_decide_eq_true in E1.
    destruct (Split _ _) as [|role [|name [|? ?]]] eqn:Es; try done.
    apply Split_two in Es as (Ep & Hr & Hn). rewrite role_ok_guard.
    repeat case_bool_decide; try done. cbn [orb].
    destruct (role_ok role) eqn:Er; [|done]. cbn. intros [= <-]. naive_solver.
  - intros ((Hm & Hr & Hn & Hl) & -> & Hh & Ep). rewrite Hh, Ep.
    apply role_ok_lacks in Hr as Hrl. destruct Hrl as [Hrl Hrne].
    rewrite (proj2 (Split_two _ _ (Role p) (Name p))) by done.
    rewrite role_ok_guard, Hr, (bool_decide_true (URIScheme = URIScheme)) by done.
    rewrite !bool_decide_false by done. by destruct p.
Qed.

Lemma principal_URI_path p :
  TrimPrefix (Path (principal_URI p)) "/" = Role p +:+ String "/" (Name p).
Proof. apply TrimPrefix_app. Qed.

Lemma ParsePrincipal_URI p : wf_principal p → ParsePrincipal (Some (principal_URI p)) = Ok p.
Proof. intros Hp. apply ParsePrincipal_Ok. by rewrite principal_URI_path. Qed.

Lemma label_lacks_slash s : sall label_byte s = true → lacks "/" s = true.
Proof.
  apply sall_impl. intros a H. apply negb_true_iff, bool_decide_eq_false.
  intros ->. done.
Qed.

Lemma is_label_nonempty s : is_label s = true → s ≠ "".
Proof. by intros H ->. Qed.

Lemma label_principal_wf m r n :
  is_label m = true → role_ok r = true → is_label n = true →
  wf_principal (mkPrincipal m r n).
Proof.
  intros Hm Hr Hn. split_and!; simpl; auto using is_label_nonempty.
  apply is_label_spec in Hn as (_ & Hn & _). by apply label_lacks_slash.
Qed.

Lemma label_principal_plain m r n :
  is_label m = true → role_ok r = true → is_label n = true →
  plain_uri (principal_URI (mkPrincipal m r n)) = true.
Proof.
  intros Hm Hr Hn. unfold plain_uri, principal_URI. cbn [Scheme Host Path MeshID Role Name].
  rewrite (HasPrefix_app (r +:+ "/" +:+ n) "/").
  apply is_label_nonempty in Hm as Hm'. rewrite (bool_decide_false (m = "")) by done.
  apply is_label_spec in Hm as (_ & -> & _). apply is_label_spec in Hn as (_ & Hn & _).
  cbn [andb negb sall bool_decide].
  assert (Hsl : ∀ s, sall label_byte s = true →
    sall (λ a, label_byte a || bool_decide (a = "/"%char)) s = true).
  { intros s. apply sall_impl. by intros a ->. }
  rewrite !sall_app, (Hsl n Hn), (Hsl r); [done|].
  by apply role_ok_spec in Hr as [->| ->].
Qed.

(** ** Issuing and verifying *)

Section PkiCAFacts.
Context {C : Crypto}.

(** The guards of [Sign], in one test. *)
Definition sign_request_ok (ca : CA) (req : SignRequest) : bool :=
  let p := req_Principal req in
  bool_decide (MeshID p = ca_MeshID ca) && is_label (Name p) && role_ok (Role p) &&
  bool_decide (req_PublicKey req ≠ None) && (0 <? req_TTL req).

(** [Sign] past its guards. *)
Definition issue (ca : CA) (p : Principal) (pub : PublicKey) (ttl : Duration)
    (e : IssueEnv) : result Certificate :=
  let? serial := newSerial (serial_rnd e) in
  let? der := of_option
    (CreateCertificate (sig_rnd e) (leaf_template p serial (issue_now e) ttl)
       (Cert ca) pub (Key ca)) (Errorf "pki: sign: %w") in
  parse_cert der.

Lemma Sign_ok_request ca req e :
  sign_request_ok ca req = true →
  ∃ pub, req_PublicKey req = Some pub ∧
         Sign ca req e = issue ca (req_Principal req) pub (req_TTL req) e.
Proof.
  unfold sign_request_ok. intros H. inv_ok.
  destruct (req_PublicKey req) as [pub|] eqn:Ep; [|done].
  exists pub. split; [done|]. unfold Sign.
  rewrite validateLabel_label, role_ok_guard, Ep.
  repeat match goal with H : _ = true |- _ => rewrite H end.
  rewrite bool_decide_true by done. cbn [negb].
  destruct (Z.leb_spec (req_TTL req) 0); [lia|done].
Qed.

Lemma Sign_bad_request ca req e :
  sign_request_ok ca req = false → ∃ err, Sign ca req e = Err err.
Proof.
  unfold sign_request_ok, Sign. intros H.
  rewrite validateLabel_label, role_ok_guard.
  destruct (bool_decide _); [|by eexists]. destruct (is_label _); [|by eexists].
  destruct (role_ok _); [|by eexists]. destruct (req_PublicKey req); [|by eexists].
  cbn in *. destruct (Z.leb_spec (req_TTL req) 0); [by eexists|].
  rewrite (proj2 (Z.ltb_lt 0 _)) in H by lia. done.
Qed.

Lemma Sign_Ok ca req e cert :
  Sign ca req e = Ok cert →
  sign_request_ok ca req = true ∧
  ∃ pub serial der,
    req_PublicKey req = Some pub ∧ serial_rnd e = Some serial ∧
    CreateCertificate (sig_rnd e)
      (leaf_template (req_Principal req) (serial + 1) (issue_now e) (req_TTL req))
      (Cert ca) pub (Key ca) = Some der ∧
    ParseCertificate der = Some cert.
Proof.
  intros H. destruct (sign_request_ok ca req) eqn:Er.
  - split; [done|]. destruct (Sign_ok_request ca req e Er) as (pub & Hp & E).
    rewrite E in H. unfold issue, newSerial, parse_cert in H.
    destruct (serial_rnd e) as [s|]; [|done]. cbn in H.
    apply rbind_Ok in H as (der & H1%of_option_Ok & H2%of_option_Ok).
    by exists pub, s, der.
  - destruct (Sign_bad_request ca req e Er) as [err E]. by rewrite E in H.
Qed.

Context {L : CryptoLaws C}.

Lemma sign_request_plain ca req :
  is_label (ca_MeshID ca) = true → sign_request_ok ca req = true →
  Forall (λ u, plain_uri u = true) [principal_URI (req_Principal req)] ∧
  wf_principal (req_Principal req).
Proof.
  unfold sign_request_ok. intros Hm H. inv_ok.
  destruct (req_Principal req) as [m r n]; cbn in *. subst m. split.
  - constructor; [|done]. by apply label_principal_plain.
  - by apply label_principal_wf.
Qed.

Lemma leaf_plain p serial now ttl :
  Forall (λ u, plain_uri u = true) [principal_URI p] → plain_template (leaf_template p serial now ttl).
Proof. by intros H. Qed.

(** All that a signed certificate is. *)
Lemma Sign_issued ca req e cert :
  is_label (ca_MeshID ca) = true → Sign ca req e = Ok cert →
  ∃ pub serial der,
    req_PublicKey req = Some pub ∧ serial_rnd e = Some serial ∧
    CreateCertificate (sig_rnd e)
      (leaf_template (req_Principal req) (serial + 1) (issue_now e) (req_TTL req))
      (Cert ca) pub (Key ca) = Some der ∧
    ParseCertificate der = Some cert ∧
    cert = issued_cert der
      (leaf_template (req_Principal req) (serial + 1) (issue_now e) (req_TTL req)) pub ∧
    PrincipalFromCert cert = Ok (req_Principal req).
Proof.
  intros Hm H. apply Sign_Ok in H as (Hok & pub & s & der & Hp & Hs & Hc & Hpc).
  destruct (sign_request_plain ca req Hm Hok) as [Hplain Hwf].
  pose proof (create_parse _ _ _ _ _ _ Hc (leaf_plain _ _ _ _ Hplain)) as Hpc'.
  rewrite Hpc in Hpc'. apply (inj Some) in Hpc'.
  exists pub, s, der. split_and!; try done.
  rewrite Hpc'. unfold PrincipalFromCert. cbn [URIs issued_cert leaf_template principal_from_uris].
  cbn [Scheme principal_URI]. rewrite bool_decide_true by done.
  by apply ParsePrincipal_URI.
Qed.

Lemma trunc_sec_le t : trunc_sec t ≤ t < trunc_sec t + Second.
Proof.
  unfold trunc_sec, Second. pose proof (Z.div_mod t 1000000000).
  pose proof (Z.mod_pos_bound t 1000000000). lia.
Qed.

Lemma trunc_sec_mono t u : t ≤ u → trunc_sec t ≤ trunc_sec u.
Proof.
  intros H. unfold trunc_sec, Second. apply Z.mul_le_mono_nonneg_r; [done|].
  by apply Z.div_le_mono.
Qed.

(** [VerifyAgainst] inverted. *)
Lemma VerifyAgainst_Ok caCert leaf now p :
  VerifyAgainst caCert leaf now = Ok p ↔
  x509_Verify leaf caCert now = true ∧ PrincipalFromCert leaf = Ok p ∧
  MeshID p = match Organization caCert with o :: _ => o | [] => "" end.
Proof.
  unfold VerifyAgainst. split.
  - destruct (x509_Verify _ _ _); [|done]. cbn.
    intros (q & Hq & H)%rbind_Ok. case_bool_decide; [|done]. cbn in H. by inv_ok.
  - intros (-> & -> & Hm). cbn. by rewrite bool_decide_true.
Qed.

Lemma principal_from_uris_wf us p : principal_from_uris us = Ok p → wf_principal p.
Proof.
  induction us as [|u us IH]; cbn [principal_from_uris]; [done|].
  case_bool_decide; [|done].
  intros Hp%ParsePrincipal_Ok. by destruct Hp.
Qed.

(** A CA fit to sign, for a mesh whose name is a label. *)
Definition wf_CA (ca : CA) : Prop :=
  signing_pair (Cert ca) (Key ca) ∧ is_label (ca_MeshID ca) = true.

Lemma NewCA_Ok meshID kr e ca :
  NewCA meshID kr e = Ok ca →
  wf_CA ca ∧ ca_MeshID ca = meshID ∧ LoadCA (Cert ca) (Key ca) = Ok ca ∧
  NotBefore (Cert ca) = trunc_sec (issue_now e - backdate) ∧
  NotAfter (Cert ca) = trunc_sec (issue_now e + CACertTTL).
Proof.
  unfold NewCA. intros H. inv_ok. destruct a as [].
  match goal with H : validateLabel _ = _ |- _ => apply validateLabel_Ok in H end.
  match goal with H : newSerial _ = _ |- _ => clear H end.
  match goal with Hc : CreateCertificate _ _ _ _ _ = _, Hp : parse_cert _ = _ |- _ =>
    apply create_parse in Hc; [|split_and!; [constructor|done|cbn; lia]];
    unfold parse_cert in Hp; rewrite Hc in Hp; apply of_option_Ok, (inj Some) in Hp
  end.
  subst a3. unfold wf_CA, signing_pair, LoadCA, ca_MeshID.
  cbn -[CACertTTL backdate Z.testbit]. unfold pub_Equal.
  rewrite bool_decide_true by done. split_and!; done.
Qed.

(** Whatever a CA signs, it accepts while both certificates are valid. *)
Lemma NewCA_parses meshID kr e ca :
  NewCA meshID kr e = Ok ca → ParseCertificate (Raw (Cert ca)) = Some (Cert ca).
Proof.
  unfold NewCA. cbv zeta. intros H. unfold parse_cert in H. inv_ok. cbn.
  match goal with H : ParseCertificate _ = Some _ |- _ => by rewrite (parse_Raw _ _ H) end.
Qed.

Lemma Sign_verifies ca req e cert now :
  wf_CA ca → Sign ca req e = Ok cert →
  NotBefore cert ≤ now ≤ NotAfter cert →
  NotBefore (Cert ca) ≤ now ≤ NotAfter (Cert ca) →
  VerifyAgainst (Cert ca) cert now = Ok (req_Principal req).
Proof.
  intros [Hsp Hm] H Hn Hn'. pose proof H as Hs.
  apply Sign_Ok in Hs as (Hok & _). unfold sign_request_ok in Hok. inv_ok.
  apply Sign_issued in H as (pub & s & der & _ & _ & Hc & Hpc & E & Hp); [|done].
  apply VerifyAgainst_Ok. split_and!; [|done|done].
  eapply verify_issued; try done. by rewrite E.
Qed.

(** With a usable clock and random source, every acceptable request is signed. *)
Lemma Sign_succeeds ca req e s :
  wf_CA ca → sign_request_ok ca req = true →
  serial_rnd e = Some s → 0 ≤ s →
  x509_time (issue_now e - backdate) = true →
  x509_time (issue_now e + req_TTL req) = true →
  ∃ cert, Sign ca req e = Ok cert.
Proof.
  intros [Hsp Hm] Hok Hs Hs0 Ht1 Ht2.
  destruct (sign_request_plain ca req Hm Hok) as [Hplain _].
  destruct (Sign_ok_request ca req e Hok) as (pub & Hp & ->).
  unfold issue, newSerial. rewrite Hs. cbn [rbind].
  destruct Hsp as (_ & _ & _ & Hpub).
  destruct (create_ok (sig_rnd e)
    (leaf_template (req_Principal req) (s + 1) (issue_now e) (req_TTL req))
    (Cert ca) pub (Key ca)) as [der Hder]; cbn; auto with lia.
  { by split. }
  { unfold sign_request_ok in Hok. inv_ok. case_decide; [|done].
    constructor; [|done]. match goal with H : is_label _ = true |- _ =>
      by apply is_label_spec in H as (_ & ? & _) end. }
  rewrite Hder. cbn. unfold parse_cert.
  rewrite (create_parse _ _ _ _ _ _ Hder (leaf_plain _ _ _ _ Hplain)). by eexists.
Qed.
End PkiCAFacts.

(** ** A mesh for the witnesses *)

(** A request that is signed is signed as the principal, for its own key. *)
Lemma SignCSR_Sign {C : Crypto} ca csrDER p ttl e cert :
  SignCSR ca csrDER p ttl e = Ok cert →
  ∃ pub, Sign ca (mkSignRequest p (Some pub) ttl) e = Ok cert.
Proof.
  unfold SignCSR. destruct (ParseCertificateRequest csrDER) as [csr|]; [|done].
  destruct (CheckSignature csr); [|done]. cbn. destruct (csr_pub csr) as [|pub|]; try done.
  case_bool_decide; [|done]. cbn. by exists pub.
Qed.

(** What a signed request leads to. *)
Lemma SignCSR_issued {C : Crypto} {L : CryptoLaws C} ca csrDER p ttl e cert :
  is_label (ca_MeshID ca) = true → SignCSR ca csrDER p ttl e = Ok cert →
  ∃ csr pub, ParseCertificateRequest csrDER = Some csr ∧ CheckSignature csr = true ∧
    csr_pub csr = ECDSAPub pub ∧ pub_curve pub = P256 ∧
    cert_pub cert = ECDSAPub pub ∧ PrincipalFromCert cert = Ok p.
Proof.
  unfold SignCSR. intros Hm H.
  destruct (ParseCertificateRequest csrDER) as [csr|]; [|done].
  destruct (CheckSignature csr) eqn:Ec; [|done]. cbn in H.
  destruct (csr_pub csr) as [|pub|] eqn:Ep; try done.
  case_bool_decide as Hc; [|done]. cbn in H. exists csr, pub.
  apply Sign_issued in H as (pub' & s & der & Hp & _ & _ & _ & E & HP); [|done].
  injection Hp as ->. by rewrite E in *.
Qed.

Definition ex_now : Time := 1000 * Second.
Definition ex_env : IssueEnv := mkIssueEnv (Some 7) ex_now "r".
Definition ex_ca_result : result CA := NewCA "home" (Some "k") ex_env.
Definition ex_ca : CA :=
  match ex_ca_result with
  | Ok ca => ca
  | Err _ => mkCA (ca_template "" 0 0) (GenerateKey "")
  end.
Definition ex_pub : PublicKey := mkPub P256 "node-key".
Definition ex_req : SignRequest :=
  mkSignRequest (mkPrincipal "home" RoleNode "box") (Some ex_pub) DefaultNodeCertTTL.
Definition ex_cert : Certificate :=
  match Sign ex_ca ex_req ex_env with Ok c => c | Err _ => ca_template "" 0 0 end.

(** ** Properties *)

(** The loop of [pki.validateLabel] and the regular expression of
    [identity.Validate] accept the same strings, so a node_id accepted by one
    package is never refused by the other. *)
Theorem validateLabel_is_Validate s :
  is_ok (validateLabel s) = is_ok (Identity.Validate s).
Proof.
  rewrite validateLabel_label, Identity.Validate_label. by destruct (is_label s).
Qed.

(** A principal survives the trip through its URI exactly when it is well
    formed (a mesh, one of the two roles, a non-empty name with no slash);
    nothing else is ever parsed back as itself. *)
Theorem principal_roundtrip p :
  ParsePrincipal (Some (principal_URI p)) = Ok p ↔ wf_principal p.
Proof.
  split; [|apply ParsePrincipal_URI].
  intros H. by apply ParsePrincipal_Ok in H as [? _].
Qed.

(** C29: a certificate issued by [Sign] is a leaf for the CA's own mesh: it names
    exactly the principal of the request, in the mesh of the CA, carries the
    requested public key, is not a CA, has a DNS name for nodes only, and is
    valid from at most five minutes before to at most the requested time after
    the moment of signing. *)
Theorem Sign_binds_principal {C : Crypto} {L : CryptoLaws C} ca req e cert :
  is_label (ca_MeshID ca) = true → Sign ca req e = Ok cert →
  let p := req_Principal req in
  PrincipalFromCert cert = Ok p ∧ MeshID p = ca_MeshID ca ∧
  role_ok (Role p) = true ∧ is_label (Name p) = true ∧
  req_PublicKey req = (match cert_pub cert with ECDSAPub k => Some k | _ => None end) ∧
  IsCA cert = false ∧ Z.testbit (KeyUsage cert) 5 = false ∧
  DNSNames cert = (if decide (Role p = RoleNode) then [Name p] else []) ∧
  issue_now e - backdate - Second < NotBefore cert ≤ issue_now e - backdate ∧
  NotAfter cert ≤ issue_now e + req_TTL req.
Proof.
  intros Hm H. pose proof H as Hs. apply Sign_Ok in Hs as (Hok & _).
  unfold sign_request_ok in Hok. inv_ok.
  apply Sign_issued in H as (pub & s & der & Hp & _ & _ & _ & E & HP); [|done].
  pose proof (trunc_sec_le (issue_now e - backdate)).
  pose proof (trunc_sec_le (issue_now e + req_TTL req)).
  rewrite E in *. cbn. unfold time_Add.
  rewrite !Z.add_opp_r. split_and!; auto; lia.
Qed.

Lemma Sign_binds_principal_witness :
  Sign ex_ca ex_req ex_env = Ok ex_cert ∧
  PrincipalFromCert ex_cert = Ok (mkPrincipal "home" RoleNode "box").
Proof.
  assert (H : Sign ex_ca ex_req ex_env = Ok ex_cert) by (vm_compute; reflexivity).
  split; [exact H|].
  apply (Sign_binds_principal ex_ca ex_req ex_env ex_cert); [vm_compute; reflexivity|exact H].
Defined.

(** [Sign] succeeds on exactly the acceptable requests: same mesh, a label
    for a name, a known role, a public key and a positive lifetime, provided
    the CA's key is its own, the random source works and the dates can be
    written in a certificate. *)
Theorem Sign_total {C : Crypto} {L : CryptoLaws C} ca req e s :
  wf_CA ca → serial_rnd e = Some s → 0 ≤ s →
  x509_time (issue_now e - backdate) = true →
  x509_time (issue_now e + req_TTL req) = true →
  is_ok (Sign ca req e) = sign_request_ok ca req.
Proof.
  intros Hca Hs Hs0 H1 H2. destruct (sign_request_ok ca req) eqn:E.
  - by destruct (Sign_succeeds ca req e s Hca E Hs Hs0 H1 H2) as [c ->].
  - by destruct (Sign_bad_request ca req e E) as [err ->].
Qed.

Lemma ex_ca_wf : wf_CA ex_ca.
Proof. apply (NewCA_Ok "home" (Some "k") ex_env). vm_compute. reflexivity. Qed.

Lemma Sign_total_witness : is_ok (Sign ex_ca ex_req ex_env) = true.
Proof.
  rewrite (Sign_total ex_ca ex_req ex_env 7 ex_ca_wf);
    [vm_compute; reflexivity|reflexivity|lia|vm_compute; reflexivity|vm_compute; reflexivity].
Defined.

(** [SignCSR] issues only for a request that parses, whose signature is
    valid and whose key is ECDSA P-256; the certificate carries that key, and
    the principal given by the caller, whatever the subject of the request is. *)
Theorem SignCSR_sound {C : Crypto} {L : CryptoLaws C} ca csrDER p ttl e cert :
  is_label (ca_MeshID ca) = true → SignCSR ca csrDER p ttl e = Ok cert →
  ∃ csr pub, ParseCertificateRequest csrDER = Some csr ∧ CheckSignature csr = true ∧
    csr_pub csr = ECDSAPub pub ∧ pub_curve pub = P256 ∧
    cert_pub cert = ECDSAPub pub ∧ PrincipalFromCert cert = Ok p.
Proof. apply SignCSR_issued. Qed.

Definition ex_csr : string :=
  match CreateCertificateRequest "r" "other-name" (GenerateKey "joiner") with
  | Some s => s | None => "" end.

Lemma SignCSR_sound_witness :
  ∃ cert csr pub,
    SignCSR ex_ca ex_csr (mkPrincipal "home" RoleNode "box") Hour ex_env = Ok cert ∧
    ParseCertificateRequest ex_csr = Some csr ∧ cert_pub cert = ECDSAPub pub ∧
    PrincipalFromCert cert = Ok (mkPrincipal "home" RoleNode "box").
Proof.
  destruct (SignCSR ex_ca ex_csr (mkPrincipal "home" RoleNode "box") Hour ex_env)
    as [cert|err] eqn:E; [|vm_compute in E; discriminate E].
  destruct (SignCSR_sound ex_ca ex_csr _ Hour ex_env cert ltac:(vm_compute; reflexivity) E)
    as (csr & pub & H1 & H2 & H3 & H4 & H5 & H6).
  exists cert, csr, pub. auto.
Defined.

(** C30: a mesh CA made by [NewCA] loads back from its certificate and key, and
    it verifies everything it signs, for the very principal it signed, at any
    moment both certificates are valid. *)
Theorem NewCA_signs_and_verifies {C : Crypto} {L : CryptoLaws C}
    meshID kr e0 ca req e cert now :
  NewCA meshID kr e0 = Ok ca → Sign ca req e = Ok cert →
  NotBefore cert ≤ now ≤ NotAfter cert →
  trunc_sec (issue_now e0 - backdate) ≤ now ≤ trunc_sec (issue_now e0 + CACertTTL) →
  LoadCA (Cert ca) (Key ca) = Ok ca ∧
  MeshID (req_Principal req) = meshID ∧
  ca_Verify ca cert now = Ok (req_Principal req).
Proof.
  intros Hca Hs Hn Hn'. apply NewCA_Ok in Hca as (Hwf & Hm & Hl & Hb & Ha).
  split; [done|]. split.
  - apply Sign_Ok in Hs as (Hok & _). unfold sign_request_ok in Hok. inv_ok. congruence.
  - apply (Sign_verifies _ _ _ _ _ Hwf Hs Hn). by rewrite Hb, Ha.
Qed.

Lemma NewCA_signs_and_verifies_witness :
  ca_Verify ex_ca ex_cert (2000 * Second) = Ok (mkPrincipal "home" RoleNode "box").
Proof.
  apply (NewCA_signs_and_verifies "home" (Some "k") ex_env ex_ca ex_req ex_env ex_cert
    (2000 * Second)); vm_compute; try reflexivity; split; discriminate.
Defined.
