(* ===== verification/PkiPem.v ===== *)
(** * Package [internal/pki], PEM files

    Models [src/internal/pki/pem.go]: the PEM forms of certificates and keys,
    and the files of the data directory that hold them. *)
From S2P Require Import Prelude GoStrings GoTime GoOS Crypto SymCrypto PkiCA.

Definition CACertFile : string := "ca.crt".
Definition CAKeyFile : string := "ca.key".
Definition NodeCertFile : string := "node.crt".
Definition NodeKeyFile : string := "node.key".
Definition AdminCertFile : string := "admin.crt".
Definition AdminKeyFile : string := "admin.key".

Definition ErrExists : error := ErrorsNew "pki: file already exists".

Section PkiPem.
Context {C : Crypto} (env : OSEnv).

Definition EncodeCertPEM (cert : Certificate) : string := pem_Encode "CERTIFICATE" (Raw cert).

Definition EncodeKeyPEM (key : PrivateKey) : result string :=
  let? der := of_option (MarshalPKCS8PrivateKey key) (Errorf "pki: marshal key: %w") in
  Ok (pem_Encode "PRIVATE KEY" der).

Definition ParseCertPEM (b : string) : result Certificate :=
  match pem_Decode b with
  | Some (ty, bytes) =>
      if decide (ty = "CERTIFICATE") then parse_cert bytes
      else Err (ErrorsNew "pki: no CERTIFICATE block")
  | None => Err (ErrorsNew "pki: no CERTIFICATE block")
  end.

Definition ParseKeyPEM (b : string) : result PrivateKey :=
  match pem_Decode b with
  | None => Err (ErrorsNew "pki: no PEM block")
  | Some (ty, bytes) =>
      if decide (ty = "PRIVATE KEY") then
        match ParsePKCS8PrivateKey bytes with
        | None => Err (Errorf "x509: PKCS#8")
        | Some (ECDSAPriv k) => Ok k
        | Some (OtherPriv _) => Err (ErrorsNew "pki: key is not ECDSA")
        end
      else if decide (ty = "EC PRIVATE KEY") then
        of_option (ParseECPrivateKey bytes) (Errorf "x509: EC private key")
      else Err (Errorf "pki: unexpected PEM type %q")
  end.

(** [writeFile]: with [overwrite] unset the file is opened with [O_EXCL]. *)
Definition writeFile (dir name data : string) (perm : Z) (overwrite : bool) : M unit :=
  do! wrapM "pki: create %s: %w" (MkdirAll env (Clean dir)) in
  let path := Join dir name in
  let! o := try (OpenFile env path (negb overwrite) perm) in
  match o with
  | Err e => if errors_Is e ErrExist then fail (Wrap "%w: %s" ErrExists)
             else fail (Wrap "pki: open %s: %w" e)
  | Ok _ =>
      let! w := try (Write env path data) in
      match w with
      | Err e => do! try (Close env path) in fail (Wrap "pki: write %s: %w" e)
      | Ok _ =>
          let! c := try (Chmod env path perm) in
          match c with
          | Err e => do! try (Close env path) in fail e
          | Ok _ => Close env path
          end
      end
  end.

Definition WriteCert (dir name : string) (cert : Certificate) (overwrite : bool) : M unit :=
  writeFile dir name (EncodeCertPEM cert) mode_0644 overwrite.

Definition WriteKey (dir name : string) (key : PrivateKey) (overwrite : bool) : M unit :=
  let! b := lift (EncodeKeyPEM key) in
  writeFile dir name b mode_0600 overwrite.

Definition ReadCert (dir name : string) : M Certificate :=
  let! b := ReadFile env (Join dir name) in lift (ParseCertPEM b).

Definition ReadKey (dir name : string) : M PrivateKey :=
  let! b := ReadFile env (Join dir name) in lift (ParseKeyPEM b).

Definition ReadCA (dir : string) : M CA :=
  let! cert := ReadCert dir CACertFile in
  let! key := ReadKey dir CAKeyFile in
  lift (LoadCA cert key).
End PkiPem.

(** ** Lemmas *)

Section PemFacts.
Context {C : Crypto} {L : CryptoLaws C} (env : OSEnv).

Lemma ParseCertPEM_Encode cert :
  ParseCertificate (Raw cert) = Some cert → ParseCertPEM (EncodeCertPEM cert) = Ok cert.
Proof.
  intros H. unfold ParseCertPEM, EncodeCertPEM. rewrite pem_roundtrip.
  rewrite decide_True by done. unfold parse_cert. by rewrite H.
Qed.

Lemma ParseKeyPEM_Encode key b : EncodeKeyPEM key = Ok b → ParseKeyPEM b = Ok key.
Proof.
  unfold EncodeKeyPEM. intros H. inv_ok. unfold ParseKeyPEM. rewrite pem_roundtrip.
  rewrite decide_True by done.
  match goal with H : MarshalPKCS8PrivateKey _ = _ |- _ =>
    by rewrite (pkcs8_roundtrip _ _ H) end.
Qed.

Lemma EncodeKeyPEM_ok key : ∃ b, EncodeKeyPEM key = Ok b.
Proof.
  unfold EncodeKeyPEM. destruct (pkcs8_ok key) as [der ->]. by eexists.
Qed.

(** What a successful [writeFile] leaves: the data, readable, with the exact
    mode, whatever the umask and the mode of a file that was there. *)
Lemma writeFile_Ok dir name data perm ow fs fs' u :
  writeFile env dir name data perm ow fs = (fs', Ok u) →
  holds env (Join dir name) (mkFile perm data) fs' ∧
  (ow = false → files fs !! Join dir name = None) ∧
  frame (λ q, q = Join dir name) fs fs'.
Proof.
  unfold writeFile. intros (fs1 & [] & Hm%wrapM_Ok & H)%bind_Ok.
  pose proof (framed_MkdirAll env (λ q, q = Join dir name) (Clean dir) fs) as Fm.
  pose proof (framed_MkdirAll env (λ _, False) (Clean dir) fs) as Fm0.
  rewrite Hm in Fm, Fm0. simpl in Fm, Fm0.
  set (p := Join dir name) in *.
  destruct (OpenFile env p (negb ow) perm fs1) as [fs2 [[]|e]] eqn:Eo.
  2:{ rewrite (run_bind _ _ fs1 fs2 (Err e)) in H by by apply run_try.
      by destruct (errors_Is e ErrExist). }
  rewrite (run_bind _ _ fs1 fs2 (Ok tt)) in H by by apply run_try.
  apply OpenFile_Ok in Eo as (Hu & Ho & -> & Hex).
  set (m := match files fs1 !! p with Some f => fmode f | None => _ end) in *.
  destruct (Write env p data (set_file p (mkFile m "") fs1)) as [fs3 [[]|e]] eqn:Ew.
  2:{ rewrite (run_bind _ _ _ fs3 (Err e)) in H by by apply run_try. done. }
  rewrite (run_bind _ _ _ fs3 (Ok tt)) in H by by apply run_try.
  apply (Write_Ok _ _ _ (mkFile m "")) in Ew; [|simpl; by rewrite lookup_insert_eq].
  rewrite set_file_twice in Ew. subst fs3.
  unfold bind, try, Chmod in H. simpl in H. rewrite lookup_insert_eq in H.
  destruct (chmod_fault env p); [done|]. unfold Close in H.
  destruct (close_fault env p); [done|]. injection H as <- _.
  change (set_file p (mkFile perm data) (set_file p (mkFile m data) fs1))
    with (set_file p (mkFile perm data) (set_file p (mkFile m data) fs1)).
  rewrite set_file_twice. split_and!.
  - split_and!; [by simpl; rewrite lookup_insert_eq|by rewrite under_file_insert|done].
  - intros ->. rewrite <-(proj1 Fm0 p) by tauto. by apply Hex.
  - etrans; [exact Fm|]. by apply frame_set_file.
Qed.

Lemma framed_writeFile (P : path → Prop) dir name data perm ow :
  P (Join dir name) → framed P (writeFile env dir name data perm ow).
Proof.
  intros HP. unfold writeFile. apply framed_bind; [auto with frame|]. intros _.
  apply framed_bind; [auto with frame|]. intros [[]|e].
  - apply framed_bind; [auto with frame|]. intros [[]|e]; [|auto with frame].
    apply framed_bind; [auto with frame|]. intros [[]|e]; auto with frame.
  - destruct (errors_Is e ErrExist); auto with frame.
Qed.

Lemma framed_WriteCert (P : path → Prop) dir name cert ow :
  P (Join dir name) → framed P (WriteCert env dir name cert ow).
Proof. apply framed_writeFile. Qed.

Lemma framed_WriteKey (P : path → Prop) dir name key ow :
  P (Join dir name) → framed P (WriteKey env dir name key ow).
Proof.
  intros HP. unfold WriteKey. apply framed_bind; [auto with frame|].
  intros b. by apply framed_writeFile.
Qed.

(** Without [overwrite], an existing file never changes, even when the call
    fails half way. *)
Lemma writeFile_keeps dir name data perm fs f q :
  files fs !! q = Some f →
  files (writeFile env dir name data perm false fs).1 !! q = Some f.
Proof.
  intros Hf. destruct (decide (q = Join dir name)) as [->|Hne].
  - unfold writeFile, bind.
    pose proof (framed_wrap (λ _, False) "pki: create %s: %w" _
                  (framed_MkdirAll env (λ _, False) (Clean dir)) fs) as Fm.
    destruct (wrapM _ _ fs) as [fs1 [[]|e]]; cbn in Fm;
      [|by rewrite (proj1 Fm) by tauto].
    assert (Hf1 : files fs1 !! Join dir name = Some f) by by rewrite (proj1 Fm) by tauto.
    unfold try. destruct (OpenFile env (Join dir name) (negb false) perm fs1)
      as [fs2 [[]|e]] eqn:Eo.
    + apply OpenFile_Ok in Eo as (_ & _ & _ & Hex). by rewrite Hex in Hf1.
    + assert (fs2 = fs1) as ->.
      { unfold OpenFile in Eo. rewrite Hf1 in Eo. cbn in Eo.
        repeat case_match; naive_solver. }
      by destruct (errors_Is e ErrExist).
  - rewrite (proj1 (framed_writeFile (λ q, q = Join dir name) dir name data perm false
                      eq_refl fs)); [done|]. simpl. congruence.
Qed.

Lemma keeps_WriteCert K dir name cert : keeps K (WriteCert env dir name cert false).
Proof. intros fs q f _. apply writeFile_keeps. Qed.
Lemma keeps_WriteKey K dir name key : keeps K (WriteKey env dir name key false).
Proof.
  unfold WriteKey. apply keeps_bind; [auto with keeps|]. intros b fs q f _. apply writeFile_keeps.
Qed.

(** The certificate or key file is in place, with its mode. *)
Definition cert_stored (dir name : string) (cert : Certificate) (fs : FS) : Prop :=
  holds env (Join dir name) (mkFile mode_0644 (EncodeCertPEM cert)) fs.
Definition key_stored (dir name : string) (key : PrivateKey) (fs : FS) : Prop :=
  ∃ b, EncodeKeyPEM key = Ok b ∧ holds env (Join dir name) (mkFile mode_0600 b) fs.

Lemma WriteCert_Ok dir name cert ow fs fs' u :
  WriteCert env dir name cert ow fs = (fs', Ok u) →
  cert_stored dir name cert fs' ∧ frame (λ q, q = Join dir name) fs fs'.
Proof. intros H. apply writeFile_Ok in H as (? & _ & ?). done. Qed.

Lemma WriteKey_Ok dir name key ow fs fs' u :
  WriteKey env dir name key ow fs = (fs', Ok u) →
  key_stored dir name key fs' ∧ frame (λ q, q = Join dir name) fs fs'.
Proof.
  unfold WriteKey. intros (fs1 & b & Hb & H)%bind_Ok.
  unfold lift in Hb. injection Hb as <- Hb.
  apply writeFile_Ok in H as (? & _ & ?). split; [by exists b|done].
Qed.

Lemma ReadCert_stored dir name cert fs :
  ParseCertificate (Raw cert) = Some cert → cert_stored dir name cert fs →
  ReadCert env dir name fs = (fs, Ok cert).
Proof.
  intros Hp Hs. unfold ReadCert.
  rewrite (run_bind _ _ _ _ _ (ReadFile_holds _ _ _ _ Hs)).
  unfold lift. cbn [fdata]. by rewrite ParseCertPEM_Encode.
Qed.

Lemma ReadKey_stored dir name key fs :
  key_stored dir name key fs → ReadKey env dir name fs = (fs, Ok key).
Proof.
  intros (b & Hb & Hs). unfold ReadKey.
  rewrite (run_bind _ _ _ _ _ (ReadFile_holds _ _ _ _ Hs)).
  unfold lift. cbn [fdata]. by rewrite (ParseKeyPEM_Encode _ _ Hb).
Qed.

Lemma ReadCA_stored dir ca fs :
  ParseCertificate (Raw (Cert ca)) = Some (Cert ca) → LoadCA (Cert ca) (Key ca) = Ok ca →
  cert_stored dir CACertFile (Cert ca) fs → key_stored dir CAKeyFile (Key ca) fs →
  ReadCA env dir fs = (fs, Ok ca).
Proof.
  intros Hp Hl Hc Hk.
  unfold ReadCA. rewrite (run_bind _ _ _ _ _ (ReadCert_stored _ _ _ _ Hp Hc)).
  rewrite (run_bind _ _ _ _ _ (ReadKey_stored _ _ _ _ Hk)).
  unfold lift. by rewrite Hl.
Qed.

(** Files written beside it leave a stored file as it is. *)
Lemma holds_frame_ne p q f fs fs' :
  holds env p f fs → frame (λ x, x = q) fs fs' → p ≠ q →
  p.1 = q.1 → length q.2 = length p.2 → holds env p f fs'.
Proof.
  intros (Hf & Hu & Ho) (F & _) Hne Hr Hl. split_and!; [by rewrite F| |done].
  destruct p as [r st], q as [r' st']. simpl in *. subst r'.
  revert Hu. assert (Hgen : ∀ l, length l ≤ length st →
    under_file fs r l = false → under_file fs' r l = false).
  { induction l as [|c l IH]; simpl; [done|]. intros Hlen [H1 H2]%orb_false_iff.
    rewrite IH by (done || lia). rewrite orb_false_r, F; [done|].
    intros [= ->]. lia. }
  apply Hgen. lia.
Qed.
(** The same, for files of one data directory. *)
Lemma holds_beside dir n n' f fs fs' :
  plain_name n = true → plain_name n' = true → n ≠ n' →
  holds env (Join dir n) f fs → frame (λ q, q = Join dir n') fs fs' → holds env (Join dir n) f fs'.
Proof.
  intros Hn Hn' Hne Hh F.
  eapply holds_frame_ne; [exact Hh|exact F|rewrite !Join_plain by done; naive_solver..].
Qed.

Lemma cert_beside dir n n' cert fs fs' :
  plain_name n = true → plain_name n' = true → n ≠ n' →
  cert_stored dir n cert fs → frame (λ q, q = Join dir n') fs fs' → cert_stored dir n cert fs'.
Proof. apply holds_beside. Qed.

Lemma key_beside dir n n' key fs fs' :
  plain_name n = true → plain_name n' = true → n ≠ n' →
  key_stored dir n key fs → frame (λ q, q = Join dir n') fs fs' → key_stored dir n key fs'.
Proof. intros Hn Hn' Hne (b & Hb & Hh) F. exists b. split; [done|]. by eapply holds_beside. Qed.
End PemFacts.

(** ** Properties *)

(** When [WriteCert] and [WriteKey] report success for a CA, [ReadCA]
    returns that CA: the certificate and the key survive DER, PEM and the disk. *)
Theorem ReadCA_after_write {C : Crypto} {L : CryptoLaws C} env dir ca ow fs fs1 fs2 :
  ParseCertificate (Raw (Cert ca)) = Some (Cert ca) →
  LoadCA (Cert ca) (Key ca) = Ok ca →
  WriteCert env dir CACertFile (Cert ca) ow fs = (fs1, Ok tt) →
  WriteKey env dir CAKeyFile (Key ca) ow fs1 = (fs2, Ok tt) →
  ReadCA env dir fs2 = (fs2, Ok ca).
Proof.
  intros Hp Hl [Hc _]%WriteCert_Ok [Hk F]%WriteKey_Ok.
  assert (Hc2 : cert_stored env dir CACertFile (Cert ca) fs2).
  { eapply holds_frame_ne; [exact Hc|exact F|rewrite !Join_plain by done..]; done. }
  by apply ReadCA_stored.
Qed.

Definition ex_fs1 : FS := (WriteCert no_faults "d" CACertFile (Cert ex_ca) false (mkFS ∅ ∅ 18)).1.
Definition ex_fs2 : FS := (WriteKey no_faults "d" CAKeyFile (Key ex_ca) false ex_fs1).1.

Lemma ReadCA_after_write_witness : ReadCA no_faults "d" ex_fs2 = (ex_fs2, Ok ex_ca).
Proof.
  apply (ReadCA_after_write no_faults "d" ex_ca false (mkFS ∅ ∅ 18) ex_fs1 ex_fs2);
    vm_compute; reflexivity.
Defined.

(** A private key is written with mode 0600 exactly, whatever the umask is
    and whatever the mode of the file it replaces was; and nothing else in the
    file system changes, except for directories created on the way. *)
Theorem WriteKey_private {C : Crypto} {L : CryptoLaws C} env dir name key ow fs fs' :
  WriteKey env dir name key ow fs = (fs', Ok tt) →
  (∃ b, files fs' !! Join dir name = Some (mkFile mode_0600 b) ∧ ParseKeyPEM b = Ok key) ∧
  frame (λ q, q = Join dir name) fs fs'.
Proof.
  intros [(b & Hb & Hf & _) F]%WriteKey_Ok. split; [|done].
  exists b. split; [done|]. by apply ParseKeyPEM_Encode.
Qed.

Lemma WriteKey_private_witness :
  ∃ b, files ex_fs2 !! Join "d" CAKeyFile = Some (mkFile mode_0600 b) ∧
       ParseKeyPEM b = Ok (Key ex_ca).
Proof.
  apply (WriteKey_private no_faults "d" CAKeyFile (Key ex_ca) false ex_fs1 ex_fs2).
  vm_compute. reflexivity.
Defined.

(** Without [overwrite], no existing file of the data directory, or of any
    other, is changed by a write, whether it succeeds or stops half way on an
    error of the file system. *)
Theorem writeFile_never_clobbers env dir name data perm fs f q :
  files fs !! q = Some f →
  files (writeFile env dir name data perm false fs).1 !! q = Some f.
Proof. apply writeFile_keeps. Qed.

Lemma writeFile_never_clobbers_witness :
  writeFile no_faults "d" CACertFile "new" mode_0644 false ex_fs1
    = (ex_fs1, Err (Wrap "%w: %s" ErrExists)) ∧
  files (writeFile no_faults "d" CACertFile "new" mode_0644 false ex_fs1).1
    !! Join "d" CACertFile = Some (mkFile mode_0644 (EncodeCertPEM (Cert ex_ca))).
Proof.
  split; [vm_compute; reflexivity|].
  apply (writeFile_never_clobbers no_faults "d" CACertFile "new" mode_0644 ex_fs1).
  vm_compute. reflexivity.
Defined.
