(* ===== verification/PkiPairing.v ===== *)
(** * Package [internal/pki], the pairing protocol

    Models [src/internal/pki/pairing.go]: one-time codes, the two MACs, the
    coordinator's state machine [Pairer] and the joiner's check of the answer.

    The mutex splits [Complete] in two critical sections with the key
    derivations between them, so it is defined as [complete_start],
    [match_codes], [complete_finish] and [complete_sign], composed by
    [Complete] for a caller that is not interrupted; [PairerSys.v] interleaves
    the same pieces.  Every call of [p.now()] and every draw of randomness is
    an argument. *)
From S2P Require Import Prelude GoStrings GoUtf8 GoTime GoFormat Labels Crypto SymCrypto PkiCA.
Local Open Scope Z_scope.

(** ** Constants and errors *)

Definition CodeDigits : nat := 8.
Definition codeSpace : Z := 100000000.
Definition SessionIDLen : nat := 16.
Definition SaltLen : nat := 16.
Definition DefaultCodeTTL : Duration := 60 * Second.
Definition DefaultSessionTTL : Duration := 60 * Second.
Definition argonTime : Z := 2.
Definition argonMemory : Z := 32 * 1024.
Definition argonThreads : Z := 2.
Definition argonKeyLen : Z := 32.
Definition labelClient : string := "lcm-pair-v1/client".
Definition labelServer : string := "lcm-pair-v1/server".
Definition maxSessions : nat := 32.
Definition maxFailuresPerMin : nat := 5.
Definition failureWindowReset : Duration := Minute.

Definition ErrBadCode := ErrorsNew "pairing: code rejected".
Definition ErrNoActiveCode :=
  ErrorsNew "pairing: no active pairing code; run `meshctl pair` on the coordinator".
Definition ErrUnknownSession := ErrorsNew "pairing: unknown or expired session".
Definition ErrTooManyAttempts :=
  ErrorsNew "pairing: too many failed attempts; try again in a minute".
Definition ErrBusy := ErrorsNew "pairing: too many concurrent pairing sessions".
Definition ErrBadMAC :=
  ErrorsNew "pairing: response MAC invalid; possible relay or wrong coordinator".
Definition ErrBadCodeFormat := ErrorsNew "pairing: code must be 8 digits".

(** ** Codes *)

(** [rand.Int(rand.Reader, codeSpace)] is the argument, [None] when it fails. *)
Definition GenerateCode (rnd : option Z) : result string :=
  match rnd with
  | Some n => Ok (Sprintf_0d CodeDigits n)
  | None => Err (Errorf "pairing: random: %w")
  end.

Definition ValidateCodeFormat (code : string) : result unit :=
  if negb (slen code =? CodeDigits)%nat then Err ErrBadCodeFormat
  else if forallb (λ r, negb ((r <? 48) || (57 <? r))) (runes code) then Ok tt
  else Err ErrBadCodeFormat.

(** ** State *)

Record Issued := mkIssued { Code : string; Issued_ExpiresAt : Time }.
Record Session := mkSession { ID : string; Salt : string; ExpiresAt : Time }.
Record Bundle := mkBundle {
  CACert : Certificate; NodeCert : Certificate; Bundle_MeshID : string; Bundle_ServerMAC : string
}.

#[export] Instance Session_eq_dec : EqDecision Session.
Proof. solve_decision. Defined.

(** The clock [now] is not a field: its readings are arguments. *)
Record Pairer := mkPairer {
  pairer_ca : CA;
  serverCert : Certificate;
  nodeTTL : Duration;
  codes : gmap string Time;
  sessions : gmap string Session;
  failures : list Time
}.

Record PairerConfig := mkPairerConfig {
  cfg_CA : option CA; cfg_ServerCert : option Certificate; cfg_NodeTTL : Duration
}.

Definition NewPairer (cfg : PairerConfig) : result Pairer :=
  match cfg_CA cfg, cfg_ServerCert cfg with
  | Some ca, Some sc =>
      let ttl := if cfg_NodeTTL cfg <=? 0 then DefaultNodeCertTTL else cfg_NodeTTL cfg in
      Ok (mkPairer ca sc ttl ∅ ∅ [])
  | _, _ => Err (ErrorsNew "pairing: CA and ServerCert are required")
  end.

Definition with_state (p : Pairer) (cs : gmap string Time) (ss : gmap string Session)
    (fl : list Time) : Pairer :=
  mkPairer (pairer_ca p) (serverCert p) (nodeTTL p) cs ss fl.
Definition set_codes (cs : gmap string Time) (p : Pairer) : Pairer :=
  with_state p cs (sessions p) (failures p).
Definition set_sessions (ss : gmap string Session) (p : Pairer) : Pairer :=
  with_state p (codes p) ss (failures p).
Definition set_failures (fl : list Time) (p : Pairer) : Pairer :=
  with_state p (codes p) (sessions p) fl.

(** ** Expiry *)

(** The loop over [p.failures] appends to [p.failures[:0]], that is, it writes
    the kept times over the array it is reading: [i] is the element read, [w]
    the length of [keep]. *)
Fixpoint gc_failures_loop (now : Time) (rounds i w : nat) (arr : list Time)
  : list Time * nat :=
  match rounds with
  | O => (arr, w)
  | S n =>
      match arr !! i with
      | None => (arr, w)
      | Some t =>
          if time_Sub now t <? failureWindowReset
          then gc_failures_loop now n (S i) (S w) (<[w := t]> arr)
          else gc_failures_loop now n (S i) w arr
      end
  end.
Definition gc_failures (now : Time) (arr : list Time) : list Time :=
  let '(arr', w) := gc_failures_loop now (length arr) 0 0 arr in take w arr'.

Definition gcLocked (now : Time) (p : Pairer) : Pairer :=
  with_state p
    (filter (λ kv, time_After now kv.2 = false) (codes p))
    (filter (λ kv, time_After now (ExpiresAt kv.2) = false) (sessions p))
    (gc_failures now (failures p)).

(** ** Operations *)

(** [now] is read before the lock for the expiry, and again by [gcLocked]. *)
Definition Issue (ttl : Duration) (rnd : option Z) (now now_gc : Time) (p : Pairer)
  : Pairer * result Issued :=
  let ttl := if ttl <=? 0 then DefaultCodeTTL else ttl in
  match GenerateCode rnd with
  | Err e => (p, Err e)
  | Ok code =>
      let exp := time_Add now ttl in
      let p := gcLocked now_gc p in
      (set_codes (<[code := exp]> (codes p)) p, Ok (mkIssued code exp))
  end.

Definition ActiveCodes (now : Time) (p : Pairer) : Pairer * nat :=
  let p := gcLocked now p in (p, size (codes p)).

(** [n] bytes read from the random stream that starts with [r]. *)
Fixpoint read_bytes (n : nat) (r : string) : string :=
  match n with
  | O => ""
  | S n' =>
      match r with
      | "" => String "000" (read_bytes n' "")
      | String a r' => String a (read_bytes n' r')
      end
  end.

Definition Begin (rnd_id rnd_salt : option string) (now_gc now : Time) (p : Pairer)
  : Pairer * result Session :=
  let p := gcLocked now_gc p in
  if (size (codes p) =? 0)%nat then (p, Err ErrNoActiveCode)
  else if (maxFailuresPerMin <=? length (failures p))%nat then (p, Err ErrTooManyAttempts)
  else if (maxSessions <=? size (sessions p))%nat then (p, Err ErrBusy)
  else match rnd_id, rnd_salt with
  | Some r1, Some r2 =>
      let id := read_bytes SessionIDLen r1 in
      let salt := read_bytes SaltLen r2 in
      let s := mkSession id salt (time_Add now DefaultSessionTTL) in
      (set_sessions (<[id := s]> (sessions p)) p, Ok s)
  | _, _ => (p, Err (Errorf "rand"))
  end.

(** [subtle.ConstantTimeCompare] *)
Definition ConstantTimeCompare (x y : string) : Z := if decide (x = y) then 1 else 0.

Section Pairing.
Context {C : Crypto}.

Definition DeriveKey (code salt : string) : string :=
  argon2_IDKey code salt argonTime argonMemory argonThreads argonKeyLen.

(** The bytes written to each MAC, in order. *)
Definition client_msg (sessionID serverCertHash csrDER : string) : string :=
  labelClient +:+ sessionID +:+ serverCertHash +:+ csrDER.
Definition server_msg (sessionID caDER nodeDER : string) : string :=
  labelServer +:+ sessionID +:+ caDER +:+ nodeDER.

Definition ClientMAC (key sessionID serverCertHash csrDER : string) : string :=
  hmac_sha256 key (client_msg sessionID serverCertHash csrDER).
Definition ServerMAC (key sessionID caDER nodeDER : string) : string :=
  hmac_sha256 key (server_msg sessionID caDER nodeDER).

Definition CertHash (cert : Certificate) : string := sha256_Sum256 (Raw cert).

(** First critical section of [Complete]: the session is consumed, and the
    active codes are copied. *)
Definition complete_start (sessionID : string) (now : Time) (p : Pairer)
  : Pairer * result (Session * gmap string Time) :=
  let p := gcLocked now p in
  let s := sessions p !! sessionID in
  let p := set_sessions (delete sessionID (sessions p)) p in
  match s with
  | None => (p, Err ErrUnknownSession)
  | Some s =>
      if (maxFailuresPerMin <=? length (failures p))%nat
      then (p, Err ErrTooManyAttempts)
      else (p, Ok (s, codes p))
  end.

(** The loop over the candidates: the code that matched and its key, or two
    empty strings. *)
Fixpoint match_codes (serverHash : string) (s : Session) (csrDER clientMAC : string)
    (candidates : list string) : string * string :=
  match candidates with
  | [] => ("", "")
  | c :: cs =>
      let k := DeriveKey c (Salt s) in
      if ConstantTimeCompare (ClientMAC k (ID s) serverHash csrDER) clientMAC =? 1
      then (c, k)
      else match_codes serverHash s csrDER clientMAC cs
  end.

(** Second critical section: record the failure, or consume the code. *)
Definition complete_finish (matched : string) (now : Time) (p : Pairer)
  : Pairer * result unit :=
  if decide (matched = "") then (set_failures (failures p ++ [now]) p, Err ErrBadCode)
  else match codes p !! matched with
       | None => (p, Err ErrBadCode)
       | Some _ => (set_codes (delete matched (codes p)) p, Ok tt)
       end.

(** After the second section, no lock is held. *)
Definition complete_sign (p : Pairer) (s : Session) (key csrDER : string) (e : IssueEnv)
  : result Bundle :=
  match ParseCertificateRequest csrDER with
  | None => Err (Wrap "%w: %v" ErrBadCSR)
  | Some csr =>
      let mesh := ca_MeshID (pairer_ca p) in
      let principal := mkPrincipal mesh RoleNode (csr_cn csr) in
      let? nodeCert := SignCSR (pairer_ca p) csrDER principal (nodeTTL p) e in
      let cacert := Cert (pairer_ca p) in
      Ok (mkBundle cacert nodeCert mesh
            (ServerMAC key (ID s) (Raw cacert) (Raw nodeCert)))
  end.

(** [Complete] run without interruption.  [order] is the iteration order of the
    map of codes, [now1] and [now2] the readings of the clock in the two
    sections. *)
Definition Complete (order : list string → list string) (now1 now2 : Time) (e : IssueEnv)
    (sessionID csrDER clientMAC : string) (p : Pairer) : Pairer * result Bundle :=
  match complete_start sessionID now1 p with
  | (p, Err err) => (p, Err err)
  | (p, Ok (s, cs)) =>
      let candidates := order (map_to_list cs).*1 in
      let '(matched, key) :=
        match_codes (CertHash (serverCert p)) s csrDER clientMAC candidates in
      match complete_finish matched now2 p with
      | (p, Err err) => (p, Err err)
      | (p, Ok _) => (p, complete_sign p s key csrDER e)
      end
  end.

(** The joiner's side. *)
Definition VerifyBundle (key sessionID : string) (b : Bundle) (nodeID : string)
    (now : Time) : result unit :=
  let want := ServerMAC key sessionID (Raw (CACert b)) (Raw (NodeCert b)) in
  if negb (ConstantTimeCompare want (Bundle_ServerMAC b) =? 1) then Err ErrBadMAC
  else
    let? p := VerifyAgainst (CACert b) (NodeCert b) now in
    if negb (bool_decide (Role p = RoleNode)) || negb (bool_decide (Name p = nodeID))
    then Err (Errorf "pairing: issued cert is for %s, expected node %s")
    else if negb (bool_decide (Bundle_MeshID b = MeshID p))
    then Err (Wrap "%w: bundle says %q, cert says %q" ErrMeshMismatch)
    else Ok tt.
End Pairing.

(** ** Lemmas: codes *)

Definition is_code (s : string) : bool := (slen s =? CodeDigits)%nat && sall is_digit s.

Lemma ValidateCodeFormat_code s : is_ok (ValidateCodeFormat s) = is_code s.
Proof.
  unfold ValidateCodeFormat, is_code. destruct (slen s =? CodeDigits)%nat; [|done].
  cbn [negb andb]. rewrite (runes_forallb_bytes (λ r, negb ((r <? 48) || (57 <? r)))) by (intros; lia).
  assert (sall (λ b, negb ((byte_val b <? 48) || (57 <? byte_val b))) s = sall is_digit s) as ->.
  { apply sall_ext. intros a. unfold is_digit, in_range. lia. }
  by destruct (sall is_digit s).
Qed.

Lemma code_value n : 0 ≤ n < codeSpace →
  is_code (Sprintf_0d CodeDigits n) = true ∧
  digits_val 0 (Sprintf_0d CodeDigits n) = Some n.
Proof.
  intros Hn. destruct (Sprintf_0d_digits CodeDigits n) as (Hl & Hd & Hv); [unfold CodeDigits; lia|done|].
  unfold is_code. by rewrite Hl, Hd.
Qed.

Lemma digits_val_inj s t a b v :
  slen s = slen t → digits_val a s = Some v → digits_val b t = Some v →
  0 ≤ a → 0 ≤ b → s = t ∧ a = b.
Proof.
  revert t a b v. induction s as [|x s IH]; intros [|y t] a b v Hl; try done.
  - cbn. intros [= ->] [= ->]. done.
  - cbn [digits_val slen] in *. destruct (is_digit x) eqn:Ex; [|done].
    destruct (is_digit y) eqn:Ey; [|done]. intros H1 H2 Ha Hb.
    unfold is_digit in Ex, Ey. apply in_range_true in Ex, Ey.
    destruct (IH t _ _ v ltac:(lia) H1 H2) as [-> E]; [lia|lia|].
    assert (a = b) as -> by lia. split; [|done]. f_equal.
    apply byte_val_inj. lia.
Qed.

Lemma digits_val_bound s a :
  sall is_digit s = true → 0 ≤ a →
  ∃ v, digits_val a s = Some v ∧
       a * 10 ^ Z.of_nat (slen s) ≤ v < (a + 1) * 10 ^ Z.of_nat (slen s).
Proof.
  revert a. induction s as [|x s IH]; intros a Hd Ha; cbn [sall slen digits_val] in *.
  - exists a. split; [done|]. lia.
  - apply andb_true_iff in Hd as [Hx Hs]. rewrite Hx.
    unfold is_digit in Hx. apply in_range_true in Hx.
    destruct (IH (a * 10 + (byte_val x - 48)) Hs ltac:(lia)) as (v & Hv & Hb).
    exists v. split; [done|]. rewrite Nat2Z.inj_succ, Z.pow_succ_r by lia. nia.
Qed.

(** ** Lemmas: expiry *)

Definition recent (now t : Time) : Prop := time_Sub now t < failureWindowReset.
#[export] Instance recent_dec now t : Decision (recent now t).
Proof. unfold recent. apply _. Defined.

Lemma recent_iff now t : recent now t ↔ now < t + failureWindowReset.
Proof. apply time_Sub_lt. vm_compute. split; [done|discriminate]. Qed.

(** The in-place loop is a filter: writing over the array never destroys an
    element before it is read. *)
Lemma gc_failures_loop_filter now n i w arr :
  (w ≤ i)%nat → (i + n)%nat = length arr →
  let '(arr', w') := gc_failures_loop now n i w arr in
  take w' arr' = take w arr ++ filter (recent now) (drop i arr).
Proof.
  revert i w arr. induction n as [|n IH]; intros i w arr Hwi Hl; cbn [gc_failures_loop].
  - rewrite drop_ge by lia. by rewrite filter_nil, app_nil_r.
  - destruct (lookup_lt_is_Some_2 arr i) as [t Ht]; [lia|]. rewrite Ht.
    rewrite (drop_S arr t i Ht), filter_cons.
    destruct (Z.ltb_spec (time_Sub now t) failureWindowReset) as [Hr|Hr].
    + rewrite decide_True by done.
      specialize (IH (S i) (S w) (<[w:=t]> arr) ltac:(lia)).
      destruct (gc_failures_loop _ _ _ _ _) as [arr' w'].
      rewrite IH by (rewrite length_insert; lia).
      rewrite drop_insert_lt by lia.
      rewrite (take_S_r _ w t) by (apply list_lookup_insert_eq; lia).
      rewrite take_insert_ge by lia. by rewrite <-app_assoc.
    + rewrite decide_False by (unfold recent; lia).
      specialize (IH (S i) w arr ltac:(lia) ltac:(lia)).
      by destruct (gc_failures_loop _ _ _ _ _) as [arr' w'].
Qed.

Lemma gc_failures_filter now arr : gc_failures now arr = filter (recent now) arr.
Proof.
  unfold gc_failures.
  pose proof (gc_failures_loop_filter now (length arr) 0 0 arr (le_n _) eq_refl) as H.
  by destruct (gc_failures_loop _ _ _ _ _).
Qed.

Lemma gc_codes_lookup now p c t :
  codes (gcLocked now p) !! c = Some t ↔ codes p !! c = Some t ∧ now ≤ t.
Proof.
  unfold gcLocked. cbn. rewrite map_lookup_filter_Some. unfold time_After.
  cbn. rewrite Z.ltb_ge. done.
Qed.

Lemma gc_sessions_lookup now p k s :
  sessions (gcLocked now p) !! k = Some s ↔ sessions p !! k = Some s ∧ now ≤ ExpiresAt s.
Proof.
  unfold gcLocked. cbn. rewrite map_lookup_filter_Some. unfold time_After.
  cbn. rewrite Z.ltb_ge. done.
Qed.

Lemma gc_sizes now p :
  (size (codes (gcLocked now p)) ≤ size (codes p))%nat ∧
  (size (sessions (gcLocked now p)) ≤ size (sessions p))%nat ∧
  (length (failures (gcLocked now p)) ≤ length (failures p))%nat.
Proof.
  unfold gcLocked. cbn. rewrite gc_failures_filter. split_and!.
  - apply map_size_filter.
  - apply map_size_filter.
  - apply length_filter.
Qed.

Lemma size_zero_iff {A} (m : gmap string A) : (size m =? 0)%nat = bool_decide (m = ∅).
Proof.
  apply eq_true_iff_eq. rewrite Nat.eqb_eq, bool_decide_eq_true. apply map_size_empty_iff.
Qed.

Lemma slen_read_bytes n r : slen (read_bytes n r) = n.
Proof. revert r. induction n as [|n IH]; intros r; [done|]. destruct r; cbn; by rewrite IH. Qed.

(** ** Lemmas: the two sections of [Complete] *)

(** A session that was opened is stored under its ID. *)
Lemma Begin_Ok r1 r2 now_gc now p p' s :
  Begin r1 r2 now_gc now p = (p', Ok s) →
  let q := gcLocked now_gc p in p' = set_sessions (<[ID s := s]> (sessions q)) q.
Proof.
  unfold Begin. cbv zeta.
  destruct (size _ =? 0)%nat; [done|]. destruct (maxFailuresPerMin <=? _)%nat; [done|].
  destruct (maxSessions <=? _)%nat; [done|]. destruct r1; [|done]. destruct r2; [|done].
  by intros [= <- <-].
Qed.

Lemma ConstantTimeCompare_eq x y : (ConstantTimeCompare x y =? 1) = bool_decide (x = y).
Proof. unfold ConstantTimeCompare. by case_decide; case_bool_decide. Qed.

Section CompleteFacts.
Context {C : Crypto}.

(** The request is answered by code [c]: its key makes the MAC that was sent. *)
Definition answers (p : Pairer) (s : Session) (csrDER clientMAC c : string) : Prop :=
  ClientMAC (DeriveKey c (Salt s)) (ID s) (CertHash (serverCert p)) csrDER = clientMAC.

Lemma match_codes_spec h s csr mac cands c k :
  match_codes h s csr mac cands = (c, k) →
  (c ∈ cands ∧ k = DeriveKey c (Salt s) ∧ ClientMAC k (ID s) h csr = mac) ∨
  (c = "" ∧ ∀ c', c' ∈ cands → ClientMAC (DeriveKey c' (Salt s)) (ID s) h csr ≠ mac).
Proof.
  induction cands as [|x l IH]; cbn [match_codes].
  - intros [= <- <-]. right. split; [done|]. intros c'. rewrite elem_of_nil. done.
  - rewrite ConstantTimeCompare_eq. case_bool_decide as Hx.
    + intros [= <- <-]. left. split_and!; [apply elem_of_cons; by left|done..].
    + intros H. destruct (IH H) as [(Hc & Hk & Hm)|[Hc Hall]].
      * left. split_and!; [apply elem_of_cons; by right|done..].
      * right. split; [done|]. intros c' [->|Hc']%elem_of_cons; auto.
Qed.

Lemma match_codes_empty h s csr mac cands c k :
  match_codes h s csr mac cands = (c, k) → c = "" → "" ∉ cands → k = "".
Proof.
  induction cands as [|x l IH]; cbn [match_codes]; [by intros [= <- <-]|].
  rewrite not_elem_of_cons. case_match; [by intros [= <- <-] -> []|]. naive_solver.
Qed.

Lemma complete_start_spec sid now p :
  let q := gcLocked now p in
  let q' := set_sessions (delete sid (sessions q)) q in
  complete_start sid now p =
    match sessions q !! sid with
    | None => (q', Err ErrUnknownSession)
    | Some s => if (maxFailuresPerMin <=? length (failures q))%nat
                then (q', Err ErrTooManyAttempts) else (q', Ok (s, codes q))
    end.
Proof.
  unfold complete_start. cbv zeta. by destruct (sessions (gcLocked now p) !! sid).
Qed.

Lemma complete_start_state sid now p :
  (complete_start sid now p).1 =
    set_sessions (delete sid (sessions (gcLocked now p))) (gcLocked now p).
Proof. rewrite complete_start_spec. cbv zeta. by repeat case_match. Qed.

Lemma complete_start_Ok sid now p p' s cs :
  complete_start sid now p = (p', Ok (s, cs)) →
  sessions p !! sid = Some s ∧ now ≤ ExpiresAt s ∧
  (length (filter (recent now) (failures p)) < maxFailuresPerMin)%nat ∧
  cs = codes (gcLocked now p) ∧
  p' = set_sessions (delete sid (sessions (gcLocked now p))) (gcLocked now p).
Proof.
  rewrite complete_start_spec. cbv zeta.
  destruct (sessions (gcLocked now p) !! sid) as [s'|] eqn:Es; [|done].
  destruct (Nat.leb_spec maxFailuresPerMin (length (failures (gcLocked now p)))); [done|].
  intros [= <- <- <-]. apply gc_sessions_lookup in Es as [? ?].
  unfold gcLocked in H at 1. cbn in H. rewrite gc_failures_filter in H. done.
Qed.

Lemma complete_finish_Ok c now p p' u :
  complete_finish c now p = (p', Ok u) →
  c ≠ "" ∧ is_Some (codes p !! c) ∧ p' = set_codes (delete c (codes p)) p.
Proof.
  unfold complete_finish. case_decide; [done|].
  destruct (codes p !! c) eqn:E; [|done]. intros [= <- _]. by eauto.
Qed.

(** A whole [Complete], inverted. *)
Lemma Complete_Ok order now1 now2 e sid csr mac p p' b :
  (∀ l, order l ≡ₚ l) →
  Complete order now1 now2 e sid csr mac p = (p', Ok b) →
  ∃ s c exp,
    sessions p !! sid = Some s ∧ now1 ≤ ExpiresAt s ∧
    (length (filter (recent now1) (failures p)) < maxFailuresPerMin)%nat ∧
    codes p !! c = Some exp ∧ now1 ≤ exp ∧ c ≠ "" ∧ answers p s csr mac c ∧
    p' = with_state p (delete c (codes (gcLocked now1 p)))
           (delete sid (sessions (gcLocked now1 p))) (failures (gcLocked now1 p)) ∧
    complete_sign p s (DeriveKey c (Salt s)) csr e = Ok b.
Proof.
  intros Ho. unfold Complete.
  destruct (complete_start sid now1 p) as [q [[s cs]|err]] eqn:Es; [|done].
  apply complete_start_Ok in Es as (Hs & He & Hf & -> & ->).
  set (q := set_sessions _ _).
  destruct (match_codes _ _ _ _ _) as [c k] eqn:Em.
  destruct (complete_finish c now2 q) as [q' [[]|err]] eqn:Ef; [|done].
  apply complete_finish_Ok in Ef as (Hne & _ & ->). intros [= <- Hb].
  apply match_codes_spec in Em as [(Hc & -> & Hm)|[? _]]; [|done].
  rewrite Ho in Hc. apply list_elem_of_fmap in Hc as ([c' exp] & -> & Hin).
  apply elem_of_map_to_list, gc_codes_lookup in Hin as [Hc Hexp].
  by exists s, c', exp.
Qed.

Lemma Complete_state order now1 now2 e sid csr mac p :
  sessions (Complete order now1 now2 e sid csr mac p).1 !! sid = None ∧
  codes (Complete order now1 now2 e sid csr mac p).1 ⊆ codes p.
Proof.
  assert (codes (gcLocked now1 p) ⊆ codes p) as Hg by apply map_filter_subseteq.
  unfold Complete. pose proof (complete_start_state sid now1 p) as Hst.
  destruct (complete_start sid now1 p) as [q [[s cs]|err]]; cbn in Hst; subst q; cbv zeta.
  2:{ split; [apply lookup_delete_eq|exact Hg]. }
  destruct (match_codes _ _ _ _ _) as [c k]. unfold complete_finish.
  repeat case_match; simplify_eq/=; (split; [apply lookup_delete_eq|]); try exact Hg.
  etrans; [apply delete_subseteq|exact Hg].
Qed.

Lemma Complete_no_session order now1 now2 e sid csr mac p :
  sessions p !! sid = None →
  Complete order now1 now2 e sid csr mac p = (gcLocked now1 p, Err ErrUnknownSession).
Proof.
  intros Hn. unfold Complete. rewrite complete_start_spec. cbv zeta.
  assert (sessions (gcLocked now1 p) !! sid = None) as Hg.
  { apply eq_None_not_Some. intros [s [Hs _]%gc_sessions_lookup]. congruence. }
  rewrite Hg, delete_id by done. by destruct (gcLocked now1 p).
Qed.

(** A call that no active code answers. *)
Lemma Complete_rejects order now1 now2 e sid csr mac p s :
  (∀ l, order l ≡ₚ l) →
  sessions p !! sid = Some s → now1 ≤ ExpiresAt s →
  (length (filter (recent now1) (failures p)) < maxFailuresPerMin)%nat →
  (∀ c (exp : Time), codes p !! c = Some exp → now1 ≤ exp → ¬ answers p s csr mac c) →
  let q := gcLocked now1 p in
  Complete order now1 now2 e sid csr mac p =
    (with_state p (codes q) (delete sid (sessions q)) (failures q ++ [now2]), Err ErrBadCode).
Proof.
  intros Ho Hs He Hf Hno q. unfold Complete. rewrite complete_start_spec. fold q.
  assert (Hs' : sessions q !! sid = Some s) by by apply gc_sessions_lookup.
  cbv zeta. rewrite Hs'.
  assert (failures q = filter (recent now1) (failures p)) as Hfq
    by (unfold q, gcLocked; cbn; apply gc_failures_filter).
  rewrite (proj2 (Nat.leb_gt _ _)) by by rewrite Hfq.
  destruct (match_codes _ _ _ _ _) as [c k] eqn:Em.
  apply match_codes_spec in Em as [(Hin & -> & Hm)|[-> _]]; [|done].
  rewrite Ho in Hin. apply list_elem_of_fmap in Hin as ([c0 t] & -> & Hin).
  apply elem_of_map_to_list, gc_codes_lookup in Hin as [Hin Ht].
  destruct (Hno c0 t Hin Ht). exact Hm.
Qed.

Lemma complete_sign_Ok p s key csr e b :
  complete_sign p s key csr e = Ok b →
  ∃ req cert,
    ParseCertificateRequest csr = Some req ∧
    SignCSR (pairer_ca p) csr
      (mkPrincipal (ca_MeshID (pairer_ca p)) RoleNode (csr_cn req)) (nodeTTL p) e = Ok cert ∧
    b = mkBundle (Cert (pairer_ca p)) cert (ca_MeshID (pairer_ca p))
          (ServerMAC key (ID s) (Raw (Cert (pairer_ca p))) (Raw cert)).
Proof.
  unfold complete_sign. destruct (ParseCertificateRequest csr) as [req|]; [|done].
  intros (cert & Hs & Hb)%rbind_Ok. apply Ok_inj in Hb as <-. by exists req, cert.
Qed.

(** [VerifyBundle] inverted. *)
Lemma VerifyBundle_Ok key sid b nodeID now u :
  VerifyBundle key sid b nodeID now = Ok u ↔
  ServerMAC key sid (Raw (CACert b)) (Raw (NodeCert b)) = Bundle_ServerMAC b ∧
  VerifyAgainst (CACert b) (NodeCert b) now =
    Ok (mkPrincipal (Bundle_MeshID b) RoleNode nodeID).
Proof.
  unfold VerifyBundle. rewrite ConstantTimeCompare_eq. split.
  - case_bool_decide; [|done]. cbn [negb].
    intros ([m r n] & Hv & H')%rbind_Ok. rewrite Hv. cbn in H'.
    repeat case_bool_decide; try done. by subst.
  - intros [-> ->]. rewrite bool_decide_true by done. cbn.
    rewrite !bool_decide_true by done. by destruct u.
Qed.

(** *** The MAC messages *)

Lemma client_server_msg_ne s h c s' a b : client_msg s h c ≠ server_msg s' a b.
Proof.
  unfold client_msg, server_msg. intros H.
  by apply app_inj_len in H as [H _].
Qed.

Lemma client_msg_inj s h c s' h' c' :
  slen s = slen s' → slen h = slen h' →
  client_msg s h c = client_msg s' h' c' → s = s' ∧ h = h' ∧ c = c'.
Proof.
  unfold client_msg. intros Hs Hh H.
  apply app_inj_len in H as [_ H]; [|done].
  apply app_inj_len in H as [-> H]; [|done].
  by apply app_inj_len in H as [-> ->].
Qed.

Lemma server_msg_inj {L : CryptoLaws C} s a b s' a' b' ca ca' :
  slen s = slen s' →
  ParseCertificate a = Some ca → ParseCertificate a' = Some ca' →
  server_msg s a b = server_msg s' a' b' → s = s' ∧ a = a' ∧ b = b'.
Proof.
  unfold server_msg. intros Hs Ha Ha' H.
  apply app_inj_len in H as [_ H]; [|done].
  apply app_inj_len in H as [-> H]; [|done].
  pose proof (parse_prefix_free _ _ _ _ _ _ Ha Ha' H) as ->.
  split_and!; [done..|]. by apply (inj (String.append a')).
Qed.
End CompleteFacts.

Section CompleteHonest.
Context {C : Crypto} {L : CryptoLaws C}.

(** A joiner that knows an active code, holds an open session and sends a
    well-formed request gets a bundle that passes its own check. *)
Lemma complete_sign_honest p s key nodeID jk rnd e sn csr :
  wf_CA (pairer_ca p) → ParseCertificate (Raw (Cert (pairer_ca p))) = Some (Cert (pairer_ca p)) →
  is_label nodeID = true → pub_curve (priv_pub jk) = P256 → 0 < nodeTTL p →
  NewCSR nodeID jk rnd = Ok csr →
  serial_rnd e = Some sn → 0 ≤ sn →
  x509_time (issue_now e - backdate) = true → x509_time (issue_now e + nodeTTL p) = true →
  ∃ b, complete_sign p s key csr e = Ok b ∧
    (CACert b = Cert (pairer_ca p) ∧ Bundle_MeshID b = ca_MeshID (pairer_ca p) ∧
     ParseCertificate (Raw (NodeCert b)) = Some (NodeCert b) ∧
     NotBefore (NodeCert b) = trunc_sec (issue_now e - backdate) ∧
     NotAfter (NodeCert b) = trunc_sec (issue_now e + nodeTTL p)) ∧
    cert_pub (NodeCert b) = ECDSAPub (priv_pub jk) ∧
    ∀ now, NotBefore (NodeCert b) ≤ now ≤ NotAfter (NodeCert b) →
           NotBefore (Cert (pairer_ca p)) ≤ now ≤ NotAfter (Cert (pairer_ca p)) →
           VerifyBundle key (ID s) b nodeID now = Ok tt.
Proof.
  intros Hwf Hpc Hl Hcv Httl Hcsr Hsn Hsn0 Ht1 Ht2.
  unfold NewCSR in Hcsr. rewrite validateLabel_label, Hl in Hcsr. cbn in Hcsr.
  apply of_option_Ok, csr_parse in Hcsr as (req & Hpr & Hcn & Hpub & Hsig).
  set (pr := mkPrincipal (ca_MeshID (pairer_ca p)) RoleNode nodeID).
  set (sr := mkSignRequest pr (Some (priv_pub jk)) (nodeTTL p)).
  assert (Hok : sign_request_ok (pairer_ca p) sr = true).
  { unfold sign_request_ok. cbn. rewrite Hl, !bool_decide_true by done. cbn.
    by apply Z.ltb_lt. }
  destruct (Sign_succeeds (pairer_ca p) sr e sn Hwf Hok Hsn Hsn0 Ht1 Ht2) as [cert Hs].
  destruct (Sign_issued _ _ _ _ (proj2 Hwf) Hs) as (pub & s' & der & Hp & _ & _ & Hder & E & _).
  assert (HS : SignCSR (pairer_ca p) csr pr (nodeTTL p) e = Ok cert).
  { unfold SignCSR. rewrite Hpr, Hsig, Hpub. cbn [negb].
    by rewrite bool_decide_true by done. }
  exists (mkBundle (Cert (pairer_ca p)) cert (ca_MeshID (pairer_ca p))
            (ServerMAC key (ID s) (Raw (Cert (pairer_ca p))) (Raw cert))).
  split_and!.
  - unfold complete_sign. rewrite Hpr, Hcn. cbv zeta. fold pr. by rewrite HS.
  - done.
  - done.
  - cbn. by rewrite (parse_Raw _ _ Hder).
  - cbn. rewrite E. cbn. unfold time_Add. by rewrite Z.add_opp_r.
  - cbn. by rewrite E.
  - cbn. injection Hp as <-. by rewrite E.
  - intros now Hn Hn'. apply VerifyBundle_Ok. split; [done|]. cbn.
    by apply (Sign_verifies _ sr e).
Qed.

Lemma Complete_runs order now1 now2 e sid csr mac p s c (exp : Time) :
  (∀ l, order l ≡ₚ l) →
  sessions p !! sid = Some s → now1 ≤ ExpiresAt s →
  (length (filter (recent now1) (failures p)) < maxFailuresPerMin)%nat →
  codes p !! c = Some exp → now1 ≤ exp → c ≠ "" → answers p s csr mac c →
  (∀ c' t, codes p !! c' = Some t → answers p s csr mac c' → c' = c) →
  let q := gcLocked now1 p in
  Complete order now1 now2 e sid csr mac p =
    (with_state p (delete c (codes q)) (delete sid (sessions q)) (failures q),
     complete_sign p s (DeriveKey c (Salt s)) csr e).
Proof.
  intros Ho Hs He Hf Hc Hexp Hne Ha Huniq q. unfold Complete.
  rewrite complete_start_spec. fold q.
  assert (Hs' : sessions q !! sid = Some s) by by apply gc_sessions_lookup.
  assert (Hc' : codes q !! c = Some exp) by by apply gc_codes_lookup.
  cbv zeta. rewrite Hs'.
  assert (failures q = filter (recent now1) (failures p)) as Hfq
    by (unfold q, gcLocked; cbn; apply gc_failures_filter).
  rewrite (proj2 (Nat.leb_gt _ _)) by by rewrite Hfq.
  destruct (match_codes _ _ _ _ _) as [c' k] eqn:Em.
  apply match_codes_spec in Em as [(Hin & -> & Hm)|[_ Hall]].
  - rewrite Ho in Hin. apply list_elem_of_fmap in Hin as ([c0 t] & -> & Hin).
    apply elem_of_map_to_list, gc_codes_lookup in Hin as [Hin _]. cbn [fst] in *.
    rewrite (Huniq _ _ Hin Hm). unfold complete_finish. rewrite decide_False by done.
    change (codes (set_sessions (delete sid (sessions q)) q)) with (codes q).
    by rewrite Hc'.
  - exfalso. apply (Hall c); [|exact Ha]. rewrite Ho.
    apply list_elem_of_fmap. exists (c, exp). split; [done|].
    by apply elem_of_map_to_list.
Qed.
End CompleteHonest.

(** ** A coordinator for the witnesses *)

Definition ex_coord_key : PrivateKey := GenerateKey "coord".
Definition ex_server_cert : Certificate :=
  match Sign ex_ca (mkSignRequest (mkPrincipal "home" RoleNode "coord")
                      (Some (priv_pub ex_coord_key)) DefaultNodeCertTTL) ex_env with
  | Ok c => c | Err _ => ca_template "" 0 0 end.
Definition ex_pairer : Pairer := mkPairer ex_ca ex_server_cert Hour ∅ ∅ [].
Definition ex_p1 : Pairer := (Issue 0 (Some 42) ex_now ex_now ex_pairer).1.
Definition ex_p2 : Pairer := (Begin (Some "session") (Some "salt") ex_now ex_now ex_p1).1.
Definition ex_sid : string := read_bytes 16 "session".
Definition ex_salt : string := read_bytes 16 "salt".
Definition ex_session : Session := mkSession ex_sid ex_salt (ex_now + DefaultSessionTTL).
Definition ex_joiner : PrivateKey := GenerateKey "joiner".
Definition ex_join_csr : string :=
  match NewCSR "laptop" ex_joiner "r" with Ok s => s | Err _ => "" end.
Definition ex_key : string := DeriveKey "00000042" ex_salt.
Definition ex_mac : string := ClientMAC ex_key ex_sid (CertHash ex_server_cert) ex_join_csr.
Definition ex_done : Pairer * result Bundle :=
  Complete id ex_now ex_now ex_env ex_sid ex_join_csr ex_mac ex_p2.
Definition ex_bundle : Bundle :=
  match ex_done.2 with Ok b => b | Err _ => mkBundle ex_server_cert ex_server_cert "" "" end.

Lemma ex_complete : Complete id ex_now ex_now ex_env ex_sid ex_join_csr ex_mac ex_p2
                    = (ex_done.1, Ok ex_bundle).
Proof. vm_compute. reflexivity. Qed.

(** ** Properties *)

(** Every code that passes [ValidateCodeFormat] is drawn by [GenerateCode]
    for exactly one of the 10^8 numbers, and nothing else is drawn: a uniform
    number gives a uniform 8-digit code. *)
Theorem GenerateCode_uniform s :
  ValidateCodeFormat s = Ok tt ↔
  exists! n : Z, 0 ≤ n < codeSpace ∧ GenerateCode (Some n) = Ok s.
Proof.
  split.
  - intros H. pose proof (ValidateCodeFormat_code s) as Hc. rewrite H in Hc.
    symmetry in Hc. cbn in Hc. pose proof Hc as [Hl Hd]%andb_true_iff.
    apply Nat.eqb_eq in Hl.
    destruct (digits_val_bound s 0 Hd ltac:(lia)) as (v & Hv & Hb). rewrite Hl in Hb.
    change (10 ^ Z.of_nat CodeDigits) with 100000000 in Hb.
    assert (Hr : 0 ≤ v < codeSpace) by (unfold codeSpace; lia).
    destruct (code_value v Hr) as [Hc' Hv'].
    assert (Sprintf_0d CodeDigits v = s) as Hs.
    { apply andb_true_iff in Hc' as [Hl'%Nat.eqb_eq _].
      destruct (digits_val_inj _ s 0 0 v (eq_trans Hl' (eq_sym Hl)) Hv' Hv); [lia..|done]. }
    exists v. split; [split; [done|cbn; by rewrite Hs]|].
    intros w [Hw [= <-]]. destruct (code_value w Hw) as [_ Hw']. congruence.
  - intros (n & [Hn [= <-]] & _). destruct (code_value n Hn) as [Hc _].
    rewrite <-ValidateCodeFormat_code in Hc.
    destruct (ValidateCodeFormat _) as [[]|]; [done|discriminate].
Qed.

(** [gcLocked] keeps exactly the codes and sessions that have not expired
    and the failures of the last minute, in order; the loop that filters the
    failures inside their own array loses none. *)
Theorem gcLocked_exact now p :
  (∀ c t, codes (gcLocked now p) !! c = Some t ↔ codes p !! c = Some t ∧ now ≤ t) ∧
  (∀ k s, sessions (gcLocked now p) !! k = Some s ↔
          sessions p !! k = Some s ∧ now ≤ ExpiresAt s) ∧
  failures (gcLocked now p) = filter (λ t, now < t + failureWindowReset) (failures p).
Proof.
  split_and!; [intros; apply gc_codes_lookup|intros; apply gc_sessions_lookup|].
  unfold gcLocked. cbn. rewrite gc_failures_filter.
  apply list_filter_iff. intros t. apply recent_iff.
Qed.

(** What [Begin] answers, and the state it leaves, in the order of its tests. *)
Definition begin_spec (r1 r2 : option string) (now : Time) (q : Pairer) (out : result Session)
    (q' : Pairer) : Prop :=
  match out with
  | Ok s =>
      codes q ≠ ∅ ∧ (length (failures q) < maxFailuresPerMin)%nat ∧
      (size (sessions q) < maxSessions)%nat ∧
      slen (ID s) = SessionIDLen ∧ slen (Salt s) = SaltLen ∧
      ExpiresAt s = now + DefaultSessionTTL ∧ q' = set_sessions (<[ID s := s]> (sessions q)) q
  | Err err =>
      q' = q ∧
      (err = ErrNoActiveCode ∧ codes q = ∅ ∨
       err = ErrTooManyAttempts ∧ codes q ≠ ∅ ∧ (maxFailuresPerMin ≤ length (failures q))%nat ∨
       err = ErrBusy ∧ codes q ≠ ∅ ∧ (length (failures q) < maxFailuresPerMin)%nat ∧
         (maxSessions ≤ size (sessions q))%nat ∨
       (r1 = None ∨ r2 = None) ∧ codes q ≠ ∅ ∧ (length (failures q) < maxFailuresPerMin)%nat ∧
         (size (sessions q) < maxSessions)%nat)
  end.

(** [Begin] opens a session only when a code is active, fewer than five
    attempts failed in the last minute and fewer than 32 sessions are open; it
    reports the first of these that is not met, in this order, and then changes
    nothing but dropping what expired. *)
Theorem Begin_guards r1 r2 now_gc now p :
  let '(q', out) := Begin r1 r2 now_gc now p in
  begin_spec r1 r2 now (gcLocked now_gc p) out q'.
Proof.
  unfold Begin. set (q := gcLocked now_gc p). rewrite size_zero_iff. unfold begin_spec.
  case_bool_decide; [by auto|].
  destruct (Nat.leb_spec maxFailuresPerMin (length (failures q))); [naive_solver|].
  destruct (Nat.leb_spec maxSessions (size (sessions q))); [naive_solver|].
  destruct r1 as [r1|]; [|naive_solver]. destruct r2 as [r2|]; [|naive_solver].
  cbn [ID Salt ExpiresAt]. split_and!; auto using slen_read_bytes.
Qed.

(** Two different messages with the same MAC under a key. *)
Definition mac_collision {C : Crypto} (key key' : string) : Prop :=
  ∃ m m', m ≠ m' ∧ hmac_sha256 key m = hmac_sha256 key' m'.
Definition same_mac {C : Crypto} (key key' : string) (m m' : string) :
  hmac_sha256 key m = hmac_sha256 key' m' → m = m' ∨ mac_collision key key'.
Proof. intros H. destruct (decide (m = m')); [by left|]. right. by exists m, m'. Qed.

(** C2: when [Complete] returns a bundle, the session was open and unexpired,
    fewer than five attempts had failed in the last minute, the MAC is the one
    an unexpired code gives for this session, this coordinator and this
    request, the request is signed by its own P-256 key, and the node
    certificate names that key as the node of the request's subject in the
    CA's mesh.  The code and the session are gone afterwards, and nothing else
    changed but what expired. *)
Theorem Complete_sound {C : Crypto} {L : CryptoLaws C} order now1 now2 e sid csr mac p p' b :
  (∀ l, order l ≡ₚ l) → is_label (ca_MeshID (pairer_ca p)) = true →
  Complete order now1 now2 e sid csr mac p = (p', Ok b) →
  ∃ s c exp req pub,
    (sessions p !! sid = Some s ∧ now1 ≤ ExpiresAt s ∧
     codes p !! c = Some exp ∧ now1 ≤ exp ∧
     (length (filter (recent now1) (failures p)) < maxFailuresPerMin)%nat) ∧
    mac = ClientMAC (DeriveKey c (Salt s)) (ID s) (CertHash (serverCert p)) csr ∧
    (ParseCertificateRequest csr = Some req ∧ CheckSignature req = true ∧
     csr_pub req = ECDSAPub pub ∧ pub_curve pub = P256) ∧
    (cert_pub (NodeCert b) = ECDSAPub pub ∧
     PrincipalFromCert (NodeCert b) =
       Ok (mkPrincipal (ca_MeshID (pairer_ca p)) RoleNode (csr_cn req)) ∧
     CACert b = Cert (pairer_ca p) ∧ Bundle_MeshID b = ca_MeshID (pairer_ca p) ∧
     Bundle_ServerMAC b =
       ServerMAC (DeriveKey c (Salt s)) (ID s) (Raw (CACert b)) (Raw (NodeCert b))) ∧
    p' = with_state p (delete c (codes (gcLocked now1 p)))
           (delete sid (sessions (gcLocked now1 p))) (failures (gcLocked now1 p)).
Proof.
  intros Ho Hm H.
  pose proof (Complete_Ok _ _ _ _ _ _ _ _ _ _ Ho H)
    as (s & c & exp & Hs & He & Hf & Hc & Hexp & _ & Ha & Hp' & Hsign).
  apply complete_sign_Ok in Hsign as (req & cert & Hreq & HS & ->).
  destruct (SignCSR_issued _ _ _ _ _ _ Hm HS) as (req' & pub & Hreq' & Hsig & Hk & Hcv & Hkc & HP).
  rewrite Hreq in Hreq'. injection Hreq' as <-.
  exists s, c, exp, req, pub. by split_and!.
Qed.

Lemma Complete_sound_witness :
  Complete id ex_now ex_now ex_env ex_sid ex_join_csr ex_mac ex_p2 = (ex_done.1, Ok ex_bundle) ∧
  ∃ pub n, cert_pub (NodeCert ex_bundle) = ECDSAPub pub ∧
    PrincipalFromCert (NodeCert ex_bundle) = Ok (mkPrincipal "home" RoleNode n).
Proof.
  split; [apply ex_complete|].
  destruct (Complete_sound id ex_now ex_now ex_env ex_sid ex_join_csr ex_mac ex_p2 ex_done.1
              ex_bundle (λ l, Permutation_refl l) ltac:(vm_compute; reflexivity) ex_complete)
    as (s & c & exp & req & pub & _ & _ & _ & (Hk & HP & _) & _).
  exists pub, (csr_cn req). auto.
Defined.

(** *** The invariant of the state *)

Definition wf_session (k : string) (s : Session) : Prop :=
  ID s = k ∧ slen k = SessionIDLen ∧ slen (Salt s) = SaltLen.
Definition wf_pairer (p : Pairer) : Prop :=
  map_Forall (λ c _, is_code c = true) (codes p) ∧
  map_Forall wf_session (sessions p) ∧ (size (sessions p) ≤ maxSessions)%nat.

Lemma wf_new ca sc ttl : wf_pairer (mkPairer ca sc ttl ∅ ∅ []).
Proof.
  split_and!; cbn; [apply map_Forall_empty..|]. rewrite map_size_empty. lia.
Qed.

Lemma wf_gc now p : wf_pairer p → wf_pairer (gcLocked now p).
Proof.
  intros (Hc & Hs & Hn). split_and!.
  - intros c t [H _]%gc_codes_lookup. by apply (Hc c t).
  - intros k s [H _]%gc_sessions_lookup. by apply (Hs k s).
  - destruct (gc_sizes now p). lia.
Qed.

Lemma wf_Issue ttl rnd now now_gc p p' i :
  match rnd with Some n => 0 ≤ n < codeSpace | None => True end →
  wf_pairer p → Issue ttl rnd now now_gc p = (p', i) → wf_pairer p'.
Proof.
  intros Hr Hwf. unfold Issue. destruct rnd as [n|]; cbn; [|by intros [= <- <-]].
  intros [= <- <-]. apply (wf_gc now_gc) in Hwf as (Hc & Hs & Hn). split_and!; try done.
  apply map_Forall_insert_2; [by apply code_value|done].
Qed.

Lemma wf_Begin r1 r2 now_gc now p p' o :
  wf_pairer p → Begin r1 r2 now_gc now p = (p', o) → wf_pairer p'.
Proof.
  intros Hwf. apply (wf_gc now_gc) in Hwf. unfold Begin.
  set (q := gcLocked now_gc p) in *. destruct Hwf as (Hc & Hs & Hn).
  repeat case_match; intros [= <- <-]; try by split_and!.
  split_and!; [done|..].
  - apply map_Forall_insert_2; [|done].
    split_and!; [done|apply (slen_read_bytes 16)|apply (slen_read_bytes 16)].
  - match goal with H : (maxSessions <=? _)%nat = false |- _ =>
      apply Nat.leb_gt in H end.
    apply Nat.le_trans with (S (size (sessions q))); [apply size_insert_le|lia].
Qed.

Lemma wf_start sid now p : wf_pairer p → wf_pairer (complete_start sid now p).1.
Proof.
  intros Hwf. rewrite complete_start_state. apply (wf_gc now) in Hwf as (Hc & Hs & Hn).
  split_and!; [done|by apply map_Forall_delete|]. cbn.
  etrans; [apply size_delete_le|done].
Qed.

Lemma wf_finish c now p p' o : wf_pairer p → complete_finish c now p = (p', o) → wf_pairer p'.
Proof.
  intros Hwf. pose proof Hwf as (Hc & Hs & Hn). unfold complete_finish.
  repeat case_match; intros [= <- <-]; try done.
  split_and!; [|done..]. by apply map_Forall_delete.
Qed.

Lemma wf_ex_p2 : wf_pairer ex_p2.
Proof.
  eapply (wf_Begin (Some "session") (Some "salt") ex_now ex_now ex_p1).
  - eapply (wf_Issue 0 (Some 42) ex_now ex_now ex_pairer); [cbn; unfold codeSpace; lia|apply wf_new|].
    apply surjective_pairing.
  - apply surjective_pairing.
Qed.

(** Channel binding.  A MAC that a joiner made for its session, for the
    certificate of the server it was talking to and for its own request is
    accepted by [Complete] for that session, that certificate and that request
    only, unless two different messages have the same MAC under the joiner's
    key and the key of an active code. *)
Theorem Complete_request_bound {C : Crypto} {L : CryptoLaws C}
    order now1 now2 e sid csr p p' b key0 sid0 cert0 csr0 :
  (∀ l, order l ≡ₚ l) → wf_pairer p → slen sid0 = SessionIDLen →
  Complete order now1 now2 e sid csr (ClientMAC key0 sid0 (CertHash cert0) csr0) p
    = (p', Ok b) →
  (sid = sid0 ∧ CertHash (serverCert p) = CertHash cert0 ∧ csr = csr0) ∨
  ∃ s c, sessions p !! sid = Some s ∧ is_Some (codes p !! c) ∧
    mac_collision (DeriveKey c (Salt s)) key0.
Proof.
  intros Ho (_ & Hws & _) Hl H.
  pose proof (Complete_Ok _ _ _ _ _ _ _ _ _ _ Ho H)
    as (s & c & exp & Hs & _ & _ & Hc & _ & _ & Ha & _).
  destruct (Hws _ _ Hs) as (Hid & Hlen & _).
  apply same_mac in Ha as [Hm|Hm].
  - left. rewrite Hid in Hm.
    apply client_msg_inj in Hm; [done|congruence|by unfold CertHash; rewrite !sha256_len].
  - right. exists s, c. eauto.
Qed.

Lemma Complete_request_bound_witness :
  Complete id ex_now ex_now ex_env ex_sid ex_join_csr
    (ClientMAC ex_key ex_sid (CertHash ex_server_cert) ex_join_csr) ex_p2
    = (ex_done.1, Ok ex_bundle) ∧
  ((ex_sid = ex_sid ∧ CertHash ex_server_cert = CertHash ex_server_cert ∧
    ex_join_csr = ex_join_csr) ∨
   ∃ s c, sessions ex_p2 !! ex_sid = Some s ∧ is_Some (codes ex_p2 !! c) ∧
     mac_collision (DeriveKey c (Salt s)) ex_key).
Proof.
  split; [exact ex_complete|].
  exact (Complete_request_bound id ex_now ex_now ex_env ex_sid ex_join_csr ex_p2 ex_done.1
    ex_bundle ex_key ex_sid ex_server_cert ex_join_csr (λ l, Permutation_refl l) wf_ex_p2
    eq_refl ex_complete).
Defined.

(** The joiner's check.  A bundle that [VerifyBundle] accepts has a node
    certificate for this very node in the bundle's mesh that verifies under the
    bundle's CA.  If its MAC was made by a coordinator for a session, a CA and
    a node certificate, the bundle holds that CA and that node certificate and
    the session is the joiner's; and a client's MAC is never taken for it.
    Both hold unless two different messages have the same MAC. *)
Theorem VerifyBundle_authentic {C : Crypto} {L : CryptoLaws C} key sid b nodeID now :
  VerifyBundle key sid b nodeID now = Ok tt →
  (PrincipalFromCert (NodeCert b) = Ok (mkPrincipal (Bundle_MeshID b) RoleNode nodeID) ∧
   x509_Verify (NodeCert b) (CACert b) now = true) ∧
  (∀ key0 sid0 ca0 node0,
     Bundle_ServerMAC b = ServerMAC key0 sid0 (Raw ca0) (Raw node0) →
     slen sid = slen sid0 → ParseCertificate (Raw ca0) = Some ca0 →
     ParseCertificate (Raw (CACert b)) = Some (CACert b) →
     (sid = sid0 ∧ CACert b = ca0 ∧ Raw (NodeCert b) = Raw node0) ∨ mac_collision key key0) ∧
  (∀ key0 sid0 h0 csr0,
     Bundle_ServerMAC b = ClientMAC key0 sid0 h0 csr0 → mac_collision key key0).
Proof.
  intros [Hmac HV]%VerifyBundle_Ok. apply VerifyAgainst_Ok in HV as (Hv & Hp & _).
  rewrite <-Hmac. unfold ServerMAC, ClientMAC. split_and!; [done|done|..].
  - intros key0 sid0 ca0 node0 Hb Hl Hp0 Hpb. apply same_mac in Hb as [Hm|]; [left|by right].
    apply (server_msg_inj _ _ _ _ _ _ _ _ Hl Hpb Hp0) in Hm as (-> & Hr & ->).
    split_and!; [done| |done]. rewrite Hr in Hpb. congruence.
  - intros key0 sid0 h0 csr0 Hb. apply same_mac in Hb as [Hm|]; [|done].
    by destruct (client_server_msg_ne _ _ _ _ _ _ (eq_sym Hm)).
Qed.

Lemma VerifyBundle_authentic_witness :
  VerifyBundle ex_key ex_sid ex_bundle "laptop" ex_now = Ok tt ∧
  x509_Verify (NodeCert ex_bundle) (CACert ex_bundle) ex_now = true.
Proof.
  assert (H : VerifyBundle ex_key ex_sid ex_bundle "laptop" ex_now = Ok tt)
    by (vm_compute; reflexivity).
  split; [exact H|].
  exact (proj2 (proj1 (VerifyBundle_authentic ex_key ex_sid ex_bundle "laptop" ex_now H))).
Defined.

(** An honest joiner succeeds.  A coordinator whose CA is sound answers the
    request that [NewCSR] made for a node_id, under a session it opened and the
    MAC of an active code, with a bundle that passes [VerifyBundle], provided no
    other active code gives the same MAC and the random source and the dates are
    good.  The code and the session are then gone. *)
Theorem Complete_honest {C : Crypto} {L : CryptoLaws C}
    order now1 now2 e sid p s c (exp : Time) nodeID jk rnd sn csr :
  (∀ l, order l ≡ₚ l) → wf_pairer p → wf_CA (pairer_ca p) → 0 < nodeTTL p →
  ParseCertificate (Raw (Cert (pairer_ca p))) = Some (Cert (pairer_ca p)) →
  sessions p !! sid = Some s → now1 ≤ ExpiresAt s →
  (length (filter (recent now1) (failures p)) < maxFailuresPerMin)%nat →
  codes p !! c = Some exp → now1 ≤ exp →
  is_label nodeID = true → pub_curve (priv_pub jk) = P256 → NewCSR nodeID jk rnd = Ok csr →
  serial_rnd e = Some sn → 0 ≤ sn →
  x509_time (issue_now e - backdate) = true → x509_time (issue_now e + nodeTTL p) = true →
  let key := DeriveKey c (Salt s) in
  let mac := ClientMAC key (ID s) (CertHash (serverCert p)) csr in
  (∀ c' t, codes p !! c' = Some t → answers p s csr mac c' → c' = c) →
  let '(p', out) := Complete order now1 now2 e sid csr mac p in
  codes p' !! c = None ∧ sessions p' !! sid = None ∧
  ∃ b, out = Ok b ∧ cert_pub (NodeCert b) = ECDSAPub (priv_pub jk) ∧
    ∀ now, NotBefore (NodeCert b) ≤ now ≤ NotAfter (NodeCert b) →
           NotBefore (Cert (pairer_ca p)) ≤ now ≤ NotAfter (Cert (pairer_ca p)) →
           VerifyBundle key (ID s) b nodeID now = Ok tt.
Proof.
  intros Ho (Hwc & _) Hca Httl Hpc Hs He Hf Hc Hexp Hl Hcv Hcsr Hsn Hsn0 Ht1 Ht2 key mac Huniq.
  destruct (complete_sign_honest p s key nodeID jk rnd e sn csr)
    as (b & Hb & _ & Hk & Hv); [done..|].
  assert (c ≠ "") as Hne by (intros ->; by specialize (Hwc _ _ Hc)).
  rewrite (Complete_runs order now1 now2 e sid csr mac p s c exp) by done. cbn.
  rewrite !lookup_delete_eq. split_and!; [done..|]. by exists b.
Qed.

Lemma Complete_honest_witness :
  let '(p', out) := Complete id ex_now ex_now ex_env ex_sid ex_join_csr ex_mac ex_p2 in
  codes p' !! "00000042" = None ∧ sessions p' !! ex_sid = None ∧ is_ok out = true.
Proof.
  assert (Hu : ∀ c' t, codes ex_p2 !! c' = Some t →
                 answers ex_p2 ex_session ex_join_csr ex_mac c' → c' = "00000042").
  { intros c' t H _. apply elem_of_map_to_list in H.
    assert (E : map_to_list (codes ex_p2) = [("00000042", time_Add ex_now DefaultCodeTTL)])
      by (vm_compute; reflexivity).
    rewrite E in H. apply list_elem_of_singleton in H. by injection H. }
  pose proof (Complete_honest id ex_now ex_now ex_env ex_sid ex_p2 ex_session "00000042"
    (ex_now + DefaultCodeTTL) "laptop" ex_joiner "r" 7 ex_join_csr
    (λ l, Permutation_refl l) wf_ex_p2 ex_ca_wf
    ltac:(vm_compute; reflexivity) ltac:(vm_compute; reflexivity) ltac:(vm_compute; reflexivity)
    ltac:(vm_compute; discriminate) ltac:(vm_compute; lia) ltac:(vm_compute; reflexivity)
    ltac:(vm_compute; discriminate) eq_refl ltac:(vm_compute; reflexivity)
    ltac:(vm_compute; reflexivity) eq_refl ltac:(lia) ltac:(vm_compute; reflexivity)
    ltac:(vm_compute; reflexivity) Hu) as H.
  change (ClientMAC (DeriveKey "00000042" (Salt ex_session)) (ID ex_session)
    (CertHash (serverCert ex_p2)) ex_join_csr) with ex_mac in H.
  destruct (Complete id ex_now ex_now ex_env ex_sid ex_join_csr ex_mac ex_p2) as [p' out].
  destruct H as (H1 & H2 & b & -> & _). auto.
Defined.

(** One attempt per session.  Whatever [Complete] answers, the session it
    named is gone and no code was added: the same session is refused by every
    later [Complete], before any key is derived. *)
Theorem Complete_one_attempt {C : Crypto} order order' now1 now2 now3 now4 e e' sid
    csr csr' mac mac' p :
  let p1 := (Complete order now1 now2 e sid csr mac p).1 in
  sessions p1 !! sid = None ∧ codes p1 ⊆ codes p ∧
  Complete order' now3 now4 e' sid csr' mac' p1 = (gcLocked now3 p1, Err ErrUnknownSession).
Proof.
  intros p1. destruct (Complete_state order now1 now2 e sid csr mac p) as [Hs Hc].
  split_and!; [done..|]. by apply Complete_no_session.
Qed.

(** A code is consumed before the request is looked at: with the right code and
    a request that cannot be signed, the call fails and the code is gone. *)
Theorem bad_request_consumes_code :
  let csr := "not a request" in
  let '(p', r) := Complete id ex_now ex_now ex_env ex_sid csr
                    (ClientMAC ex_key ex_sid (CertHash ex_server_cert) csr) ex_p2 in
  r = Err (Wrap "%w: %v" ErrBadCSR) ∧ is_Some (codes ex_p2 !! "00000042") ∧ codes p' = ∅.
Proof. vm_compute. split_and!; [done|by eexists|done]. Qed.
