(* ===== verification/PairerSys.v ===== *)
(** * The coordinator's [Pairer] under concurrent calls

    [Pairer] in [src/internal/pki/pairing.go] is used by every gRPC handler at
    once.  Its mutex makes [Issue], [ActiveCodes] and [Begin] atomic, and splits
    [Complete] in two atomic sections: the codes are copied in the first one,
    the keys are derived with no lock held, and the failure is recorded or the
    code consumed in the second one.  The system below interleaves these
    sections for any number of callers, under a clock that never goes back
    ([time.Now] carries a monotonic reading, and [time.Time.Sub] and [After]
    use it).  The last three fields are a history, which no step reads. *)
From stdpp Require Import relations.
From S2P Require Import Prelude GoStrings GoTime Crypto SymCrypto PkiCA PkiPairing.
Local Open Scope Z_scope.

(** ** The system *)

(** A call to [Complete] that holds no lock: its session, its arguments and the
    code that the loop over the candidates found, with its key. *)
Record Attempt := mkAttempt {
  at_session : Session; at_csr : string; at_matched : string; at_key : string
}.

Record Sys := mkSys {
  clock : Time;
  pairer : Pairer;
  inflight : list Attempt;
  issued : list string;
  used : list string;
  failed : list Time
}.

Section Steps.
Context {C : Crypto}.

(** What a step does in the eyes of the callers. *)
Inductive label : Type :=
  | LIssue (c : string)
  | LOpen (sid : string)
  | LClaim (sid : string)
  | LAdmit (c : string)
  | LReject
  | LSilent.
#[export] Instance label_eq_dec : EqDecision label.
Proof. solve_decision. Defined.

Definition open_label (out : result Session) : label :=
  match out with Ok s => LOpen (ID s) | Err _ => LSilent end.

(** [limit] is the number of calls to [Complete] that may be between their two
    sections at once, [None] for no limit: the code has none. *)
Inductive lstep (limit : option nat) : label → Sys → Sys → Prop :=
| step_tick now p fl iss us fs now' :
    now ≤ now' →
    lstep limit LSilent (mkSys now p fl iss us fs) (mkSys now' p fl iss us fs)
| step_issue ttl n t now p fl iss us fs p' i :
    0 ≤ n < codeSpace → t ≤ now →
    Issue ttl (Some n) t now p = (p', Ok i) →
    lstep limit (LIssue (Code i)) (mkSys now p fl iss us fs) (mkSys now p' fl (Code i :: iss) us fs)
| step_active now p fl iss us fs :
    lstep limit LSilent (mkSys now p fl iss us fs) (mkSys now (ActiveCodes now p).1 fl iss us fs)
| step_begin r1 r2 now now' p fl iss us fs :
    now ≤ now' →
    lstep limit (open_label (Begin r1 r2 now now' p).2) (mkSys now p fl iss us fs) (mkSys now' (Begin r1 r2 now now' p).1 fl iss us fs)
| step_start_err sid now p fl iss us fs p' err :
    complete_start sid now p = (p', Err err) →
    lstep limit LSilent (mkSys now p fl iss us fs) (mkSys now p' fl iss us fs)
| step_start sid csr mac cands now p fl iss us fs p' s cs c k :
    match limit with Some K => (length fl < K)%nat | None => True end →
    complete_start sid now p = (p', Ok (s, cs)) →
    cands ≡ₚ (map_to_list cs).*1 →
    match_codes (CertHash (serverCert p')) s csr mac cands = (c, k) →
    lstep limit (LClaim sid) (mkSys now p fl iss us fs) (mkSys now p' (mkAttempt s csr c k :: fl) iss us fs)
| step_finish_bad fl1 fl2 a now p iss us fs p' err :
    complete_finish (at_matched a) now p = (p', Err err) →
    lstep limit LReject (mkSys now p (fl1 ++ a :: fl2) iss us fs)
      (mkSys now p' (fl1 ++ fl2) iss us
         (if decide (at_matched a = "") then fs ++ [now] else fs))
| step_finish fl1 fl2 a now p iss us fs p' u :
    complete_finish (at_matched a) now p = (p', Ok u) →
    lstep limit (LAdmit (at_matched a)) (mkSys now p (fl1 ++ a :: fl2) iss us fs)
      (mkSys now p' (fl1 ++ fl2) iss (at_matched a :: us) fs).

Definition step (limit : option nat) (σ σ' : Sys) : Prop := ∃ l, lstep limit l σ σ'.

Definition initial (σ : Sys) : Prop :=
  ∃ now ca sc ttl, σ = mkSys now (mkPairer ca sc ttl ∅ ∅ []) [] [] [] [].
Definition reachable (limit : option nat) (σ : Sys) : Prop :=
  ∃ σ0, initial σ0 ∧ rtc (step limit) σ0 σ.

(** An invariant holds in every reachable state when it holds at first and every
    step keeps it. *)
Lemma reachable_ind limit (P : Sys → Prop) :
  (∀ σ, initial σ → P σ) → (∀ σ σ', step limit σ σ' → P σ → P σ') →
  ∀ σ, reachable limit σ → P σ.
Proof.
  intros H0 Hs σ (σ0 & Hi & Hr). apply H0 in Hi. clear H0.
  induction Hr; eauto.
Qed.

(** ** Keys of the maps *)

Definition keys {V} (m : gmap string V) : list string := (map_to_list m).*1.

Lemma keys_insert {V} c (t : V) m : keys (<[c := t]> m) ⊆+ c :: keys m.
Proof.
  unfold keys. destruct (m !! c) as [t'|] eqn:E.
  - rewrite <-(insert_delete_id m c t') by done. rewrite insert_insert_eq.
    rewrite !map_to_list_insert by apply lookup_delete_eq. cbn. by apply submseteq_cons.
  - by rewrite map_to_list_insert.
Qed.

Lemma keys_delete {V} c (t : V) m : m !! c = Some t → c :: keys (delete c m) ≡ₚ keys m.
Proof. intros E. unfold keys. by rewrite <-(map_to_list_delete m c t). Qed.

Lemma keys_mono {V} (m m' : gmap string V) : m ⊆ m' → keys m ⊆+ keys m'.
Proof. intros H. unfold keys. by apply fmap_submseteq, map_to_list_submseteq. Qed.

Lemma keys_gc now p : keys (codes (gcLocked now p)) ⊆+ keys (codes p).
Proof. apply keys_mono, map_filter_subseteq. Qed.

Lemma keys_gc_sessions now p : keys (sessions (gcLocked now p)) ⊆+ keys (sessions p).
Proof. apply keys_mono, map_filter_subseteq. Qed.

(** ** The invariants *)

(** How an operation on [Pairer] changes the codes and the failures. *)
Lemma Begin_codes r1 r2 now_gc now p :
  codes (Begin r1 r2 now_gc now p).1 = codes (gcLocked now_gc p) ∧
  failures (Begin r1 r2 now_gc now p).1 = failures (gcLocked now_gc p).
Proof. unfold Begin. by repeat case_match. Qed.

Lemma start_codes sid now p :
  codes (complete_start sid now p).1 = codes (gcLocked now p) ∧
  failures (complete_start sid now p).1 = failures (gcLocked now p).
Proof. by rewrite complete_start_state. Qed.

Definition wf_sys (σ : Sys) : Prop := wf_pairer (pairer σ).

Lemma wf_sys_step limit σ σ' : step limit σ σ' → wf_sys σ → wf_sys σ'.
Proof.
  unfold wf_sys. intros [l Hl]. destruct Hl; cbn; intros Hwf; try done.
  - by eapply (wf_Issue _ (Some n)).
  - by apply wf_gc.
  - eapply wf_Begin; [done|apply surjective_pairing].
  - change p' with (p', @Err (Session * gmap string Time) err).1.
    match goal with H : complete_start _ _ _ = _ |- _ => rewrite <-H end. by apply wf_start.
  - change p' with (p', Ok (s, cs)).1.
    match goal with H : complete_start _ _ _ = _ |- _ => rewrite <-H end. by apply wf_start.
  - by eapply wf_finish.
  - by eapply wf_finish.
Qed.

(** Every use of a code was paid by its own issue, and the active codes have
    not been paid for yet. *)
Definition inv_used (σ : Sys) : Prop :=
  used σ ++ keys (codes (pairer σ)) ⊆+ issued σ.

Lemma inv_used_shrink σ (m : gmap string Time) :
  inv_used σ → keys m ⊆+ keys (codes (pairer σ)) → used σ ++ keys m ⊆+ issued σ.
Proof. intros H Hk. etrans; [by apply submseteq_app, Hk|exact H]. Qed.

Lemma inv_used_step limit σ σ' : step limit σ σ' → inv_used σ → inv_used σ'.
Proof.
  intros [l Hl]. destruct Hl; intros Hi; try exact Hi; unfold inv_used; cbn [used issued pairer].
  - cbn in H1. injection H1 as <- <-. cbn [Code codes set_codes with_state].
    etrans; [apply submseteq_app; [reflexivity|apply keys_insert]|].
    rewrite <-Permutation_middle. apply submseteq_skip.
    apply (inv_used_shrink _ _ Hi), keys_gc.
  - apply (inv_used_shrink _ _ Hi), keys_gc.
  - apply (inv_used_shrink _ _ Hi). rewrite (proj1 (Begin_codes _ _ _ _ _)). apply keys_gc.
  - apply (inv_used_shrink _ _ Hi). destruct (start_codes sid now p) as [E _].
    rewrite H in E. cbn in E. rewrite E. apply keys_gc.
  - apply (inv_used_shrink _ _ Hi). destruct (start_codes sid now p) as [E _].
    rewrite H0 in E. cbn in E. rewrite E. apply keys_gc.
  - unfold complete_finish in H. repeat case_match; by simplify_eq.
  - apply complete_finish_Ok in H as (_ & [t Ht] & ->). cbn [codes set_codes with_state].
    cbn [app]. rewrite Permutation_middle, keys_delete by done. exact Hi.
Qed.

(** The failures that count are recorded: whatever [gcLocked] dropped is old. *)
Definition recent_failures (σ : Sys) : list Time := filter (recent (clock σ)) (failed σ).

Definition inv_rate (K : nat) (σ : Sys) : Prop :=
  recent_failures σ = filter (recent (clock σ)) (failures (pairer σ)) ∧
  (length (recent_failures σ) + length (inflight σ) < maxFailuresPerMin + K)%nat.

Lemma recent_later (now now' : Time) (l : list Time) :
  now ≤ now' → filter (recent now') (filter (recent now) l) = filter (recent now') l.
Proof.
  intros Hle. rewrite list_filter_filter_l; [done|].
  intros t. rewrite !recent_iff. lia.
Qed.

Lemma recent_now now : recent now now.
Proof. apply recent_iff. unfold failureWindowReset, Minute, Second. lia. Qed.

Lemma recent_replicate n (now : Time) :
  filter (recent now) (replicate n now) = replicate n now.
Proof.
  induction n as [|n IH]; [done|]. cbn [replicate].
  by rewrite (filter_cons_True _ _ _ (recent_now now)), IH.
Qed.

(** A later moment, and failures that [gcLocked] may have cleaned. *)
Lemma inv_rate_later K σ now' p' fl' iss us :
  clock σ ≤ now' → failures p' = failures (gcLocked (clock σ) (pairer σ)) ∨
                   failures p' = failures (pairer σ) →
  (length fl' ≤ length (inflight σ))%nat → inv_rate K σ →
  inv_rate K (mkSys now' p' fl' iss us (failed σ)).
Proof.
  intros Hle Hp Hfl [Hr Hn]. unfold inv_rate, recent_failures in *. cbn. split.
  - rewrite <-(recent_later _ _ (failed σ) Hle), Hr, (recent_later _ _ _ Hle).
    destruct Hp as [->| ->]; [|done].
    unfold gcLocked. cbn. by rewrite gc_failures_filter, recent_later.
  - rewrite <-(recent_later _ _ (failed σ) Hle).
    eapply Nat.le_lt_trans; [|exact Hn]. apply Nat.add_le_mono; [apply length_filter|done].
Qed.

Lemma inv_rate_start K σ sid p' s cs a :
  (length (inflight σ) < K)%nat → complete_start sid (clock σ) (pairer σ) = (p', Ok (s, cs)) →
  inv_rate K σ → inv_rate K (mkSys (clock σ) p' (a :: inflight σ) (issued σ) (used σ) (failed σ)).
Proof.
  intros HK Hs Hi. pose proof (complete_start_Ok _ _ _ _ _ _ Hs) as (_ & _ & Hf & _ & _).
  destruct (start_codes sid (clock σ) (pairer σ)) as [_ E]. rewrite Hs in E. cbn in E.
  destruct (inv_rate_later K σ (clock σ) p' (inflight σ) (issued σ) (used σ)
              (Z.le_refl _) (or_introl E) (le_n _) Hi) as [Hr' _].
  destruct Hi as [Hr _]. split; [exact Hr'|]. unfold recent_failures in *.
  cbn [clock failed inflight length] in *. rewrite Hr. lia.
Qed.

Lemma inv_rate_step K σ σ' : step (Some K) σ σ' → inv_rate K σ → inv_rate K σ'.
Proof.
  intros [l Hl]. destruct Hl; intros Hi.
  - refine (inv_rate_later K (mkSys now p fl iss us fs) now' p fl iss us H _ (le_n _) Hi); by right.
  - cbn in H1. injection H1 as <- <-.
    refine (inv_rate_later K (mkSys now p fl iss us fs) _ _ _ _ _ (Z.le_refl _) _ (le_n _) Hi); by left.
  - refine (inv_rate_later K (mkSys now p fl iss us fs) _ _ _ _ _ (Z.le_refl _) _ (le_n _) Hi); by left.
  - refine (inv_rate_later K (mkSys now p fl iss us fs) now' _ _ _ _ H _ (le_n _) Hi).
    left. apply Begin_codes.
  - destruct (start_codes sid now p) as [_ E]. rewrite H in E.
    refine (inv_rate_later K (mkSys now p fl iss us fs) _ _ _ _ _ (Z.le_refl _) _ (le_n _) Hi); by left.
  - by apply (inv_rate_start K (mkSys now p fl iss us fs) sid p' s cs).
  - destruct Hi as [Hr Hn]. unfold inv_rate, recent_failures in *.
    cbn [clock pairer inflight failed] in *. rewrite length_app in Hn |- *. cbn in Hn.
    unfold complete_finish in H. repeat case_match; simplify_eq; cbn [failures set_failures with_state].
    + rewrite !filter_app, Hr. split; [done|].
      rewrite length_app, (filter_cons_True _ _ _ (recent_now now)). rewrite Hr in Hn.
      unfold maxFailuresPerMin. cbn in *. lia.
    + split; [done|]. unfold maxFailuresPerMin. lia.
  - destruct Hi as [Hr Hn]. apply complete_finish_Ok in H as (_ & _ & ->).
    unfold inv_rate, recent_failures in *. cbn in *. rewrite length_app in *. cbn in Hn.
    split; [done|]. lia.
Qed.
End Steps.

(** ** An uninterrupted call is a run of the system *)

Section Refinement.
Context {C : Crypto}.

Lemma step_to limit now now' p fl iss us fs :
  now ≤ now' → rtc (step limit) (mkSys now p fl iss us fs) (mkSys now' p fl iss us fs).
Proof. intros. apply rtc_once. eexists. by apply step_tick. Qed.

(** What a call adds to the history: the code it consumed, or its failure. *)
Definition after (now2 : Time) (c : option string) (us : list string) (fs : list Time)
    (us' : list string) (fs' : list Time) : Prop :=
  match c with
  | Some c => us' = c :: us ∧ fs' = fs
  | None => us' = us ∧ (fs' = fs ∨ fs' = fs ++ [now2])
  end.

Lemma Complete_steps order now1 now2 e sid csr mac p iss us fs :
  (∀ l, order l ≡ₚ l) → now1 ≤ now2 →
  let '(p', out) := Complete order now1 now2 e sid csr mac p in
  ∃ c us' fs', after now2 c us fs us' fs' ∧ (is_ok out = true → is_Some c) ∧
    rtc (step (Some 1%nat)) (mkSys now1 p [] iss us fs) (mkSys now2 p' [] iss us' fs').
Proof.
  intros Ho Hle. unfold Complete.
  destruct (complete_start sid now1 p) as [q [[s cs]|err]] eqn:Es.
  2:{ exists None, us, fs. split; [split; [done|by left]|]. split; [done|].
      eapply rtc_l; [eexists; by eapply step_start_err|by apply step_to]. }
  destruct (match_codes _ _ _ _ _) as [c k] eqn:Em.
  assert (rtc (step (Some 1%nat)) (mkSys now1 p [] iss us fs)
            (mkSys now2 q [mkAttempt s csr c k] iss us fs)) as Hr.
  { eapply rtc_l; [|by apply step_to].
    eexists. eapply step_start; [cbn; lia|exact Es|apply Ho|exact Em]. }
  destruct (complete_finish c now2 q) as [q' [[]|err]] eqn:Ef.
  - exists (Some c), (c :: us), fs. split; [by split|]. split; [by eauto|].
    eapply rtc_r; [exact Hr|].
    eexists. by apply (step_finish _ [] [] (mkAttempt s csr c k) now2 q iss us fs q' tt).
  - exists None, us, (if decide (c = "") then fs ++ [now2] else fs). split; [|split].
    + split; [done|]. case_decide; [by right|by left].
    + done.
    + eapply rtc_r; [exact Hr|].
      eexists. by apply (step_finish_bad _ [] [] (mkAttempt s csr c k) now2 q iss us fs q' err).
Qed.

Lemma reachable_steps limit σ σ' :
  reachable limit σ → rtc (step limit) σ σ' → reachable limit σ'.
Proof. intros (σ0 & Hi & Hr) Hs. exists σ0. split; [done|]. by etrans. Qed.

(** The order of the candidates does not matter when one code at most answers. *)
Lemma match_codes_perm h s csr mac l l' c k :
  l ≡ₚ l' → "" ∉ l →
  (∀ a b, a ∈ l → b ∈ l → ClientMAC (DeriveKey a (Salt s)) (ID s) h csr = mac →
          ClientMAC (DeriveKey b (Salt s)) (ID s) h csr = mac → a = b) →
  match_codes h s csr mac l = (c, k) → match_codes h s csr mac l' = (c, k).
Proof.
  intros Hp Hne Hu Hm. destruct (match_codes h s csr mac l') as [c' k'] eqn:Hm'.
  pose proof (match_codes_empty _ _ _ _ _ _ _ Hm) as Hk.
  pose proof (match_codes_empty _ _ _ _ _ _ _ Hm') as Hk'.
  apply match_codes_spec in Hm as [(Hc & -> & Ha)|[-> Ha]];
    apply match_codes_spec in Hm' as [(Hc' & -> & Ha')|[-> Ha']].
  - rewrite <-Hp in Hc'. by rewrite (Hu c c').
  - rewrite Hp in Hc. by destruct (Ha' c).
  - rewrite <-Hp in Hc'. by destruct (Ha c').
  - rewrite Hk, Hk'; auto. by rewrite <-Hp.
Qed.
End Refinement.

(** ** Properties *)

(** C3: single use under any interleaving.  In every reachable state, the codes
    consumed so far and the codes still active are covered, one for one, by the
    codes issued: concurrent calls never get two bundles out of one issue. *)
Theorem codes_single_use {C : Crypto} limit σ :
  reachable limit σ → used σ ++ keys (codes (pairer σ)) ⊆+ issued σ.
Proof.
  apply (reachable_ind limit inv_used); [|apply inv_used_step].
  intros ? (now & ca & sc & ttl & ->). unfold inv_used, keys. cbn.
  by rewrite map_to_list_empty.
Qed.

(** C39: in every reachable state the sessions are kept under their own 16-byte
    ID with a 16-byte salt, at most 32 are open, and every active code has the
    format [ValidateCodeFormat] asks for. *)
Theorem pairer_invariant {C : Crypto} limit σ :
  reachable limit σ →
  map_Forall (λ c _, ValidateCodeFormat c = Ok tt) (codes (pairer σ)) ∧
  map_Forall wf_session (sessions (pairer σ)) ∧ (size (sessions (pairer σ)) ≤ maxSessions)%nat.
Proof.
  intros Hr. assert (wf_sys σ) as (Hc & Hs & Hn).
  { apply (reachable_ind limit wf_sys); [|apply wf_sys_step|done].
    intros ? (now & ca & sc & ttl & ->). apply wf_new. }
  split_and!; [|done..]. intros c t H. pose proof (ValidateCodeFormat_code c) as Hv.
  rewrite (Hc _ _ H) in Hv. by destruct (ValidateCodeFormat c) as [[]|].
Qed.

(** The rate limit.  If at most [K] calls to [Complete] overlap, at most
    [4 + K] attempts fail in any minute, and the failures that [Pairer] still
    remembers are exactly those. *)
Theorem rate_limit {C : Crypto} K σ :
  reachable (Some K) σ →
  recent_failures σ = filter (recent (clock σ)) (failures (pairer σ)) ∧
  (length (recent_failures σ) < maxFailuresPerMin + K)%nat.
Proof.
  intros Hr. assert (inv_rate K σ) as [H1 H2]; [|split; [exact H1|lia]].
  apply (reachable_ind (Some K) (inv_rate K)); [|apply inv_rate_step|done].
  intros ? (now & ca & sc & ttl & ->). split; [done|]. cbn. unfold maxFailuresPerMin. lia.
Qed.

(** *** A run, for the witnesses *)

Definition ex_sys0 : Sys := mkSys ex_now ex_pairer [] [] [] [].
Definition ex_sys2 : Sys := mkSys ex_now ex_p2 [] ["00000042"] [] [].

Lemma ex_issue limit : step limit ex_sys0 (mkSys ex_now ex_p1 [] ["00000042"] [] []).
Proof.
  eexists. apply (step_issue limit 0 42 ex_now ex_now ex_pairer [] [] [] [] ex_p1
           (mkIssued "00000042" (time_Add ex_now DefaultCodeTTL)));
    [unfold codeSpace; lia|done|vm_compute; reflexivity].
Qed.

Lemma ex_reach2 limit : reachable limit ex_sys2.
Proof.
  exists ex_sys0. split; [by eexists _, _, _, _|].
  eapply rtc_l; [apply ex_issue|]. apply rtc_once. eexists.
  apply (step_begin limit (Some "session") (Some "salt") ex_now ex_now). done.
Qed.

Lemma ex_reach_done : ∃ us fs,
  reachable (Some 1%nat) (mkSys ex_now ex_done.1 [] ["00000042"] us fs) ∧ us ≠ [].
Proof.
  pose proof (Complete_steps id ex_now ex_now ex_env ex_sid ex_join_csr ex_mac ex_p2
                ["00000042"] [] [] (λ l, Permutation_refl l) (Z.le_refl _)) as H.
  rewrite ex_complete in H. destruct H as (c & us & fs & Ha & Hc & Hr).
  destruct (Hc eq_refl) as [c' ->]. destruct Ha as [-> ->].
  exists [c'], []. split; [|done]. eapply reachable_steps; [apply ex_reach2|exact Hr].
Qed.

Lemma codes_single_use_witness :
  ∃ us fs, us ≠ [] ∧ us ++ keys (codes ex_done.1) ⊆+ ["00000042"] ∧
    reachable (Some 1%nat) (mkSys ex_now ex_done.1 [] ["00000042"] us fs).
Proof.
  destruct ex_reach_done as (us & fs & Hr & Hn). exists us, fs. split; [exact Hn|].
  split; [|exact Hr]. exact (codes_single_use (Some 1%nat) _ Hr).
Defined.

Lemma pairer_invariant_witness :
  sessions (pairer ex_sys2) !! ex_sid = Some ex_session ∧ wf_session ex_sid ex_session.
Proof.
  split; [vm_compute; reflexivity|].
  apply (proj1 (proj2 (pairer_invariant None ex_sys2 (ex_reach2 None)))).
  vm_compute. reflexivity.
Defined.

Lemma rate_limit_witness :
  reachable (Some 1%nat) ex_sys2 ∧ (length (recent_failures ex_sys2) < maxFailuresPerMin + 1)%nat.
Proof.
  split; [apply ex_reach2|].
  exact (proj2 (rate_limit 1 ex_sys2 (ex_reach2 (Some 1%nat)))).
Defined.

(** *** Overlapping attempts *)

Definition ex_p1' : Pairer := (complete_start ex_sid ex_now ex_p2).1.
Definition ex_attempt : Attempt := mkAttempt ex_session "csr" "" "".

(** [Begin] and the first section of [Complete] leave the coordinator as it was:
    neither the session nor the attempt counts until the second section. *)
Lemma ex_open fl : rtc (step None) (mkSys ex_now ex_p1 fl ["00000042"] [] [])
                     (mkSys ex_now ex_p1 (ex_attempt :: fl) ["00000042"] [] []).
Proof.
  eapply rtc_l; [eexists; apply (step_begin None (Some "session") (Some "salt") ex_now ex_now); done|].
  change (Begin (Some "session") (Some "salt") ex_now ex_now ex_p1).1 with ex_p2.
  apply rtc_once. eexists.
  apply (step_start None ex_sid "csr" "wrong" ["00000042"] ex_now ex_p2 fl ["00000042"] [] []
           ex_p1 ex_session (codes ex_p1) "" ""); try done; vm_compute; reflexivity.
Qed.

Lemma ex_open_n n : rtc (step None) (mkSys ex_now ex_p1 [] ["00000042"] [] [])
                      (mkSys ex_now ex_p1 (replicate n ex_attempt) ["00000042"] [] []).
Proof. induction n as [|n IH]; [done|]. etrans; [exact IH|apply ex_open]. Qed.

Lemma ex_fail_n n p fs :
  ∃ p', rtc (step None) (mkSys ex_now p (replicate n ex_attempt) ["00000042"] [] fs)
          (mkSys ex_now p' [] ["00000042"] [] (fs ++ replicate n ex_now)).
Proof.
  revert p fs. induction n as [|n IH]; intros p fs.
  - exists p. cbn. by rewrite app_nil_r.
  - destruct (IH (set_failures (failures p ++ [ex_now]) p) (fs ++ [ex_now])) as [p' Hr].
    exists p'. rewrite <-app_assoc in Hr. eapply rtc_l; [|exact Hr].
    eexists. by apply (step_finish_bad None [] (replicate n ex_attempt) ex_attempt ex_now p
                ["00000042"] [] fs _ ErrBadCode).
Qed.

(** The limit of five failures a minute is checked before the keys are
    derived and the failure is recorded after, so it does not bound calls that
    overlap: any number of wrong guesses can fail in the same minute. *)
Theorem rate_limit_not_atomic n :
  ∃ σ, reachable None σ ∧ length (recent_failures σ) = n ∧ used σ = [].
Proof.
  destruct (ex_fail_n n ex_p1 []) as [p' Hr].
  exists (mkSys ex_now p' [] ["00000042"] [] (replicate n ex_now)). split_and!; [|..].
  - exists ex_sys0. split; [by eexists _, _, _, _|].
    eapply rtc_l; [apply ex_issue|]. etrans; [apply (ex_open_n n)|exact Hr].
  - unfold recent_failures. cbn. rewrite recent_replicate. apply length_replicate.
  - done.
Qed.
