(* ===== verification/PairerExpiry.v ===== *)
(** * Expiry is lazy, and nobody can tell

    [Pairer] has no timer: [gcLocked], at the start of each operation, throws
    away what has expired since.  Two states that [gcLocked] maps to the same
    one are interchangeable from then on, so the coordinator answers exactly as
    one that sweeps all the time would. *)
From S2P Require Import Prelude GoStrings GoTime Crypto SymCrypto PkiCA PkiPairing.
Local Open Scope Z_scope.

(** ** States that differ in what has expired only *)

Definition same_at (t : Time) (p q : Pairer) : Prop := gcLocked t p = gcLocked t q.

#[export] Instance same_at_equivalence t : Equivalence (same_at t).
Proof.
  split; unfold same_at.
  - by intros p.
  - by intros p q.
  - intros p q r. apply eq_trans.
Qed.

(** What a later sweep finds does not depend on the earlier one. *)
Lemma gc_gc t now p : t ≤ now → gcLocked now (gcLocked t p) = gcLocked now p.
Proof.
  intros Hle. unfold gcLocked, with_state. cbn. f_equal.
  - apply map_eq. intros c. apply option_eq. intros e. rewrite !map_lookup_filter_Some. cbn.
    unfold time_After. rewrite !Z.ltb_ge. naive_solver lia.
  - apply map_eq. intros c. apply option_eq. intros e. rewrite !map_lookup_filter_Some. cbn.
    unfold time_After. rewrite !Z.ltb_ge. naive_solver lia.
  - rewrite !gc_failures_filter, list_filter_filter_l; [done|].
    intros x. rewrite !recent_iff. lia.
Qed.

Lemma same_at_later t now p q : t ≤ now → same_at t p q → same_at now p q.
Proof. unfold same_at. intros Hle H. by rewrite <-(gc_gc t now p), <-(gc_gc t now q), H. Qed.

Lemma same_at_gc t p : same_at t (gcLocked t p) p.
Proof. unfold same_at. by apply gc_gc. Qed.

(** ** The operations do not see the difference *)

Section Operations.
Context {C : Crypto} (t : Time).

#[export] Instance gcLocked_proper : Proper (same_at t ==> eq) (gcLocked t).
Proof. by intros p q H. Qed.

#[export] Instance ActiveCodes_proper : Proper (same_at t ==> eq) (ActiveCodes t).
Proof. intros p q H. unfold same_at in H. unfold ActiveCodes. by rewrite H. Qed.

#[export] Instance Begin_proper r1 r2 now : Proper (same_at t ==> eq) (Begin r1 r2 t now).
Proof. intros p q H. unfold same_at in H. unfold Begin. by rewrite H. Qed.

#[export] Instance complete_start_proper sid : Proper (same_at t ==> eq) (complete_start sid t).
Proof. intros p q H. unfold same_at in H. unfold complete_start. by rewrite H. Qed.

#[export] Instance Complete_proper order now2 e sid csr mac :
  Proper (same_at t ==> eq) (Complete order t now2 e sid csr mac).
Proof. intros p q H. unfold Complete. by rewrite (complete_start_proper sid p q H). Qed.

(** Without randomness [Issue] returns before it sweeps. *)
Lemma Issue_same ttl rnd now p q :
  same_at t p q →
  (Issue ttl rnd now t p).2 = (Issue ttl rnd now t q).2 ∧
  same_at t (Issue ttl rnd now t p).1 (Issue ttl rnd now t q).1.
Proof.
  intros H. unfold Issue. destruct (GenerateCode rnd) as [c|e]; [|done].
  unfold same_at in H. rewrite H. by split.
Qed.
End Operations.

(** ** Sequences of operations *)

Inductive op :=
  | OpIssue (ttl : Duration) (rnd : option Z) (now gc : Time)
  | OpActive (gc : Time)
  | OpBegin (rnd_id rnd_salt : option string) (gc now : Time)
  | OpComplete (order : list string → list string) (gc now2 : Time) (e : IssueEnv)
      (sid csr mac : string)
  | OpSweep (gc : Time).

(** When the operation calls [gcLocked]. *)
Definition op_time (o : op) : Time :=
  match o with
  | OpIssue _ _ _ gc | OpActive gc | OpBegin _ _ gc _ | OpComplete _ gc _ _ _ _ _ | OpSweep gc => gc
  end.

Inductive answer :=
  | AIssue (r : result Issued)
  | AActive (n : nat)
  | ABegin (r : result Session)
  | AComplete (r : result Bundle).

Section Runs.
Context {C : Crypto}.

Definition exec (o : op) (p : Pairer) : Pairer * list answer :=
  match o with
  | OpIssue ttl rnd now gc => let '(p, r) := Issue ttl rnd now gc p in (p, [AIssue r])
  | OpActive gc => let '(p, n) := ActiveCodes gc p in (p, [AActive n])
  | OpBegin r1 r2 gc now => let '(p, r) := Begin r1 r2 gc now p in (p, [ABegin r])
  | OpComplete order gc now2 e sid csr mac =>
      let '(p, r) := Complete order gc now2 e sid csr mac p in (p, [AComplete r])
  | OpSweep gc => (gcLocked gc p, [])
  end.

Fixpoint answers (ops : list op) (p : Pairer) : list answer :=
  match ops with
  | [] => []
  | o :: ops => (exec o p).2 ++ answers ops (exec o p).1
  end.

Definition is_sweep (o : op) : bool := match o with OpSweep _ => true | _ => false end.

Lemma exec_same o p q :
  is_sweep o = false → same_at (op_time o) p q →
  (exec o p).2 = (exec o q).2 ∧ same_at (op_time o) (exec o p).1 (exec o q).1.
Proof.
  destruct o as [ttl rnd now gc|gc|r1 r2 gc now|order gc now2 e sid csr mac|gc]; intros Hs H;
    cbn [exec op_time] in *; [|by rewrite (ActiveCodes_proper gc p q H)
    |by rewrite (Begin_proper gc r1 r2 now p q H)
    |by rewrite (Complete_proper gc order now2 e sid csr mac p q H)|done].
  destruct (Issue_same gc ttl rnd now p q H) as [E1 E2].
  destruct (Issue ttl rnd now gc p) as [p' r], (Issue ttl rnd now gc q) as [q' r']. cbn in *.
  by rewrite E1.
Qed.

Definition ordered (ops : list op) : Prop := StronglySorted Z.le (map op_time ops).

Lemma answers_same ops t p q :
  ordered ops → Forall (λ o, t ≤ op_time o) ops → same_at t p q →
  answers ops p = answers (List.filter (λ o, negb (is_sweep o)) ops) q.
Proof.
  unfold ordered. revert t p q. induction ops as [|o ops IH]; intros t p q Ho Hf H; [done|].
  cbn [map] in Ho. apply StronglySorted_inv in Ho as [Ho Hle].
  apply Forall_cons in Hf as [Ht _]. apply (same_at_later _ _ _ _ Ht) in H.
  assert (Hf : Forall (λ o', op_time o ≤ op_time o') ops) by (exact (proj1 (Forall_map op_time (Z.le (op_time o)) ops) Hle)).
  cbn [List.filter answers]. destruct (is_sweep o) eqn:Es; cbn [negb].
  - destruct o; try done. cbn [exec fst snd app op_time] in *. apply (IH gc); [done..|].
    by rewrite same_at_gc.
  - destruct (exec_same o p q Es H) as [E1 E2]. cbn [answers]. rewrite E1. f_equal.
    by apply (IH (op_time o)).
Qed.
End Runs.

(** ** Properties *)

(** C28: expiry is lazy, and nobody can tell.  For every sequence of calls to
    [Pairer] in the order of the clock, sweeping what has expired at any moments
    in between, as often as one likes, changes no answer: no code, session or
    failure has an effect after its time because it was not cleaned up yet. *)
Theorem lazy_expiry {C : Crypto} ops p :
  ordered ops →
  answers ops p = answers (List.filter (λ o, negb (is_sweep o)) ops) p.
Proof.
  intros Ho. destruct ops as [|o ops]; [done|].
  apply (answers_same _ (op_time o)); [done| |done].
  pose proof Ho as Ho'. unfold ordered in Ho'. cbn [map] in Ho'.
  apply StronglySorted_inv in Ho' as [_ Hle]. apply Forall_cons. split; [lia|].
  exact (proj1 (Forall_map op_time (Z.le (op_time o)) ops) Hle).
Qed.

Lemma lazy_expiry_witness :
  answers [OpIssue 0 (Some 42) ex_now ex_now; OpSweep (ex_now + Hour); OpActive (ex_now + Hour)] ex_pairer
  = [AIssue (Ok (mkIssued "00000042" (ex_now + DefaultCodeTTL))); AActive 0].
Proof.
  rewrite lazy_expiry; [vm_compute; reflexivity|].
  repeat constructor; vm_compute; discriminate.
Defined.
