(* ===== verification/PairerProgress.v ===== *)
(** * The coordinator lets an honest joiner in, whatever else it is doing

    [PairerSys.v] and [PairerSpec.v] say what the interleaved calls of
    [src/internal/pki/pairing.go] never do.  Here is what they cannot prevent: a
    joiner that has an open session and an active code is admitted, with any
    number of other calls before, between and after the two critical sections
    of its own [Complete], as long as nobody else uses up its session or its
    code, neither expires, and fewer than five attempts failed in the last
    minute. *)
From stdpp Require Import relations.
From S2P Require Import Prelude GoStrings GoTime Crypto SymCrypto PkiCA PkiPairing PairerSys.
Local Open Scope Z_scope.

Section Progress.
Context {C : Crypto}.

(** Fewer than five attempts failed in the last minute. *)
Definition few_failures (σ : Sys) : Prop :=
  (length (filter (recent (clock σ)) (failures (pairer σ))) < maxFailuresPerMin)%nat.

(** A step of somebody else: it does not claim the session [sid] nor open one
    with the same ID, and it neither consumes the code [c] nor issues it anew. *)
Definition quiet (sid c : string) (σ σ' : Sys) : Prop :=
  few_failures σ ∧ ∃ l, lstep None l σ σ' ∧
    l ≠ LClaim sid ∧ l ≠ LOpen sid ∧ l ≠ LAdmit c ∧ l ≠ LIssue c.

(** One that leaves the code alone. *)
Definition undecided (c : string) (σ σ' : Sys) : Prop :=
  ∃ l, lstep None l σ σ' ∧ l ≠ LAdmit c ∧ l ≠ LIssue c.

Lemma lstep_clock limit l σ σ' : lstep limit l σ σ' → clock σ ≤ clock σ'.
Proof. intros []; cbn; lia. Qed.

Lemma rtc_clock (R : Sys → Sys → Prop) σ σ' :
  (∀ a b, R a b → clock a ≤ clock b) → rtc R σ σ' → clock σ ≤ clock σ'.
Proof. intros HR. induction 1 as [|a b d Hs _ IH]; [lia|]. apply HR in Hs. lia. Qed.

(** A code stays until it is consumed, issued anew, or expires. *)
Lemma code_stays limit l σ σ' c (exp : Time) :
  lstep limit l σ σ' → l ≠ LAdmit c → l ≠ LIssue c → clock σ ≤ exp →
  codes (pairer σ) !! c = Some exp → codes (pairer σ') !! c = Some exp.
Proof.
  intros Hs Ha Hi He Hc. assert (Hg : codes (gcLocked (clock σ) (pairer σ)) !! c = Some exp)
    by by apply gc_codes_lookup.
  destruct Hs; cbn [clock pairer] in *; try done.
  - match goal with H : Issue _ _ _ _ _ = _ |- _ => cbn in H; injection H as <- <- end. cbn in *.
    rewrite lookup_insert_ne; [done|congruence].
  - by rewrite (proj1 (Begin_codes _ _ _ _ _)).
  - match goal with H : complete_start ?i ?t ?q = _ |- _ =>
      pose proof (proj1 (start_codes i t q)) as E; rewrite H in E end. cbn in E. by rewrite E.
  - match goal with H : complete_start ?i ?t ?q = _ |- _ =>
      pose proof (proj1 (start_codes i t q)) as E; rewrite H in E end. cbn in E. by rewrite E.
  - unfold complete_finish in *. by repeat case_match; simplify_eq.
  - match goal with H : complete_finish _ _ _ = _ |- _ => apply complete_finish_Ok in H as (_ & _ & ->) end.
    cbn. rewrite lookup_delete_ne; [done|congruence].
Qed.

(** A session stays until it is claimed, opened anew, or expires: a call that
    names it is a claim, since it cannot be refused. *)
Lemma session_stays limit l σ σ' sid s :
  lstep limit l σ σ' → l ≠ LClaim sid → l ≠ LOpen sid → few_failures σ → clock σ ≤ ExpiresAt s →
  sessions (pairer σ) !! sid = Some s → sessions (pairer σ') !! sid = Some s.
Proof.
  intros Hst Hcl Hop Hf He Hs.
  assert (Hg : sessions (gcLocked (clock σ) (pairer σ)) !! sid = Some s) by by apply gc_sessions_lookup.
  unfold few_failures in Hf. destruct Hst; cbn [clock pairer] in *; try done.
  - match goal with H : Issue _ _ _ _ _ = _ |- _ => cbn in H; injection H as <- <- end. done.
  - revert Hop. unfold Begin. repeat case_match; try done. cbn. intros Hop.
    rewrite lookup_insert_ne; [done|]. intros E. apply Hop. by rewrite E.
  - match goal with H : complete_start ?i ?t ?q = _ |- _ =>
      rename H into Hc; destruct (decide (i = sid)) as [->|Hne] end.
    + rewrite complete_start_spec in Hc. cbv zeta in Hc. rewrite Hg in Hc.
      assert (E : failures (gcLocked now p) = filter (recent now) (failures p))
        by (unfold gcLocked; cbn; apply gc_failures_filter).
      rewrite E, (proj2 (Nat.leb_gt _ _)) in Hc by done. done.
    + pose proof (complete_start_state sid0 now p) as E. rewrite Hc in E. cbn in E. subst p'.
      cbn. by rewrite lookup_delete_ne.
  - match goal with H : complete_start ?i ?t ?q = _ |- _ =>
      pose proof (complete_start_state i t q) as E; rewrite H in E end.
    cbn in E. subst p'. cbn. rewrite lookup_delete_ne; [done|congruence].
  - unfold complete_finish in *. by repeat case_match; simplify_eq.
  - match goal with H : complete_finish _ _ _ = _ |- _ => apply complete_finish_Ok in H as (_ & _ & ->) end.
    done.
Qed.

Lemma quiet_clock sid c σ σ' : quiet sid c σ σ' → clock σ ≤ clock σ'.
Proof. intros (_ & l & Hl & _). by eapply lstep_clock. Qed.
Lemma undecided_clock c σ σ' : undecided c σ σ' → clock σ ≤ clock σ'.
Proof. intros (l & Hl & _). by eapply lstep_clock. Qed.

Lemma quiet_keeps sid c s (exp : Time) σ σ' :
  rtc (quiet sid c) σ σ' → clock σ' ≤ ExpiresAt s → clock σ' ≤ exp →
  sessions (pairer σ) !! sid = Some s → codes (pairer σ) !! c = Some exp →
  sessions (pairer σ') !! sid = Some s ∧ codes (pairer σ') !! c = Some exp.
Proof.
  induction 1 as [|σ1 σ2 σ3 Hq Hr IH]; [done|]. intros He1 He2 Hs Hc.
  pose proof (rtc_clock _ _ _ (quiet_clock sid c) Hr). pose proof (quiet_clock _ _ _ _ Hq).
  destruct Hq as (Hf & l & Hl & H1 & H2 & H3 & H4). apply IH; [done..| |].
  - eapply session_stays; [exact Hl|done..|lia|done].
  - eapply code_stays; [exact Hl|done..|lia|done].
Qed.

(** An attempt that found the code [c] stays in flight until [c] is consumed. *)
Lemma attempt_stays limit l σ σ' c (exp : Time) a :
  lstep limit l σ σ' → l ≠ LAdmit c → at_matched a = c → c ≠ "" →
  codes (pairer σ) !! c = Some exp → a ∈ inflight σ → a ∈ inflight σ'.
Proof.
  intros Hs Ha Em Hne Hc. destruct Hs; cbn [pairer inflight] in *; try done.
  - rewrite elem_of_cons. by right.
  - rewrite !elem_of_app, elem_of_cons. intros [?|[->|?]]; [by left| |by right].
    unfold complete_finish in *. rewrite Em, decide_False, Hc in * by done. done.
  - rewrite !elem_of_app, elem_of_cons. intros [?|[->|?]]; [by left| |by right]. by subst c.
Qed.

Lemma undecided_keeps c (exp : Time) a σ σ' :
  rtc (undecided c) σ σ' → clock σ' ≤ exp → at_matched a = c → c ≠ "" →
  codes (pairer σ) !! c = Some exp → a ∈ inflight σ →
  codes (pairer σ') !! c = Some exp ∧ a ∈ inflight σ'.
Proof.
  intros Hr He Em Hne. revert He. induction Hr as [|σ1 σ2 σ3 Hq Hr IH]; [done|]. intros He Hc Ha.
  pose proof (rtc_clock _ _ _ (undecided_clock c) Hr). pose proof (undecided_clock _ _ _ Hq).
  destruct Hq as (l & Hl & H1 & H2). apply IH; [done| |].
  - eapply code_stays; [exact Hl|done..|lia|done].
  - by eapply attempt_stays.
Qed.

(** The first section of the joiner's [Complete]. *)
Lemma claim_possible σ sid s c (exp : Time) csr mac :
  sessions (pairer σ) !! sid = Some s → codes (pairer σ) !! c = Some exp →
  clock σ ≤ ExpiresAt s → clock σ ≤ exp → few_failures σ →
  answers (pairer σ) s csr mac c →
  (∀ c' t, codes (pairer σ) !! c' = Some t → answers (pairer σ) s csr mac c' → c' = c) →
  ∃ σ', lstep None (LClaim sid) σ σ' ∧ clock σ' = clock σ ∧ codes (pairer σ') !! c = Some exp ∧
    mkAttempt s csr c (DeriveKey c (Salt s)) ∈ inflight σ'.
Proof.
  destruct σ as [now p fl iss us fs]. unfold few_failures. cbn [clock pairer].
  intros Hs Hc He1 He2 Hf Ha Huniq.
  assert (Hs' : sessions (gcLocked now p) !! sid = Some s) by by apply gc_sessions_lookup.
  assert (Hc' : codes (gcLocked now p) !! c = Some exp) by by apply gc_codes_lookup.
  set (p' := set_sessions (delete sid (sessions (gcLocked now p))) (gcLocked now p)).
  assert (Hst : complete_start sid now p = (p', Ok (s, codes (gcLocked now p)))).
  { rewrite complete_start_spec. cbv zeta. rewrite Hs'.
    assert (E : failures (gcLocked now p) = filter (recent now) (failures p))
      by (unfold gcLocked; cbn; apply gc_failures_filter).
    by rewrite E, (proj2 (Nat.leb_gt _ _)). }
  destruct (match_codes (CertHash (serverCert p')) s csr mac (map_to_list (codes (gcLocked now p))).*1)
    as [c0 k] eqn:Em.
  assert (c0 = c ∧ k = DeriveKey c (Salt s)) as [-> ->].
  { apply match_codes_spec in Em as [(Hin & -> & Hm)|[_ Hno]].
    - apply list_elem_of_fmap in Hin as ([c1 t] & -> & Hin).
      apply elem_of_map_to_list, gc_codes_lookup in Hin as [Hin _]. cbn [fst] in *.
      by rewrite (Huniq _ _ Hin Hm).
    - exfalso. apply (Hno c); [|exact Ha]. apply list_elem_of_fmap. exists (c, exp).
      split; [done|]. by apply elem_of_map_to_list. }
  exists (mkSys now p' (mkAttempt s csr c (DeriveKey c (Salt s)) :: fl) iss us fs).
  split_and!; [by eapply (step_start None)|done|done|cbn; by left].
Qed.

(** The second one. *)
Lemma finish_possible σ c (exp : Time) a :
  a ∈ inflight σ → at_matched a = c → c ≠ "" → codes (pairer σ) !! c = Some exp →
  ∃ σ', lstep None (LAdmit c) σ σ' ∧ inflight σ ≡ₚ a :: inflight σ' ∧ used σ' = c :: used σ ∧
    codes (pairer σ') !! c = None.
Proof.
  destruct σ as [now p fl iss us fs]. cbn [pairer inflight used].
  intros (fl1 & fl2 & ->)%list_elem_of_split <- Hne Hc.
  assert (Hf : complete_finish (at_matched a) now p =
               (set_codes (delete (at_matched a) (codes p)) p, Ok tt))
    by (unfold complete_finish; by rewrite decide_False, Hc).
  eexists. split; [by eapply (step_finish None)|]. cbn.
  split; [by rewrite Permutation_middle|]. split; [done|]. apply lookup_delete_eq.
Qed.
End Progress.

Lemma active_code_nonempty {C : Crypto} limit σ c (exp : Time) :
  reachable limit σ → codes (pairer σ) !! c = Some exp → c ≠ "".
Proof.
  intros Hr Hc ->. assert (wf_sys σ) as (Hw & _).
  { apply (reachable_ind limit wf_sys); [|apply wf_sys_step|done].
    intros ? (now & ca & sc & ttl & ->). apply wf_new. }
  by specialize (Hw _ _ Hc).
Qed.

(** ** Properties *)

(** C8: an honest joiner is admitted, whatever else the coordinator is doing.
    Take a reachable state with an open session and an active code, and let any
    calls run that leave the session and the code alone.  While neither is past
    its time and fewer than five attempts failed in the last minute, a
    [Complete] for this session with a MAC that this code alone gives can start,
    and finds the code; let again any calls run, and while the code is neither
    consumed nor past its time, its second section can run and consumes it. *)
Theorem honest_joiner_admitted {C : Crypto} σ0 σ1 sid s c (exp : Time) csr mac :
  reachable None σ0 →
  sessions (pairer σ0) !! sid = Some s → codes (pairer σ0) !! c = Some exp →
  rtc (quiet sid c) σ0 σ1 →
  clock σ1 ≤ ExpiresAt s → clock σ1 ≤ exp → few_failures σ1 →
  answers (pairer σ1) s csr mac c →
  (∀ c' t, codes (pairer σ1) !! c' = Some t → answers (pairer σ1) s csr mac c' → c' = c) →
  let a := mkAttempt s csr c (DeriveKey c (Salt s)) in
  ∃ σ2, lstep None (LClaim sid) σ1 σ2 ∧ clock σ2 = clock σ1 ∧
    ∀ σ3, rtc (undecided c) σ2 σ3 → clock σ3 ≤ exp →
      ∃ σ4, lstep None (LAdmit c) σ3 σ4 ∧ inflight σ3 ≡ₚ a :: inflight σ4 ∧
        used σ4 = c :: used σ3 ∧ codes (pairer σ4) !! c = None.
Proof.
  intros Hr Hs Hc Hq He1 He2 Hf Ha Hu a.
  pose proof (active_code_nonempty _ _ _ _ Hr Hc) as Hne.
  destruct (quiet_keeps _ _ _ _ _ _ Hq He1 He2 Hs Hc) as [Hs1 Hc1].
  destruct (claim_possible σ1 sid s c exp csr mac Hs1 Hc1 He1 He2 Hf Ha Hu) as (σ2 & Hl & Ec & Hc2 & Hin).
  exists σ2. split_and!; [done|done|]. intros σ3 Hr3 He3.
  destruct (undecided_keeps c exp a σ2 σ3 Hr3 He3 eq_refl Hne Hc2 Hin) as [Hc3 Hin3].
  by apply (finish_possible σ3 c exp a).
Qed.

(** *** A joiner among others, for the witness *)

(** Between [Begin] and [Complete] of the joiner, someone opens a session of its
    own and asks for the number of codes. *)
Definition ex_busy : Sys :=
  mkSys ex_now (ActiveCodes ex_now (Begin (Some "other") (Some "pepper") ex_now ex_now ex_p2).1).1
    [] ["00000042"] [] [].

Lemma ex_quiet : rtc (quiet ex_sid "00000042") ex_sys2 ex_busy.
Proof.
  eapply rtc_l; [|apply rtc_once].
  - split; [vm_compute; lia|]. eexists. split.
    + apply (step_begin None (Some "other") (Some "pepper") ex_now ex_now); done.
    + split_and!; vm_compute; discriminate.
  - split; [vm_compute; lia|]. exists LSilent. split; [apply step_active|].
    split_and!; discriminate.
Qed.

Lemma honest_joiner_admitted_witness :
  ∃ σ2 σ4, lstep None (LClaim ex_sid) ex_busy σ2 ∧ lstep None (LAdmit "00000042") σ2 σ4 ∧
    codes (pairer σ4) !! "00000042" = None.
Proof.
  destruct (honest_joiner_admitted ex_sys2 ex_busy ex_sid ex_session "00000042"
    (time_Add ex_now DefaultCodeTTL) ex_join_csr ex_mac (ex_reach2 None) eq_refl eq_refl ex_quiet)
    as (σ2 & H2 & Ec & H); [vm_compute; discriminate|vm_compute; discriminate|vm_compute; lia|
      vm_compute; reflexivity| |].
  - intros c' t Hc _. apply elem_of_map_to_list in Hc.
    assert (E : map_to_list (codes (pairer ex_busy)) = [("00000042", time_Add ex_now DefaultCodeTTL)])
      by (vm_compute; reflexivity).
    rewrite E in Hc. apply list_elem_of_singleton in Hc. by injection Hc.
  - destruct (H σ2 (rtc_refl _ σ2)) as (σ4 & H4 & _ & _ & Hn).
    + rewrite Ec. vm_compute. discriminate.
    + exists σ2, σ4. split; [exact H2|split; [exact H4|exact Hn]].
Defined.
