(* ===== verification/PairerGuesses.v ===== *)
(** * How many codes can be tried

    [rate_limit] in [PairerSys.v] bounds the attempts that failed in the minute
    before any moment.  A code lives longer than that: an administrator may ask
    for ten minutes.  Here the bound is for any stretch of the coordinator's
    history. *)
From stdpp Require Import relations.
From S2P Require Import Prelude GoStrings GoTime Crypto SymCrypto PkiCA PkiPairing PairerSys.
Local Open Scope Z_scope.

(** The attempts that failed after [a] and not after [b]. *)
Definition failed_in (a b : Time) (l : list Time) : list Time := filter (λ t, a < t ∧ t ≤ b) l.
#[global] Arguments failed_in (a b)%_Z_scope l.

Lemma failed_in_cons a b t l :
  length (failed_in a b (t :: l)) =
    ((if decide (a < t ∧ t ≤ b)%Z then 1 else 0) + length (failed_in a b l))%nat.
Proof. unfold failed_in. rewrite filter_cons. by case_decide. Qed.

Lemma failed_in_app a b l l' : failed_in a b (l ++ l') = failed_in a b l ++ failed_in a b l'.
Proof. apply filter_app. Qed.

Lemma failed_in_none a b l : b ≤ a → failed_in a b l = [].
Proof. intros H. unfold failed_in. induction l as [|t l IH]; [done|]. rewrite filter_cons. case_decide; [lia|done]. Qed.

(** Two stretches, one after the other. *)
Lemma failed_in_split a b c l :
  a ≤ b → b ≤ c →
  length (failed_in a c l) = (length (failed_in a b l) + length (failed_in b c l))%nat.
Proof.
  intros Hab Hbc. induction l as [|t l IH]; [done|].
  rewrite !failed_in_cons, IH. repeat case_decide; lia.
Qed.

(** A stretch that ends now or later, and no longer than a minute. *)
Lemma failed_in_recent now b l :
  now ≤ b → (length (failed_in (b - failureWindowReset) b l) ≤ length (filter (recent now) l) +
             length (failed_in now b l))%nat.
Proof.
  intros Hb. induction l as [|t l IH]; [cbn; lia|].
  rewrite !failed_in_cons, filter_cons.
  destruct (decide (recent now t)) as [Hr|Hr]; rewrite recent_iff in Hr; cbn [length];
    repeat case_decide; lia.
Qed.

Section Guesses.
Context {C : Crypto} (K : nat).

(** Every minute of the history, and nothing after now. *)
Definition inv_minutes (σ : Sys) : Prop :=
  inv_rate K σ ∧ Forall (λ t, t ≤ clock σ) (failed σ) ∧
  ∀ b, (length (failed_in (b - failureWindowReset) b (failed σ)) < maxFailuresPerMin + K)%nat.

Lemma none_after now b l : Forall (λ t, t ≤ now) l → failed_in now b l = [].
Proof.
  unfold failed_in. induction 1 as [|t l Ht _ IH]; [done|]. rewrite filter_cons.
  case_decide; [lia|done].
Qed.

(** What a step adds to the failures is of its own moment. *)
Lemma lstep_failed limit l σ σ' :
  lstep limit l σ σ' → clock σ ≤ clock σ' ∧ (failed σ' = failed σ ∨ failed σ' = failed σ ++ [clock σ']).
Proof.
  intros []; cbn [clock failed]; (split; [lia|]); auto. case_decide; auto.
Qed.

Lemma inv_minutes_step σ σ' : step (Some K) σ σ' → inv_minutes σ → inv_minutes σ'.
Proof.
  intros Hs (Hr & Ha & Hm). pose proof (inv_rate_step K _ _ Hs Hr) as Hr'.
  destruct Hs as [l Hl]. apply lstep_failed in Hl as [Hc Hf].
  assert (Ha' : Forall (λ t, t ≤ clock σ') (failed σ')).
  { assert (Forall (λ t, t ≤ clock σ') (failed σ)) by (eapply Forall_impl; [exact Ha|cbn; lia]).
    destruct Hf as [->| ->]; [done|]. apply Forall_app. split; [done|]. by apply Forall_singleton. }
  split_and!; [exact Hr'|exact Ha'|]. intros b. destruct (Z.le_gt_cases (clock σ') b) as [Hb|Hb].
  - eapply Nat.le_lt_trans; [by apply failed_in_recent|]. rewrite none_after by done.
    destruct Hr' as [_ Hr']. unfold recent_failures in Hr'. cbn [length]. lia.
  - destruct Hf as [->| ->]; [done|]. rewrite failed_in_app.
    assert (E : failed_in (b - failureWindowReset) b [clock σ'] = []).
    { unfold failed_in. rewrite filter_cons. case_decide; [lia|done]. }
    by rewrite E, app_nil_r.
Qed.

Lemma reachable_minutes σ : reachable (Some K) σ → inv_minutes σ.
Proof.
  apply (reachable_ind (Some K) inv_minutes); [|apply inv_minutes_step].
  intros ? (now & ca & sc & ttl & ->). split_and!; cbn; [|constructor|].
  - split; [done|]. cbn. unfold maxFailuresPerMin. lia.
  - intros b. unfold maxFailuresPerMin. lia.
Qed.

(** Several minutes. *)
Lemma minutes_add l (a : Time) n :
  (∀ b, (length (failed_in (b - failureWindowReset) b l) < maxFailuresPerMin + K)%nat) →
  (length (failed_in a (a + Z.of_nat n * failureWindowReset) l) ≤ n * (maxFailuresPerMin - 1 + K))%nat.
Proof.
  intros H. induction n as [|n IH].
  - rewrite failed_in_none by lia. cbn. lia.
  - assert (0 ≤ failureWindowReset) by (vm_compute; discriminate).
    rewrite (failed_in_split a (a + Z.of_nat n * failureWindowReset)) by nia.
    specialize (H (a + Z.of_nat (S n) * failureWindowReset)).
    replace (a + Z.of_nat (S n) * failureWindowReset - failureWindowReset)
      with (a + Z.of_nat n * failureWindowReset) in H by lia.
    unfold maxFailuresPerMin in *. cbn [Nat.mul]. lia.
Qed.
End Guesses.

(** ** Properties *)

(** C14: guessing online.  If at most [K] calls to [Complete] overlap, then in any
    [n] minutes of the coordinator's history, at most [n] times [4 + K] attempts
    failed: whoever does not know a code can try no more than that many in its
    lifetime, out of the 10^8 that [GenerateCode] draws from. *)
Theorem guesses_bounded {C : Crypto} K σ (issued_at : Time) n :
  reachable (Some K) σ →
  (length (failed_in issued_at (issued_at + Z.of_nat n * failureWindowReset) (failed σ)) ≤
   n * (maxFailuresPerMin - 1 + K))%nat.
Proof. intros Hr. apply minutes_add. by apply (reachable_minutes K). Qed.

(** A wrong guess, for the witness. *)
Definition ex_guessed : Sys :=
  mkSys ex_now (set_failures [ex_now] ex_p1) [] ["00000042"] [] [ex_now].

Lemma ex_guess : reachable (Some 1%nat) ex_guessed.
Proof.
  eapply reachable_steps; [apply (ex_reach2 (Some 1%nat))|].
  eapply rtc_l; [|apply rtc_once]; eexists.
  - apply (step_start (Some 1%nat) ex_sid "csr" "wrong" ["00000042"] ex_now ex_p2 [] ["00000042"] [] []
      ex_p1 ex_session (codes ex_p1) "" ""); [cbn; lia|..]; vm_compute; reflexivity.
  - by apply (step_finish_bad (Some 1%nat) [] [] ex_attempt ex_now ex_p1 ["00000042"] [] []
      (set_failures [ex_now] ex_p1) ErrBadCode).
Qed.

Lemma guesses_bounded_witness :
  reachable (Some 1%nat) ex_guessed ∧
  (1 ≤ length (failed_in (ex_now - 1) (ex_now - 1 + 10 * failureWindowReset) (failed ex_guessed)) ≤ 50)%nat.
Proof.
  split; [exact ex_guess|]. split; [vm_compute; lia|].
  exact (guesses_bounded 1 ex_guessed (ex_now - 1) 10 ex_guess).
Defined.
