(* ===== verification/PairerSpec.v ===== *)
(** * What the pairing protocol promises, and that [Pairer] keeps it

    An abstract office hands out tickets, opens seats while it has a ticket to
    give, lets each seat be claimed once, and answers each claim with an
    admission that takes a ticket, or with a rejection.  Every run of the
    interleaved [Pairer] of [PairerSys] is, step by step, a run of the office. *)
From stdpp Require Import relations.
From S2P Require Import Prelude GoStrings GoTime Crypto SymCrypto PkiCA PkiPairing PairerSys.
Local Open Scope Z_scope.

(** ** Traces and simulation, for any labelled relation *)

Section Traces.
Context {S : Type} (R : label → S → S → Prop).

Inductive trace : list label → S → S → Prop :=
| trace_nil s : trace [] s s
| trace_snoc tr l s s' s'' : trace tr s s' → R l s' s'' → trace (tr ++ [l]) s s''.

Lemma trace_one l s s' : R l s s' → trace [l] s s'.
Proof. intros H. by apply (trace_snoc [] l s s s'); [constructor|]. Qed.

Lemma trace_app tr tr' s s' s'' : trace tr s s' → trace tr' s' s'' → trace (tr ++ tr') s s''.
Proof.
  intros H1 H2. revert H1. induction H2 as [|tr' l a b c _ IH Hr]; intros H1.
  - by rewrite app_nil_r.
  - rewrite app_assoc. eapply trace_snoc; [by apply IH|done].
Qed.

(** Every prefix of a trace is one. *)
Lemma trace_prefix tr tr' s s' : trace tr s s' → tr' `prefix_of` tr → ∃ t, trace tr' s t.
Proof.
  induction 1 as [s|tr l a b c H IH Hr]; intros Hp.
  - apply prefix_nil_inv in Hp as ->. exists s. constructor.
  - destruct Hp as [k E]. destruct k as [|x k _] using rev_ind.
    + rewrite app_nil_r in E. subst tr'. exists c. by eapply trace_snoc.
    + rewrite app_assoc in E. apply app_inj_tail in E as [E _]. apply IH. by exists k.
Qed.
End Traces.

Section Simulation.
Context {A B : Type} (RA : label → A → A → Prop) (RB : label → B → B → Prop) (inv : A → B → Prop).
Hypothesis simulation : ∀ l a a' b, RA l a a' → inv a b → ∃ b', RB l b b' ∧ inv a' b'.

Lemma trace_simulation tr a a' b :
  trace RA tr a a' → inv a b → ∃ b', trace RB tr b b' ∧ inv a' b'.
Proof.
  induction 1 as [s|tr l s s' s'' _ IH Hr]; intros Hi; [exists b; by split; [constructor|]|].
  destruct (IH Hi) as (b1 & Ht & H1). destruct (simulation _ _ _ _ Hr H1) as (b2 & Hs & H2).
  exists b2. split; [by eapply trace_snoc|done].
Qed.
End Simulation.

(** ** The office *)

Record Office := mkOffice { tickets : list string; seats : list string; claims : nat }.
Definition office0 : Office := mkOffice [] [] 0.

Inductive office_step : label → Office → Office → Prop :=
| office_issue c ts ss n :
    office_step (LIssue c) (mkOffice ts ss n) (mkOffice (c :: ts) ss n)
| office_open sid ts ss n :
    ts ≠ [] → office_step (LOpen sid) (mkOffice ts ss n) (mkOffice ts (sid :: ss) n)
| office_claim sid ts ss ss' n :
    ss ≡ₚ sid :: ss' → office_step (LClaim sid) (mkOffice ts ss n) (mkOffice ts ss' (S n))
| office_admit c ts ts' ss n :
    ts ≡ₚ c :: ts' → office_step (LAdmit c) (mkOffice ts ss (S n)) (mkOffice ts' ss n)
| office_reject ts ss n :
    office_step LReject (mkOffice ts ss (S n)) (mkOffice ts ss n)
| office_silent o : office_step LSilent o o.

(** How often a label occurs. *)
Definition count (l : label) (tr : list label) : nat := length (filter (λ x, x = l) tr).
Definition occ (c : string) (l : list string) : nat := length (filter (λ x, x = c) l).
Definition is_claim (l : label) : Prop := match l with LClaim _ => True | _ => False end.
Definition is_answer (l : label) : Prop := match l with LAdmit _ | LReject => True | _ => False end.
#[export] Instance is_claim_dec l : Decision (is_claim l).
Proof. destruct l; apply _. Defined.
#[export] Instance is_answer_dec l : Decision (is_answer l).
Proof. destruct l; apply _. Defined.

Lemma count_snoc l tr x : count l (tr ++ [x]) = (count l tr + if decide (x = l) then 1 else 0)%nat.
Proof.
  unfold count. rewrite filter_app, length_app. f_equal. rewrite filter_cons. by case_decide.
Qed.

Lemma filter_snoc_len (P : label → Prop) `{∀ x, Decision (P x)} tr x :
  length (filter P (tr ++ [x])) = (length (filter P tr) + if decide (P x) then 1 else 0)%nat.
Proof. rewrite filter_app, length_app. f_equal. rewrite filter_cons. by case_decide. Qed.

Lemma occ_cons c x l : occ c (x :: l) = ((if decide (x = c) then 1 else 0) + occ c l)%nat.
Proof. unfold occ. rewrite filter_cons. by case_decide. Qed.

Lemma occ_perm c l l' : l ≡ₚ l' → occ c l = occ c l'.
Proof. intros H. unfold occ. by rewrite H. Qed.

(** The books of the office balance after every trace. *)
Definition balanced (tr : list label) (o : Office) : Prop :=
  (∀ c, count (LAdmit c) tr + occ c (tickets o) = count (LIssue c) tr)%nat ∧
  (∀ sid, count (LClaim sid) tr + occ sid (seats o) = count (LOpen sid) tr)%nat ∧
  (length (filter is_answer tr) + claims o = length (filter is_claim tr))%nat.

Lemma office_balanced tr o : trace office_step tr office0 o → balanced tr o.
Proof.
  remember office0 as o0 eqn:E0. induction 1 as [o|tr l a b c _ IH Hs]; [by subst|].
  destruct (IH E0) as (H1 & H2 & H3).
  split_and!; [intros x; specialize (H1 x)|intros x; specialize (H2 x)|];
    rewrite ?count_snoc, ?filter_snoc_len; inversion Hs; subst;
    cbn [tickets seats claims] in *;
    rewrite ?occ_cons;
    try match goal with H : _ ≡ₚ _ :: _, H' : context [occ ?y _] |- _ =>
          rewrite (occ_perm y _ _ H), occ_cons in H' end;
    repeat case_decide; simplify_eq; try lia; try done.
Qed.

(** ** The code keeps the promises *)

Section Refines.
Context {C : Crypto}.

(** The office has at least the tickets and seats that [Pairer] remembers. *)
Definition office_rel (σ : Sys) (o : Office) : Prop :=
  keys (codes (pairer σ)) ⊆+ tickets o ∧ keys (sessions (pairer σ)) ⊆+ seats o ∧
  claims o = length (inflight σ).

Lemma Begin_cases r1 r2 now_gc now p :
  let q := gcLocked now_gc p in
  match Begin r1 r2 now_gc now p with
  | (p', Ok s) => codes q ≠ ∅ ∧ p' = set_sessions (<[ID s := s]> (sessions q)) q
  | (p', Err _) => p' = q
  end.
Proof.
  intros q. destruct (Begin r1 r2 now_gc now p) as [p' [s|e]] eqn:E.
  - split; [|by apply Begin_Ok in E]. unfold Begin in E. fold q in E.
    rewrite size_zero_iff in E. by case_bool_decide.
  - unfold Begin in E. fold q in E. repeat case_match; by simplify_eq.
Qed.

Lemma office_rel_gc now p o n :
  keys (codes p) ⊆+ tickets o → keys (sessions p) ⊆+ seats o → claims o = n →
  keys (codes (gcLocked now p)) ⊆+ tickets o ∧ keys (sessions (gcLocked now p)) ⊆+ seats o ∧ claims o = n.
Proof. intros Hc Hs Hn. split_and!; [by rewrite keys_gc|by rewrite keys_gc_sessions|done]. Qed.

(** An entry that is taken away can be taken from whoever has them all. *)
Lemma take_one {V} k (v : V) (m : gmap string V) l :
  m !! k = Some v → keys m ⊆+ l → ∃ l', l ≡ₚ k :: l' ∧ keys (delete k m) ⊆+ l'.
Proof.
  intros Hk Hl. rewrite <-(keys_delete _ _ _ Hk) in Hl.
  apply submseteq_Permutation in Hl as [r Hr]. exists (keys (delete k m) ++ r).
  split; [exact Hr|]. by apply submseteq_inserts_r.
Qed.

Lemma keys_nil {V} (m : gmap string V) : keys m ⊆+ [] → m = ∅.
Proof.
  intros H%submseteq_nil_r. unfold keys in H. apply fmap_nil_inv in H.
  by apply map_to_list_empty_iff.
Qed.

Lemma pairer_simulation limit l σ σ' o :
  lstep limit l σ σ' → office_rel σ o → ∃ o', office_step l o o' ∧ office_rel σ' o'.
Proof.
  intros Hl (Hc & Hs & Hn). destruct o as [ts ss n]. unfold office_rel. cbn [tickets seats claims] in *.
  destruct Hl as [| ttl m t now p fl iss us fs p' i _ _ Hi | now p fl iss us fs
    | r1 r2 now now' p fl iss us fs _ | sid now p fl iss us fs p' err Hst
    | sid csr mac cands now p fl iss us fs p' s cs c k _ Hst _ _
    | fl1 fl2 a now p iss us fs p' err Hf | fl1 fl2 a now p iss us fs p' u Hf];
    cbn [pairer inflight] in *.
  - exists (mkOffice ts ss n). split; [constructor|done].
  - cbn in Hi. injection Hi as <- <-. eexists. split; [apply office_issue|]. cbn.
    split_and!; [|etrans; [apply keys_gc_sessions|exact Hs]|done].
    rewrite keys_insert. apply submseteq_skip. etrans; [apply keys_gc|exact Hc].
  - exists (mkOffice ts ss n). split; [constructor|]. by apply (office_rel_gc now p (mkOffice ts ss n)).
  - pose proof (Begin_cases r1 r2 now now' p) as HB. cbv zeta in HB.
    destruct (Begin r1 r2 now now' p) as [p' [s|e]]; cbn [fst snd open_label].
    + destruct HB as [Hne ->]. eexists. split; [apply office_open|].
      * intros ->. apply Hne, keys_nil. by rewrite keys_gc.
      * cbn. split_and!; [etrans; [apply keys_gc|exact Hc]| |done].
        rewrite keys_insert. apply submseteq_skip. etrans; [apply keys_gc_sessions|exact Hs].
    + subst p'. exists (mkOffice ts ss n). split; [constructor|].
      by apply (office_rel_gc now p (mkOffice ts ss n)).
  - exists (mkOffice ts ss n). split; [constructor|].
    pose proof (complete_start_state sid now p) as E. rewrite Hst in E. cbn in E. subst p'. cbn.
    split_and!; [etrans; [apply keys_gc|exact Hc]| |done].
    etrans; [apply keys_mono, delete_subseteq|]. etrans; [apply keys_gc_sessions|exact Hs].
  - assert (Hin : is_Some (sessions (gcLocked now p) !! sid)).
    { rewrite complete_start_spec in Hst. cbv zeta in Hst. by destruct (sessions _ !! sid). }
    destruct Hin as [s' Hin]. apply complete_start_Ok in Hst as (_ & _ & _ & _ & ->).
    destruct (take_one sid s' (sessions (gcLocked now p)) ss Hin) as (ss' & Hp & Hk);
      [by rewrite keys_gc_sessions|].
    eexists. split; [by apply office_claim|]. cbn.
    split_and!; [etrans; [apply keys_gc|exact Hc]|done|by f_equal].
  - rewrite length_app in Hn. cbn in Hn. destruct n as [|n]; [lia|].
    eexists. split; [apply office_reject|]. cbn. rewrite length_app.
    unfold complete_finish in Hf. repeat case_match; simplify_eq; split_and!; (done || lia).
  - rewrite length_app in Hn. cbn in Hn. destruct n as [|n]; [lia|].
    apply complete_finish_Ok in Hf as (_ & [t Ht] & ->).
    destruct (take_one (at_matched a) t (codes p) ts Ht Hc) as (ts' & Hp & Hk).
    eexists. split; [by apply office_admit|]. cbn. rewrite length_app. split_and!; (done || lia).
Qed.
End Refines.

(** ** Properties *)

(** C9: refinement.  Whatever the callers do, and however the sections of their
    calls interleave, what they see of [Pairer] is what the abstract office may
    do: seats only while there is a ticket, one claim for a seat, one answer for
    a claim, one ticket for an admission. *)
Theorem pairer_refines_office {C : Crypto} limit σ0 tr σ :
  initial σ0 → trace (lstep limit) tr σ0 σ →
  ∃ o, trace office_step tr office0 o ∧ office_rel σ o.
Proof.
  intros (now & ca & sc & ttl & ->) Ht.
  apply (trace_simulation (lstep limit) office_step office_rel (pairer_simulation limit) _ _ _ _ Ht).
  split_and!; [..|done]; unfold keys; cbn; by rewrite map_to_list_empty.
Qed.

(** C10: what every observer of the coordinator can count on, at every moment of
    every run: no code admits more nodes than the times it was issued, no
    session is claimed more often than it was opened, and the attempts that were
    claimed are those answered and those still in flight. *)
Theorem admissions_bounded {C : Crypto} limit σ0 tr σ :
  initial σ0 → trace (lstep limit) tr σ0 σ →
  (∀ tr', tr' `prefix_of` tr →
     (∀ c, count (LAdmit c) tr' ≤ count (LIssue c) tr')%nat ∧
     (∀ sid, count (LClaim sid) tr' ≤ count (LOpen sid) tr')%nat) ∧
  (length (filter is_answer tr) + length (inflight σ) = length (filter is_claim tr))%nat.
Proof.
  intros H0 Ht.
  assert (Hb : ∀ tr' σ', trace (lstep limit) tr' σ0 σ' → ∃ o, balanced tr' o ∧ office_rel σ' o).
  { intros tr' σ' Ht'. destruct H0 as (now & ca & sc & ttl & ->).
    destruct (trace_simulation (lstep limit) office_step office_rel (pairer_simulation limit)
                _ _ _ office0 Ht') as (o & Ho & Hr).
    - split_and!; [..|done]; unfold keys; cbn; by rewrite map_to_list_empty.
    - exists o. split; [by apply office_balanced|done]. }
  split.
  - intros tr' Hp. destruct (trace_prefix _ _ _ _ _ Ht Hp) as [σ' Ht'].
    destruct (Hb _ _ Ht') as (o & (H1 & H2 & _) & _).
    split; intros x; [specialize (H1 x)|specialize (H2 x)]; lia.
  - destruct (Hb _ _ Ht) as (o & (_ & _ & H3) & _ & _ & Hn). by rewrite Hn in H3.
Qed.

(** *** A node is paired, for the witnesses *)

Definition ex_labels : list label :=
  [LIssue "00000042"; LOpen ex_sid; LClaim ex_sid; LAdmit "00000042"].
Definition ex_end : Sys := mkSys ex_now (complete_finish "00000042" ex_now ex_p1').1 [] ["00000042"] ["00000042"] [].

Lemma ex_trace : trace (lstep (Some 1%nat)) ex_labels ex_sys0 ex_end.
Proof.
  apply (trace_snoc _ [LIssue "00000042"; LOpen ex_sid; LClaim ex_sid] _ _
    (mkSys ex_now ex_p1' [mkAttempt ex_session ex_join_csr "00000042" ex_key] ["00000042"] [] []));
    [apply (trace_snoc _ [LIssue "00000042"; LOpen ex_sid] _ _ ex_sys2);
     [apply (trace_snoc _ [LIssue "00000042"] _ _ (mkSys ex_now ex_p1 [] ["00000042"] [] []))|]|].
  - apply trace_one. apply (step_issue _ 0 42 ex_now ex_now ex_pairer [] [] [] [] ex_p1
      (mkIssued "00000042" (time_Add ex_now DefaultCodeTTL)));
      [unfold codeSpace; lia|lia|vm_compute; reflexivity].
  - apply (step_begin _ (Some "session") (Some "salt") ex_now ex_now ex_p1 [] ["00000042"] [] []). lia.
  - apply (step_start _ ex_sid ex_join_csr ex_mac ["00000042"] ex_now ex_p2 [] ["00000042"] [] []
      ex_p1' ex_session (codes ex_p1') "00000042" ex_key);
      [cbn; lia|vm_compute; reflexivity|vm_compute; reflexivity|vm_compute; reflexivity].
  - apply (step_finish _ [] [] (mkAttempt ex_session ex_join_csr "00000042" ex_key) ex_now ex_p1'
      ["00000042"] [] [] _ tt). vm_compute. reflexivity.
Qed.

Lemma ex_initial : initial ex_sys0.
Proof. by eexists _, _, _, _. Qed.

Lemma pairer_refines_office_witness : ∃ o, trace office_step ex_labels office0 o.
Proof.
  destruct (pairer_refines_office (Some 1%nat) ex_sys0 ex_labels ex_end ex_initial ex_trace) as (o & Ho & _).
  exists o. exact Ho.
Defined.

Lemma admissions_bounded_witness :
  (count (LAdmit "00000042") ex_labels ≤ count (LIssue "00000042") ex_labels)%nat ∧
  count (LAdmit "00000042") ex_labels = 1%nat.
Proof.
  split; [|reflexivity].
  apply (proj1 (admissions_bounded (Some 1%nat) ex_sys0 ex_labels ex_end ex_initial ex_trace)).
  reflexivity.
Defined.
