(* ===== verification/GoGrpc.v ===== *)
(** * What the program uses of [crypto/tls] and [google.golang.org/grpc]

    The configuration records it fills in, the part of the TLS handshake that
    decides whether a peer's certificates are accepted, the context of a call,
    status codes, and interceptors. *)
From S2P Require Import Prelude GoStrings GoTime Labels Crypto.

(** ** Status codes *)

Definition codes_InvalidArgument : Z := 3.
Definition codes_NotFound : Z := 5.
Definition codes_PermissionDenied : Z := 7.
Definition codes_ResourceExhausted : Z := 8.
Definition codes_FailedPrecondition : Z := 9.
Definition codes_Internal : Z := 13.
Definition codes_Unauthenticated : Z := 16.

(** A status error: its code, and what its message was formatted from. *)
Record Status := mkStatus { st_code : Z; st_msg : error }.

(** ** [crypto/tls] *)

Definition VersionTLS13 : Z := 772.
Inductive ClientAuthType := NoClientCert | RequireAndVerifyClientCert.
#[export] Instance ClientAuthType_eq_dec : EqDecision ClientAuthType.
Proof. solve_decision. Defined.

(** [tls.Certificate] *)
Record TLSCertificate := mkTLSCert {
  tc_Certificate : list string; tc_PrivateKey : PrivateKey; tc_Leaf : Certificate }.

(** [tls.Config]; a nil pool is [None].  The hook gets the verified chains. *)
Record TLSConfig := mkTLSConfig {
  MinVersion : Z;
  Certificates : list TLSCertificate;
  ClientAuth : ClientAuthType;
  ClientCAs : option (list Certificate);
  RootCAs : option (list Certificate);
  ServerName : string;
  InsecureSkipVerify : bool;
  VerifyPeerCertificate : option (list (list Certificate) → result unit)
}.

(** ASCII lower case, as [x509.toLowerCaseASCII]. *)
Definition lower_ascii (a : ascii) : ascii :=
  if in_range 65 90 (byte_val a) then byte_of (byte_val a + 32) else a.

Fixpoint match_parts (first : bool) (pat host : list string) : bool :=
  match pat, host with
  | [], [] => true
  | p :: pat, h :: host =>
      ((first && bool_decide (p = "*")) || bool_decide (p = h)) && match_parts false pat host
  | _, _ => false
  end.

(** [x509.matchHostnames] *)
Definition matchHostnames (pattern host : string) : bool :=
  let pattern := smap lower_ascii pattern in
  let host := smap lower_ascii (TrimSuffix host ".") in
  negb (bool_decide (pattern = "")) && negb (bool_decide (host = "")) &&
  match_parts true (Split pattern ".") (Split host ".").

(** [cert.VerifyHostname] for a name that is not an IP address. *)
Definition VerifyHostname (cert : Certificate) (host : string) : bool :=
  existsb (λ d, matchHostnames d host) (DNSNames cert).

(** No usage in the certificate means any usage. *)
Definition usage_ok (cert : Certificate) (u : Z) : bool :=
  bool_decide (ExtKeyUsage cert = []) || existsb (Z.eqb u) (ExtKeyUsage cert).

Section Handshake.
Context {C : Crypto}.

(** The chains from the first certificate presented to a root of the pool.  The
    roots of this program have a path length of zero, so there is nothing in
    between. *)
Definition verified_chains (pool : option (list Certificate)) (usage : Z) (now : Time)
    (certs : list Certificate) : list (list Certificate) :=
  match certs, pool with
  | leaf :: _, Some roots =>
      map (λ ca, [leaf; ca]) (List.filter (λ ca, x509_Verify leaf ca now && usage_ok leaf usage) roots)
  | _, _ => []
  end.

Definition run_hook (cfg : TLSConfig) (chains : list (list Certificate)) : result unit :=
  match VerifyPeerCertificate cfg with Some f => f chains | None => Ok tt end.

(** A server that is shown [certs]: the [PeerCertificates] of the connection. *)
Definition server_handshake (cfg : TLSConfig) (now : Time) (certs : list Certificate)
  : result (list Certificate) :=
  match ClientAuth cfg with
  | NoClientCert => Ok []
  | RequireAndVerifyClientCert =>
      match verified_chains (ClientCAs cfg) ExtKeyUsageClientAuth now certs with
      | [] => Err (ErrorsNew "tls: bad certificate")
      | chains => check? run_hook cfg chains in Ok certs
      end
  end.

(** A client that is shown [certs] by the server. *)
Definition client_handshake (cfg : TLSConfig) (now : Time) (certs : list Certificate)
  : result (list Certificate) :=
  match certs with
  | [] => Err (ErrorsNew "tls: no certificates")
  | leaf :: _ =>
      if InsecureSkipVerify cfg then check? run_hook cfg [] in Ok certs
      else if negb (VerifyHostname leaf (ServerName cfg))
      then Err (ErrorsNew "x509: certificate is not valid for the name")
      else match verified_chains (RootCAs cfg) ExtKeyUsageServerAuth now certs with
      | [] => Err (ErrorsNew "tls: failed to verify certificate")
      | chains => check? run_hook cfg chains in Ok certs
      end
  end.

Lemma verified_chains_head pool usage now certs ch chains :
  verified_chains pool usage now certs = ch :: chains →
  ∃ leaf rest roots ca, certs = leaf :: rest ∧ pool = Some roots ∧ ca ∈ roots ∧
    ch = [leaf; ca] ∧ x509_Verify leaf ca now = true ∧ usage_ok leaf usage = true.
Proof.
  unfold verified_chains. destruct certs as [|leaf rest]; [done|].
  destruct pool as [roots|]; [|done]. intros H.
  destruct (List.filter _ roots) as [|ca l] eqn:Ef; [done|]. injection H as <- _.
  assert (In ca (ca :: l)) as Hin by by left. rewrite <-Ef in Hin.
  apply filter_In in Hin as [Hin Hv]. apply andb_true_iff in Hv as [Hv Hu].
  exists leaf, rest, roots, ca. split_and!; try done. by apply list_elem_of_In.
Qed.

(** What a side puts on the wire, as the other side parses it.  The handshake is
    signed with the private key, so it fails when the key is not that of the
    first certificate. *)
Definition presented (cfg : TLSConfig) : result (list Certificate) :=
  match Certificates cfg with
  | [] => Ok []
  | c :: _ =>
      match mapM ParseCertificate (tc_Certificate c) with
      | Some (leaf :: rest) =>
          if bool_decide (cert_pub leaf = ECDSAPub (priv_pub (tc_PrivateKey c))) then Ok (leaf :: rest)
          else Err (ErrorsNew "tls: invalid signature by the peer certificate")
      | _ => Err (ErrorsNew "tls: failed to parse certificate")
      end
  end.

(** A connection: the certificates that the server and the client see of each
    other. *)
Definition tls_connect (server client : TLSConfig) (now : Time)
  : result (list Certificate * list Certificate) :=
  let? server_certs := presented server in
  let? seen := client_handshake client now server_certs in
  let? client_certs := (match ClientAuth server with
                        | NoClientCert => Ok []
                        | RequireAndVerifyClientCert => presented client
                        end) in
  let? pcs := server_handshake server now client_certs in
  Ok (pcs, seen).

Lemma presented_one cfg raw key leaf l :
  Certificates cfg = mkTLSCert [raw] key leaf :: l → ParseCertificate raw = Some leaf →
  cert_pub leaf = ECDSAPub (priv_pub key) → presented cfg = Ok [leaf].
Proof. unfold presented. intros -> Hp Hk. cbn. rewrite Hp. cbn. by rewrite bool_decide_true. Qed.

Lemma server_handshake_Ok cfg now certs pcs :
  ClientAuth cfg = RequireAndVerifyClientCert → server_handshake cfg now certs = Ok pcs →
  ∃ leaf rest roots ca chains, pcs = leaf :: rest ∧ pcs = certs ∧
    ClientCAs cfg = Some roots ∧ ca ∈ roots ∧ x509_Verify leaf ca now = true ∧
    usage_ok leaf ExtKeyUsageClientAuth = true ∧ run_hook cfg ([leaf; ca] :: chains) = Ok tt.
Proof.
  unfold server_handshake. intros ->.
  destruct (verified_chains _ _ _ _) as [|ch chains] eqn:Ev; [done|].
  intros ([] & Hh & H)%rbind_Ok. injection H as <-.
  apply verified_chains_head in Ev as (leaf & rest & roots & ca & -> & Hp & Hin & -> & Hv & Hu).
  by exists leaf, rest, roots, ca, chains.
Qed.

Lemma client_handshake_Ok cfg now certs pcs :
  InsecureSkipVerify cfg = false → client_handshake cfg now certs = Ok pcs →
  ∃ leaf rest roots ca chains, pcs = leaf :: rest ∧ pcs = certs ∧
    RootCAs cfg = Some roots ∧ ca ∈ roots ∧ x509_Verify leaf ca now = true ∧
    usage_ok leaf ExtKeyUsageServerAuth = true ∧ VerifyHostname leaf (ServerName cfg) = true ∧
    run_hook cfg ([leaf; ca] :: chains) = Ok tt.
Proof.
  unfold client_handshake. intros ->. destruct certs as [|leaf' rest']; [done|].
  destruct (VerifyHostname leaf' _) eqn:Eh; [|done]. cbn [negb].
  destruct (verified_chains _ _ _ _) as [|ch chains] eqn:Ev; [done|].
  intros ([] & Hh & H)%rbind_Ok. injection H as <-.
  apply verified_chains_head in Ev as (leaf & rest & roots & ca & [= <- <-] & Hp & Hin & -> & Hv & Hu).
  by exists leaf', rest', roots, ca, chains.
Qed.

(** Who controls [cfg] has the private key of [leaf]. *)
Definition holds_key (cfg : TLSConfig) (leaf : Certificate) : Prop :=
  ∃ c l, Certificates cfg = c :: l ∧ cert_pub leaf = ECDSAPub (priv_pub (tc_PrivateKey c)).

Lemma presented_holds cfg leaf rest : presented cfg = Ok (leaf :: rest) → holds_key cfg leaf.
Proof.
  unfold presented, holds_key. destruct (Certificates cfg) as [|c l]; [done|].
  destruct (mapM ParseCertificate (tc_Certificate c)) as [[|x xs]|]; [done| |done].
  case_bool_decide; [|done]. intros [= <- <-]. by exists c, l.
Qed.

Lemma tls_connect_Ok server client now pcs seen :
  tls_connect server client now = Ok (pcs, seen) →
  ∃ sc cc, presented server = Ok sc ∧ client_handshake client now sc = Ok seen ∧
    server_handshake server now cc = Ok pcs ∧
    (ClientAuth server = RequireAndVerifyClientCert → presented client = Ok cc).
Proof.
  unfold tls_connect. intros (sc & H1 & H)%rbind_Ok. apply rbind_Ok in H as (seen' & H2 & H).
  apply rbind_Ok in H as (cc & H3 & H). apply rbind_Ok in H as (pcs' & H4 & H). injection H as -> ->.
  exists sc, cc. split_and!; [done..|]. intros E. by rewrite E in H3.
Qed.
End Handshake.

(** A single label matches itself only. *)
Lemma lower_ascii_label a : label_byte a = true → lower_ascii a = a.
Proof.
  rewrite label_byte_val. unfold lower_ascii. intros Ha.
  destruct (in_range 65 90 (byte_val a)) eqn:E; [|done]. unfold in_range in *. lia.
Qed.

Lemma smap_lower_label s : sall label_byte s = true → smap lower_ascii s = s.
Proof.
  induction s as [|a s IH]; [done|]. cbn. intros [Ha Hs]%andb_true_iff.
  by rewrite lower_ascii_label, IH.
Qed.

Lemma label_lacks c s : label_byte c = false → sall label_byte s = true → lacks c s = true.
Proof.
  intros Hc. apply sall_impl. intros a Ha. case_bool_decide as E; [|done]. congruence.
Qed.

Lemma label_no_dot_suffix s : sall label_byte s = true → TrimSuffix s "." = s.
Proof.
  intros Hs. unfold TrimSuffix. destruct (HasSuffix s ".") eqn:E; [|done].
  apply HasSuffix_spec in E as [t ->]. rewrite sall_app in Hs.
  apply andb_true_iff in Hs as [_ Hs]. done.
Qed.

Lemma matchHostnames_label d h :
  is_label d = true → is_label h = true → matchHostnames d h = bool_decide (d = h).
Proof.
  intros (Hl & Hd & _)%is_label_spec (Hl' & Hh & _)%is_label_spec. unfold matchHostnames.
  rewrite label_no_dot_suffix, !smap_lower_label by done.
  rewrite !Split_lacks by by apply label_lacks.
  rewrite !bool_decide_false by (intros ->; cbn in *; lia). cbn.
  rewrite (bool_decide_false (d = "*")) by by intros ->.
  by rewrite andb_true_r.
Qed.

(** ** Calls *)

(** What [peer.FromContext] finds in a context: nothing, a peer without TLS
    information, or the [PeerCertificates] of its connection. *)
Inductive AuthInfo := NoTLS | TLSInfo (PeerCertificates : list Certificate).
Record Context_ := mkCtx { ctx_peer : option AuthInfo }.

(** An interceptor of this program rejects a call, or lets the handler run. *)
Definition Interceptor : Type := Context_ → string → option Status.

Definition intercept {S R} (i : Interceptor) (ctx : Context_) (method : string)
    (h : Context_ → S → S * (R + Status)) (st : S) : S * (R + Status) :=
  match i ctx method with
  | Some err => (st, inr err)
  | None => h ctx st
  end.

(** [grpc.ServerOption]s and [grpc.DialOption]s that the program passes. *)
Inductive ServerOption :=
  | Creds (c : TLSConfig)
  | KeepaliveParams (Time_ Timeout : Duration)
  | KeepaliveEnforcementPolicy (MinTime : Duration) (PermitWithoutStream : bool)
  | ChainUnaryInterceptor (i : Interceptor)
  | ChainStreamInterceptor (i : Interceptor).
Inductive DialOption :=
  | WithTransportCredentials (c : TLSConfig)
  | WithKeepaliveParams (Time_ Timeout : Duration) (PermitWithoutStream : bool).

(** [grpc.NewServer] applies the options in order: the last credentials win, the
    interceptors are chained. *)
Record GServer := mkGServer {
  gs_creds : option TLSConfig; gs_unary : list Interceptor; gs_stream : list Interceptor }.

Definition apply_opt (s : GServer) (o : ServerOption) : GServer :=
  match o with
  | Creds c => mkGServer (Some c) (gs_unary s) (gs_stream s)
  | ChainUnaryInterceptor i => mkGServer (gs_creds s) (gs_unary s ++ [i]) (gs_stream s)
  | ChainStreamInterceptor i => mkGServer (gs_creds s) (gs_unary s) (gs_stream s ++ [i])
  | _ => s
  end.
Definition grpc_NewServer (opts : list ServerOption) : GServer :=
  fold_left apply_opt opts (mkGServer None [] []).

(** A chain of interceptors: the first one that rejects answers. *)
Fixpoint chain (l : list Interceptor) : Interceptor := λ ctx method,
  match l with
  | [] => None
  | i :: l => match i ctx method with Some err => Some err | None => chain l ctx method end
  end.
