(* ===== verification/Transport.v ===== *)
(** * Package [internal/transport]

    Models [src/internal/transport/grpc_mtls.go]: the identity of a process,
    the TLS configurations built from it, the principal of a caller and the
    guard that asks for a role. *)
From S2P Require Import Prelude GoStrings GoTime GoOS Labels Crypto SymCrypto GoGrpc PkiCA PkiPem.
Local Open Scope Z_scope.

Definition ErrNoPeerCert := ErrorsNew "transport: peer presented no certificate".
Definition ErrNotAuthorized := ErrorsNew "transport: principal not authorized".

(** [pool] holds the certificates added to the [x509.CertPool]. *)
Record Identity := mkIdentity {
  id_Principal : Principal;
  id_CACert : Certificate;
  id_Cert : Certificate;
  id_Key : PrivateKey;
  tlsCert : TLSCertificate;
  pool : list Certificate
}.

Section Transport.
Context {C : Crypto} (env : OSEnv).

Definition NewIdentity (caCert cert : Certificate) (key : PrivateKey) (now : Time)
  : result Identity :=
  if negb (pub_Equal (priv_pub key) (cert_pub cert)) then Err ErrKeyMismatch
  else
    let? p := VerifyAgainst caCert cert now in
    Ok (mkIdentity p caCert cert key (mkTLSCert [Raw cert] key cert) [caCert]).

Definition LoadIdentity (dir certFile keyFile : string) (now : Time) : M Identity :=
  let! ca := wrapM "transport: read CA: %w" (ReadCert env dir CACertFile) in
  let! cert := wrapM "transport: read cert: %w" (ReadCert env dir certFile) in
  let! key := wrapM "transport: read key: %w" (ReadKey env dir keyFile) in
  lift (NewIdentity ca cert key now).

Definition LoadNodeIdentity (dir : string) (now : Time) : M Identity :=
  LoadIdentity dir NodeCertFile NodeKeyFile now.
Definition LoadAdminIdentity (dir : string) (now : Time) : M Identity :=
  LoadIdentity dir AdminCertFile AdminKeyFile now.

(** [Identity.MeshID] and [Identity.Fingerprint] *)
Definition id_MeshID (id : Identity) : string := MeshID (id_Principal id).
Definition id_Fingerprint (id : Identity) : string := Fingerprint (id_Cert id).

Definition verifyPeer (id : Identity) (chains : list (list Certificate)) : result unit :=
  match chains with
  | (leaf :: _) :: _ =>
      let? p := PrincipalFromCert leaf in
      if negb (bool_decide (MeshID p = id_MeshID id))
      then Err (Wrap "%w: peer is in mesh %q, we are in %q" ErrMeshMismatch)
      else Ok tt
  | _ => Err ErrNoPeerCert
  end.

Definition ServerTLS (id : Identity) : TLSConfig :=
  mkTLSConfig VersionTLS13 [tlsCert id] RequireAndVerifyClientCert (Some (pool id)) None
    "" false (Some (verifyPeer id)).

Definition ClientTLS (id : Identity) (serverNodeID : string) : TLSConfig :=
  mkTLSConfig VersionTLS13 [tlsCert id] NoClientCert None (Some (pool id))
    serverNodeID false (Some (verifyPeer id)).

(** [Identity.NewServer] *)
Definition id_NewServer (id : Identity) (opts : list ServerOption) : GServer :=
  let base := [Creds (ServerTLS id);
               KeepaliveParams (30 * Second) (10 * Second);
               KeepaliveEnforcementPolicy (10 * Second) true] in
  grpc_NewServer (base ++ opts).

(** [Identity.Dial]: the address and the options of [grpc.NewClient]. *)
Definition Dial (id : Identity) (addr serverNodeID : string) (opts : list DialOption)
  : string * list DialOption :=
  let base := [WithTransportCredentials (ClientTLS id serverNodeID);
               WithKeepaliveParams (30 * Second) (10 * Second) true] in
  (addr, base ++ opts).

(** [None] is the bool [false]. *)
Definition PeerPrincipal (ctx : Context_) : option Principal :=
  match ctx_peer ctx with
  | Some (TLSInfo (c :: _)) =>
      match PrincipalFromCert c with Ok p => Some p | Err _ => None end
  | _ => None
  end.

Definition RequireRole_check (methodPrefix : string) (roles : list string) : Interceptor :=
  λ ctx method,
    if (0 <? slen methodPrefix)%nat &&
       ((slen method <? slen methodPrefix)%nat ||
        negb (bool_decide (stake (slen methodPrefix) method = methodPrefix)))
    then None
    else match PeerPrincipal ctx with
    | None => Some (mkStatus codes_Unauthenticated ErrNoPeerCert)
    | Some p =>
        if negb (existsb (λ r, bool_decide (r = Role p)) roles)
        then Some (mkStatus codes_PermissionDenied ErrNotAuthorized)
        else None
    end.

(** The unary and the stream interceptor run the same check. *)
Definition RequireRole (methodPrefix : string) (roles : list string)
  : Interceptor * Interceptor :=
  (RequireRole_check methodPrefix roles, RequireRole_check methodPrefix roles).
End Transport.

(** ** Lemmas *)

Section TransportFacts.
Context {C : Crypto}.

Lemma NewIdentity_Ok caCert cert key now id :
  NewIdentity caCert cert key now = Ok id ↔
  cert_pub cert = ECDSAPub (priv_pub key) ∧
  VerifyAgainst caCert cert now = Ok (id_Principal id) ∧
  id = mkIdentity (id_Principal id) caCert cert key (mkTLSCert [Raw cert] key cert) [caCert].
Proof.
  unfold NewIdentity, pub_Equal. case_bool_decide as Hk; cbn [negb]; [|split; [done|tauto]].
  split.
  - intros (p & Hp & H)%rbind_Ok. injection H as <-. auto.
  - intros (_ & Hp & E). rewrite Hp. cbn. by rewrite <-E.
Qed.

Lemma verifyPeer_Ok id leaf l chains :
  verifyPeer id ((leaf :: l) :: chains) = Ok tt ↔
  ∃ p, PrincipalFromCert leaf = Ok p ∧ MeshID p = id_MeshID id.
Proof.
  cbn. split.
  - intros (p & Hp & H)%rbind_Ok. case_bool_decide; [|done]. eauto.
  - intros (p & -> & Hm). cbn. by rewrite bool_decide_true.
Qed.

Lemma guarded_prefix prefix method :
  (0 <? slen prefix)%nat && ((slen method <? slen prefix)%nat ||
     negb (bool_decide (stake (slen prefix) method = prefix))) = negb (HasPrefix method prefix).
Proof.
  unfold HasPrefix. destruct (decide (prefix = "")) as [->|Hne]; [by destruct method|].
  assert ((0 <? slen prefix)%nat = true) as ->.
  { apply Nat.ltb_lt. destruct prefix; [done|cbn; lia]. }
  cbn [andb]. case_bool_decide as E; [|by rewrite orb_true_r]. rewrite orb_false_r.
  apply Nat.ltb_ge. apply (f_equal slen) in E. rewrite slen_stake in E. lia.
Qed.

Lemma RequireRole_check_spec prefix roles ctx method :
  RequireRole_check prefix roles ctx method =
    if HasPrefix method prefix then
      match PeerPrincipal ctx with
      | None => Some (mkStatus codes_Unauthenticated ErrNoPeerCert)
      | Some p => if bool_decide (Role p ∈ roles) then None
                  else Some (mkStatus codes_PermissionDenied ErrNotAuthorized)
      end
    else None.
Proof.
  unfold RequireRole_check. rewrite guarded_prefix.
  destruct (HasPrefix method prefix); [|done]. cbn [negb].
  destruct (PeerPrincipal ctx) as [p|]; [|done].
  assert (existsb (λ r, bool_decide (r = Role p)) roles = bool_decide (Role p ∈ roles)) as ->.
  { apply eq_true_iff_eq. rewrite existsb_exists, bool_decide_eq_true. split.
    - intros (r & Hin & E%bool_decide_eq_true). subst. by apply list_elem_of_In.
    - intros Hin. exists (Role p). rewrite list_elem_of_In in Hin. by rewrite bool_decide_true. }
  by case_bool_decide.
Qed.
End TransportFacts.

(** An identity whose three files are in the data directory. *)
Lemma LoadIdentity_stored {C : Crypto} {L : CryptoLaws C} env dir certFile keyFile ca cert key now id fs :
  cert_stored env dir CACertFile ca fs → cert_stored env dir certFile cert fs →
  key_stored env dir keyFile key fs →
  ParseCertificate (Raw ca) = Some ca → ParseCertificate (Raw cert) = Some cert →
  NewIdentity ca cert key now = Ok id →
  LoadIdentity env dir certFile keyFile now fs = (fs, Ok id).
Proof.
  intros Hca Hc Hk Hp1 Hp2 Hid. unfold LoadIdentity.
  rewrite (run_bind _ _ fs fs ca).
  2:{ by rewrite (run_wrap _ _ _ _ _ (ReadCert_stored _ _ _ _ _ Hp1 Hca)). }
  rewrite (run_bind _ _ fs fs cert).
  2:{ by rewrite (run_wrap _ _ _ _ _ (ReadCert_stored _ _ _ _ _ Hp2 Hc)). }
  rewrite (run_bind _ _ fs fs key).
  2:{ by rewrite (run_wrap _ _ _ _ _ (ReadKey_stored _ _ _ _ _ Hk)). }
  unfold lift. by rewrite Hid.
Qed.

(** ** Identities issued by the mesh CA *)

Section Issued.
Context {C : Crypto} {L : CryptoLaws C}.

(** What a certificate issued by [Sign] offers to TLS. *)
Lemma Sign_parses ca req e cert : wf_CA ca → Sign ca req e = Ok cert → ParseCertificate (Raw cert) = Some cert.
Proof.
  intros Hwf Hs. apply Sign_issued in Hs as (pub & sn & der & _ & _ & _ & Hder & _); [|apply Hwf].
  by rewrite (parse_Raw _ _ Hder).
Qed.

Lemma Sign_tls ca req e cert now :
  wf_CA ca → Sign ca req e = Ok cert →
  NotBefore cert ≤ now ≤ NotAfter cert → NotBefore (Cert ca) ≤ now ≤ NotAfter (Cert ca) →
  let p := req_Principal req in
  x509_Verify cert (Cert ca) now = true ∧ PrincipalFromCert cert = Ok p ∧
  VerifyAgainst (Cert ca) cert now = Ok p ∧
  usage_ok cert ExtKeyUsageServerAuth = true ∧ usage_ok cert ExtKeyUsageClientAuth = true ∧
  is_label (Name p) = true ∧ role_ok (Role p) = true ∧
  DNSNames cert = (if decide (Role p = RoleNode) then [Name p] else []).
Proof.
  intros Hwf Hs Hn Hn' p. pose proof (Sign_verifies ca req e cert now Hwf Hs Hn Hn') as Hv.
  pose proof Hv as (Hx & Hp & _)%VerifyAgainst_Ok.
  pose proof Hs as (Hok & _)%Sign_Ok. unfold sign_request_ok in Hok. inv_ok.
  apply Sign_issued in Hs as (pub & s & der & _ & _ & _ & _ & E & _); [|apply Hwf].
  split_and!; try done; by rewrite E.
Qed.

Lemma handshake_name cert p host :
  is_label (Name p) = true → is_label host = true →
  DNSNames cert = (if decide (Role p = RoleNode) then [Name p] else []) →
  VerifyHostname cert host = bool_decide (Role p = RoleNode) && bool_decide (Name p = host).
Proof.
  intros Hl Hh E. unfold VerifyHostname. rewrite E. case_decide as Hr; cbn.
  - by rewrite matchHostnames_label, orb_false_r, (bool_decide_true (Role p = RoleNode)).
  - by rewrite (bool_decide_false (Role p = RoleNode)).
Qed.
End Issued.

(** Two members of one mesh, both handshakes. *)
Lemma peers_connect {C : Crypto} {L : CryptoLaws C}
    ca reqS eS certS keyS idS reqC eC certC keyC idC now :
  wf_CA ca → Sign ca reqS eS = Ok certS → Sign ca reqC eC = Ok certC →
  NotBefore certS ≤ now ≤ NotAfter certS → NotBefore certC ≤ now ≤ NotAfter certC →
  NotBefore (Cert ca) ≤ now ≤ NotAfter (Cert ca) →
  NewIdentity (Cert ca) certS keyS now = Ok idS → NewIdentity (Cert ca) certC keyC now = Ok idC →
  Role (req_Principal reqS) = RoleNode →
  tls_connect (ServerTLS idS) (ClientTLS idC (Name (id_Principal idS))) now = Ok ([certC], [certS]) ∧
  PeerPrincipal (mkCtx (Some (TLSInfo [certC]))) = Some (id_Principal idC).
Proof.
  intros Hwf HS HC HnS HnC Hn HiS HiC Hrole.
  destruct (Sign_tls ca _ _ _ now Hwf HS HnS Hn) as (Hx1 & Hp1 & Hv1 & Hu1 & _ & Hl1 & _ & Hd1).
  destruct (Sign_tls ca _ _ _ now Hwf HC HnC Hn) as (Hx2 & Hp2 & Hv2 & _ & Hu2 & _ & _ & _).
  apply NewIdentity_Ok in HiS as (HkS & E1 & ->). apply NewIdentity_Ok in HiC as (HkC & E2 & ->).
  rewrite Hv1 in E1. injection E1 as <-. rewrite Hv2 in E2. injection E2 as <-.
  apply VerifyAgainst_Ok in Hv1 as (_ & _ & Hm1). apply VerifyAgainst_Ok in Hv2 as (_ & _ & Hm2).
  assert (Hm : MeshID (req_Principal reqS) = MeshID (req_Principal reqC)) by congruence.
  split.
  - unfold tls_connect. rewrite (presented_one _ (Raw certS) keyS certS []); [|done|by eapply Sign_parses|done]. cbn [rbind].
    match goal with |- context [client_handshake ?c ?n ?l] => assert (client_handshake c n l = Ok l) as -> end.
    { unfold client_handshake. cbn [InsecureSkipVerify ClientTLS ServerName id_Principal].
      rewrite (handshake_name _ _ _ Hl1 Hl1 Hd1), !bool_decide_true by done. cbn.
      rewrite Hx1, Hu1. cbn. unfold run_hook. cbn. rewrite Hp1. cbn. unfold id_MeshID. cbn.
      by rewrite bool_decide_true. }
    cbn [rbind ServerTLS ClientAuth].
    rewrite (presented_one _ (Raw certC) keyC certC []); [|done|by eapply Sign_parses|done]. cbn [rbind].
    unfold server_handshake. cbn. rewrite Hx2, Hu2. cbn. unfold run_hook. cbn. rewrite Hp2.
    cbn. unfold id_MeshID. cbn. by rewrite bool_decide_true.
  - unfold PeerPrincipal. cbn. by rewrite Hp2.
Qed.

(** *** Types *)

(** What a value of type [Identity] is: a principal of some mesh, the certificate
    that names it, its key, and a pool with the one CA of that mesh. *)
Definition wf_identity (id : Identity) : Prop :=
  wf_principal (id_Principal id) ∧ PrincipalFromCert (id_Cert id) = Ok (id_Principal id) ∧
  cert_pub (id_Cert id) = ECDSAPub (priv_pub (id_Key id)) ∧
  tlsCert id = mkTLSCert [Raw (id_Cert id)] (id_Key id) (id_Cert id) ∧
  pool id = [id_CACert id] ∧ head (Organization (id_CACert id)) = Some (id_MeshID id).

Section Types.
Context {C : Crypto}.

Lemma PrincipalFromCert_wf cert p : PrincipalFromCert cert = Ok p → wf_principal p.
Proof. apply principal_from_uris_wf. Qed.

Lemma PeerPrincipal_wf ctx p : PeerPrincipal ctx = Some p → wf_principal p.
Proof.
  unfold PeerPrincipal. intros H. repeat case_match; simplify_eq. by eapply PrincipalFromCert_wf.
Qed.

Lemma NewIdentity_wf caCert cert key now id :
  NewIdentity caCert cert key now = Ok id → wf_identity id ∧ id_CACert id = caCert ∧ id_Cert id = cert.
Proof.
  intros (Hk & (_ & Hp & Hm)%VerifyAgainst_Ok & E)%NewIdentity_Ok. pose proof (PrincipalFromCert_wf _ _ Hp) as Hw.
  rewrite E. unfold wf_identity. cbn. split_and!; try done.
  unfold id_MeshID. cbn. rewrite Hm. destruct Hw as [Hne _]. rewrite Hm in Hne.
  by destruct (Organization caCert).
Qed.

Lemma LoadIdentity_new env dir certFile keyFile now fs fs' id :
  LoadIdentity env dir certFile keyFile now fs = (fs', Ok id) →
  NewIdentity (id_CACert id) (id_Cert id) (id_Key id) now = Ok id.
Proof.
  unfold LoadIdentity. intros (fs1 & ca & _ & H)%bind_Ok. apply bind_Ok in H as (fs2 & cert & _ & H).
  apply bind_Ok in H as (fs3 & key & _ & H). unfold lift in H. injection H as _ H.
  pose proof H as (_ & _ & E)%NewIdentity_Ok. rewrite E in *. exact H.
Qed.

Lemma LoadIdentity_wf env dir certFile keyFile now fs fs' id :
  LoadIdentity env dir certFile keyFile now fs = (fs', Ok id) → wf_identity id.
Proof. intros H%LoadIdentity_new. by apply NewIdentity_wf in H as [? _]. Qed.
End Types.

(** What the handshake tells each side, whatever the other one runs. *)
Lemma server_sees {C : Crypto} id ca peer now pcs seen :
  pool id = [ca] → tls_connect (ServerTLS id) peer now = Ok (pcs, seen) →
  ∃ leaf rest p, pcs = leaf :: rest ∧ holds_key peer leaf ∧ x509_Verify leaf ca now = true ∧
    PrincipalFromCert leaf = Ok p ∧ MeshID p = id_MeshID id.
Proof.
  intros Hpool (sc & cc & _ & _ & H & Hcc)%tls_connect_Ok. specialize (Hcc eq_refl).
  apply server_handshake_Ok in H as (leaf & rest & roots & ca' & chains & -> & <- & Hr & Hin & Hv & _ & Hh);
    [|done].
  cbn [ClientCAs ServerTLS] in Hr. rewrite Hpool in Hr.
  injection Hr as <-. apply list_elem_of_singleton in Hin as ->.
  unfold run_hook in Hh. cbn [VerifyPeerCertificate ServerTLS] in Hh.
  apply verifyPeer_Ok in Hh as (p & Hp & Hm). exists leaf, rest, p.
  split_and!; try done. by eapply presented_holds.
Qed.

Lemma client_sees {C : Crypto} id ca nodeID peer now pcs seen :
  pool id = [ca] → tls_connect peer (ClientTLS id nodeID) now = Ok (pcs, seen) →
  ∃ leaf rest p, seen = leaf :: rest ∧ holds_key peer leaf ∧ x509_Verify leaf ca now = true ∧
    VerifyHostname leaf nodeID = true ∧ PrincipalFromCert leaf = Ok p ∧ MeshID p = id_MeshID id.
Proof.
  intros Hpool (sc & cc & Hsc & H & _)%tls_connect_Ok.
  apply client_handshake_Ok in H as
    (leaf & rest & roots & ca' & chains & -> & <- & Hr & Hin & Hv & _ & Hh & Hk); [|done].
  apply presented_holds in Hsc. cbn [RootCAs ClientTLS] in Hr. rewrite Hpool in Hr.
  injection Hr as <-. apply list_elem_of_singleton in Hin as ->.
  unfold run_hook in Hk. cbn [VerifyPeerCertificate ClientTLS] in Hk.
  apply verifyPeer_Ok in Hk as (p & Hp & Hm). by exists leaf, rest, p.
Qed.

(** ** Properties *)

(** C26: the types of the mesh.  Every principal that the code obtains, from a URI,
    a certificate, a checked certificate or the peer of a connection, has a
    mesh, the role of a node or an administrator, and a name that is one path
    segment; and every identity, new or loaded from a directory, holds the
    certificate that names its principal, the key of that certificate, and the
    CA of its mesh as the only root. *)
Theorem well_typed {C : Crypto} :
  (∀ u p, ParsePrincipal u = Ok p → wf_principal p) ∧
  (∀ cert p, PrincipalFromCert cert = Ok p → wf_principal p) ∧
  (∀ caCert cert now p, VerifyAgainst caCert cert now = Ok p → wf_principal p) ∧
  (∀ ctx p, PeerPrincipal ctx = Some p → wf_principal p) ∧
  (∀ caCert cert key now id, NewIdentity caCert cert key now = Ok id → wf_identity id) ∧
  (∀ env dir now fs fs' id, LoadNodeIdentity env dir now fs = (fs', Ok id) → wf_identity id) ∧
  (∀ env dir now fs fs' id, LoadAdminIdentity env dir now fs = (fs', Ok id) → wf_identity id).
Proof.
  split_and!.
  - intros [u|] p H; [|done]. by apply ParsePrincipal_Ok in H as [? _].
  - apply PrincipalFromCert_wf.
  - intros caCert cert now p (_ & H & _)%VerifyAgainst_Ok. by eapply PrincipalFromCert_wf.
  - apply PeerPrincipal_wf.
  - intros caCert cert key now id H. by apply NewIdentity_wf in H as [? _].
  - intros env dir now fs fs' id. apply LoadIdentity_wf.
  - intros env dir now fs fs' id. apply LoadIdentity_wf.
Qed.

(** C16: a server built by [NewServer] completes the handshake, whatever the
    other side runs, only with a peer that has the key of its certificate; this
    certificate verifies under the mesh CA and names a principal of the server's
    own mesh, which is what [PeerPrincipal] gives to the handlers. *)
Theorem server_authenticates {C : Crypto} caCert cert key now0 id peer now pcs seen :
  NewIdentity caCert cert key now0 = Ok id →
  tls_connect (ServerTLS id) peer now = Ok (pcs, seen) →
  ∃ leaf rest p, pcs = leaf :: rest ∧ holds_key peer leaf ∧ x509_Verify leaf caCert now = true ∧
    PrincipalFromCert leaf = Ok p ∧ MeshID p = id_MeshID id ∧
    PeerPrincipal (mkCtx (Some (TLSInfo pcs))) = Some p.
Proof.
  intros (_ & _ & ->)%NewIdentity_Ok H.
  apply (server_sees _ caCert) in H as (leaf & rest & p & -> & Hk & Hv & Hp & Hm); [|done].
  exists leaf, rest, p. split_and!; try done. unfold PeerPrincipal. cbn. by rewrite Hp.
Qed.

(** C17: a client that dials a node by its node_id completes the handshake,
    whatever the other side runs, only with a server of its own mesh that has
    the key of its certificate; if the mesh CA issued this certificate, it is
    the certificate of that very node, and never the operator's. *)
Theorem client_authenticates {C : Crypto} {L : CryptoLaws C}
    ca cert key now0 id nodeID peer now pcs leaf rest req e :
  wf_CA ca → NewIdentity (Cert ca) cert key now0 = Ok id → is_label nodeID = true →
  NotBefore leaf ≤ now ≤ NotAfter leaf → NotBefore (Cert ca) ≤ now ≤ NotAfter (Cert ca) →
  tls_connect peer (ClientTLS id nodeID) now = Ok (pcs, leaf :: rest) →
  holds_key peer leaf ∧ x509_Verify leaf (Cert ca) now = true ∧
  (∃ p, PrincipalFromCert leaf = Ok p ∧ MeshID p = id_MeshID id) ∧
  (Sign ca req e = Ok leaf → req_Principal req = mkPrincipal (id_MeshID id) RoleNode nodeID).
Proof.
  intros Hwf (_ & _ & ->)%NewIdentity_Ok Hl Hn Hn' H.
  apply (client_sees _ (Cert ca)) in H as (leaf' & rest' & p & [= <- <-] & Hk & Hv & Hh & Hp & Hm); [|done].
  split_and!; [done|done|by exists p|]. intros Hs.
  destruct (Sign_tls ca req e _ now Hwf Hs Hn Hn') as (_ & Hp' & _ & _ & _ & Hln & _ & Hd).
  rewrite Hp in Hp'. injection Hp' as ->.
  rewrite (handshake_name _ _ _ Hln Hl Hd) in Hh.
  apply andb_true_iff in Hh as [Hr%bool_decide_eq_true Hnm%bool_decide_eq_true].
  destruct (req_Principal req). cbn in *. by subst.
Qed.

(** C15: members of a mesh reach each other.  Two identities with certificates
    issued by the mesh CA complete the handshake in both directions when the
    client dials the server's node_id, and the server sees the client's
    principal. *)
Theorem mesh_peers_connect {C : Crypto} {L : CryptoLaws C}
    ca reqS eS certS keyS idS reqC eC certC keyC idC now :
  wf_CA ca → Sign ca reqS eS = Ok certS → Sign ca reqC eC = Ok certC →
  NotBefore certS ≤ now ≤ NotAfter certS → NotBefore certC ≤ now ≤ NotAfter certC →
  NotBefore (Cert ca) ≤ now ≤ NotAfter (Cert ca) →
  NewIdentity (Cert ca) certS keyS now = Ok idS → NewIdentity (Cert ca) certC keyC now = Ok idC →
  Role (req_Principal reqS) = RoleNode →
  tls_connect (ServerTLS idS) (ClientTLS idC (Name (id_Principal idS))) now = Ok ([certC], [certS]) ∧
  PeerPrincipal (mkCtx (Some (TLSInfo [certC]))) = Some (id_Principal idC).
Proof. apply peers_connect. Qed.

(** The guard of [RequireRole].  A call of a guarded method runs its handler
    exactly when the caller has one of the roles; without a principal it is
    Unauthenticated, with another role PermissionDenied, and the handler's state
    is untouched.  Other methods are not affected. *)
Theorem RequireRole_guards {C : Crypto} {S R : Type} prefix roles ctx method
    (h : Context_ → S → S * (R + Status)) st :
  intercept (RequireRole prefix roles).1 ctx method h st =
  if HasPrefix method prefix then
    match PeerPrincipal ctx with
    | None => (st, inr (mkStatus codes_Unauthenticated ErrNoPeerCert))
    | Some p =>
        if bool_decide (Role p ∈ roles) then h ctx st
        else (st, inr (mkStatus codes_PermissionDenied ErrNotAuthorized))
    end
  else h ctx st.
Proof.
  unfold intercept, RequireRole. cbn [fst]. rewrite RequireRole_check_spec.
  destruct (HasPrefix method prefix); [|done].
  destruct (PeerPrincipal ctx) as [p|]; [|done]. by destruct (bool_decide (Role p ∈ roles)).
Qed.

(** *** A mesh of two, for the witnesses *)

Definition ex_key_of (r : string) : PrivateKey := GenerateKey r.
Definition ex_req_of (role name r : string) : SignRequest :=
  mkSignRequest (mkPrincipal "home" role name) (Some (priv_pub (ex_key_of r))) DefaultNodeCertTTL.
Definition ex_cert_of (role name r : string) : Certificate :=
  match Sign ex_ca (ex_req_of role name r) ex_env with Ok c => c | Err _ => Cert ex_ca end.
Definition ex_id_of (role name r : string) : Identity :=
  let c := ex_cert_of role name r in
  mkIdentity (mkPrincipal "home" role name) (Cert ex_ca) c (ex_key_of r)
    (mkTLSCert [Raw c] (ex_key_of r) c) [Cert ex_ca].

Lemma ex_id_loads : NewIdentity (Cert ex_ca) (ex_cert_of RoleNode "box" "b") (ex_key_of "b") ex_now
  = Ok (ex_id_of RoleNode "box" "b").
Proof. vm_compute. reflexivity. Qed.
Lemma ex_admin_loads :
  NewIdentity (Cert ex_ca) (ex_cert_of RoleAdmin "admin" "a") (ex_key_of "a") ex_now
  = Ok (ex_id_of RoleAdmin "admin" "a").
Proof. vm_compute. reflexivity. Qed.

Lemma server_authenticates_witness :
  ∃ p, PeerPrincipal (mkCtx (Some (TLSInfo [ex_cert_of RoleAdmin "admin" "a"]))) = Some p ∧
       MeshID p = "home".
Proof.
  destruct (server_authenticates (Cert ex_ca) (ex_cert_of RoleNode "box" "b") (ex_key_of "b") ex_now
    (ex_id_of RoleNode "box" "b") (ClientTLS (ex_id_of RoleAdmin "admin" "a") "box") ex_now
    [ex_cert_of RoleAdmin "admin" "a"] [ex_cert_of RoleNode "box" "b"] ex_id_loads
    ltac:(vm_compute; reflexivity))
    as (leaf & rest & p & _ & _ & _ & _ & Hm & Hp).
  exists p. split; [exact Hp|exact Hm].
Defined.

Lemma client_authenticates_witness :
  req_Principal (ex_req_of RoleNode "box" "b") = mkPrincipal "home" RoleNode "box".
Proof.
  apply (client_authenticates ex_ca (ex_cert_of RoleAdmin "admin" "a") (ex_key_of "a") ex_now
    (ex_id_of RoleAdmin "admin" "a") "box" (ServerTLS (ex_id_of RoleNode "box" "b")) ex_now
    [ex_cert_of RoleAdmin "admin" "a"] (ex_cert_of RoleNode "box" "b") []
    (ex_req_of RoleNode "box" "b") ex_env ex_ca_wf ex_admin_loads);
    vm_compute; try reflexivity; split; discriminate.
Defined.

Lemma mesh_peers_connect_witness :
  PeerPrincipal (mkCtx (Some (TLSInfo [ex_cert_of RoleAdmin "admin" "a"]))) =
    Some (mkPrincipal "home" RoleAdmin "admin").
Proof.
  apply (mesh_peers_connect ex_ca (ex_req_of RoleNode "box" "b") ex_env
    (ex_cert_of RoleNode "box" "b") (ex_key_of "b") (ex_id_of RoleNode "box" "b")
    (ex_req_of RoleAdmin "admin" "a") ex_env (ex_cert_of RoleAdmin "admin" "a") (ex_key_of "a")
    (ex_id_of RoleAdmin "admin" "a") ex_now ex_ca_wf);
    try apply ex_id_loads; try apply ex_admin_loads;
    vm_compute; try reflexivity; split; discriminate.
Defined.
