(* ===== verification/GoNet.v ===== *)
(** * What the program uses of package [net]

    IP addresses and their text ([net.IP], [netip.Addr.String]), [JoinHostPort]
    and [SplitHostPort]. *)
From S2P Require Import Prelude GoStrings.
Local Open Scope Z_scope.

(** ** Addresses *)

(** [net.IP]: 4 or 16 bytes, or anything else the library was given. *)
Definition IP : Type := string.

Definition byte_at (s : string) (i : nat) : Z :=
  match sdrop i s with String a _ => byte_val a | "" => 0 end.

(** [ip.To4], [None] for nil *)
Definition To4 (ip : IP) : option IP :=
  if (slen ip =? 4)%nat then Some ip
  else if (slen ip =? 16)%nat && sall (λ a, byte_val a =? 0) (stake 10 ip) &&
          (byte_at ip 10 =? 255) && (byte_at ip 11 =? 255)
  then Some (sdrop 12 ip)
  else None.

Definition dotted (ip : IP) : string :=
  Itoa (byte_at ip 0) +:+ "." +:+ Itoa (byte_at ip 1) +:+ "." +:+
  Itoa (byte_at ip 2) +:+ "." +:+ Itoa (byte_at ip 3).

(** A 16-bit group in lower-case hexadecimal, without leading zeros. *)
Definition hex16 (n : Z) : string :=
  let d k := String (hexdigit (n / 16 ^ k mod 16)) "" in
  (if 16 ^ 3 <=? n then d 3 else "") +:+ (if 16 ^ 2 <=? n then d 2 else "") +:+
  (if 16 <=? n then d 1 else "") +:+ d 0.

Definition group (ip : IP) (i : nat) : Z :=
  byte_at ip (2 * i) * 256 + byte_at ip (2 * i + 1).

(** The number of zero groups from [i] on. *)
Fixpoint zero_run (ip : IP) (n i : nat) : nat :=
  match n with
  | O => 0
  | S n' => if group ip i =? 0 then S (zero_run ip n' (S i)) else 0
  end.

(** The first longest run of at least two zero groups: its start and length. *)
Fixpoint longest_run (ip : IP) (n i : nat) (best : nat * nat) : nat * nat :=
  match n with
  | O => best
  | S n' =>
      let l := zero_run ip n i in
      longest_run ip n' (S i) (if (2 <=? l)%nat && (best.2 <? l)%nat then (i, l) else best)
  end.

Fixpoint groups_text (ip : IP) (n i : nat) (sep : bool) : string :=
  match n with
  | O => ""
  | S n' => (if sep then ":" else "") +:+ hex16 (group ip i) +:+ groups_text ip n' (S i) true
  end.

(** [netip.Addr.String] for an IPv6 address *)
Definition string6 (ip : IP) : string :=
  let '(start, len) := longest_run ip 8 0 (255%nat, 0%nat) in
  if (len =? 0)%nat then groups_text ip 8 0 false
  else groups_text ip start 0 false +:+ "::" +:+
       groups_text ip (8 - (start + len)) (start + len) false.

(** [ip.String] *)
Definition IP_String (ip : IP) : string :=
  if (slen ip =? 0)%nat then "<nil>"
  else if negb (slen ip =? 4)%nat && negb (slen ip =? 16)%nat then "?" +:+ HexEncode ip
  else match To4 ip with
  | Some p4 => dotted p4
  | None => string6 ip
  end.

(** ** Host and port *)

Definition JoinHostPort (host port : string) : string :=
  match IndexByte host ":" with
  | Some _ => "[" +:+ host +:+ "]:" +:+ port
  | None => host +:+ ":" +:+ port
  end.

Definition addr_err (why : string) : error := ErrorsNew why.
Definition missingPort : string := "missing port in address".
Definition tooManyColons : string := "too many colons in address".

(** [net.SplitHostPort]: the host with its brackets removed, the offsets from
    which a stray bracket is an error, and the port. *)
Definition SplitHostPort (hostport : string) : result (string * string) :=
  match LastIndexByte hostport ":" with
  | None => Err (addr_err missingPort)
  | Some i =>
      let? hjk :=
        if HasPrefix hostport "[" then
          match IndexByte hostport "]" with
          | None => Err (addr_err "missing ']' in address")
          | Some e =>
              if (S e =? slen hostport)%nat then Err (addr_err missingPort)
              else if (S e =? i)%nat then Ok (stake (e - 1) (sdrop 1 hostport), 1%nat, S e)
              else if byte_at hostport (S e) =? 58 then Err (addr_err tooManyColons)
              else Err (addr_err missingPort)
          end
        else
          let host := stake i hostport in
          match IndexByte host ":" with
          | Some _ => Err (addr_err tooManyColons)
          | None => Ok (host, 0%nat, 0%nat)
          end in
      let '(host, j, k) := hjk in
      match IndexByte (sdrop j hostport) "[", IndexByte (sdrop k hostport) "]" with
      | Some _, _ => Err (addr_err "unexpected '[' in address")
      | None, Some _ => Err (addr_err "unexpected ']' in address")
      | None, None => Ok (host, sdrop (S i) hostport)
      end
  end.

Fixpoint srepeat (a : ascii) (n : nat) : string :=
  match n with O => "" | S n' => String a (srepeat a n') end.

Example ip_v4 : IP_String (String "192" (String "168" (String "000" (String "007" ""))))
                = "192.168.0.7".
Proof. reflexivity. Qed.
Example ip_v6 : IP_String (String "254" (String "128" (srepeat "000" 12 +:+
                  String "001" (String "035" "")))) = "fe80::123".
Proof. reflexivity. Qed.
Example ip_mapped : IP_String (srepeat "000" 10 +:+ srepeat "255" 2 +:+ srepeat "009" 4) = "9.9.9.9".
Proof. reflexivity. Qed.

(** ** Lemmas *)

Lemma lacks_app c s t : lacks c (s +:+ t) = lacks c s && lacks c t.
Proof. apply sall_app. Qed.

Lemma sall_lacks P c s : P c = false → sall P s = true → lacks c s = true.
Proof.
  intros Hc. apply sall_impl. intros a Ha. case_bool_decide as E; [|done]. congruence.
Qed.

Lemma IndexByte_none s c : lacks c s = true → IndexByte s c = None.
Proof. apply IndexByte_lacks. Qed.

Lemma LastIndexByte_lacks s c : lacks c s = true → LastIndexByte s c = None.
Proof.
  unfold lacks. induction s as [|a s IH]; simpl; [done|]. intros H. inv_ok.
  rewrite IH by done. by rewrite decide_False.
Qed.

Lemma LastIndexByte_app s t c :
  lacks c t = true → LastIndexByte (s +:+ String c t) c = Some (slen s).
Proof.
  intros Ht. induction s as [|a s IH].
  - rewrite app_nil_l_s. simpl. rewrite LastIndexByte_lacks by done. by rewrite decide_True.
  - rewrite app_cons_s. simpl. by rewrite IH.
Qed.

Lemma sdrop_S_app s a t : sdrop (S (slen s)) (s +:+ String a t) = t.
Proof.
  replace (S (slen s)) with (slen (s +:+ String a "")) by (rewrite slen_app; cbn; lia).
  replace (s +:+ String a t) with ((s +:+ String a "") +:+ t) by by rewrite app_assoc_s.
  apply sdrop_app.
Qed.

Lemma sdrop_0 s : sdrop 0 s = s.
Proof. by destruct s. Qed.

(** A host without brackets and a port without colons or brackets. *)
Definition plain_host (h : string) : bool := lacks "[" h && lacks "]" h.
Definition plain_port (p : string) : bool := lacks ":" p && lacks "[" p && lacks "]" p.

Lemma Split_Join_bare h p :
  plain_host h = true → plain_port p = true → lacks ":" h = true →
  SplitHostPort (h +:+ String ":" p) = Ok (h, p).
Proof.
  unfold plain_host, plain_port. intros Hh Hp Hc. inv_ok.
  unfold SplitHostPort. rewrite LastIndexByte_app by done.
  assert (HasPrefix (h +:+ String ":" p) "[" = false) as ->.
  { apply not_true_iff_false. intros [t Ht]%HasPrefix_spec.
    assert (lacks "[" (h +:+ String ":" p) = true) as Hl.
    { rewrite lacks_app. apply andb_true_iff. by split. }
    by rewrite Ht in Hl. }
  cbv zeta. rewrite stake_app, IndexByte_none by done. cbn [rbind]. rewrite !sdrop_0.
  assert (∀ c, lacks c h = true → lacks c p = true → c ≠ ":"%char →
            IndexByte (h +:+ String ":" p) c = None) as Hn.
  { intros c H1' H2' Hne. apply IndexByte_none. rewrite lacks_app, H1'. cbn.
    rewrite bool_decide_false by by intros <-. exact H2'. }
  rewrite !Hn by done. by rewrite sdrop_S_app.
Qed.

Lemma Split_Join_bracket h p :
  plain_host h = true → plain_port p = true →
  SplitHostPort ("[" +:+ h +:+ "]:" +:+ p) = Ok (h, p).
Proof.
  unfold plain_host, plain_port. intros Hh Hp. inv_ok.
  set (w := "[" +:+ h +:+ "]").
  assert (Hw : "[" +:+ h +:+ "]:" +:+ p = w +:+ String ":" p).
  { unfold w. by rewrite !app_assoc_s. }
  assert (Hlw : slen w = S (S (slen h))) by (unfold w; rewrite !slen_app; cbn; lia).
  unfold SplitHostPort. rewrite Hw, LastIndexByte_app by done.
  assert (HasPrefix (w +:+ String ":" p) "[" = true) as ->.
  { apply HasPrefix_spec. rewrite <-Hw. by eexists. }
  assert (IndexByte (w +:+ String ":" p) "]" = Some (S (slen h))) as ->.
  { rewrite <-Hw. change ("[" +:+ h +:+ "]:" +:+ p) with ((String "[" h) +:+ String "]" (":" +:+ p)).
    rewrite IndexByte_app; [done|]. done. }
  rewrite slen_app, Hlw. cbn [slen].
  rewrite (proj2 (Nat.eqb_neq _ _)) by lia. rewrite Nat.eqb_refl. cbn [rbind].
  assert (sdrop 1 (w +:+ String ":" p) = h +:+ "]:" +:+ p) as Hd by (by rewrite <-Hw).
  rewrite Hd. replace (S (slen h) - 1)%nat with (slen h) by lia.
  rewrite stake_app. replace (S (S (slen h))) with (slen w) by done. rewrite sdrop_app.
  rewrite !IndexByte_none.
  - by rewrite sdrop_S_app.
  - done.
  - rewrite lacks_app. apply andb_true_iff. by split.
Qed.

Lemma Split_Join host port :
  plain_host host = true → plain_port port = true →
  SplitHostPort (JoinHostPort host port) = Ok (host, port).
Proof.
  intros Hh Hp. unfold JoinHostPort. destruct (IndexByte host ":") as [i|] eqn:E.
  - by apply Split_Join_bracket.
  - apply IndexByte_lacks in E. by apply Split_Join_bare.
Qed.

(** The text of an address has no brackets. *)
Definition ip_byte (a : ascii) : bool :=
  is_hex a || bool_decide (a ∈ [":"; "."; "?"; "<"; ">"; "n"; "i"; "l"]%char).

Lemma Itoa_plain_port n : 0 ≤ n → plain_port (Itoa n) = true.
Proof.
  intros Hn. unfold plain_port. pose proof (Itoa_digits n Hn) as Hd.
  rewrite !(sall_lacks is_digit) by done. done.
Qed.

Lemma byte_at_bounds s i : 0 ≤ byte_at s i < 256.
Proof. unfold byte_at. destruct (sdrop i s); [lia|]. pose proof (byte_val_bounds a). lia. Qed.

Lemma sall_cons P a s : P a = true → sall P s = true → sall P (String a s) = true.
Proof. cbn. by intros -> ->. Qed.

Lemma sall_app_2 P s t : sall P s = true → sall P t = true → sall P (s +:+ t) = true.
Proof. rewrite sall_app. by intros -> ->. Qed.

Lemma hex_ip_byte a : is_hex a = true → ip_byte a = true.
Proof. unfold ip_byte. by intros ->. Qed.

Lemma Itoa_ip n : 0 ≤ n → sall ip_byte (Itoa n) = true.
Proof.
  intros Hn. eapply sall_impl; [|exact (Itoa_digits n Hn)].
  intros a Ha. apply hex_ip_byte. unfold is_hex. by rewrite Ha.
Qed.

Lemma hex16_ip n : 0 ≤ n → sall ip_byte (hex16 n) = true.
Proof.
  intros Hn. unfold hex16.
  assert (∀ k, sall ip_byte (String (hexdigit (n / 16 ^ k mod 16)) "") = true) as Hd.
  { intros k. apply sall_cons; [|done].
    apply hex_ip_byte, hexdigit_is_hex, Z.mod_pos_bound. lia. }
  repeat apply sall_app_2; try apply Hd; case_match; done || apply Hd.
Qed.

Lemma groups_ip ip n i sep : sall ip_byte (groups_text ip n i sep) = true.
Proof.
  revert i sep. induction n as [|n IH]; intros i sep; [done|]. cbn [groups_text].
  apply sall_app_2; [by destruct sep|]. apply sall_app_2; [|apply IH].
  apply hex16_ip. unfold group.
  pose proof (byte_at_bounds ip (2 * i)). pose proof (byte_at_bounds ip (2 * i + 1)). lia.
Qed.

Lemma IP_String_bytes ip : sall ip_byte (IP_String ip) = true.
Proof.
  unfold IP_String. case_match; [done|]. case_match.
  - apply sall_app_2; [done|]. eapply sall_impl; [apply hex_ip_byte|apply HexEncode_hex].
  - destruct (To4 ip) as [p4|].
    + unfold dotted. repeat apply sall_app_2; try apply Itoa_ip, byte_at_bounds; done.
    + unfold string6. destruct (longest_run ip 8 0 (255%nat, 0%nat)) as [st len].
      case_match; [apply groups_ip|]. repeat apply sall_app_2; try apply groups_ip; done.
Qed.

Lemma IP_String_plain ip : plain_host (IP_String ip) = true.
Proof.
  unfold plain_host. pose proof (IP_String_bytes ip) as H.
  rewrite !(sall_lacks ip_byte) by done. done.
Qed.
