(* ===== verification/GoFlag.v ===== *)
(** * Package [flag]

    [FlagSet.Parse] under [ContinueOnError], for the four kinds of flags that
    the program defines.  A flag set maps names to what sets a field of a record
    of type [R]; the record starts with the defaults. *)
From S2P Require Import Prelude GoStrings GoTime GoDuration.
Local Open Scope Z_scope.

(** ** [strconv.ParseBool] and [strconv.ParseInt(s, 0, 64)] *)

Definition ParseBool (s : string) : option bool :=
  if bool_decide (s ∈ ["1"; "t"; "T"; "TRUE"; "true"; "True"]) then Some true
  else if bool_decide (s ∈ ["0"; "f"; "F"; "FALSE"; "false"; "False"]) then Some false
  else None.

(** [c | ('x' - 'X')] *)
Definition lower_bit (a : ascii) : Z := Z.lor (byte_val a) 32.

(** The number that a digit or letter stands for. *)
Definition digit_of (a : ascii) : option Z :=
  if in_range 48 57 (byte_val a) then Some (byte_val a - 48)
  else if in_range 97 122 (lower_bit a) then Some (lower_bit a - 97 + 10)
  else None.

(** The digits in [base], underscores skipped. *)
Fixpoint uint_digits (base acc : Z) (s : string) : option Z :=
  match s with
  | "" => Some acc
  | String a s' =>
      if bool_decide (a = "_"%char) then uint_digits base acc s'
      else match digit_of a with
      | Some d => if base <=? d then None else uint_digits base (acc * base + d) s'
      | None => None
      end
  end.

(** The base that a prefix announces, and the digits behind it. *)
Definition base_prefix (s : string) : Z * string :=
  match s with
  | String z (String b s') =>
      if bool_decide (z = "0"%char) then
        if (1 <=? slen s')%nat && (lower_bit b =? 98) then (2, s')
        else if (1 <=? slen s')%nat && (lower_bit b =? 111) then (8, s')
        else if (1 <=? slen s')%nat && (lower_bit b =? 120) then (16, s')
        else (8, String b s')
      else (10, s)
  | String z "" => if bool_decide (z = "0"%char) then (8, "") else (10, s)
  | "" => (10, "")
  end.

(** [underscoreOK] behind the sign: what was seen last is the start, a digit
    (or the prefix), an underscore, or something else. *)
Inductive seen := SStart | SDigit | SUnder | SOther.
Fixpoint underscores_go (hex : bool) (i : seen) (s : string) : bool :=
  match s with
  | "" => match i with SUnder => false | _ => true end
  | String a s' =>
      if in_range 48 57 (byte_val a) || (hex && in_range 97 102 (lower_bit a))
      then underscores_go hex SDigit s'
      else if bool_decide (a = "_"%char)
      then match i with SDigit => underscores_go hex SUnder s' | _ => false end
      else match i with SUnder => false | _ => underscores_go hex SOther s' end
  end.
Definition underscoreOK (s : string) : bool :=
  match s with
  | String z (String b s') =>
      if bool_decide (z = "0"%char) &&
         ((lower_bit b =? 98) || (lower_bit b =? 111) || (lower_bit b =? 120))
      then underscores_go (lower_bit b =? 120) SDigit s'
      else underscores_go false SStart s
  | _ => underscores_go false SStart s
  end.

Definition has_underscore (s : string) : bool := negb (lacks "_" s).

Definition ParseInt (s : string) : option Z :=
  let '(neg, s) :=
    match s with
    | String a s' =>
        if bool_decide (a = "+"%char) then (false, s')
        else if bool_decide (a = "-"%char) then (true, s') else (false, s)
    | "" => (false, "")
    end in
  if bool_decide (s = "") then None
  else
    let '(base, ds) := base_prefix s in
    match uint_digits base 0 ds with
    | None => None
    | Some un =>
        if has_underscore ds && negb (underscoreOK s) then None
        else
          let v := if (neg : bool) then - un else un in
          if in_range min_int max_int v then Some v else None
    end.

Example ParseInt_dec : ParseInt "7443" = Some 7443. Proof. reflexivity. Qed.
Example ParseInt_oct : ParseInt "0744" = Some 484. Proof. reflexivity. Qed.
Example ParseInt_hex : ParseInt "-0x1_0" = Some (-16). Proof. reflexivity. Qed.
Example ParseInt_zero : ParseInt "0" = Some 0. Proof. reflexivity. Qed.
Example ParseInt_bad : ParseInt "1__0" = None. Proof. reflexivity. Qed.

(** ** [FlagSet.Parse] *)

Inductive FlagValue (R : Type) :=
  | BoolFlag (set : bool → R → R)
  | StringFlag (set : string → R → R)
  | IntFlag (set : Z → R → R)
  | DurationFlag (set : Duration → R → R).
Arguments BoolFlag {R} set.
Arguments StringFlag {R} set.
Arguments IntFlag {R} set.
Arguments DurationFlag {R} set.

Definition ErrHelp : error := ErrorsNew "flag: help requested".

Section Flags.
Context {R : Type} (fs : list (string * FlagValue R)).

Definition lookup_flag (name : string) : option (FlagValue R) :=
  match List.find (λ p, bool_decide (p.1 = name)) fs with Some p => Some p.2 | None => None end.

(** [flag.Value.Set] *)
Definition set_flag (f : FlagValue R) (value : string) (r : R) : result R :=
  let bad := Errorf "invalid value %q for flag -%s: %v" in
  match f with
  | BoolFlag set => match ParseBool value with Some b => Ok (set b r) | None => Err (Errorf "invalid boolean value %q for -%s: %v") end
  | StringFlag set => Ok (set value r)
  | IntFlag set => match ParseInt value with Some z => Ok (set z r) | None => Err bad end
  | DurationFlag set => match ParseDuration value with Some d => Ok (set d r) | None => Err bad end
  end.

(** An argument that is no flag, the end of the flags, a malformed flag, or the
    name of a flag with the value behind its equals sign. *)
Inductive arg_kind := NotAFlag | Terminator | BadFlag | Named (name : string) (value : option string).

Definition classify (s : string) : arg_kind :=
  match s with
  | String a (String b s') =>
      if negb (bool_decide (a = "-"%char)) then NotAFlag
      else
        let name := if bool_decide (b = "-"%char) then s' else String b s' in
        if bool_decide (b = "-"%char) && bool_decide (s' = "") then Terminator
        else match name with
        | "" => BadFlag
        | String c rest =>
            if bool_decide (c = "-"%char) || bool_decide (c = "="%char) then BadFlag
            else match IndexByte rest "=" with
            | Some i => Named (String c (stake i rest)) (Some (sdrop (S i) rest))
            | None => Named name None
            end
        end
  | _ => NotAFlag
  end.

(** The record and the arguments that are left. *)
Fixpoint Parse (args : list string) (r : R) : result (R * list string) :=
  match args with
  | [] => Ok (r, [])
  | s :: args =>
      match classify s with
      | NotAFlag => Ok (r, s :: args)
      | Terminator => Ok (r, args)
      | BadFlag => Err (Errorf "bad flag syntax: %s")
      | Named name value =>
          match lookup_flag name with
          | None =>
              if bool_decide (name = "help") || bool_decide (name = "h") then Err ErrHelp
              else Err (Errorf "flag provided but not defined: -%s")
          | Some (BoolFlag set) =>
              match value with
              | Some v => let? r := set_flag (BoolFlag set) v r in Parse args r
              | None => Parse args (set true r)
              end
          | Some f =>
              match value, args with
              | Some v, _ => let? r := set_flag f v r in Parse args r
              | None, v :: args => let? r := set_flag f v r in Parse args r
              | None, [] => Err (Errorf "flag needs an argument: -%s")
              end
          end
      end
  end.
End Flags.

(** ** Lemmas *)

(** Decimal digits are read as such. *)
Lemma uint_digits_dec s acc : sall is_digit s = true → uint_digits 10 acc s = digits_val acc s.
Proof.
  revert acc. induction s as [|a s IH]; intros acc; [done|].
  cbn. intros [Ha Hs]%andb_true_iff. rewrite Ha.
  assert (in_range 48 57 (byte_val a) = true) as Ha' by exact Ha.
  rewrite bool_decide_false by by intros ->. unfold digit_of. rewrite Ha'.
  apply in_range_true in Ha'. destruct (Z.leb_spec 10 (byte_val a - 48)); [lia|]. by apply IH.
Qed.

Definition head_nonzero (s : string) : bool :=
  match s with String a _ => negb (bool_decide (a = "0"%char)) | "" => true end.

Lemma itoa_go_head f n acc :
  (0 < f)%nat → 0 < n < 10 ^ Z.of_nat f → head_nonzero (itoa_go f n acc) = true.
Proof.
  revert n acc. induction f as [|f IH]; intros n acc Hf Hn; [lia|].
  rewrite Nat2Z.inj_succ, Z.pow_succ_r in Hn by lia. cbn [itoa_go].
  pose proof (Z.mod_pos_bound n 10 ltac:(lia)) as Hm. destruct (Z.ltb_spec n 10) as [Hs|Hs].
  - cbn. apply negb_true_iff, bool_decide_eq_false. intros E.
    apply (f_equal byte_val) in E. rewrite digit_val in E by lia.
    rewrite Z.mod_small in E by lia. change (byte_val "0") with 48 in E. lia.
  - destruct f as [|f]; [cbn in Hn; lia|]. apply IH; [lia|].
    pose proof (Z.div_lt_upper_bound n 10 (10 ^ Z.of_nat (S f)) ltac:(lia) ltac:(lia)).
    pose proof (Z.div_str_pos n 10 ltac:(lia)). lia.
Qed.

Lemma ParseInt_Itoa n : 0 ≤ n ≤ max_int → ParseInt (Itoa n) = Some n.
Proof.
  intros Hn. destruct (decide (n = 0)) as [->|Hne]; [reflexivity|].
  assert (Hhead : head_nonzero (Itoa n) = true).
  { unfold max_int in Hn. rewrite Itoa_nonneg by lia. apply itoa_go_head; lia. }
  pose proof (Itoa_digits n ltac:(lia)) as Hd. pose proof (Itoa_nonempty n Hn) as Hnil.
  assert (Hv : uint_digits 10 0 (Itoa n) = Some n).
  { rewrite uint_digits_dec by done. unfold max_int in Hn.
    rewrite Itoa_nonneg, itoa_go_val by lia. done. }
  assert (Hu : has_underscore (Itoa n) = false).
  { unfold has_underscore, lacks. rewrite (sall_impl is_digit _ (Itoa n)); [done| |done].
    intros a Ha. by case_bool_decide; [subst|]. }
  unfold ParseInt. revert Hhead Hd Hnil Hv Hu. generalize (Itoa n). intros s Hhead Hd Hnil Hv Hu.
  destruct s as [|a s]; [done|]. pose proof Hd as [Ha _]%andb_true_iff.
  rewrite !(bool_decide_false (a = _)) by by intros ->. rewrite bool_decide_false by done.
  assert (base_prefix (String a s) = (10, String a s)) as ->.
  { cbn [head_nonzero] in Hhead. apply negb_true_iff in Hhead. unfold base_prefix. destruct s; by rewrite Hhead. }
  rewrite Hv, Hu. cbn [andb].
  rewrite (proj2 (in_range_true _ _ _)); [done|]. unfold min_int. lia.
Qed.
