(* ===== verification/Peer.v ===== *)
(** * Package [internal/discovery]: advertisements and peers

    Models [src/internal/discovery/peer.go]: the TXT record of an
    advertisement, its parser, and the addresses of a peer. *)
From S2P Require Import Prelude GoStrings GoTime GoNet.
Local Open Scope Z_scope.

Definition ServiceType : string := "_lcm._tcp".
Definition Domain : string := "local.".

Definition txtNodeID : string := "node_id".
Definition txtMeshID : string := "mesh_id".
Definition txtGRPCPort : string := "grpc_port".
Definition txtPairPort : string := "pair_port".
Definition txtFingerprint : string := "fingerprint".

Definition ErrMissingNodeID := ErrorsNew "discovery: TXT record missing node_id".
Definition ErrMissingMeshID := ErrorsNew "discovery: TXT record missing mesh_id".
Definition ErrMissingGRPCPort := ErrorsNew "discovery: TXT record missing grpc_port".
Definition ErrBadGRPCPort :=
  ErrorsNew "discovery: TXT record grpc_port is not a valid port".

Record Advertisement := mkAd {
  ad_NodeID : string; ad_MeshID : string;
  ad_GRPCPort : Z; ad_PairPort : Z; ad_Fingerprint : string
}.

Definition TXT (a : Advertisement) : list string :=
  [txtNodeID +:+ "=" +:+ ad_NodeID a;
   txtMeshID +:+ "=" +:+ ad_MeshID a;
   txtGRPCPort +:+ "=" +:+ Itoa (ad_GRPCPort a)]
  ++ (if 0 <? ad_PairPort a then [txtPairPort +:+ "=" +:+ Itoa (ad_PairPort a)] else [])
  ++ (if bool_decide (ad_Fingerprint a = "") then []
      else [txtFingerprint +:+ "=" +:+ ad_Fingerprint a]).

Record Peer := mkPeer {
  p_NodeID : string; p_MeshID : string; p_Fingerprint : string; p_Hostname : string;
  p_Addrs : list IP; p_GRPCPort : Z; p_PairPort : Z; p_LastSeen : Time
}.
#[export] Instance Peer_eq_dec : EqDecision Peer.
Proof. solve_decision. Defined.

Definition IsCoordinator (p : Peer) : bool := 0 <? p_PairPort p.

(** The first IPv4 address, or else the first address. *)
Definition hostPort (addrs : list IP) (port : Z) : string :=
  match List.find (λ ip, bool_decide (is_Some (To4 ip))) addrs with
  | Some ip => JoinHostPort (IP_String ip) (Itoa port)
  | None =>
      match addrs with
      | ip :: _ => JoinHostPort (IP_String ip) (Itoa port)
      | [] => ""
      end
  end.

Definition PairAddr (p : Peer) : string :=
  if p_PairPort p =? 0 then "" else hostPort (p_Addrs p) (p_PairPort p).
Definition GRPCAddr (p : Peer) : string := hostPort (p_Addrs p) (p_GRPCPort p).

(** The loop that fills [kv]. *)
Definition txt_kv (txt : list string) : gmap string string :=
  fold_left (λ kv s,
    match Cut s "=" with
    | None => kv
    | Some (k, v) => match kv !! k with Some _ => kv | None => <[k := v]> kv end
    end) txt ∅.

(** [kv[k]]: the zero value when the key is absent *)
Definition kv_get (kv : gmap string string) (k : string) : string :=
  match kv !! k with Some v => v | None => "" end.

(** A port in decimal, between 1 and 65535. *)
Definition parse_port (s : string) : option Z :=
  match Atoi s with
  | inl port => if (port <? 1) || (65535 <? port) then None else Some port
  | inr _ => None
  end.

(** The zero [time.Time] is the year 1, in the fields that the browser fills in. *)
Definition time_zero : Time := -62135596800 * Second.

Definition ParseTXT (txt : list string) : result Peer :=
  let kv := txt_kv txt in
  let nodeID := kv_get kv txtNodeID in
  let meshID := kv_get kv txtMeshID in
  if bool_decide (nodeID = "") then Err ErrMissingNodeID
  else if bool_decide (meshID = "") then Err ErrMissingMeshID
  else if bool_decide (kv_get kv txtGRPCPort = "") then Err ErrMissingGRPCPort
  else match parse_port (kv_get kv txtGRPCPort) with
  | None => Err (Wrap "%w: %q" ErrBadGRPCPort)
  | Some port =>
      let p := mkPeer nodeID meshID (kv_get kv txtFingerprint) "" [] port 0 time_zero in
      if bool_decide (kv_get kv txtPairPort = "") then Ok p
      else match parse_port (kv_get kv txtPairPort) with
      | None => Err (Wrap "%w: pair_port %q" ErrBadGRPCPort)
      | Some pp => Ok (mkPeer nodeID meshID (kv_get kv txtFingerprint) "" [] port pp time_zero)
      end
  end.

(** ** Lemmas *)

(** The value of the first entry with key [k], as RFC 6763 wants it. *)
Fixpoint first_value (k : string) (txt : list string) : option string :=
  match txt with
  | [] => None
  | s :: txt =>
      match Cut s "=" with
      | Some (k', v) => if decide (k' = k) then Some v else first_value k txt
      | None => first_value k txt
      end
  end.

Lemma txt_kv_first txt k : txt_kv txt !! k = first_value k txt.
Proof.
  unfold txt_kv.
  assert (∀ kv : gmap string string, fold_left (λ kv s,
    match Cut s "=" with
    | None => kv
    | Some (k, v) => match kv !! k with Some _ => kv | None => <[k := v]> kv end
    end) txt kv !! k = match kv !! k with Some v => Some v | None => first_value k txt end) as H.
  { induction txt as [|s txt IH]; intros kv; cbn; [by case_match|].
    rewrite IH. destruct (Cut s "=") as [[k' v]|]; [|done].
    destruct (kv !! k') eqn:Ek'.
    - destruct (kv !! k) eqn:Ek; [done|]. case_decide; [congruence|done].
    - case_decide as Hk; [subst; by rewrite lookup_insert_eq, Ek'|].
      by rewrite lookup_insert_ne by done. }
  by rewrite H, lookup_empty.
Qed.

Lemma kv_get_first txt k : kv_get (txt_kv txt) k = default "" (first_value k txt).
Proof. unfold kv_get. rewrite txt_kv_first. by destruct (first_value k txt). Qed.

Lemma Cut_kv k v : lacks "=" k = true → Cut (k +:+ "=" +:+ v) "=" = Some (k, v).
Proof. apply Cut_app. Qed.

Lemma parse_port_Itoa n : 1 ≤ n ≤ 65535 → parse_port (Itoa n) = Some n.
Proof.
  intros Hn. unfold parse_port. rewrite Atoi_Itoa by (unfold max_int; lia).
  destruct (Z.ltb_spec n 1); [lia|]. by destruct (Z.ltb_spec 65535 n); [lia|].
Qed.

Lemma parse_port_range s n : parse_port s = Some n → 1 ≤ n ≤ 65535.
Proof.
  unfold parse_port. destruct (Atoi s) as [m|]; [|done].
  destruct (Z.ltb_spec m 1); [done|]. destruct (Z.ltb_spec 65535 m); [done|].
  intros [= <-]. lia.
Qed.

(** The text of a port, for [strconv.Atoi]. *)
Definition port_text (s : string) (n : Z) : Prop := Atoi s = inl n ∧ 1 ≤ n ≤ 65535.
Definition bad_port (s : string) : Prop := ∀ n, ¬ port_text s n.

Lemma parse_port_spec s :
  match parse_port s with Some n => port_text s n | None => bad_port s end.
Proof.
  unfold parse_port, bad_port, port_text. destruct (Atoi s) as [m|]; [|naive_solver].
  destruct (Z.ltb_spec m 1); [intros n [[= <-] ?]; lia|].
  destruct (Z.ltb_spec 65535 m); [intros n [[= <-] ?]; lia|]. cbn. split; [done|lia].
Qed.
Lemma port_text_nonempty n : ¬ port_text "" n.
Proof. by intros [? _]. Qed.
Lemma port_text_inj s n n' : port_text s n → port_text s n' → n = n'.
Proof. intros [H _] [H' _]. congruence. Qed.

(** What the parser reads in a rendered advertisement. *)
Lemma first_value_TXT a :
  first_value txtNodeID (TXT a) = Some (ad_NodeID a) ∧
  first_value txtMeshID (TXT a) = Some (ad_MeshID a) ∧
  first_value txtGRPCPort (TXT a) = Some (Itoa (ad_GRPCPort a)) ∧
  default "" (first_value txtPairPort (TXT a)) =
    (if 0 <? ad_PairPort a then Itoa (ad_PairPort a) else "") ∧
  default "" (first_value txtFingerprint (TXT a)) = ad_Fingerprint a.
Proof.
  unfold TXT. cbn [app first_value]. rewrite !Cut_kv by done.
  repeat (rewrite decide_True by done || rewrite decide_False by done).
  split_and!; [done..| |].
  - destruct (0 <? ad_PairPort a); cbn [app first_value]; [by rewrite Cut_kv|].
    case_bool_decide; cbn [first_value]; [done|]. by rewrite Cut_kv.
  - destruct (0 <? ad_PairPort a); cbn [app first_value]; rewrite ?Cut_kv by done;
      rewrite ?decide_False by done; (case_bool_decide as E; [by rewrite E|]);
      cbn [first_value]; by rewrite Cut_kv, decide_True.
Qed.

(** The address that [hostPort] picks does not depend on the port. *)
Lemma hostPort_ip addrs :
  addrs ≠ [] →
  ∃ ip, ip ∈ addrs ∧ (is_Some (To4 ip) ∨ Forall (λ ip, To4 ip = None) addrs) ∧
    ∀ port, hostPort addrs port = JoinHostPort (IP_String ip) (Itoa port).
Proof.
  intros Hne. unfold hostPort.
  destruct (List.find _ addrs) as [ip|] eqn:Ef.
  - apply find_some in Ef as [Hin H4%bool_decide_eq_true]. exists ip.
    split_and!; [by apply list_elem_of_In|by left|done].
  - destruct addrs as [|ip l]; [done|]. exists ip.
    split_and!; [apply elem_of_cons; by left|right|done].
    apply Forall_forall. intros x Hx%list_elem_of_In.
    pose proof (find_none _ _ Ef x Hx) as Hn. apply bool_decide_eq_false in Hn.
    by apply eq_None_not_Some.
Qed.

Lemma ParseTXT_eq txt :
  ParseTXT txt =
    let get k := default "" (first_value k txt) in
    if bool_decide (get txtNodeID = "") then Err ErrMissingNodeID
    else if bool_decide (get txtMeshID = "") then Err ErrMissingMeshID
    else if bool_decide (get txtGRPCPort = "") then Err ErrMissingGRPCPort
    else match parse_port (get txtGRPCPort) with
    | None => Err (Wrap "%w: %q" ErrBadGRPCPort)
    | Some port =>
        if bool_decide (get txtPairPort = "")
        then Ok (mkPeer (get txtNodeID) (get txtMeshID) (get txtFingerprint) "" [] port 0 time_zero)
        else match parse_port (get txtPairPort) with
        | None => Err (Wrap "%w: pair_port %q" ErrBadGRPCPort)
        | Some pp => Ok (mkPeer (get txtNodeID) (get txtMeshID) (get txtFingerprint) "" [] port pp time_zero)
        end
    end.
Proof. unfold ParseTXT. cbv zeta. by rewrite !kv_get_first. Qed.

(** An accepted record. *)
Lemma ParseTXT_fields txt p :
  ParseTXT txt = Ok p →
  first_value txtNodeID txt = Some (p_NodeID p) ∧ p_NodeID p ≠ "" ∧
  first_value txtMeshID txt = Some (p_MeshID p) ∧ p_MeshID p ≠ "" ∧
  p_Fingerprint p = default "" (first_value txtFingerprint txt) ∧
  1 ≤ p_GRPCPort p ≤ 65535 ∧
  (if IsCoordinator p then 1 ≤ p_PairPort p ≤ 65535
   else p_PairPort p = 0 ∧ default "" (first_value txtPairPort txt) = "").
Proof.
  rewrite ParseTXT_eq. cbv beta zeta. intros H.
  assert (∀ o : option string, default "" o ≠ "" → o = Some (default "" o)) as Hd
    by (intros [s|] H'; [done|by destruct H']).
  guard_false H Hn. guard_false H Hm. guard_false H Hg.
  destruct (parse_port (default "" (first_value txtGRPCPort txt))) as [port|] eqn:Ep; [|done].
  apply parse_port_range in Ep.
  destruct (bool_decide_reflect (default "" (first_value txtPairPort txt) = "")) as [Hpp|Hpp].
  - apply Ok_inj in H as <-. unfold IsCoordinator. cbn. split_and!; auto; lia.
  - destruct (parse_port (default "" (first_value txtPairPort txt))) as [pp|] eqn:Epp; [|done].
    apply parse_port_range in Epp. apply Ok_inj in H as <-. unfold IsCoordinator. cbn.
    destruct (Z.ltb_spec 0 pp); [|lia]. split_and!; auto; lia.
Qed.

Lemma ParseTXT_Ok txt p :
  ParseTXT txt = Ok p →
  p_NodeID p ≠ "" ∧ p_MeshID p ≠ "" ∧ 1 ≤ p_GRPCPort p ≤ 65535 ∧ 0 ≤ p_PairPort p ≤ 65535.
Proof.
  intros H. apply ParseTXT_fields in H as (_ & ? & _ & ? & _ & ? & Hp).
  destruct (IsCoordinator p); split_and!; done || lia.
Qed.

(** The record of an advertisement, parsed. *)
Lemma TXT_parses a :
  ad_NodeID a ≠ "" → ad_MeshID a ≠ "" → 1 ≤ ad_GRPCPort a ≤ 65535 → ad_PairPort a ≤ 65535 →
  ParseTXT (TXT a) =
    Ok (mkPeer (ad_NodeID a) (ad_MeshID a) (ad_Fingerprint a) "" []
          (ad_GRPCPort a) (Z.max 0 (ad_PairPort a)) time_zero).
Proof.
  intros Hn Hm Hg Hp. rewrite ParseTXT_eq. cbv zeta.
  destruct (first_value_TXT a) as (-> & -> & -> & -> & ->). cbn [from_option id].
  rewrite !bool_decide_false by (done || apply Itoa_nonempty; unfold max_int; lia).
  rewrite parse_port_Itoa by done. destruct (Z.ltb_spec 0 (ad_PairPort a)).
  - rewrite bool_decide_false by (apply Itoa_nonempty; unfold max_int; lia).
    rewrite parse_port_Itoa by lia. by rewrite Z.max_r by lia.
  - rewrite bool_decide_true by done. by rewrite Z.max_l by lia.
Qed.

(** ** Properties *)

Definition known_keys : list string :=
  [txtNodeID; txtMeshID; txtGRPCPort; txtPairPort; txtFingerprint].

(** C31: what a node advertises is what its peers read back: identity, mesh,
    ports and fingerprint survive the TXT record, whatever bytes they hold. *)
Theorem TXT_roundtrip a :
  ad_NodeID a ≠ "" → ad_MeshID a ≠ "" → 1 ≤ ad_GRPCPort a ≤ 65535 → ad_PairPort a ≤ 65535 →
  ParseTXT (TXT a) =
    Ok (mkPeer (ad_NodeID a) (ad_MeshID a) (ad_Fingerprint a) "" []
          (ad_GRPCPort a) (Z.max 0 (ad_PairPort a)) time_zero).
Proof. apply TXT_parses. Qed.

Lemma TXT_roundtrip_witness :
  ParseTXT (TXT (mkAd "box" "home" 7443 7444 "ab=cd")) =
    Ok (mkPeer "box" "home" "ab=cd" "" [] 7443 7444 time_zero).
Proof. apply (TXT_roundtrip (mkAd "box" "home" 7443 7444 "ab=cd")); cbn; done || lia. Defined.

(** Only the first occurrence of the five known keys counts; other keys,
    later duplicates and entries without a value change nothing, not even the
    error. *)
Theorem ParseTXT_first_wins txt txt' :
  Forall (λ k, default "" (first_value k txt) = default "" (first_value k txt')) known_keys →
  ParseTXT txt = ParseTXT txt'.
Proof.
  unfold known_keys. rewrite !Forall_cons, !ParseTXT_eq. cbv zeta.
  by intros (-> & -> & -> & -> & -> & _).
Qed.

Lemma ParseTXT_first_wins_witness :
  ParseTXT (TXT (mkAd "box" "home" 7443 0 "")) =
  ParseTXT (TXT (mkAd "box" "home" 7443 0 "") ++ ["node_id=evil"; "new_key=1"; "flag"]).
Proof. apply ParseTXT_first_wins. vm_compute. repeat constructor. Defined.

(** C32: what [ParseTXT] accepts, and what it makes of it.  It returns a peer exactly
    when the first values of the keys [node_id] and [mesh_id] are there and not
    empty, that of [grpc_port] is a decimal number from 1 to 65535, and that of
    [pair_port] is missing, empty, or such a number; the peer has those very
    values, the fingerprint if there is one, and pairing port 0 when the record has
    none.  Any other record gets the error of the first of these tests, in this
    order, that fails. *)
Theorem ParseTXT_exact txt :
  let get k := default "" (first_value k txt) in
  (∀ p, ParseTXT txt = Ok p ↔
     get txtNodeID ≠ "" ∧ get txtMeshID ≠ "" ∧
     ∃ port pair, port_text (get txtGRPCPort) port ∧
       (get txtPairPort = "" ∧ pair = 0 ∨ port_text (get txtPairPort) pair) ∧
       p = mkPeer (get txtNodeID) (get txtMeshID) (get txtFingerprint) "" [] port pair time_zero) ∧
  (∀ e, ParseTXT txt = Err e ↔
     get txtNodeID = "" ∧ e = ErrMissingNodeID ∨
     get txtNodeID ≠ "" ∧
       (get txtMeshID = "" ∧ e = ErrMissingMeshID ∨
        get txtMeshID ≠ "" ∧
          (get txtGRPCPort = "" ∧ e = ErrMissingGRPCPort ∨
           get txtGRPCPort ≠ "" ∧
             (bad_port (get txtGRPCPort) ∧ e = Wrap "%w: %q" ErrBadGRPCPort ∨
              ¬ bad_port (get txtGRPCPort) ∧ get txtPairPort ≠ "" ∧ bad_port (get txtPairPort) ∧
              e = Wrap "%w: pair_port %q" ErrBadGRPCPort)))).
Proof.
  intros get. rewrite ParseTXT_eq. fold get. cbv zeta.
  generalize (get txtNodeID) (get txtMeshID) (get txtGRPCPort) (get txtPairPort) (get txtFingerprint).
  intros n m g q f. pose proof (parse_port_spec g) as Hg. pose proof (parse_port_spec q) as Hq.
  pose proof port_text_nonempty as Hne. pose proof port_text_inj as Hi. unfold bad_port in *.
  case_bool_decide; [split; naive_solver|]. case_bool_decide; [split; naive_solver|].
  case_bool_decide; [split; naive_solver|].
  destruct (parse_port g) as [port|].
  2:{ split; [intros p; split; [done|by intros (_ & _ & n' & _ & Hn' & _); destruct (Hg n')]|].
      intros e. split; [intros [= <-]; auto 10|]. intros [[]|[_ [[]|[_ [[]|[_ [[_ ->]|[[] _]]]]]]]]; done. }
  assert (Hbg : ¬ ∀ n, ¬ port_text g n) by naive_solver.
  assert (Hport : ∀ port', port_text g port' → port' = port) by eauto.
  case_bool_decide as Eq; [|destruct (parse_port q) as [pair|]]; (split; [intros p|intros e]); split.
  - intros [= <-]. eauto 10.
  - intros (_ & _ & port' & pair & ->%Hport & [[_ ->]|Hp] & ->); [done|]. subst q. by apply Hne in Hp.
  - done.
  - intros [[]|[_ [[]|[_ [[]|[_ [[]|(_ & [] & _)]]]]]]]; done.
  - intros [= <-]. eauto 10.
  - intros (_ & _ & port' & pair' & ->%Hport & [[? _]|Hp] & ->); [done|]. by rewrite (Hi _ _ _ Hp Hq).
  - done.
  - intros [[]|[_ [[]|[_ [[]|[_ [[]|(_ & _ & Hb & _)]]]]]]]; try done. by destruct (Hb pair).
  - done.
  - intros (_ & _ & _ & pair & _ & [[? _]|Hp] & _); [done|]. by destruct (Hq pair).
  - intros [= <-]. auto 12.
  - intros [[]|[_ [[]|[_ [[]|[_ [[]|(_ & _ & _ & ->)]]]]]]]; done.
Qed.

(** The two ends of the range, and the record of a node that is no coordinator. *)
Example ParseTXT_ports :
  ParseTXT ["node_id=n"; "mesh_id=m"; "grpc_port=65535"; "pair_port="] =
    Ok (mkPeer "n" "m" "" "" [] 65535 0 time_zero) ∧
  ParseTXT ["node_id=n"; "mesh_id=m"; "grpc_port=65536"] = Err (Wrap "%w: %q" ErrBadGRPCPort) ∧
  ParseTXT ["node_id=n"; "mesh_id=m"; "grpc_port=1"; "pair_port=0"] =
    Err (Wrap "%w: pair_port %q" ErrBadGRPCPort).
Proof. vm_compute. done. Qed.

(** The addresses a dialer uses split back into the text of one of the
    peer's addresses, an IPv4 one when it has any, and the port.  A peer
    without addresses has no address to dial, coordinator or not. *)
Theorem peer_addresses p :
  0 ≤ p_GRPCPort p → 0 < p_PairPort p →
  (p_Addrs p = [] → GRPCAddr p = "" ∧ PairAddr p = "") ∧
  (p_Addrs p ≠ [] →
   ∃ ip, ip ∈ p_Addrs p ∧ (is_Some (To4 ip) ∨ Forall (λ ip, To4 ip = None) (p_Addrs p)) ∧
     SplitHostPort (GRPCAddr p) = Ok (IP_String ip, Itoa (p_GRPCPort p)) ∧
     SplitHostPort (PairAddr p) = Ok (IP_String ip, Itoa (p_PairPort p))).
Proof.
  intros Hg Hp. unfold GRPCAddr, PairAddr.
  rewrite (proj2 (Z.eqb_neq (p_PairPort p) 0)) by lia. split; [by intros ->|].
  intros Hne. destruct (hostPort_ip _ Hne) as (ip & Hin & H4 & E). exists ip. rewrite !E.
  split_and!; [done..| |]; (apply Split_Join; [apply IP_String_plain|apply Itoa_plain_port; lia]).
Qed.

Lemma peer_addresses_witness :
  ∃ ip, SplitHostPort (PairAddr (mkPeer "n" "m" "" "" [srepeat "009" 4] 7443 7444 0)) =
          Ok (IP_String ip, Itoa 7444).
Proof.
  destruct (proj2 (peer_addresses (mkPeer "n" "m" "" "" [srepeat "009" 4] 7443 7444 0)
    ltac:(cbn; lia) ltac:(cbn; lia)) ltac:(discriminate)) as (ip & _ & _ & _ & H).
  exists ip. exact H.
Defined.
