(* ===== verification/Ifaces.v ===== *)
(** * Package [internal/discovery]: network interfaces

    Models [src/internal/discovery/ifaces.go]: which interfaces mDNS runs on.
    What the operating system answers to [net.Interfaces] and [Interface.Addrs]
    is an argument. *)
From S2P Require Import Prelude GoStrings GoNet.
Local Open Scope Z_scope.

(** [net.Flags] *)
Definition FlagUp : Z := Z.shiftl 1 0.
Definition FlagBroadcast : Z := Z.shiftl 1 1.
Definition FlagLoopback : Z := Z.shiftl 1 2.
Definition FlagPointToPoint : Z := Z.shiftl 1 3.
Definition FlagMulticast : Z := Z.shiftl 1 4.
Definition FlagRunning : Z := Z.shiftl 1 5.

(** [net.Interface] *)
Record Interface := mkInterface { if_Index : Z; if_Name : string; if_Flags : Z }.
#[export] Instance Interface_eq_dec : EqDecision Interface.
Proof. solve_decision. Defined.

(** [net.Addr]: an [*net.IPNet], by its address, or something else. *)
Inductive Addr := IPNet (ip : IP) | OtherAddr (s : string).

Definition usable (ifi : Interface) : bool :=
  let want := Z.lor FlagUp FlagMulticast in
  let reject := Z.lor FlagLoopback FlagPointToPoint in
  (Z.land (if_Flags ifi) want =? want) && (Z.land (if_Flags ifi) reject =? 0).

Section Ifaces.
Context (Interfaces : result (list Interface)) (Addrs : Interface → result (list Addr)).

Fixpoint pick_interfaces (all : list Interface) : list Interface :=
  match all with
  | [] => []
  | ifi :: all =>
      if negb (usable ifi) then pick_interfaces all
      else match Addrs ifi with
      | Ok (_ :: _) => ifi :: pick_interfaces all
      | _ => pick_interfaces all
      end
  end.

Definition DefaultInterfaces : result (list Interface) :=
  let? all := Interfaces in Ok (pick_interfaces all).

(** [None] is the nil pointer. *)
Definition LoopbackInterface : option Interface :=
  match Interfaces with
  | Err _ => None
  | Ok all =>
      List.find (λ ifi,
        negb (Z.land (if_Flags ifi) FlagLoopback =? 0) &&
        negb (Z.land (if_Flags ifi) FlagMulticast =? 0) &&
        negb (Z.land (if_Flags ifi) FlagUp =? 0)) all
  end.
End Ifaces.

(** ** Lemmas *)

Lemma land_pow2 f k : 0 ≤ k → Z.land f (2 ^ k) = if Z.testbit f k then 2 ^ k else 0.
Proof.
  intros Hk. apply Z.bits_inj'. intros n Hn. rewrite Z.land_spec, Z.pow2_bits_eqb by done.
  destruct (Z.eqb_spec k n) as [->|Hne].
  - destruct (Z.testbit f n); [by rewrite Z.pow2_bits_true|by rewrite Z.bits_0].
  - rewrite andb_false_r. destruct (Z.testbit f k); [|by rewrite Z.bits_0].
    by rewrite Z.pow2_bits_false.
Qed.

Lemma usable_bits ifi :
  usable ifi = Z.testbit (if_Flags ifi) 0 && Z.testbit (if_Flags ifi) 4 &&
               negb (Z.testbit (if_Flags ifi) 2) && negb (Z.testbit (if_Flags ifi) 3).
Proof.
  unfold usable. generalize (if_Flags ifi). intros f.
  rewrite !Z.land_lor_distr_r.
  change FlagUp with (2 ^ 0). change FlagMulticast with (2 ^ 4).
  change FlagLoopback with (2 ^ 2). change FlagPointToPoint with (2 ^ 3).
  rewrite !land_pow2 by done.
  by destruct (Z.testbit f 0), (Z.testbit f 4), (Z.testbit f 2), (Z.testbit f 3).
Qed.

(** ** Properties *)

(** MDNS runs on exactly the interfaces that are up and multicast, neither
    loopback nor point-to-point (the VPN tunnels), and have an address that can
    be read, in the system's order. *)
Theorem DefaultInterfaces_spec Interfaces Addrs all :
  Interfaces = Ok all →
  DefaultInterfaces Interfaces Addrs =
    Ok (List.filter (λ ifi,
          Z.testbit (if_Flags ifi) 0 && Z.testbit (if_Flags ifi) 4 &&
          negb (Z.testbit (if_Flags ifi) 2) && negb (Z.testbit (if_Flags ifi) 3) &&
          match Addrs ifi with Ok (_ :: _) => true | _ => false end) all).
Proof.
  intros ->. unfold DefaultInterfaces. cbn [rbind]. f_equal.
  induction all as [|ifi all IH]; [done|]. cbn [pick_interfaces List.filter].
  rewrite <-usable_bits, IH. destruct (usable ifi); [|done]. cbn [negb andb].
  by destruct (Addrs ifi) as [[|a l]|].
Qed.

Lemma DefaultInterfaces_spec_witness :
  DefaultInterfaces (Ok [mkInterface 1 "lo" 21; mkInterface 2 "en0" 19; mkInterface 3 "utun0" 25])
    (λ _, Ok [OtherAddr "x"]) = Ok [mkInterface 2 "en0" 19].
Proof.
  rewrite (DefaultInterfaces_spec _ _ [mkInterface 1 "lo" 21; mkInterface 2 "en0" 19;
    mkInterface 3 "utun0" 25] eq_refl). reflexivity.
Defined.
