(* ===== verification/Mdns.v ===== *)
(** * Package [internal/discovery]: the mDNS browser

    Models [src/internal/discovery/mdns.go].  The goroutine of [loop] is the
    only writer of the peers and of the events, one item of its [select] after
    the other, so an [MDNS] is a value that [handleEntry] and [expire] map to
    the next one; a consumer that reads the channel between two items is
    [recv], and [received] is all that it has read.  The zeroconf library only answers to [Start] with success or an
    error; what it sends is the list of items. *)
From S2P Require Import Prelude GoStrings GoTime GoNet Peer Ifaces.
Local Open Scope Z_scope.

(** ** Data *)

(** The type is an [int]: [OtherKind] is any value that has no name. *)
Inductive EventKind := PeerAdded | PeerUpdated | PeerExpired | OtherKind (n : Z).
#[export] Instance EventKind_eq_dec : EqDecision EventKind.
Proof. solve_decision. Defined.

Definition EventKind_String (k : EventKind) : string :=
  match k with
  | PeerAdded => "added"
  | PeerUpdated => "updated"
  | PeerExpired => "expired"
  | OtherKind n => "EventKind(" +:+ Itoa n +:+ ")"
  end.

Record PeerEvent := mkEvent { Kind : EventKind; ev_Peer : Peer }.
#[export] Instance PeerEvent_eq_dec : EqDecision PeerEvent.
Proof. solve_decision. Defined.

Record MDNSConfig := mkMDNSConfig {
  cfg_Ad : Advertisement;
  cfg_Interfaces : option (list Interface);
  ExpireAfter : Duration;
  EventBuffer : Z;
  BrowseOnly : bool
}.

Definition AnyMesh : string := "*".

(** [zeroconf.Server]: the instance name, the port and the TXT record it answers
    with. *)
Record ZServer := mkZServer { zs_instance : string; zs_port : Z; zs_text : list string }.

(** [cancel] is set from a successful [Start] to [Stop]; [done] says that the
    channel of this name is closed. *)
Record MDNS := mkMDNS {
  cfg : MDNSConfig;
  events : list PeerEvent;
  peers : gmap string Peer;
  server : option ZServer;
  cancel : bool;
  done_ : bool
}.

Definition NewMDNS (c : MDNSConfig) : result MDNS :=
  let ad := cfg_Ad c in
  if bool_decide (ad_NodeID ad = "") then Err (ErrorsNew "discovery: NodeID is required")
  else if bool_decide (ad_MeshID ad = "") then Err (ErrorsNew "discovery: MeshID is required")
  else if bool_decide (ad_MeshID ad = AnyMesh) && negb (BrowseOnly c)
  then Err (ErrorsNew "discovery: wildcard mesh is only allowed with BrowseOnly")
  else if (ad_GRPCPort ad <? 1) || (65535 <? ad_GRPCPort ad)
  then Err (Errorf "discovery: GRPCPort %d out of range")
  else
    let ea := if ExpireAfter c <=? 0 then 90 * Second else ExpireAfter c in
    let eb := if EventBuffer c <=? 0 then 64 else EventBuffer c in
    Ok (mkMDNS (mkMDNSConfig ad (cfg_Interfaces c) ea eb (BrowseOnly c)) [] ∅ None false false).

Definition set_server (s : option ZServer) (m : MDNS) : MDNS :=
  mkMDNS (cfg m) (events m) (peers m) s (cancel m) (done_ m).
Definition set_cancel (b : bool) (m : MDNS) : MDNS :=
  mkMDNS (cfg m) (events m) (peers m) (server m) b (done_ m).
Definition set_peers (ps : gmap string Peer) (m : MDNS) : MDNS :=
  mkMDNS (cfg m) (events m) ps (server m) (cancel m) (done_ m).
Definition set_events (es : list PeerEvent) (m : MDNS) : MDNS :=
  mkMDNS (cfg m) es (peers m) (server m) (cancel m) (done_ m).

(** [Stop] cancels the loop and waits until it has closed [done]. *)
Definition Stop (m : MDNS) : MDNS :=
  let m := if cancel m
           then mkMDNS (cfg m) (events m) (peers m) (server m) false true else m in
  match server m with Some _ => set_server None m | None => m end.

(** [Start]; the answers of [DefaultInterfaces], [zeroconf.Register],
    [NewResolver] and [Browse] are arguments. *)
Definition Start (default_ifs : result (list Interface)) (reg res browse : result unit)
    (m : MDNS) : MDNS * result unit :=
  let ad := cfg_Ad (cfg m) in
  match (match cfg_Interfaces (cfg m) with
         | Some l => Ok l
         | None => wrap_err "discovery: enumerate interfaces: %w" default_ifs
         end) with
  | Err e => (m, Err e)
  | Ok [] => (m, Err (ErrorsNew "discovery: no usable multicast interface"))
  | Ok (_ :: _) =>
      let registered :=
        if BrowseOnly (cfg m) then Ok m
        else match reg with
        | Err e => Err (Wrap "discovery: register mDNS service: %w" e)
        | Ok _ => Ok (set_server (Some (mkZServer (ad_NodeID ad) (ad_GRPCPort ad) (TXT ad))) m)
        end in
      match registered with
      | Err e => (m, Err e)
      | Ok m =>
          match res with
          | Err e => (Stop m, Err (Wrap "discovery: create mDNS resolver: %w" e))
          | Ok _ =>
              match browse with
              | Err e => (Stop m, Err (Wrap "discovery: browse: %w" e))
              | Ok _ => (set_cancel true m, Ok tt)
              end
          end
      end
  end.

(** [Peers]: a snapshot sorted by node_id; [order] is the iteration order. *)
Definition by_NodeID (p q : Peer) : Prop := String.le (p_NodeID p) (p_NodeID q).
#[export] Instance by_NodeID_dec p q : Decision (by_NodeID p q).
Proof. unfold by_NodeID. apply _. Defined.
Definition Peers (order : list Peer → list Peer) (m : MDNS) : list Peer :=
  merge_sort by_NodeID (order (map_to_list (peers m)).*2).

Definition SetFingerprint (fp : string) (m : MDNS) : MDNS :=
  let ad := cfg_Ad (cfg m) in
  let ad := mkAd (ad_NodeID ad) (ad_MeshID ad) (ad_GRPCPort ad) (ad_PairPort ad) fp in
  let c := mkMDNSConfig ad (cfg_Interfaces (cfg m)) (ExpireAfter (cfg m))
             (EventBuffer (cfg m)) (BrowseOnly (cfg m)) in
  mkMDNS c (events m) (peers m)
    (match server m with
     | Some s => Some (mkZServer (zs_instance s) (zs_port s) (TXT ad))
     | None => None
     end) (cancel m) (done_ m).

(** ** Handling one entry *)

(** [zeroconf.ServiceEntry] *)
Record ServiceEntry := mkEntry {
  e_Instance : string; e_HostName : string; e_Port : Z; e_Text : list string;
  e_AddrIPv4 : list IP; e_AddrIPv6 : list IP
}.

Definition peerChanged (a b : Peer) : bool :=
  if negb (p_GRPCPort a =? p_GRPCPort b) || negb (p_PairPort a =? p_PairPort b) ||
     negb (bool_decide (p_Fingerprint a = p_Fingerprint b)) ||
     negb (bool_decide (p_Hostname a = p_Hostname b))
  then true
  else if negb (length (p_Addrs a) =? length (p_Addrs b))%nat then true
  else
    let seen : gset string := list_to_set (map IP_String (p_Addrs a)) in
    existsb (λ ip, negb (bool_decide (IP_String ip ∈ seen))) (p_Addrs b).

Definition short (fp : string) : string := if (12 <? slen fp)%nat then stake 12 fp else fp.

(** The loop of [normalizeHost]; each round removes six bytes. *)
Fixpoint strip_local (fuel : nat) (h : string) : string :=
  match fuel with
  | O => h
  | S f => if HasSuffix h ".local.local" then strip_local f (TrimSuffix h ".local") else h
  end.
Definition normalizeHost (h : string) : string :=
  let h := TrimSuffix h "." in strip_local (slen h) h.

(** A full channel drops the event. *)
Definition emit (ev : PeerEvent) (m : MDNS) : MDNS :=
  if Z.of_nat (length (events m)) <? EventBuffer (cfg m)
  then set_events (events m ++ [ev]) m else m.

(** The peer that an entry describes, if it is one of ours. *)
Definition entry_peer (ad : Advertisement) (e : ServiceEntry) (now : Time) : option Peer :=
  match ParseTXT (e_Text e) with
  | Err _ => None
  | Ok p =>
      if bool_decide (p_NodeID p = ad_NodeID ad) then None
      else if negb (bool_decide (ad_MeshID ad = AnyMesh)) &&
              negb (bool_decide (p_MeshID p = ad_MeshID ad)) then None
      else
        Some (mkPeer (p_NodeID p) (p_MeshID p) (p_Fingerprint p) (normalizeHost (e_HostName e))
                (e_AddrIPv4 e ++ e_AddrIPv6 e)
                (if 0 <? e_Port e then e_Port e else p_GRPCPort p) (p_PairPort p) now)
  end.

Definition handleEntry (e : ServiceEntry) (now : Time) (m : MDNS) : MDNS :=
  match entry_peer (cfg_Ad (cfg m)) e now with
  | None => m
  | Some p =>
      let prev := peers m !! p_NodeID p in
      let m := set_peers (<[p_NodeID p := p]> (peers m)) m in
      match prev with
      | None => emit (mkEvent PeerAdded p) m
      | Some q => if peerChanged q p then emit (mkEvent PeerUpdated p) m else m
      end
  end.

(** [order] is the iteration order of the map. *)
Definition expire (order : list Peer → list Peer) (now : Time) (m : MDNS) : MDNS :=
  let silent p := ExpireAfter (cfg m) <? time_Sub now (p_LastSeen p) in
  let expired := order (List.filter silent (map_to_list (peers m)).*2) in
  let m := set_peers (filter (λ kv, silent kv.2 = false) (peers m)) m in
  fold_left (λ m p, emit (mkEvent PeerExpired p) m) expired m.

(** ** The loop *)

(** What the [select] of the loop may receive, and a read of the channel of
    events by its consumer. *)
Inductive item :=
  | CtxDone
  | Entry (e : ServiceEntry) (now : Time)
  | EntriesClosed
  | Sweep (now : Time) (order : list Peer → list Peer)
  | Recv.

Definition recv (m : MDNS) : MDNS := set_events (tail (events m)) m.

Inductive outcome := Running (m : MDNS) | Returned (m : MDNS) | Panicked.

(** [defer close(m.done)]: closing a closed channel panics. *)
Definition close_done (m : MDNS) : outcome :=
  if done_ m then Panicked
  else Returned (mkMDNS (cfg m) (events m) (peers m) (server m) (cancel m) true).

Fixpoint loop_go (l : list item) (m : MDNS) : outcome :=
  match l with
  | [] => Running m
  | CtxDone :: _ | EntriesClosed :: _ => close_done m
  | Entry e now :: l => loop_go l (handleEntry e now m)
  | Sweep now order :: l => loop_go l (expire order now m)
  | Recv :: l => loop_go l (recv m)
  end.

(** What the consumer of [Events] has read in a run, in order: a read takes the
    oldest event of the channel, and waits while there is none. *)
Fixpoint received (l : list item) (m : MDNS) : list PeerEvent :=
  match l with
  | [] | CtxDone :: _ | EntriesClosed :: _ => []
  | Entry e now :: l => received l (handleEntry e now m)
  | Sweep now order :: l => received l (expire order now m)
  | Recv :: l => take 1 (events m) ++ received l (recv m)
  end.

(** [time.NewTicker] panics when its period is not positive. *)
Definition loop (l : list item) (m : MDNS) : outcome :=
  if Z.quot (ExpireAfter (cfg m)) 3 <=? 0 then Panicked else loop_go l m.

(** ** Lemmas *)

Lemma peerChanged_false a b :
  peerChanged a b = false ↔
  (p_GRPCPort a = p_GRPCPort b ∧ p_PairPort a = p_PairPort b ∧
   p_Fingerprint a = p_Fingerprint b ∧ p_Hostname a = p_Hostname b) ∧
  length (p_Addrs a) = length (p_Addrs b) ∧
  (∀ s, s ∈ map IP_String (p_Addrs b) → s ∈ map IP_String (p_Addrs a)).
Proof.
  unfold peerChanged.
  assert (existsb (λ ip, negb (bool_decide (IP_String ip ∈
            (list_to_set (map IP_String (p_Addrs a)) : gset string)))) (p_Addrs b) = false ↔
          (∀ s, s ∈ map IP_String (p_Addrs b) → s ∈ map IP_String (p_Addrs a))) as He.
  { rewrite <-not_true_iff_false, existsb_exists. split.
    - intros Hn s (ip & -> & Hin)%list_elem_of_fmap.
      destruct (decide (IP_String ip ∈ map IP_String (p_Addrs a))) as [?|Hs]; [done|].
      destruct Hn. exists ip. split; [by apply list_elem_of_In|].
      apply negb_true_iff, bool_decide_eq_false. by rewrite elem_of_list_to_set.
    - intros Hs (ip & Hin & Hb%negb_true_iff%bool_decide_eq_false). destruct Hb.
      rewrite elem_of_list_to_set. apply Hs, list_elem_of_fmap. exists ip.
      split; [done|by apply list_elem_of_In]. }
  destruct (Z.eqb_spec (p_GRPCPort a) (p_GRPCPort b)); [|by split; [|tauto]].
  destruct (Z.eqb_spec (p_PairPort a) (p_PairPort b)); [|by split; [|tauto]].
  case_bool_decide; [|by split; [|tauto]]. case_bool_decide; [|by split; [|tauto]].
  cbn [negb orb]. destruct (Nat.eqb_spec (length (p_Addrs a)) (length (p_Addrs b)));
    [|by split; [|tauto]]. cbn [negb]. rewrite He. tauto.
Qed.

Lemma peerChanged_refl p : peerChanged p p = false.
Proof. by apply peerChanged_false. Qed.

Lemma peerChanged_trans a b c :
  peerChanged a b = false → peerChanged b c = false → peerChanged a c = false.
Proof.
  rewrite !peerChanged_false.
  intros ((?&?&?&?) & ? & ?) ((?&?&?&?) & ? & ?). split_and!; try congruence. auto.
Qed.

(** *** The channel of events *)

Lemma take_app_take {A} n (l k j : list A) : take n (take n (l ++ k) ++ j) = take n (l ++ k ++ j).
Proof.
  rewrite app_assoc. set (x := l ++ k). rewrite !take_app, take_take, Nat.min_id. f_equal.
  rewrite length_take. destruct (decide (n ≤ length x)%nat).
  - rewrite !(proj2 (Nat.sub_0_le _ _)) by lia. done.
  - by rewrite Nat.min_r by lia.
Qed.

Definition cap (m : MDNS) : nat := Z.to_nat (EventBuffer (cfg m)).

Lemma emit_take ev m :
  (length (events m) ≤ cap m)%nat → emit ev m = set_events (take (cap m) (events m ++ [ev])) m.
Proof.
  unfold cap, emit. intros Hl. destruct (Z.ltb_spec (Z.of_nat (length (events m))) (EventBuffer (cfg m))).
  - rewrite take_ge; [done|]. rewrite length_app. cbn. lia.
  - rewrite take_app_le by lia. rewrite take_ge by lia. by destruct m.
Qed.

Lemma emit_all_take evs m :
  (length (events m) ≤ cap m)%nat →
  fold_left (λ m ev, emit ev m) evs m = set_events (take (cap m) (events m ++ evs)) m.
Proof.
  revert m. induction evs as [|ev evs IH]; intros m Hl; cbn [fold_left].
  - rewrite app_nil_r, take_ge by done. by destruct m.
  - rewrite emit_take by done. rewrite IH.
    + unfold set_events, cap. cbn. f_equal.
      by rewrite take_app_take.
    + unfold cap. cbn. rewrite length_take. lia.
Qed.

(** *** What the items of the loop try to send *)

Definition entry_events (e : ServiceEntry) (now : Time) (m : MDNS) : list PeerEvent :=
  match entry_peer (cfg_Ad (cfg m)) e now with
  | None => []
  | Some p =>
      match peers m !! p_NodeID p with
      | None => [mkEvent PeerAdded p]
      | Some q => if peerChanged q p then [mkEvent PeerUpdated p] else []
      end
  end.

Definition silent (m : MDNS) (now : Time) (p : Peer) : bool :=
  ExpireAfter (cfg m) <? time_Sub now (p_LastSeen p).
Definition expired_events (order : list Peer → list Peer) (now : Time) (m : MDNS) : list PeerEvent :=
  map (mkEvent PeerExpired) (order (List.filter (silent m now) (map_to_list (peers m)).*2)).

Definition entry_peers (e : ServiceEntry) (now : Time) (m : MDNS) : gmap string Peer :=
  match entry_peer (cfg_Ad (cfg m)) e now with
  | None => peers m
  | Some p => <[p_NodeID p := p]> (peers m)
  end.
Definition expire_peers (now : Time) (m : MDNS) : gmap string Peer :=
  filter (λ kv, silent m now kv.2 = false) (peers m).

Lemma handleEntry_eq e now m :
  (length (events m) ≤ cap m)%nat →
  handleEntry e now m =
    set_events (take (cap m) (events m ++ entry_events e now m)) (set_peers (entry_peers e now m) m).
Proof.
  intros Hl. unfold handleEntry, entry_events, entry_peers.
  assert (∀ ps ev, emit ev (set_peers ps m) =
            set_events (take (cap m) (events m ++ [ev])) (set_peers ps m)) as He.
  { intros ps ev. by rewrite emit_take. }
  assert (∀ ps, set_peers ps m = set_events (take (cap m) (events m ++ [])) (set_peers ps m)) as Hn.
  { intros ps. rewrite app_nil_r, take_ge by done. by destruct m. }
  destruct (entry_peer _ e now) as [p|]; [|by rewrite <-Hn; destruct m].
  destruct (peers m !! p_NodeID p) as [q|]; [|apply He].
  destruct (peerChanged q p); [apply He|apply Hn].
Qed.

Lemma expire_eq order now m :
  (length (events m) ≤ cap m)%nat →
  expire order now m =
    set_events (take (cap m) (events m ++ expired_events order now m))
      (set_peers (expire_peers now m) m).
Proof.
  intros Hl. unfold expire, expired_events.
  set (l := order _). change (filter _ (peers m)) with (expire_peers now m).
  assert (∀ l m, fold_left (λ m p, emit (mkEvent PeerExpired p) m) l m =
                 fold_left (λ m ev, emit ev m) (map (mkEvent PeerExpired) l) m) as Hm.
  { clear. intros l. induction l as [|p l IH]; intros m; [done|]. apply IH. }
  rewrite Hm. exact (emit_all_take _ (set_peers (expire_peers now m) m) Hl).
Qed.

(** *** Runs of the loop *)

Definition good_item (it : item) : Prop :=
  match it with Sweep _ order => ∀ l, order l ≡ₚ l | _ => True end.

(** The events that a run tries to send, in order. *)
Fixpoint run_events (l : list item) (m : MDNS) : list PeerEvent :=
  match l with
  | [] | CtxDone :: _ | EntriesClosed :: _ => []
  | Entry e now :: l => entry_events e now m ++ run_events l (handleEntry e now m)
  | Sweep now order :: l => expired_events order now m ++ run_events l (expire order now m)
  | Recv :: l => run_events l (recv m)
  end.

(** What a consumer that follows the events knows.  An event that does not fit
    what it knows (a new peer that it has, a change or the end of one that it has
    not) leaves it lost. *)
Definition follow_event (ev : PeerEvent) (v : gmap string Peer) : option (gmap string Peer) :=
  let p := ev_Peer ev in
  match Kind ev, v !! p_NodeID p with
  | PeerAdded, None | PeerUpdated, Some _ => Some (<[p_NodeID p := p]> v)
  | PeerExpired, Some _ => Some (delete (p_NodeID p) v)
  | _, _ => None
  end.
Fixpoint follow (evs : list PeerEvent) (v : gmap string Peer) : option (gmap string Peer) :=
  match evs with
  | [] => Some v
  | ev :: evs => match follow_event ev v with Some v => follow evs v | None => None end
  end.

(** What a dialer cares about is known: the same node_ids, nothing changed. *)
Definition tracks (v ps : gmap string Peer) : Prop :=
  ∀ id, match v !! id, ps !! id with
        | None, None => True
        | Some q, Some p => peerChanged q p = false
        | _, _ => False
        end.

(** A peer that this node may know. *)
Definition wf_peer (ad : Advertisement) (k : string) (p : Peer) : Prop :=
  p_NodeID p = k ∧ p_NodeID p ≠ "" ∧ p_NodeID p ≠ ad_NodeID ad ∧
  p_MeshID p ≠ "" ∧ (ad_MeshID ad = AnyMesh ∨ p_MeshID p = ad_MeshID ad) ∧
  1 ≤ p_GRPCPort p ∧ 0 ≤ p_PairPort p ≤ 65535.
Definition wf_mdns (m : MDNS) : Prop :=
  map_Forall (wf_peer (cfg_Ad (cfg m))) (peers m) ∧ (length (events m) ≤ cap m)%nat.

Lemma entry_peer_wf ad e now p :
  entry_peer ad e now = Some p → wf_peer ad (p_NodeID p) p ∧ p_LastSeen p = now.
Proof.
  unfold entry_peer. destruct (ParseTXT (e_Text e)) as [q|] eqn:Eq; [|done].
  apply ParseTXT_Ok in Eq as (Hn & Hm & Hg & Hp).
  case_bool_decide as Hself; [done|].
  destruct (negb (bool_decide (ad_MeshID ad = AnyMesh)) &&
            negb (bool_decide (p_MeshID q = ad_MeshID ad))) eqn:Em; [done|].
  intros [= <-]. unfold wf_peer. cbn. split; [|done]. split_and!; try done.
  - apply andb_false_iff in Em as [Em|Em]; apply negb_false_iff, bool_decide_eq_true in Em; auto.
  - destruct (Z.ltb_spec 0 (e_Port e)); lia.
  - lia.
  - lia.
Qed.

Lemma wf_handleEntry e now m : wf_mdns m → wf_mdns (handleEntry e now m).
Proof.
  intros [Hp Hl]. rewrite handleEntry_eq by done. split; cbn [peers cfg set_events set_peers].
  - unfold entry_peers. destruct (entry_peer _ e now) as [p|] eqn:E; [|done].
    apply map_Forall_insert_2; [|done]. by apply entry_peer_wf in E as [? _].
  - unfold cap. cbn. rewrite length_take. lia.
Qed.

Lemma wf_expire order now m : wf_mdns m → wf_mdns (expire order now m).
Proof.
  intros [Hp Hl]. rewrite expire_eq by done. split; cbn [peers cfg set_events set_peers].
  - intros k p [H _]%map_lookup_filter_Some. by apply (Hp k p).
  - unfold cap. cbn. rewrite length_take. lia.
Qed.

Lemma wf_recv m : wf_mdns m → wf_mdns (recv m).
Proof.
  intros [Hp Hl]. split; [done|]. unfold cap, recv in *. cbn.
  destruct (events m); cbn in *; lia.
Qed.

Lemma tracks_insert p v ps :
  tracks v ps → tracks (<[p_NodeID p := p]> v) (<[p_NodeID p := p]> ps).
Proof.
  intros H id. destruct (decide (p_NodeID p = id)) as [<-|Hne].
  - rewrite !lookup_insert_eq. apply peerChanged_refl.
  - rewrite !lookup_insert_ne by done. apply H.
Qed.

Lemma follow_app l l' v :
  follow (l ++ l') v = match follow l v with Some v' => follow l' v' | None => None end.
Proof.
  revert v. induction l as [|ev l IH]; intros v; [done|]. cbn [follow app].
  destruct (follow_event ev v); [apply IH|done].
Qed.

Lemma tracks_entry e now m v :
  tracks v (peers m) →
  ∃ v', follow (entry_events e now m) v = Some v' ∧ tracks v' (entry_peers e now m).
Proof.
  intros H. unfold entry_events, entry_peers.
  destruct (entry_peer _ e now) as [p|]; [|by exists v].
  pose proof (H (p_NodeID p)) as Hp.
  destruct (peers m !! p_NodeID p) as [q|] eqn:Eq;
    (destruct (v !! p_NodeID p) as [w|] eqn:Ew; [try done|try done]).
  - destruct (peerChanged q p) eqn:Ec.
    + eexists. cbn [follow follow_event Kind ev_Peer]. rewrite Ew. split; [done|by apply tracks_insert].
    + exists v. split; [done|]. intros id. destruct (decide (p_NodeID p = id)) as [<-|Hne].
      * rewrite lookup_insert_eq, Ew. by eapply peerChanged_trans.
      * rewrite lookup_insert_ne by done. apply H.
  - eexists. cbn [follow follow_event Kind ev_Peer]. rewrite Ew. split; [done|by apply tracks_insert].
Qed.

Lemma follow_expired l v :
  NoDup (map p_NodeID l) → (∀ p, p ∈ l → is_Some (v !! p_NodeID p)) →
  ∃ v', follow (map (mkEvent PeerExpired) l) v = Some v' ∧
    ∀ id, v' !! id = if decide (id ∈ map p_NodeID l) then None else v !! id.
Proof.
  revert v. induction l as [|p l IH]; intros v Hnd Hin; cbn [map] in *.
  { exists v. split; [done|]. intros id. by rewrite decide_False by apply not_elem_of_nil. }
  apply NoDup_cons in Hnd as [Hp Hnd].
  destruct (Hin p) as [q Eq]; [by apply elem_of_cons; left|].
  destruct (IH (delete (p_NodeID p) v) Hnd) as (v' & Hv & Hl).
  { intros r Hr. rewrite lookup_delete_ne; [by apply Hin, elem_of_cons; right|].
    intros E. apply Hp. rewrite E. apply list_elem_of_fmap. by exists r. }
  exists v'. cbn [follow follow_event Kind ev_Peer]. rewrite Eq. split; [done|]. intros id. rewrite Hl.
  destruct (decide (id ∈ map p_NodeID l)) as [Hi|Hi].
  - rewrite decide_True; [done|]. by apply elem_of_cons; right.
  - destruct (decide (id = p_NodeID p)) as [->|Hne].
    + rewrite decide_True by (apply elem_of_cons; by left). apply lookup_delete_eq.
    + rewrite decide_False by by rewrite elem_of_cons; intros [|].
      by rewrite lookup_delete_ne.
Qed.

Lemma NoDup_map_filter {A B} (g : A → B) (f : A → bool) l :
  NoDup (map g l) → NoDup (map g (List.filter f l)).
Proof.
  induction l as [|x l IH]; [done|]. cbn [map List.filter]. rewrite NoDup_cons. intros [Hx Hl].
  destruct (f x); [|by apply IH]. cbn [map]. apply NoDup_cons. split; [|by apply IH].
  intros (y & E & Hy%list_elem_of_In%filter_In)%list_elem_of_fmap. apply Hx, list_elem_of_fmap.
  exists y. split; [done|]. apply list_elem_of_In, Hy.
Qed.

(** No peer is reported twice by a sweep. *)
Lemma expired_NoDup order now m :
  (∀ l, order l ≡ₚ l) → map_Forall (wf_peer (cfg_Ad (cfg m))) (peers m) →
  NoDup (map p_NodeID (order (List.filter (silent m now) (map_to_list (peers m)).*2))).
Proof.
  intros Ho Hwf. rewrite Ho. apply NoDup_map_filter.
  assert (map p_NodeID (map_to_list (peers m)).*2 = (map_to_list (peers m)).*1) as ->;
    [|apply NoDup_fst_map_to_list].
  assert (Hin : ∀ kp, kp ∈ map_to_list (peers m) → p_NodeID kp.2 = kp.1).
  { intros [k p] Hk%elem_of_map_to_list. apply (Hwf _ _ Hk). }
  revert Hin. generalize (map_to_list (peers m)). intros l. induction l as [|kp l IH]; intros Hin; [done|].
  cbn. rewrite (Hin kp) by (apply elem_of_cons; by left). f_equal. apply IH.
  intros kp' Hk. apply Hin, elem_of_cons. by right.
Qed.

Lemma expired_ids order now m id :
  (∀ l, order l ≡ₚ l) → map_Forall (wf_peer (cfg_Ad (cfg m))) (peers m) →
  id ∈ map p_NodeID (order (List.filter (silent m now) (map_to_list (peers m)).*2)) ↔
  ∃ p, peers m !! id = Some p ∧ silent m now p = true.
Proof.
  intros Ho Hwf.
  assert (∀ p, p ∈ order (List.filter (silent m now) (map_to_list (peers m)).*2) ↔
               peers m !! p_NodeID p = Some p ∧ silent m now p = true) as Hin.
  { intros p. rewrite Ho, list_elem_of_In, filter_In, <-list_elem_of_In, list_elem_of_fmap.
    apply and_iff_compat_r. split.
    - intros ([k q] & -> & Hk%elem_of_map_to_list). cbn [snd]. by rewrite (proj1 (Hwf _ _ Hk)).
    - intros Hk. exists (p_NodeID p, p). split; [done|]. by apply elem_of_map_to_list. }
  rewrite list_elem_of_fmap. split.
  - intros (p & -> & Hp%Hin). by exists p.
  - intros (p & Hp & Hs). exists p. pose proof (proj1 (Hwf _ _ Hp)) as E.
    split; [done|]. apply Hin. by rewrite E.
Qed.

Lemma tracks_expire order now m v :
  (∀ l, order l ≡ₚ l) → wf_mdns m → tracks v (peers m) →
  ∃ v', follow (expired_events order now m) v = Some v' ∧ tracks v' (expire_peers now m).
Proof.
  intros Ho [Hwf _] H.
  destruct (follow_expired _ v (expired_NoDup order now m Ho Hwf)) as (v' & Hv & Hl).
  { intros p Hp. assert (Hi : p_NodeID p ∈ map p_NodeID (order (List.filter (silent m now) (map_to_list (peers m)).*2)))
      by (apply list_elem_of_fmap; by exists p).
    apply expired_ids in Hi as (q & Hq & _); [|done..]. specialize (H (p_NodeID p)).
    rewrite Hq in H. by destruct (v !! p_NodeID p). }
  exists v'. split; [exact Hv|]. intros id. rewrite Hl. specialize (H id). unfold expire_peers.
  destruct (decide _) as [Hin|Hin].
  - apply expired_ids in Hin as (p & Hp & Hs); [|done..].
    rewrite map_lookup_filter, Hp. cbn. by rewrite Hs.
  - rewrite map_lookup_filter. destruct (peers m !! id) as [p|] eqn:Ep; [|done].
    cbn. destruct (silent m now p) eqn:Es; [|done].
    destruct Hin. apply expired_ids; [done..|]. by exists p.
Qed.

(** Every state a run goes through has the property, when the items keep it. *)
Lemma loop_go_ind (P : list item → MDNS → Prop) (Q : MDNS → Prop) :
  (∀ e now l m, P (Entry e now :: l) m → P l (handleEntry e now m)) →
  (∀ now order l m, P (Sweep now order :: l) m → P l (expire order now m)) →
  (∀ l m, P (Recv :: l) m → P l (recv m)) →
  (∀ m, P [] m → Q m) →
  ∀ l m m', P l m → loop_go l m = Running m' → Q m'.
Proof.
  intros He Hs Hr Hn l. induction l as [|it l IH]; intros m m' HP; cbn [loop_go].
  - intros [= <-]. auto.
  - destruct it; try (unfold close_done; by destruct (done_ m)); eauto.
Qed.

Lemma handleEntry_fixed e now m :
  cfg (handleEntry e now m) = cfg m ∧ done_ (handleEntry e now m) = done_ m.
Proof. unfold handleEntry, emit. by repeat case_match. Qed.

Lemma expire_fixed order now m :
  cfg (expire order now m) = cfg m ∧ done_ (expire order now m) = done_ m.
Proof.
  unfold expire. set (l := order _). set (m0 := set_peers _ m).
  change (cfg m) with (cfg m0). change (done_ m) with (done_ m0). clearbody l m0.
  revert m0. induction l as [|p l IH]; intros m0; [done|]. cbn [fold_left].
  destruct (IH (emit (mkEvent PeerExpired p) m0)) as [-> ->]. unfold emit. by case_match.
Qed.

Lemma handleEntry_handles e now m :
  cancel (handleEntry e now m) = cancel m ∧ server (handleEntry e now m) = server m.
Proof. unfold handleEntry, emit. by repeat case_match. Qed.

Lemma expire_handles order now m :
  cancel (expire order now m) = cancel m ∧ server (expire order now m) = server m.
Proof.
  unfold expire. set (l := order _). set (m0 := set_peers _ m).
  change (cancel m) with (cancel m0). change (server m) with (server m0). clearbody l m0.
  revert m0. induction l as [|p l IH]; intros m0; [done|]. cbn [fold_left].
  destruct (IH (emit (mkEvent PeerExpired p) m0)) as [-> ->]. unfold emit. by case_match.
Qed.

Lemma NewMDNS_Ok c m :
  NewMDNS c = Ok m →
  let ad := cfg_Ad c in
  (ad_NodeID ad ≠ "" ∧ ad_MeshID ad ≠ "" ∧ (ad_MeshID ad = AnyMesh → BrowseOnly c = true) ∧
   1 ≤ ad_GRPCPort ad ≤ 65535) ∧
  m = mkMDNS (mkMDNSConfig ad (cfg_Interfaces c)
        (if ExpireAfter c <=? 0 then 90 * Second else ExpireAfter c)
        (if EventBuffer c <=? 0 then 64 else EventBuffer c) (BrowseOnly c)) [] ∅ None false false.
Proof.
  unfold NewMDNS. cbv zeta. intros H. guard_false H Hn. guard_false H Hm.
  destruct (bool_decide (ad_MeshID (cfg_Ad c) = AnyMesh) && negb (BrowseOnly c)) eqn:Ew; [done|].
  destruct (Z.ltb_spec (ad_GRPCPort (cfg_Ad c)) 1); [done|].
  destruct (Z.ltb_spec 65535 (ad_GRPCPort (cfg_Ad c))); [done|]. cbn [orb] in H.
  apply Ok_inj in H as <-. split; [|done]. split_and!; try done.
  intros E. rewrite bool_decide_true in Ew by done. by apply negb_false_iff in Ew.
Qed.

Lemma wf_new_mdns c m : NewMDNS c = Ok m → wf_mdns m.
Proof.
  intros (_ & ->)%NewMDNS_Ok. split; cbn; [apply map_Forall_empty|]. lia.
Qed.

Lemma run_wf l m m' : wf_mdns m → loop_go l m = Running m' → wf_mdns m' ∧ cfg m' = cfg m.
Proof.
  intros Hwf. apply (loop_go_ind (λ _ x, wf_mdns x ∧ cfg x = cfg m)
    (λ x, wf_mdns x ∧ cfg x = cfg m)); try done.
  - intros e now _ x [Hx E]. rewrite (proj1 (handleEntry_fixed e now x)).
    split; [by apply wf_handleEntry|done].
  - intros now order _ x [Hx E]. rewrite (proj1 (expire_fixed order now x)).
    split; [by apply wf_expire|done].
  - intros _ x [Hx E]. split; [by apply wf_recv|done].
Qed.

(** A panic can only come from closing [done]. *)
Lemma loop_go_open l m : done_ m = false → loop_go l m ≠ Panicked.
Proof.
  revert m. induction l as [|it l IH]; intros m Hd; [done|]. cbn [loop_go].
  destruct it; try (unfold close_done; by rewrite Hd); apply IH.
  - by rewrite (proj2 (handleEntry_fixed _ _ _)).
  - by rewrite (proj2 (expire_fixed _ _ _)).
  - done.
Qed.

Lemma run_tracks l m m' v :
  Forall good_item l → wf_mdns m → tracks v (peers m) → loop_go l m = Running m' →
  ∃ v', follow (run_events l m) v = Some v' ∧ tracks v' (peers m').
Proof.
  revert m v. induction l as [|it l IH]; intros m v Hg Hwf Ht Hrun; cbn [loop_go run_events] in *.
  { injection Hrun as <-. by exists v. }
  apply Forall_cons in Hg as [Hit Hg].
  destruct it as [|e now| |now order|]; try (unfold close_done in Hrun; by destruct (done_ m)).
  - destruct (tracks_entry e now m v Ht) as (v1 & Hv & Ht1). rewrite follow_app, Hv.
    apply (IH (handleEntry e now m)); [done|by apply wf_handleEntry| |done].
    by rewrite handleEntry_eq by apply Hwf.
  - destruct (tracks_expire order now m v Hit Hwf Ht) as (v1 & Hv & Ht1). rewrite follow_app, Hv.
    apply (IH (expire order now m)); [done|by apply wf_expire| |done].
    by rewrite expire_eq by apply Hwf.
  - apply (IH (recv m)); [done|by apply wf_recv|done|done].
Qed.

(** *** The stream that the consumer gets: what it has read, then what waits *)

(** No item of the run leaves the channel full. *)
Definition roomy (l : list item) (m : MDNS) : Prop :=
  ∀ l1 l2 m1, l = l1 ++ l2 → loop_go l1 m = Running m1 →
    Z.of_nat (length (events m1)) < EventBuffer (cfg m1).

Lemma roomy_step it l m m1 :
  (∀ l', loop_go (it :: l') m = loop_go l' m1) → roomy (it :: l) m → roomy l m1.
Proof. intros Hs Hr l1 l2 m2 -> Hl. apply (Hr (it :: l1) l2); [done|by rewrite Hs]. Qed.

Lemma room_untruncated (evs l : list PeerEvent) (c : nat) :
  (length (take c (evs ++ l)) < c)%nat → take c (evs ++ l) = evs ++ l.
Proof. rewrite length_take. intros. apply take_ge. lia. Qed.

Lemma roomy_stream l m m' :
  wf_mdns m → roomy l m → loop_go l m = Running m' →
  received l m ++ events m' = events m ++ run_events l m.
Proof.
  revert m. induction l as [|it l IH]; intros m Hwf Hr Hrun; cbn [loop_go run_events received] in *.
  { injection Hrun as <-. by rewrite app_nil_r. }
  destruct it as [|e now| |now order|]; try (unfold close_done in Hrun; by destruct (done_ m)).
  - rewrite (IH _ (wf_handleEntry _ _ _ Hwf) (roomy_step (Entry e now) _ _ _ (λ _, eq_refl) Hr) Hrun), app_assoc. f_equal.
    pose proof (Hr [Entry e now] l _ eq_refl eq_refl) as Hl. rewrite handleEntry_eq in Hl |- * by apply Hwf.
    apply room_untruncated. unfold cap in *. cbn in *. lia.
  - rewrite (IH _ (wf_expire _ _ _ Hwf) (roomy_step (Sweep now order) _ _ _ (λ _, eq_refl) Hr) Hrun), app_assoc. f_equal.
    pose proof (Hr [Sweep now order] l _ eq_refl eq_refl) as Hl. rewrite expire_eq in Hl |- * by apply Hwf.
    apply room_untruncated. unfold cap in *. cbn in *. lia.
  - rewrite <-app_assoc, (IH _ (wf_recv _ Hwf) (roomy_step Recv _ _ _ (λ _, eq_refl) Hr) Hrun), app_assoc.
    f_equal. cbn. by destruct (events m).
Qed.

(** In any run, one that has returned included, the stream of a prefix is a prefix
    of the stream. *)
Lemma emit_appends ev m : ∃ l, events (emit ev m) = events m ++ l.
Proof. unfold emit. case_match; [by eexists|]. exists []. by rewrite app_nil_r. Qed.

Lemma handleEntry_appends e now m : ∃ l, events (handleEntry e now m) = events m ++ l.
Proof.
  assert (∃ l, events m = events m ++ l) as H by (exists []; by rewrite app_nil_r).
  unfold handleEntry. repeat case_match; try exact H; apply (emit_appends _ (set_peers _ m)).
Qed.

Lemma expire_appends order now m :
  ∃ l, events (expire order now m) = events m ++ l ∧ Forall (λ ev, Kind ev = PeerExpired) l.
Proof.
  unfold expire. set (l := order _). set (m0 := set_peers _ m). change (events m) with (events m0).
  clearbody l m0. revert m0. induction l as [|p l IH]; intros m0; cbn [fold_left].
  { exists []. by rewrite app_nil_r. }
  destruct (IH (emit (mkEvent PeerExpired p) m0)) as (k & -> & Hk). unfold emit. case_match; [|by exists k].
  exists (mkEvent PeerExpired p :: k). cbn. rewrite <-app_assoc. split; [done|by apply Forall_cons].
Qed.

Lemma stream_grows l m m' :
  loop_go l m = Running m' ∨ loop_go l m = Returned m' →
  ∃ k, received l m ++ events m' = events m ++ k.
Proof.
  revert m. induction l as [|it l IH]; intros m Hrun; cbn [loop_go received] in *.
  { destruct Hrun as [[= <-]|]; [|done]. exists []. by rewrite app_nil_r. }
  assert (Hend : close_done m = Running m' ∨ close_done m = Returned m' → events m' = events m).
  { unfold close_done. destruct (done_ m); by intros [|[= <-]]. }
  destruct it as [|e now| |now order|]; try (exists []; by rewrite app_nil_r, (Hend Hrun)).
  - destruct (IH _ Hrun) as [k ->], (handleEntry_appends e now m) as [k' ->].
    exists (k' ++ k). by rewrite app_assoc.
  - destruct (IH _ Hrun) as [k ->], (expire_appends order now m) as (k' & -> & _).
    exists (k' ++ k). by rewrite app_assoc.
  - destruct (IH _ Hrun) as [k Hk]. exists k. rewrite <-app_assoc, Hk, app_assoc. f_equal.
    cbn. by destruct (events m).
Qed.

Lemma received_app l l' m m1 :
  loop_go l m = Running m1 → received (l ++ l') m = received l m ++ received l' m1.
Proof.
  revert m. induction l as [|it l IH]; intros m Hrun; cbn [loop_go received app] in *.
  { by injection Hrun as ->. }
  destruct it; try (unfold close_done in Hrun; by destruct (done_ m)); try by apply IH.
  rewrite <-app_assoc. f_equal. by apply IH.
Qed.

(** Without a consumer the channel keeps the first events that fit. *)
Definition no_recv (it : item) : Prop := match it with Recv => False | _ => True end.

Lemma run_channel l m m' :
  Forall no_recv l → wf_mdns m → loop_go l m = Running m' →
  events m' = take (cap m) (events m ++ run_events l m).
Proof.
  revert m. induction l as [|it l IH]; intros m Hg Hwf Hrun; cbn [loop_go run_events] in *.
  { injection Hrun as <-. rewrite app_nil_r. by rewrite take_ge by apply Hwf. }
  apply Forall_cons in Hg as [Hit Hg].
  destruct it; try (unfold close_done in Hrun; by destruct (done_ m)).
  - rewrite (IH _ Hg (wf_handleEntry _ _ _ Hwf) Hrun). unfold cap.
    rewrite (proj1 (handleEntry_fixed _ _ _)), handleEntry_eq by apply Hwf.
    cbn [events set_events]. fold (cap m). apply take_app_take.
  - rewrite (IH _ Hg (wf_expire _ _ _ Hwf) Hrun). unfold cap.
    rewrite (proj1 (expire_fixed _ _ _)), expire_eq by apply Hwf.
    cbn [events set_events]. fold (cap m). apply take_app_take.
Qed.

(** *** Host names *)

Lemma HasSuffix_sub s p q : HasSuffix s (p +:+ q) = true → HasSuffix s q = true.
Proof. intros [t ->]%HasSuffix_spec. apply HasSuffix_spec. exists (t +:+ p). by rewrite app_assoc_s. Qed.

Lemma strip_local_done fuel h :
  (slen h ≤ fuel)%nat → HasSuffix (strip_local fuel h) ".local.local" = false.
Proof.
  revert h. induction fuel as [|f IH]; intros h Hl; cbn [strip_local].
  - destruct h; [done|cbn in Hl; lia].
  - destruct (HasSuffix h ".local.local") eqn:E; [|done]. apply IH.
    apply HasSuffix_spec in E as [t ->].
    change ".local.local" with (".local" +:+ ".local") in *. rewrite <-app_assoc_s in *.
    rewrite TrimSuffix_app. rewrite slen_app in Hl. cbn in Hl. lia.
Qed.

Fixpoint locals (n : nat) : string :=
  match n with O => "" | S n' => ".local" +:+ locals n' end.

Lemma locals_snoc n : locals n +:+ ".local" = locals (S n).
Proof. induction n as [|n IH]; [done|]. cbn [locals] in *. by rewrite app_assoc_s, IH. Qed.

Lemma strip_locals n fuel h :
  (6 * n ≤ fuel)%nat → HasSuffix (h +:+ ".local") ".local.local" = false →
  strip_local fuel (h +:+ locals (S n)) = h +:+ ".local".
Proof.
  intros Hf Hh. revert fuel Hf. induction n as [|n IH]; intros fuel Hf.
  - change (locals 1) with ".local". destruct fuel; [done|]. cbn [strip_local]. by rewrite Hh.
  - destruct fuel as [|f]; [lia|]. cbn [strip_local].
    assert (h +:+ locals (S (S n)) = (h +:+ locals n) +:+ ".local.local") as ->.
    { rewrite <-(locals_snoc (S n)), <-(locals_snoc n). by rewrite !app_assoc_s. }
    rewrite HasSuffix_app. change ".local.local" with (".local" +:+ ".local").
    rewrite <-app_assoc_s, TrimSuffix_app, app_assoc_s, locals_snoc. apply IH. lia.
Qed.

(** ** Properties *)

(** C27: whatever the network sends, a node only ever knows peers of its own mesh
    (or of any mesh, when it browses with the wildcard), each under its own
    non-empty node_id, never itself, with usable ports; and the channel of
    events never holds more than its capacity. *)
Theorem peers_invariant c m0 l m :
  NewMDNS c = Ok m0 → loop_go l m0 = Running m →
  map_Forall (wf_peer (cfg_Ad c)) (peers m) ∧
  Z.of_nat (length (events m)) ≤ EventBuffer (cfg m).
Proof.
  intros Hn Hr. destruct (run_wf _ _ _ (wf_new_mdns _ _ Hn) Hr) as [[Hp He] Hc].
  apply NewMDNS_Ok in Hn as (_ & ->). rewrite Hc in *. split; [done|].
  unfold cap in He. rewrite Hc in He. cbn in *. destruct (Z.leb_spec (EventBuffer c) 0); lia.
Qed.

(** C13: a consumer that reads the channel knows the peers.  In a run that never
    leaves the channel full, what the consumer has read so far and what still waits
    in the channel, followed in order, make sense one after the other (a peer is
    added once, and only a known one changes or expires) and give the same
    node_ids as the table, with nothing changed that a dialer cares about. *)
Theorem events_track_peers c m0 l m :
  NewMDNS c = Ok m0 → Forall good_item l → roomy l m0 → loop_go l m0 = Running m →
  ∃ v, follow (received l m0 ++ events m) ∅ = Some v ∧ tracks v (peers m).
Proof.
  intros Hn Hg Hroom Hr. pose proof (wf_new_mdns _ _ Hn) as Hwf.
  rewrite (roomy_stream l m0 m Hwf Hroom Hr). apply NewMDNS_Ok in Hn as (_ & ->).
  apply (run_tracks l _ _ ∅ Hg Hwf); [|done]. intros id. cbn. by rewrite lookup_empty.
Qed.

(** When nobody reads the channel, it keeps the first events up to its
    capacity, in order, and drops the later ones; the peers are tracked all the
    same. *)
Theorem events_dropped_when_full c m0 l m :
  NewMDNS c = Ok m0 → Forall no_recv l → loop_go l m0 = Running m →
  events m = take (Z.to_nat (EventBuffer (cfg m0))) (run_events l m0).
Proof.
  intros Hn Hg Hr. rewrite (run_channel l m0 m Hg (wf_new_mdns _ _ Hn) Hr).
  apply NewMDNS_Ok in Hn as (_ & ->). done.
Qed.

(** A sweep removes exactly the peers that were last heard from longer ago
    than [ExpireAfter], and those are the peers it reports. *)
Theorem expire_exact order now m id :
  (∀ l, order l ≡ₚ l) → wf_mdns m →
  let m' := expire order now m in
  (∀ p, peers m' !! id = Some p ↔
        peers m !! id = Some p ∧ time_Sub now (p_LastSeen p) ≤ ExpireAfter (cfg m)) ∧
  (id ∈ map (λ ev, p_NodeID (ev_Peer ev)) (expired_events order now m) ↔
   is_Some (peers m !! id) ∧ peers m' !! id = None).
Proof.
  intros Ho Hwf m'. unfold m'. rewrite expire_eq by apply Hwf.
  cbn [peers set_events set_peers]. unfold expire_peers. split.
  - intros p. rewrite map_lookup_filter_Some. cbn. unfold silent. by rewrite Z.ltb_ge.
  - unfold expired_events. rewrite map_map. cbn [ev_Peer].
    change (λ x, p_NodeID x) with p_NodeID.
    rewrite expired_ids by apply Hwf || done. rewrite map_lookup_filter. split.
    + intros (p & -> & Hs). split; [done|]. cbn. by rewrite Hs.
    + intros [[p Hp] Hs]. rewrite Hp in *. exists p. split; [done|]. cbn in Hs.
      by destruct (silent m now p).
Qed.

(** [loop] panics exactly for an [ExpireAfter] of one or two nanoseconds,
    which [NewMDNS] accepts: a third of it is not a positive period for the
    ticker.  Every other configuration runs. *)
Theorem loop_panics_iff c m l :
  NewMDNS c = Ok m → (loop l m = Panicked ↔ 1 ≤ ExpireAfter c ≤ 2).
Proof.
  intros (_ & ->)%NewMDNS_Ok. unfold loop. cbn [cfg ExpireAfter].
  destruct (Z.leb_spec (ExpireAfter c) 0) as [Hd|Hd].
  - change (90 * Second ÷ 3 <=? 0) with false. split; [|lia].
    intros H. by apply loop_go_open in H.
  - destruct (Z.leb_spec (ExpireAfter c ÷ 3) 0) as [Hq|Hq].
    + split; [|done]. intros _. rewrite Z.quot_div_nonneg in Hq by lia.
      pose proof (Z.div_le_lower_bound (ExpireAfter c) 3 1). lia.
    + split; [intros H; by apply loop_go_open in H|]. intros [H1 H2].
      rewrite Z.quot_small in Hq; lia.
Qed.

(** [Peers] lists every known peer once, sorted by node_id, whatever the
    iteration order of the map. *)
Theorem Peers_sorted order order' m :
  (∀ l, order l ≡ₚ l) → (∀ l, order' l ≡ₚ l) → wf_mdns m →
  Sorted by_NodeID (Peers order m) ∧ Peers order m = Peers order' m ∧
  ∀ p, p ∈ Peers order m ↔ peers m !! p_NodeID p = Some p.
Proof.
  intros Ho Ho' [Hwf _]. unfold Peers.
  assert (Total by_NodeID) by (intros p q; apply (total String.le)).
  assert (Transitive by_NodeID) by (intros p q r; unfold by_NodeID; by intros ->).
  assert (∀ p, p ∈ (map_to_list (peers m)).*2 ↔ peers m !! p_NodeID p = Some p) as Hin.
  { intros p. rewrite list_elem_of_fmap. split.
    - intros ([k q] & -> & Hk%elem_of_map_to_list). cbn [snd]. by rewrite (proj1 (Hwf _ _ Hk)).
    - intros Hk. exists (p_NodeID p, p). split; [done|]. by apply elem_of_map_to_list. }
  split_and!; [apply (Sorted_merge_sort _)| |].
  - apply (Sorted_unique_strong by_NodeID); [|apply (Sorted_merge_sort _)..|].
    + intros p q. rewrite !merge_sort_Permutation, Ho, Ho', !Hin. intros Hp Hq Hpq Hqp.
      assert (E : p_NodeID p = p_NodeID q) by by apply (anti_symm String.le).
      rewrite E in Hp. congruence.
    + by rewrite !merge_sort_Permutation, Ho, Ho'.
  - intros p. by rewrite merge_sort_Permutation, Ho.
Qed.

(** [normalizeHost] ends, never leaves the domain twice, and undoes any
    number of repetitions of it. *)
Theorem normalizeHost_spec h n :
  HasSuffix (normalizeHost h) ".local.local" = false ∧
  (HasSuffix (h +:+ ".local") ".local.local" = false →
   normalizeHost (h +:+ locals (S n) +:+ ".") = h +:+ ".local").
Proof.
  split; [by apply strip_local_done|]. intros Hh. unfold normalizeHost.
  rewrite <-app_assoc_s, TrimSuffix_app. apply strip_locals; [|done].
  rewrite slen_app. clear Hh. assert (slen (locals (S n)) = 6 * S n)%nat as ->; [|lia].
  induction n as [|n IH]; [done|]. change (locals (S (S n))) with (".local" +:+ locals (S n)).
  rewrite slen_app, IH. cbn. lia.
Qed.

(** An update is reported exactly when a port, the fingerprint, the host
    name or the set of addresses changed, provided neither announcement repeats
    an address. *)
Theorem peerChanged_spec a b :
  NoDup (map IP_String (p_Addrs a)) → NoDup (map IP_String (p_Addrs b)) →
  peerChanged a b = false ↔
  (p_GRPCPort a = p_GRPCPort b ∧ p_PairPort a = p_PairPort b ∧
   p_Fingerprint a = p_Fingerprint b ∧ p_Hostname a = p_Hostname b) ∧
  map IP_String (p_Addrs a) ≡ₚ map IP_String (p_Addrs b).
Proof.
  intros Ha Hb. rewrite peerChanged_false. apply and_iff_compat_l. split.
  - intros [Hl Hsub]. symmetry. apply submseteq_length_Permutation.
    + apply NoDup_submseteq; [done|]. exact Hsub.
    + rewrite !length_map. lia.
  - intros Hp. split; [|intros s; by rewrite Hp].
    apply Permutation_length in Hp. by rewrite !length_map in Hp.
Qed.

(** With a repeated address an address can go away unnoticed: the test only
    compares the lengths and looks the new addresses up among the old ones. *)
Theorem peerChanged_misses_removed :
  ∃ a b x, x ∈ map IP_String (p_Addrs a) ∧ ¬ (x ∈ map IP_String (p_Addrs b)) ∧
    peerChanged a b = false.
Proof.
  exists (mkPeer "n" "m" "" "" [srepeat "009" 4; srepeat "008" 4] 1 0 0),
    (mkPeer "n" "m" "" "" [srepeat "009" 4; srepeat "009" 4] 1 0 0), "8.8.8.8".
  split_and!; [by apply elem_of_cons; right; apply elem_of_cons; left| |reflexivity].
  cbn. rewrite !not_elem_of_cons. split_and!; [discriminate..|]. apply not_elem_of_nil.
Qed.

(** [Start] either leaves nothing behind or leaves the service advertised.
    When it fails, no service is registered and no loop runs; when it succeeds,
    the TXT record that is served parses back to this node, unless it only
    browses.  After [Stop], which can be repeated, nothing is left. *)
Theorem Start_Stop c m ifs reg res browse :
  NewMDNS c = Ok m → ad_PairPort (cfg_Ad c) ≤ 65535 →
  let '(m', out) := Start ifs reg res browse m in
  let ad := cfg_Ad c in
  match out with
  | Err _ => server m' = None ∧ cancel m' = false ∧ done_ m' = false
  | Ok _ =>
      cancel m' = true ∧
      match server m' with
      | None => BrowseOnly c = true
      | Some s =>
          BrowseOnly c = false ∧
          ParseTXT (zs_text s) =
            Ok (mkPeer (ad_NodeID ad) (ad_MeshID ad) (ad_Fingerprint ad) "" []
                  (ad_GRPCPort ad) (Z.max 0 (ad_PairPort ad)) time_zero)
      end
  end ∧
  (server (Stop m') = None ∧ cancel (Stop m') = false ∧ Stop (Stop m') = Stop m').
Proof.
  intros ((Hn & Hm & _ & Hg) & ->)%NewMDNS_Ok Hp.
  pose proof (TXT_parses (cfg_Ad c) Hn Hm Hg Hp) as Ht.
  unfold Start. cbn [cfg cfg_Ad cfg_Interfaces BrowseOnly].
  destruct (cfg_Interfaces c) as [[|i l]|]; [by split_and!| |destruct ifs as [[|i l]|]; [by split_and!| |by split_and!]];
    cbn [wrap_err]; (destruct (BrowseOnly c); [|destruct reg; [|by split_and!]]);
    destruct res; destruct browse; by split_and!.
Qed.

(** *** A node in the mesh [home], for the witnesses *)

Definition ex_ad : Advertisement := mkAd "box" "home" 7443 0 "".
Definition ex_mcfg : MDNSConfig := mkMDNSConfig ex_ad None 0 0 false.
Definition ex_m0 : MDNS := match NewMDNS ex_mcfg with Ok m => m | Err _ =>
  mkMDNS ex_mcfg [] ∅ None false false end.
Definition ex_entry (id mesh : string) (port : Z) : ServiceEntry :=
  mkEntry id (id +:+ ".local.local.") port (TXT (mkAd id mesh 1 7444 "")) [srepeat "009" 4] [].
Definition ex_items : list item :=
  [Entry (ex_entry "a" "home" 7443) Second; Entry (ex_entry "b" "work" 7443) Second;
   Entry (ex_entry "c" "home" 7443) Second; Entry (ex_entry "a" "home" 7555) (2 * Second);
   Entry (ex_entry "box" "home" 7443) Second; Sweep (92 * Second) id].
Definition ex_m1 : MDNS := match loop_go ex_items ex_m0 with Running m => m | _ => ex_m0 end.

Lemma ex_new : NewMDNS ex_mcfg = Ok ex_m0.
Proof. reflexivity. Qed.
Lemma ex_run : loop_go ex_items ex_m0 = Running ex_m1.
Proof. vm_compute. reflexivity. Qed.
Lemma ex_wf1 : wf_mdns ex_m1.
Proof. apply (run_wf ex_items ex_m0); [apply (wf_new_mdns ex_mcfg), ex_new|apply ex_run]. Qed.

Lemma peers_invariant_witness :
  is_Some (peers ex_m1 !! "a") ∧ map_Forall (wf_peer ex_ad) (peers ex_m1).
Proof.
  split; [vm_compute; by eexists|].
  exact (proj1 (peers_invariant ex_mcfg ex_m0 ex_items ex_m1 ex_new ex_run)).
Defined.

Definition roomyb (l : list item) (m : MDNS) : bool :=
  forallb (λ n, match loop_go (take n l) m with
                | Running m1 => Z.of_nat (length (events m1)) <? EventBuffer (cfg m1)
                | _ => true
                end) (seq 0 (S (length l))).
Lemma roomyb_spec l m : roomyb l m = true → roomy l m.
Proof.
  intros H l1 l2 m1 -> Hl. unfold roomyb in H. rewrite forallb_forall in H.
  specialize (H (length l1)). rewrite take_app_length, Hl in H. apply Z.ltb_lt, H.
  apply in_seq. rewrite length_app. lia.
Qed.

(** The consumer reads between the entries. *)
Definition ex_reads : list item :=
  [Entry (ex_entry "a" "home" 7443) Second; Recv; Entry (ex_entry "c" "home" 7443) Second;
   Entry (ex_entry "a" "home" 7555) (2 * Second); Recv; Sweep (92 * Second) id; Recv].
Definition ex_m2 : MDNS := match loop_go ex_reads ex_m0 with Running m => m | _ => ex_m0 end.

Lemma events_track_peers_witness :
  map Kind (received ex_reads ex_m0) = [PeerAdded; PeerAdded; PeerUpdated] ∧
  map Kind (events ex_m2) = [PeerExpired] ∧
  ∃ v, follow (received ex_reads ex_m0 ++ events ex_m2) ∅ = Some v ∧ tracks v (peers ex_m2).
Proof.
  split; [vm_compute; reflexivity|]. split; [vm_compute; reflexivity|].
  apply (events_track_peers ex_mcfg ex_m0 ex_reads ex_m2 ex_new).
  - repeat constructor. intros l. apply Permutation_refl.
  - apply roomyb_spec. vm_compute. reflexivity.
  - vm_compute. reflexivity.
Defined.

Lemma events_dropped_when_full_witness :
  events ex_m1 = take 64 (run_events ex_items ex_m0).
Proof.
  apply (events_dropped_when_full ex_mcfg ex_m0 ex_items ex_m1 ex_new); [|exact ex_run].
  repeat constructor.
Defined.

Lemma expire_exact_witness :
  "a" ∈ map (λ ev, p_NodeID (ev_Peer ev)) (expired_events id (93 * Second) ex_m1).
Proof.
  apply (expire_exact id (93 * Second) ex_m1 "a" (λ l, Permutation_refl l) ex_wf1).
  split; [vm_compute; by eexists|vm_compute; reflexivity].
Defined.

Lemma loop_panics_iff_witness :
  loop [] (match NewMDNS (mkMDNSConfig ex_ad None 2 0 false) with Ok m => m | Err _ => ex_m0 end)
    = Panicked.
Proof.
  apply (loop_panics_iff (mkMDNSConfig ex_ad None 2 0 false)); [reflexivity|cbn; lia].
Defined.

Lemma Peers_sorted_witness :
  map p_NodeID (Peers id ex_m1) = ["a"] ∧ Peers id ex_m1 = Peers reverse ex_m1.
Proof.
  split; [vm_compute; reflexivity|].
  apply (Peers_sorted id reverse ex_m1 (λ l, Permutation_refl l) reverse_Permutation ex_wf1).
Defined.

Lemma normalizeHost_spec_witness : normalizeHost "box.local.local." = "box.local".
Proof. exact (proj2 (normalizeHost_spec "box" 1) eq_refl). Defined.

Lemma peerChanged_spec_witness :
  peerChanged (mkPeer "n" "m" "" "" [srepeat "009" 4; srepeat "008" 4] 1 0 0)
    (mkPeer "n" "m" "" "" [srepeat "008" 4; srepeat "009" 4] 1 0 5) = false.
Proof.
  apply peerChanged_spec.
  - apply (bool_decide_unpack _). vm_compute. exact I.
  - apply (bool_decide_unpack _). vm_compute. exact I.
  - split; [cbn; auto|]. cbn. apply perm_swap.
Defined.

Lemma Start_Stop_witness :
  server (Stop (Start (Ok [mkInterface 2 "en0" 19]) (Ok tt) (Ok tt) (Ok tt) ex_m0).1) = None.
Proof.
  pose proof (Start_Stop ex_mcfg ex_m0 (Ok [mkInterface 2 "en0" 19]) (Ok tt) (Ok tt) (Ok tt)
    ex_new ltac:(cbn; lia)) as H.
  cbn in H |- *. exact (proj1 (proj2 H)).
Defined.
