(* ===== verification/PairingServer.v ===== *)
(** * Package [internal/pairing], the coordinator's side

    Models [src/internal/pairing/server.go]: the gRPC layer over [Pairer].
    Messages are records of the fields of the generated types; logging is left
    out. *)
From S2P Require Import Prelude GoStrings GoTime Labels Crypto SymCrypto GoGrpc PkiCA PkiPairing.
From S2P Require Import Transport.
Local Open Scope Z_scope.

(** ** Messages of [proto/lcm/v1/pairing.proto] *)

Record BeginPairingRequest := mkBeginReq { bq_NodeId : string }.
Record BeginPairingResponse := mkBeginResp {
  br_SessionId : string; br_Salt : string; br_MeshId : string; br_ExpiresAt : Time }.
Record CompletePairingRequest := mkCompleteReq {
  cq_SessionId : string; cq_CsrDer : string; cq_ClientMac : string }.
Record CompletePairingResponse := mkCompleteResp {
  cr_CaCertDer : string; cr_NodeCertDer : string; cr_MeshId : string;
  cr_CoordinatorNodeId : string; cr_CoordinatorGrpcAddr : string; cr_ServerMac : string }.

(** ** The service *)

Record ServerConfig := mkServerConfig {
  sc_Identity : option Identity; sc_CA : option CA; sc_GRPCPort : Z; sc_NodeTTL : Duration }.

Record Server := mkServer {
  srv_Identity : Identity; srv_CA : CA; srv_GRPCPort : Z;
  srv_pairer : Pairer;
  srv_grpc : GServer
}.

Definition set_pairer (p : Pairer) (s : Server) : Server :=
  mkServer (srv_Identity s) (srv_CA s) (srv_GRPCPort s) p (srv_grpc s).

(** The listener's TLS: the node certificate, and no client certificate. *)
Definition pairing_tls (id : Identity) : TLSConfig :=
  mkTLSConfig VersionTLS13 [mkTLSCert [Raw (id_Cert id)] (id_Key id) (id_Cert id)]
    NoClientCert None None "" false None.

Definition NewServer (cfg : ServerConfig) : result Server :=
  match sc_Identity cfg, sc_CA cfg with
  | Some id, Some ca =>
      if negb (bool_decide (id_MeshID id = ca_MeshID ca)) then Err ErrMeshMismatch
      else
        let? p := NewPairer (mkPairerConfig (Some ca) (Some (id_Cert id)) (sc_NodeTTL cfg)) in
        Ok (mkServer id ca (sc_GRPCPort cfg) p (grpc_NewServer [Creds (pairing_tls id)]))
  | _, _ => Err (ErrorsNew "pairing: Identity and CA are required")
  end.

Definition toStatus (err : error) : Status :=
  if errors_Is err ErrNoActiveCode then mkStatus codes_FailedPrecondition err
  else if errors_Is err ErrTooManyAttempts || errors_Is err ErrBusy
  then mkStatus codes_ResourceExhausted err
  else if errors_Is err ErrUnknownSession then mkStatus codes_NotFound err
  else if errors_Is err ErrBadCode then mkStatus codes_PermissionDenied err
  else if errors_Is err ErrBadCSR || errors_Is err PkiCA.ErrInvalidNodeID
  then mkStatus codes_InvalidArgument err
  else mkStatus codes_Internal err.

Section Service.
Context {C : Crypto} {L : CryptoLaws C}.

(** [Server.Begin]; the random bytes and the clock are those of [Pairer.Begin]. *)
Definition Begin (r1 r2 : option string) (now_gc now : Time) (req : BeginPairingRequest)
    (s : Server) : Server * (BeginPairingResponse + Status) :=
  match PkiPairing.Begin r1 r2 now_gc now (srv_pairer s) with
  | (p, Err err) => (set_pairer p s, inr (toStatus err))
  | (p, Ok sess) =>
      (set_pairer p s,
       inl (mkBeginResp (ID sess) (Salt sess) (ca_MeshID (srv_CA s)) (ExpiresAt sess)))
  end.

(** [Server.Complete] *)
Definition Complete (order : list string → list string) (now1 now2 : Time) (e : IssueEnv)
    (req : CompletePairingRequest) (s : Server) : Server * (CompletePairingResponse + Status) :=
  match PkiPairing.Complete order now1 now2 e (cq_SessionId req) (cq_CsrDer req)
          (cq_ClientMac req) (srv_pairer s) with
  | (p, Err err) => (set_pairer p s, inr (toStatus err))
  | (p, Ok b) =>
      (set_pairer p s,
       inl (mkCompleteResp (Raw (CACert b)) (Raw (NodeCert b)) (Bundle_MeshID b)
              (Name (id_Principal (srv_Identity s)))
              (":" +:+ Itoa (srv_GRPCPort s)) (Bundle_ServerMAC b)))
  end.

(** *** Lemmas *)

Lemma NewServer_Ok cfg s :
  NewServer cfg = Ok s →
  ∃ id ca, sc_Identity cfg = Some id ∧ sc_CA cfg = Some ca ∧ id_MeshID id = ca_MeshID ca ∧
    srv_Identity s = id ∧ srv_CA s = ca ∧ srv_GRPCPort s = sc_GRPCPort cfg ∧
    srv_pairer s = mkPairer ca (id_Cert id)
      (if sc_NodeTTL cfg <=? 0 then DefaultNodeCertTTL else sc_NodeTTL cfg) ∅ ∅ [].
Proof.
  unfold NewServer. destruct (sc_Identity cfg) as [id|]; [|done].
  destruct (sc_CA cfg) as [ca|]; [|done]. case_bool_decide as Hm; [|done].
  cbn. intros [= <-]. by exists id, ca.
Qed.

(** A coordinator in working order. *)
Definition coordinator_ready (s : Server) : Prop :=
  let p := srv_pairer s in
  (wf_CA (srv_CA s) ∧ ParseCertificate (Raw (Cert (srv_CA s))) = Some (Cert (srv_CA s))) ∧
  (pairer_ca p = srv_CA s ∧ serverCert p = id_Cert (srv_Identity s) ∧ 0 < nodeTTL p ∧
   wf_pairer p) ∧
  Role (id_Principal (srv_Identity s)) = RoleNode ∧ 0 ≤ srv_GRPCPort s.

Lemma NewServer_ready cfg id ca s :
  sc_Identity cfg = Some id → sc_CA cfg = Some ca → NewServer cfg = Ok s →
  wf_CA ca → ParseCertificate (Raw (Cert ca)) = Some (Cert ca) →
  Role (id_Principal id) = RoleNode → 0 ≤ sc_GRPCPort cfg → coordinator_ready s.
Proof.
  intros Hi Hc H Hwf Hp Hr Hg.
  apply NewServer_Ok in H as (id' & ca' & Hi' & Hc' & _ & Eid & Eca & Eg & Ep).
  rewrite Hi in Hi'. rewrite Hc in Hc'. injection Hi' as <-. injection Hc' as <-.
  unfold coordinator_ready. rewrite Ep, Eca, Eid, Eg. cbn. split_and!; try done.
  - destruct (Z.leb_spec (sc_NodeTTL cfg) 0); [done|lia].
  - apply wf_new.
Qed.

(** [Begin] answered: the session is open, and the coordinator still ready. *)
Lemma Begin_reply r1 r2 now_gc now req s s1 begin :
  coordinator_ready s → Begin r1 r2 now_gc now req s = (s1, inl begin) →
  coordinator_ready s1 ∧ srv_CA s1 = srv_CA s ∧ srv_Identity s1 = srv_Identity s ∧
  srv_GRPCPort s1 = srv_GRPCPort s ∧ nodeTTL (srv_pairer s1) = nodeTTL (srv_pairer s) ∧
  sessions (srv_pairer s1) !! br_SessionId begin =
    Some (mkSession (br_SessionId begin) (br_Salt begin) (br_ExpiresAt begin)).
Proof.
  intros (Hca & (Hpc & Hsc & Ht & Hwf) & Hr) H. unfold Begin in H.
  destruct (PkiPairing.Begin r1 r2 now_gc now (srv_pairer s)) as [p [sess|err]] eqn:E; [|done].
  injection H as <- <-. pose proof (wf_Begin _ _ _ _ _ _ _ Hwf E) as Hwf'.
  apply Begin_Ok in E. subst p.
  refine (conj (conj Hca (conj (conj Hpc (conj Hsc (conj Ht Hwf'))) Hr))
            (conj eq_refl (conj eq_refl (conj eq_refl (conj eq_refl _))))).
  cbn. rewrite lookup_insert_eq. by destruct sess.
Qed.

(** The reply to an honest joiner. *)
Lemma Complete_reply order t1 t2 e req s sess c (exp : Time) nodeID jk rnd sn :
  (∀ l, order l ≡ₚ l) → coordinator_ready s →
  let p := srv_pairer s in
  sessions p !! cq_SessionId req = Some sess → t1 ≤ ExpiresAt sess →
  (length (filter (recent t1) (failures p)) < maxFailuresPerMin)%nat →
  codes p !! c = Some exp → t1 ≤ exp →
  is_label nodeID = true → pub_curve (priv_pub jk) = P256 →
  NewCSR nodeID jk rnd = Ok (cq_CsrDer req) →
  cq_ClientMac req = ClientMAC (DeriveKey c (Salt sess)) (ID sess)
                       (CertHash (serverCert p)) (cq_CsrDer req) →
  (∀ c' t, codes p !! c' = Some t → answers p sess (cq_CsrDer req) (cq_ClientMac req) c' → c' = c) →
  serial_rnd e = Some sn → 0 ≤ sn →
  x509_time (issue_now e - backdate) = true → x509_time (issue_now e + nodeTTL p) = true →
  ∃ b s', Complete order t1 t2 e req s =
      (s', inl (mkCompleteResp (Raw (CACert b)) (Raw (NodeCert b)) (Bundle_MeshID b)
                  (Name (id_Principal (srv_Identity s))) (":" +:+ Itoa (srv_GRPCPort s))
                  (Bundle_ServerMAC b))) ∧
    CACert b = Cert (srv_CA s) ∧ ParseCertificate (Raw (NodeCert b)) = Some (NodeCert b) ∧
    cert_pub (NodeCert b) = ECDSAPub (priv_pub jk) ∧
    (NotBefore (NodeCert b) = trunc_sec (issue_now e - backdate) ∧
     NotAfter (NodeCert b) = trunc_sec (issue_now e + nodeTTL p)) ∧
    ∀ now, NotBefore (NodeCert b) ≤ now ≤ NotAfter (NodeCert b) →
           NotBefore (Cert (srv_CA s)) ≤ now ≤ NotAfter (Cert (srv_CA s)) →
           VerifyBundle (DeriveKey c (Salt sess)) (ID sess) b nodeID now = Ok tt.
Proof.
  intros Ho ((Hca & Hpca) & (Hpc & Hsc & Ht & Hwf) & _) p Hs He Hf Hc Hexp Hl Hcv Hcsr Hmac Huniq
    Hsn Hsn0 Ht1 Ht2. fold p in Hpc, Hsc, Ht, Hwf.
  assert (c ≠ "") as Hne by (intros ->; by specialize ((proj1 Hwf) _ _ Hc)).
  destruct (complete_sign_honest p sess (DeriveKey c (Salt sess)) nodeID jk rnd e sn (cq_CsrDer req))
    as (b & Hb & (E1 & _ & E3 & E4 & E5) & Hk & Hv); try done; try by rewrite Hpc.
  rewrite Hpc in E1, Hv. exists b, (set_pairer (with_state p (delete c (codes (gcLocked t1 p)))
    (delete (cq_SessionId req) (sessions (gcLocked t1 p))) (failures (gcLocked t1 p))) s).
  split_and!; try done. unfold Complete. fold p. rewrite Hmac in Huniq |- *.
  rewrite (Complete_runs order t1 t2 e _ _ _ p sess c exp) by done.
  by rewrite Hb.
Qed.
End Service.

(** ** Properties *)

(** The errors of the pairing protocol that a joiner may meet, each with its
    status code. *)
Definition status_table : list (error * Z) :=
  [(ErrNoActiveCode, codes_FailedPrecondition); (ErrTooManyAttempts, codes_ResourceExhausted);
   (ErrBusy, codes_ResourceExhausted); (ErrUnknownSession, codes_NotFound);
   (ErrBadCode, codes_PermissionDenied); (ErrBadCSR, codes_InvalidArgument);
   (PkiCA.ErrInvalidNodeID, codes_InvalidArgument)].

(** [toStatus] gives every error of the protocol its own status code, however
    often it was wrapped, and Internal to every other error. *)
Theorem toStatus_table err :
  (∀ e code, (e, code) ∈ status_table → errors_Is err e = true → st_code (toStatus err) = code) ∧
  (Forall (λ ec, errors_Is err ec.1 = false) status_table →
   st_code (toStatus err) = codes_Internal).
Proof.
  assert (∀ t, errors_Is err (ErrorsNew t) = bool_decide (error_base err = ErrorsNew t)) as Hb
    by (intros t; apply errors_Is_base).
  unfold status_table, toStatus, ErrNoActiveCode, ErrTooManyAttempts, ErrBusy, ErrUnknownSession,
    ErrBadCode, ErrBadCSR, PkiCA.ErrInvalidNodeID.
  split.
  - intros e code Hin He.
    repeat (apply elem_of_cons in Hin as [[= -> ->]|Hin];
      [rewrite Hb, bool_decide_eq_true in He; rewrite !Hb, He; reflexivity|]).
    by apply not_elem_of_nil in Hin.
  - rewrite !Forall_cons. cbn [fst]. intros (-> & -> & -> & -> & -> & -> & -> & _). done.
Qed.

Lemma toStatus_table_witness :
  st_code (toStatus (Wrap "%w: bad signature: %v" ErrBadCSR)) = codes_InvalidArgument.
Proof.
  apply (proj1 (toStatus_table (Wrap "%w: bad signature: %v" ErrBadCSR)) ErrBadCSR);
    [|vm_compute; reflexivity].
  do 5 (apply elem_of_cons; right). apply elem_of_cons. by left.
Defined.

(** A joiner without an active code gets PermissionDenied and nothing else
    happens but that its session is gone and one failure is recorded: no code
    is consumed, no certificate is signed. *)
Theorem Complete_wrong_code {C : Crypto} order now1 now2 e req s sess :
  let p := srv_pairer s in
  let q := gcLocked now1 p in
  (∀ l, order l ≡ₚ l) →
  sessions p !! cq_SessionId req = Some sess → now1 ≤ ExpiresAt sess →
  (length (filter (recent now1) (failures p)) < maxFailuresPerMin)%nat →
  (∀ c (exp : Time), codes p !! c = Some exp → now1 ≤ exp →
            ¬ answers p sess (cq_CsrDer req) (cq_ClientMac req) c) →
  Complete order now1 now2 e req s =
    (set_pairer (with_state p (codes q) (delete (cq_SessionId req) (sessions q))
                   (failures q ++ [now2])) s,
     inr (mkStatus codes_PermissionDenied ErrBadCode)).
Proof.
  intros p q Ho Hs He Hf Hno. unfold Complete. fold p.
  by rewrite (Complete_rejects order now1 now2 e _ _ _ p sess).
Qed.

(** *** A coordinator, for the witnesses *)

Definition ex_server : Server :=
  mkServer (ex_id_of RoleNode "coord" "coord") ex_ca 7443 ex_p2
    (grpc_NewServer [Creds (pairing_tls (ex_id_of RoleNode "coord" "coord"))]).
Definition ex_wrong : CompletePairingRequest := mkCompleteReq ex_sid ex_join_csr "wrong".

Lemma Complete_wrong_code_witness :
  (Complete id ex_now ex_now ex_env ex_wrong ex_server).2
    = inr (mkStatus codes_PermissionDenied ErrBadCode).
Proof.
  rewrite (Complete_wrong_code id ex_now ex_now ex_env ex_wrong ex_server ex_session
    (λ l, Permutation_refl l)); [reflexivity|vm_compute; reflexivity|vm_compute; discriminate|
    vm_compute; lia|].
  intros c exp H%elem_of_map_to_list _.
  assert (E : map_to_list (codes (srv_pairer ex_server)) = [("00000042", time_Add ex_now DefaultCodeTTL)])
    by (vm_compute; reflexivity).
  rewrite E in H. apply list_elem_of_singleton in H. injection H as -> _.
  vm_compute. discriminate.
Defined.
