(* ===== verification/PairingClient.v ===== *)
(** * Package [internal/pairing], the joiner's side

    Models [src/internal/pairing/client.go].  The network is two functions:
    what comes back from each of the two calls, with the certificates that the
    TLS connection showed.  They are not constrained, so they can be an honest
    coordinator, a relay or anything else. *)
From S2P Require Import Prelude GoStrings GoTime GoOS GoNet Labels Crypto SymCrypto GoGrpc PkiCA.
From S2P Require Import PkiPem PkiPairing Transport PairingServer.
Local Open Scope Z_scope.

Definition ErrServerCertChanged :=
  ErrorsNew "pairing: server certificate changed between Begin and Complete".

Record JoinResult := mkJoinResult {
  jr_Key : PrivateKey; jr_Bundle : Bundle;
  jr_CoordinatorNodeID : string; jr_CoordinatorGRPCAddr : string
}.

(** A call's answer, and the TLS information of its connection. *)
Definition Reply (A : Type) : Type := result A * option AuthInfo.

Definition certFromPeer (p : option AuthInfo) : result Certificate :=
  match p with
  | Some (TLSInfo (c :: _)) => Ok c
  | _ => Err (ErrorsNew "pairing: no server certificate on connection")
  end.

(** The TLS configuration of the joiner, which checks nothing. *)
Definition join_tls : TLSConfig :=
  mkTLSConfig VersionTLS13 [] NoClientCert None None "" true None.

Section Client.
Context {C : Crypto}.

(** The checks on the two answers, in order. *)
Definition join_checks (key : PrivateKey) (k nodeID addr : string) (begin : BeginPairingResponse)
    (serverCert : Certificate) (resp : CompletePairingResponse) (completePeer : option AuthInfo)
    (now1 now2 : Time) : result JoinResult :=
  check? match certFromPeer completePeer with
         | Ok c2 => guard_err (bool_decide (Raw c2 = Raw serverCert)) ErrServerCertChanged
         | Err _ => Err ErrServerCertChanged
         end in
  let? caCert := wrap_err "pairing: bad CA cert in response: %w" (parse_cert (cr_CaCertDer resp)) in
  let? nodeCert :=
    wrap_err "pairing: bad node cert in response: %w" (parse_cert (cr_NodeCertDer resp)) in
  let bundle := mkBundle caCert nodeCert (cr_MeshId resp) (cr_ServerMac resp) in
  check? VerifyBundle k (br_SessionId begin) bundle nodeID now1 in
  check? guard_err (pub_Equal (priv_pub key) (cert_pub nodeCert))
           (ErrorsNew "pairing: issued cert does not match our key") in
  let? sp := wrap_err "pairing: server cert does not chain to issued CA: %w"
               (VerifyAgainst caCert serverCert now2) in
  check? guard_err (bool_decide (Role sp = RoleNode) &&
                    bool_decide (Name sp = cr_CoordinatorNodeId resp))
           (Errorf "pairing: server cert is %s, response claims coordinator %q") in
  let? hp := wrap_err "pairing: bad addr %q: %w" (SplitHostPort addr) in
  let? gp := wrap_err "pairing: bad coordinator addr %q: %w"
               (SplitHostPort (cr_CoordinatorGrpcAddr resp)) in
  Ok (mkJoinResult key bundle (cr_CoordinatorNodeId resp) (JoinHostPort hp.1 gp.2)).

(** [Join]; [dial] is the answer of [grpc.NewClient]. *)
Definition Join (dial : result unit) (begin_rpc : BeginPairingRequest → Reply BeginPairingResponse)
    (complete_rpc : CompletePairingRequest → Reply CompletePairingResponse)
    (addr code nodeID : string) (key_rnd : option string) (csr_rnd : string) (now1 now2 : Time)
  : result JoinResult :=
  check? ValidateCodeFormat code in
  let? key := NewKey key_rnd in
  let? csr := NewCSR nodeID key csr_rnd in
  check? wrap_err "pairing: dial %s: %w" dial in
  let '(begin, beginPeer) := begin_rpc (mkBeginReq nodeID) in
  let? begin := wrap_err "pairing: begin: %w" begin in
  let? serverCert := certFromPeer beginPeer in
  let k := DeriveKey code (br_Salt begin) in
  let mac := ClientMAC k (br_SessionId begin) (CertHash serverCert) csr in
  let '(resp, completePeer) :=
    complete_rpc (mkCompleteReq (br_SessionId begin) csr mac) in
  let? resp := wrap_err "pairing: complete: %w" resp in
  join_checks key k nodeID addr begin serverCert resp completePeer now1 now2.

(** [JoinResult.Persist] *)
Definition Persist (env : OSEnv) (r : JoinResult) (dir : string) (overwrite : bool) : M unit :=
  do! WriteCert env dir CACertFile (CACert (jr_Bundle r)) overwrite in
  do! WriteCert env dir NodeCertFile (NodeCert (jr_Bundle r)) overwrite in
  WriteKey env dir NodeKeyFile (jr_Key r) overwrite.
End Client.

(** ** Lemmas *)

Section ClientFacts.
Context {C : Crypto} {L : CryptoLaws C}.

Lemma join_checks_Ok key k nodeID addr begin serverCert resp peer now1 now2 r :
  join_checks key k nodeID addr begin serverCert resp peer now1 now2 = Ok r →
  ∃ c2 sp host port,
    (certFromPeer peer = Ok c2 ∧ Raw c2 = Raw serverCert) ∧
    (ParseCertificate (cr_CaCertDer resp) = Some (CACert (jr_Bundle r)) ∧
     ParseCertificate (cr_NodeCertDer resp) = Some (NodeCert (jr_Bundle r))) ∧
    VerifyBundle k (br_SessionId begin) (jr_Bundle r) nodeID now1 = Ok tt ∧
    cert_pub (NodeCert (jr_Bundle r)) = ECDSAPub (priv_pub key) ∧
    (VerifyAgainst (CACert (jr_Bundle r)) serverCert now2 = Ok sp ∧
     Role sp = RoleNode ∧ Name sp = cr_CoordinatorNodeId resp) ∧
    (SplitHostPort addr = Ok host ∧ SplitHostPort (cr_CoordinatorGrpcAddr resp) = Ok port) ∧
    r = mkJoinResult key
          (mkBundle (CACert (jr_Bundle r)) (NodeCert (jr_Bundle r)) (cr_MeshId resp) (cr_ServerMac resp))
          (cr_CoordinatorNodeId resp) (JoinHostPort host.1 port.2).
Proof.
  unfold join_checks. intros ([] & Hc & H)%rbind_Ok.
  destruct (certFromPeer peer) as [c2|] eqn:Ep; [|done].
  unfold parse_cert, pub_Equal in H. inv_ok.
  repeat match goal with a : unit |- _ => destruct a end.
  cbn. eexists c2, _, _, _. split_and!; eauto.
Qed.

(** A whole [Join], inverted. *)
Lemma Join_Ok dial begin_rpc complete_rpc addr code nodeID kr cr now1 now2 r :
  Join dial begin_rpc complete_rpc addr code nodeID kr cr now1 now2 = Ok r →
  ∃ csr begin beginPeer serverCert resp completePeer,
    ValidateCodeFormat code = Ok tt ∧ NewKey kr = Ok (jr_Key r) ∧
    NewCSR nodeID (jr_Key r) cr = Ok csr ∧
    begin_rpc (mkBeginReq nodeID) = (Ok begin, beginPeer) ∧
    certFromPeer beginPeer = Ok serverCert ∧
    let k := DeriveKey code (br_Salt begin) in
    complete_rpc (mkCompleteReq (br_SessionId begin) csr
      (ClientMAC k (br_SessionId begin) (CertHash serverCert) csr)) = (Ok resp, completePeer) ∧
    join_checks (jr_Key r) k nodeID addr begin serverCert resp completePeer now1 now2 = Ok r.
Proof.
  unfold Join. intros ([] & Hv & H)%rbind_Ok. apply rbind_Ok in H as (key & Hk & H).
  apply rbind_Ok in H as (csr & Hcsr & H). apply rbind_Ok in H as ([] & _ & H).
  destruct (begin_rpc (mkBeginReq nodeID)) as [begin' beginPeer] eqn:Eb.
  apply rbind_Ok in H as (begin & Hb%wrap_err_Ok & H). apply rbind_Ok in H as (sc & Hsc & H).
  cbv zeta in H. destruct (complete_rpc _) as [resp' completePeer] eqn:Ec.
  apply rbind_Ok in H as (resp & Hr%wrap_err_Ok & H). subst.
  pose proof H as (? & ? & ? & ? & _ & _ & _ & _ & _ & _ & E)%join_checks_Ok.
  assert (jr_Key r = key) as Ek by by rewrite E.
  rewrite Ek. by exists csr, begin, beginPeer, sc, resp, completePeer.
Qed.
End ClientFacts.

(** What [Persist] leaves of a result that passed the checks. *)
Lemma Persist_checked {C : Crypto} {L : CryptoLaws C}
    key k nodeID addr begin sc resp peer now1 now2 r env dir ow fs fs' :
  join_checks key k nodeID addr begin sc resp peer now1 now2 = Ok r →
  Persist env r dir ow fs = (fs', Ok tt) →
  (∃ id, LoadNodeIdentity env dir now1 fs' = (fs', Ok id) ∧
     id_Principal id = mkPrincipal (Bundle_MeshID (jr_Bundle r)) RoleNode nodeID ∧
     id_Key id = jr_Key r ∧ id_Cert id = NodeCert (jr_Bundle r) ∧
     id_CACert id = CACert (jr_Bundle r) ∧ pool id = [CACert (jr_Bundle r)]) ∧
  fmode <$> files fs' !! GoOS.Join dir NodeKeyFile = Some mode_0600.
Proof.
  intros H HP.
  assert (Ek : jr_Key r = key)
    by (apply join_checks_Ok in H as (? & ? & ? & ? & _ & _ & _ & _ & _ & _ & E); by rewrite E).
  apply join_checks_Ok in H as (_ & _ & _ & _ & _ & (Hp1 & Hp2) & Hv & Hk & _).
  rewrite <-Ek in Hk. apply VerifyBundle_Ok in Hv as [_ Hv].
  unfold Persist in HP. apply bind_Ok in HP as (fs1 & [] & H1 & HP).
  apply bind_Ok in HP as (fs2 & [] & H2 & H3).
  apply WriteCert_Ok in H1 as [S1 _]. apply WriteCert_Ok in H2 as [S2 F2].
  apply WriteKey_Ok in H3 as [S3 F3].
  apply (cert_beside _ _ _ NodeCertFile _ _ fs2) in S1; [|done..].
  apply (cert_beside _ _ _ NodeKeyFile _ _ fs') in S1; [|done..].
  apply (cert_beside _ _ _ NodeKeyFile _ _ fs') in S2; [|done..].
  split.
  - eexists. split.
    + apply (LoadIdentity_stored _ _ _ _ _ _ _ _ _ _ S1 S2 S3); [by rewrite (parse_Raw _ _ Hp1)|
        by rewrite (parse_Raw _ _ Hp2)|].
      unfold NewIdentity, pub_Equal. rewrite Hk, bool_decide_true by done. cbn. by rewrite Hv.
    + done.
  - destruct S3 as (b & _ & (E & _)). by rewrite E.
Qed.

Lemma Persist_loads {C : Crypto} {L : CryptoLaws C}
    dial begin_rpc complete_rpc addr code nodeID kr cr now1 now2 r env dir ow fs fs' :
  Join dial begin_rpc complete_rpc addr code nodeID kr cr now1 now2 = Ok r →
  Persist env r dir ow fs = (fs', Ok tt) →
  (∃ id, LoadNodeIdentity env dir now1 fs' = (fs', Ok id) ∧
     id_Principal id = mkPrincipal (Bundle_MeshID (jr_Bundle r)) RoleNode nodeID ∧
     id_Key id = jr_Key r ∧ id_Cert id = NodeCert (jr_Bundle r) ∧
     id_CACert id = CACert (jr_Bundle r)) ∧
  fmode <$> files fs' !! GoOS.Join dir NodeKeyFile = Some mode_0600.
Proof.
  intros (csr & begin & bp & sc & resp & cp & _ & _ & _ & _ & _ & _ & H)%Join_Ok HP.
  destruct (Persist_checked _ _ _ _ _ _ _ _ _ _ _ _ _ _ _ _ H HP)
    as ((id & Hl & Hp & Hk & Hc & Hca & _) & Hm).
  split; [by exists id|done].
Qed.

(** ** Properties *)

(** C11: what a joiner knows after a successful [Join], whoever answered it.  The
    code is well formed and the key is fresh.  The second call sent the session id
    of the first answer, a signing request for that key and node_id, and the MAC of
    the code over the session, the server's certificate and the request.  The two
    answers came over connections that showed the same certificate.  The second
    answer carries the two certificates of the bundle and the MAC of the code for
    this session and them; the node certificate binds the fresh key to the
    joiner's node_id in the mesh of the CA it got; and the certificate of the
    server is one that this CA gave to the node that the answer names as
    coordinator, whose control-plane address is the host that was dialled, with the
    port of the answer. *)
Theorem Join_authentic {C : Crypto} {L : CryptoLaws C}
    dial begin_rpc complete_rpc addr code nodeID kr cr now1 now2 r :
  Join dial begin_rpc complete_rpc addr code nodeID kr cr now1 now2 = Ok r →
  let ca := CACert (jr_Bundle r) in
  let cert := NodeCert (jr_Bundle r) in
  let mesh := Bundle_MeshID (jr_Bundle r) in
  ValidateCodeFormat code = Ok tt ∧ NewKey kr = Ok (jr_Key r) ∧
  ∃ begin beginPeer serverCert csr resp completePeer serverCert2,
    begin_rpc (mkBeginReq nodeID) = (Ok begin, beginPeer) ∧
    certFromPeer beginPeer = Ok serverCert ∧
    let k := DeriveKey code (br_Salt begin) in
    let sid := br_SessionId begin in
    (NewCSR nodeID (jr_Key r) cr = Ok csr ∧
     complete_rpc (mkCompleteReq sid csr (ClientMAC k sid (CertHash serverCert) csr)) = (Ok resp, completePeer)) ∧
    (certFromPeer completePeer = Ok serverCert2 ∧ Raw serverCert2 = Raw serverCert) ∧
    (ParseCertificate (cr_CaCertDer resp) = Some ca ∧ ParseCertificate (cr_NodeCertDer resp) = Some cert) ∧
    (Bundle_ServerMAC (jr_Bundle r) = cr_ServerMac resp ∧
     cr_ServerMac resp = ServerMAC k sid (Raw ca) (Raw cert)) ∧
    (VerifyAgainst ca cert now1 = Ok (mkPrincipal mesh RoleNode nodeID) ∧
     cert_pub cert = ECDSAPub (priv_pub (jr_Key r))) ∧
    (jr_CoordinatorNodeID r = cr_CoordinatorNodeId resp ∧
     VerifyAgainst ca serverCert now2 = Ok (mkPrincipal mesh RoleNode (cr_CoordinatorNodeId resp))) ∧
    ∃ host port, SplitHostPort addr = Ok host ∧ SplitHostPort (cr_CoordinatorGrpcAddr resp) = Ok port ∧
      jr_CoordinatorGRPCAddr r = JoinHostPort host.1 port.2.
Proof.
  intros (csr & begin & bp & sc & resp & cp & Hf & Hkey & Hcsr & Hb & Hsc & Hc & H)%Join_Ok ca cert mesh.
  apply join_checks_Ok in H as
    (c2 & sp & host & port & Hc2 & Hder & Hv & Hk & (Hsp & Hr & Hn) & (Hh & Hg) & E).
  apply VerifyBundle_Ok in Hv as [Hmac Hv].
  assert (Em : Bundle_ServerMAC (jr_Bundle r) = cr_ServerMac resp ∧
    jr_CoordinatorNodeID r = cr_CoordinatorNodeId resp ∧
    jr_CoordinatorGRPCAddr r = JoinHostPort host.1 port.2) by by rewrite E.
  destruct Em as (Em & En & Ea). split; [done|]. split; [done|].
  exists begin, bp, sc, csr, resp, cp, c2. cbv zeta. split_and!; try done; try apply Hder; try apply Hc2.
  - by rewrite <-Em.
  - unfold ca, mesh. rewrite Hsp. f_equal. apply VerifyAgainst_Ok in Hv as (_ & _ & Hm).
    apply VerifyAgainst_Ok in Hsp as (_ & _ & Hm'). cbn in Hm.
    destruct sp as [m ro n]. cbn in *. by rewrite Hm', <-Hm, Hr, <-Hn.
  - by exists host, port.
Qed.

(** *** An honest coordinator at the other end *)

(** What gRPC gives the caller: the response or the status as an error, and the
    certificate of the listener. *)
Definition rpc_reply {A} (s : Server) (out : A + Status) : Reply A :=
  (match out with inl a => Ok a | inr st => Err (st_msg st) end,
   Some (TLSInfo [id_Cert (srv_Identity s)])).

Section Honest.
Context {C : Crypto} {L : CryptoLaws C}.

Definition honest_begin (r1 r2 : option string) (t t' : Time) (s : Server)
  : BeginPairingRequest → Reply BeginPairingResponse :=
  λ req, rpc_reply s (Begin r1 r2 t t' req s).2.
Definition honest_complete (order : list string → list string) (t1 t2 : Time) (e : IssueEnv)
    (s : Server) : CompletePairingRequest → Reply CompletePairingResponse :=
  λ req, rpc_reply s (Complete order t1 t2 e req s).2.

(** The certificate that an honest coordinator hands out is signed by its CA, with
    the lifetime of its [Pairer]. *)
Lemma honest_node_cert order t1 t2 e s dial begin_rpc addr code nodeID kr cr now1 now2 r :
  (∀ l, order l ≡ₚ l) → wf_CA (pairer_ca (srv_pairer s)) →
  Join dial begin_rpc (honest_complete order t1 t2 e s) addr code nodeID kr cr now1 now2 = Ok r →
  ∃ req, Sign (pairer_ca (srv_pairer s)) req e = Ok (NodeCert (jr_Bundle r)) ∧
    Role (req_Principal req) = RoleNode ∧ req_TTL req = nodeTTL (srv_pairer s).
Proof.
  intros Ho Hwf (csr & begin & bp & sc & resp & cp & _ & _ & _ & _ & _ & Hc & H)%Join_Ok.
  apply join_checks_Ok in H as (_ & _ & _ & _ & _ & (_ & Hp) & _).
  unfold honest_complete, rpc_reply, PairingServer.Complete in Hc.
  cbn [cq_SessionId cq_CsrDer cq_ClientMac] in Hc.
  destruct (PkiPairing.Complete order t1 t2 e _ csr _ (srv_pairer s)) as [p' [b|err]] eqn:EC;
    cbn [snd] in Hc; [|done].
  injection Hc as <- _. cbn [cr_NodeCertDer] in Hp.
  apply Complete_Ok in EC as (se & c & exp & _ & _ & _ & _ & _ & _ & _ & _ & Hs); [|done].
  apply complete_sign_Ok in Hs as (q & cert & _ & HS & ->). cbn [NodeCert] in Hp.
  apply SignCSR_Sign in HS as [pub HS].
  pose proof (Sign_parses _ _ _ _ Hwf HS) as Hp'. rewrite Hp in Hp'. injection Hp' as ->.
  eexists. split; [exact HS|]. done.
Qed.

Lemma join_checks_pass s b (key : PrivateKey) k nodeID addr begin now1 now2 host port :
  CACert b = Cert (srv_CA s) → ParseCertificate (Raw (Cert (srv_CA s))) = Some (Cert (srv_CA s)) →
  ParseCertificate (Raw (NodeCert b)) = Some (NodeCert b) →
  cert_pub (NodeCert b) = ECDSAPub (priv_pub key) →
  VerifyBundle k (br_SessionId begin) b nodeID now1 = Ok tt →
  VerifyAgainst (Cert (srv_CA s)) (id_Cert (srv_Identity s)) now2 = Ok (id_Principal (srv_Identity s)) →
  Role (id_Principal (srv_Identity s)) = RoleNode → 0 ≤ srv_GRPCPort s →
  SplitHostPort addr = Ok (host, port) →
  join_checks key k nodeID addr begin (id_Cert (srv_Identity s))
    (mkCompleteResp (Raw (CACert b)) (Raw (NodeCert b)) (Bundle_MeshID b)
       (Name (id_Principal (srv_Identity s))) (":" +:+ Itoa (srv_GRPCPort s)) (Bundle_ServerMAC b))
    (Some (TLSInfo [id_Cert (srv_Identity s)])) now1 now2 =
  Ok (mkJoinResult key b (Name (id_Principal (srv_Identity s)))
        (JoinHostPort host (Itoa (srv_GRPCPort s)))).
Proof.
  intros Hca Hpca Hpn Hk Hv Hsv Hr Hp Hh.
  assert (Hg : SplitHostPort (":" +:+ Itoa (srv_GRPCPort s)) = Ok ("", Itoa (srv_GRPCPort s)))
    by (apply (Split_Join_bare ""); [done|by apply Itoa_plain_port|done]).
  revert Hg. generalize (":" +:+ Itoa (srv_GRPCPort s)). intros gaddr Hg.
  unfold join_checks, parse_cert, pub_Equal.
  destruct b as [ca nc mesh mac]. cbn in Hca, Hpn, Hk, Hv |- *. subst ca.
  rewrite bool_decide_true by done. cbn. rewrite Hpca, Hpn. cbn. rewrite Hv. cbn.
  rewrite Hk, bool_decide_true by done. cbn. rewrite Hsv. cbn.
  rewrite Hr, !bool_decide_true by done. cbn. rewrite Hh. cbn.
  by rewrite Hg.
Qed.
End Honest.

(** The run of [Join] against it. *)
Lemma Join_runs {C : Crypto} {L : CryptoLaws C}
    r1 r2 t t' order t1 t2 e sn s s1 begin addr host port code (exp : Time) nodeID kr cr csr now1 now2 :
  let id := srv_Identity s in
  let key := GenerateKey kr in
  let sess := mkSession (br_SessionId begin) (br_Salt begin) (br_ExpiresAt begin) in
  coordinator_ready s → (∀ l, order l ≡ₚ l) → SplitHostPort addr = Ok (host, port) →
  Begin r1 r2 t t' (mkBeginReq nodeID) s = (s1, inl begin) →
  t1 ≤ br_ExpiresAt begin →
  (length (filter (recent t1) (failures (srv_pairer s1))) < maxFailuresPerMin)%nat →
  codes (srv_pairer s1) !! code = Some exp → t1 ≤ exp →
  is_label nodeID = true → NewCSR nodeID key cr = Ok csr →
  (∀ c' u, codes (srv_pairer s1) !! c' = Some u →
     answers (srv_pairer s1) sess csr
       (ClientMAC (DeriveKey code (br_Salt begin)) (br_SessionId begin) (CertHash (id_Cert id)) csr) c' →
     c' = code) →
  serial_rnd e = Some sn → 0 ≤ sn →
  x509_time (issue_now e - backdate) = true →
  x509_time (issue_now e + nodeTTL (srv_pairer s)) = true →
  trunc_sec (issue_now e - backdate) ≤ now1 ≤ trunc_sec (issue_now e + nodeTTL (srv_pairer s)) →
  NotBefore (Cert (srv_CA s)) ≤ now1 ≤ NotAfter (Cert (srv_CA s)) →
  VerifyAgainst (Cert (srv_CA s)) (id_Cert id) now2 = Ok (id_Principal id) →
  ∃ r, Join (Ok tt) (honest_begin r1 r2 t t' s) (honest_complete order t1 t2 e s1)
         addr code nodeID (Some kr) cr now1 now2 = Ok r ∧
    jr_Key r = key ∧ CACert (jr_Bundle r) = Cert (srv_CA s) ∧
    jr_CoordinatorNodeID r = Name (id_Principal id) ∧
    jr_CoordinatorGRPCAddr r = JoinHostPort host (Itoa (srv_GRPCPort s)).
Proof.
  intros id key sess Hrdy Ho Hh HB Ht1 Hf Hc Hexp Hl Hcsr Huniq Hsn Hsn0 Hx1 Hx2 Hn1 Hn2 Hsv.
  destruct (Begin_reply _ _ _ _ _ _ _ _ Hrdy HB) as (Hrdy1 & Eca & Eid & Eg & Ettl & Hs).
  pose proof Hrdy1 as ((_ & Hpca) & (_ & Hsc & _ & Hwp) & Hrole & Hgp).
  assert (Hk : CertHash (serverCert (srv_pairer s1)) = CertHash (id_Cert id)) by (rewrite Hsc, Eid; done).
  set (mac := ClientMAC (DeriveKey code (br_Salt begin)) (br_SessionId begin) (CertHash (id_Cert id)) csr) in *.
  destruct (Complete_reply order t1 t2 e (mkCompleteReq (br_SessionId begin) csr mac) s1 sess code exp
              nodeID key cr sn) as (b & s2 & HC & Hb1 & Hb2 & Hb3 & (Hnb & Hna) & Hv);
    try done; [apply GenerateKey_P256|unfold sess; cbn; by rewrite Hk|by rewrite Ettl|].
  rewrite Ettl in Hna. rewrite Eca in *. rewrite Eid in *. rewrite Eg in *.
  eexists. split.
  - unfold Join. pose proof (ValidateCodeFormat_code code) as Hvc.
    rewrite ((proj1 Hwp) _ _ Hc) in Hvc. destruct (ValidateCodeFormat code) as [[]|]; [|done].
    cbn [rbind NewKey]. fold key. rewrite Hcsr. cbn [rbind wrap_err].
    unfold honest_begin, rpc_reply. rewrite HB. cbn [rbind wrap_err snd certFromPeer]. cbv zeta.
    fold id. fold mac. unfold honest_complete, rpc_reply. rewrite HC. cbn [rbind wrap_err snd].
    rewrite Eid. fold id. apply (join_checks_pass s b key _ nodeID addr begin now1 now2 host port); try done.
    apply Hv; [by rewrite Hnb, Hna|done].
  - by split_and!.
Qed.

(** Pairing works.  Against a coordinator in working order with an active
    code, under the limit of failures and with no two codes giving the same
    MAC, [Join] with this code and a good node_id succeeds over any interleaved
    time within the lifetimes, and returns the coordinator's CA, its node_id and
    its address. *)
Theorem Join_honest {C : Crypto} {L : CryptoLaws C}
    r1 r2 t t' order t1 t2 e sn s s1 begin addr host port code (exp : Time) nodeID kr cr csr now1 now2 :
  let id := srv_Identity s in
  let key := GenerateKey kr in
  let sess := mkSession (br_SessionId begin) (br_Salt begin) (br_ExpiresAt begin) in
  coordinator_ready s → (∀ l, order l ≡ₚ l) → SplitHostPort addr = Ok (host, port) →
  Begin r1 r2 t t' (mkBeginReq nodeID) s = (s1, inl begin) →
  t1 ≤ br_ExpiresAt begin →
  (length (filter (recent t1) (failures (srv_pairer s1))) < maxFailuresPerMin)%nat →
  codes (srv_pairer s1) !! code = Some exp → t1 ≤ exp →
  is_label nodeID = true → NewCSR nodeID key cr = Ok csr →
  (∀ c' u, codes (srv_pairer s1) !! c' = Some u →
     answers (srv_pairer s1) sess csr
       (ClientMAC (DeriveKey code (br_Salt begin)) (br_SessionId begin) (CertHash (id_Cert id)) csr) c' →
     c' = code) →
  serial_rnd e = Some sn → 0 ≤ sn →
  x509_time (issue_now e - backdate) = true →
  x509_time (issue_now e + nodeTTL (srv_pairer s)) = true →
  trunc_sec (issue_now e - backdate) ≤ now1 ≤ trunc_sec (issue_now e + nodeTTL (srv_pairer s)) →
  NotBefore (Cert (srv_CA s)) ≤ now1 ≤ NotAfter (Cert (srv_CA s)) →
  VerifyAgainst (Cert (srv_CA s)) (id_Cert id) now2 = Ok (id_Principal id) →
  ∃ r, Join (Ok tt) (honest_begin r1 r2 t t' s) (honest_complete order t1 t2 e s1)
         addr code nodeID (Some kr) cr now1 now2 = Ok r ∧
    jr_Key r = key ∧ CACert (jr_Bundle r) = Cert (srv_CA s) ∧
    jr_CoordinatorNodeID r = Name (id_Principal id) ∧
    jr_CoordinatorGRPCAddr r = JoinHostPort host (Itoa (srv_GRPCPort s)).
Proof.
  exact (Join_runs r1 r2 t t' order t1 t2 e sn s s1 begin addr host port code exp nodeID kr cr csr now1 now2).
Qed.

(** What [Join] returned is what the node starts with.  Once [Persist] has
    written the result, [LoadNodeIdentity] loads, from the same directory, the
    identity of this node in this mesh with the joiner's key; the key file is
    readable by its owner only. *)
Theorem Join_Persist_load {C : Crypto} {L : CryptoLaws C}
    dial begin_rpc complete_rpc addr code nodeID kr cr now1 now2 r env dir ow fs fs' :
  Join dial begin_rpc complete_rpc addr code nodeID kr cr now1 now2 = Ok r →
  Persist env r dir ow fs = (fs', Ok tt) →
  (∃ id, LoadNodeIdentity env dir now1 fs' = (fs', Ok id) ∧
     id_Principal id = mkPrincipal (Bundle_MeshID (jr_Bundle r)) RoleNode nodeID ∧
     id_Key id = jr_Key r ∧ id_Cert id = NodeCert (jr_Bundle r) ∧
     id_CACert id = CACert (jr_Bundle r)) ∧
  fmode <$> files fs' !! GoOS.Join dir NodeKeyFile = Some mode_0600.
Proof. apply Persist_loads. Qed.

(** *** A joiner, for the witnesses *)

Definition ex_srv1 : Server := set_pairer ex_p1 ex_server.
Definition ex_begin_reply : BeginPairingResponse := mkBeginResp ex_sid ex_salt "home" (ExpiresAt ex_session).
Definition ex_code : string := "00000042".
Local Abbreviation ex_join :=
  (Join (Ok tt) (honest_begin (Some "session") (Some "salt") ex_now ex_now ex_srv1)
    (honest_complete id ex_now ex_now ex_env ex_server)
    "10.0.0.5:7444" ex_code "laptop" (Some "joiner") "r" ex_now ex_now).
Definition ex_result : JoinResult :=
  match ex_join with Ok r => r | Err _ => mkJoinResult ex_joiner ex_bundle "" "" end.

Lemma ex_join_ok : ex_join = Ok ex_result.
Proof. vm_compute. reflexivity. Qed.

Lemma ex_codes_p2 c t : codes ex_p2 !! c = Some t → c = ex_code.
Proof.
  intros H%elem_of_map_to_list.
  assert (E : map_to_list (codes ex_p2) = [(ex_code, time_Add ex_now DefaultCodeTTL)])
    by (vm_compute; reflexivity).
  rewrite E in H. apply list_elem_of_singleton in H. by injection H.
Qed.

Lemma ex_server_ready : coordinator_ready ex_srv1.
Proof.
  split; [split; [exact ex_ca_wf|vm_compute; reflexivity]|].
  split; [|split; [reflexivity|cbn; lia]].
  split; [reflexivity|]. split; [vm_compute; reflexivity|]. split; [vm_compute; reflexivity|].
  eapply (wf_Issue 0 (Some 42) ex_now ex_now ex_pairer); [cbn; unfold codeSpace; lia|apply wf_new|].
  apply surjective_pairing.
Qed.

Lemma Join_authentic_witness :
  ex_join = Ok ex_result ∧
  VerifyAgainst (CACert (jr_Bundle ex_result)) (NodeCert (jr_Bundle ex_result)) ex_now =
    Ok (mkPrincipal "home" RoleNode "laptop").
Proof.
  split; [exact ex_join_ok|].
  destruct (Join_authentic _ _ _ _ _ _ _ _ _ _ _ ex_join_ok)
    as (_ & _ & begin & bp & sc & csr & resp & cp & c2 & _ & _ & _ & _ & _ & _ & (Hv & _) & _).
  exact Hv.
Defined.

Lemma Join_honest_witness :
  ∃ r, ex_join = Ok r ∧ jr_CoordinatorNodeID r = "coord" ∧
       jr_CoordinatorGRPCAddr r = "10.0.0.5:7443".
Proof.
  destruct (Join_honest (Some "session") (Some "salt") ex_now ex_now id ex_now ex_now ex_env 7
    ex_srv1 ex_server ex_begin_reply "10.0.0.5:7444" "10.0.0.5" "7444" ex_code
    (time_Add ex_now DefaultCodeTTL) "laptop" "joiner" "r" ex_join_csr ex_now ex_now
    ex_server_ready (λ l, Permutation_refl l)) as (r & Hr & _ & _ & Hc & Ha).
  all: lazymatch goal with
    | |- ∀ c' u, _ => intros c' u H _; exact (ex_codes_p2 c' u H)
    | |- ∃ _, _ => exists r; split; [exact Hr|split; [exact Hc|exact Ha]]
    | |- _ = _ => vm_compute; reflexivity
    | |- _ ∧ _ => vm_compute; split; discriminate
    | |- (_ < _)%nat => vm_compute; lia
    | |- _ => vm_compute; discriminate
    end.
Defined.

Definition ex_home : FS := (Persist no_faults ex_result "d" false (mkFS ∅ ∅ 18)).1.

Lemma Join_Persist_load_witness :
  ∃ id, LoadNodeIdentity no_faults "d" ex_now ex_home = (ex_home, Ok id) ∧
        id_Principal id = mkPrincipal "home" RoleNode "laptop".
Proof.
  assert (HP : Persist no_faults ex_result "d" false (mkFS ∅ ∅ 18) = (ex_home, Ok tt))
    by (vm_compute; reflexivity).
  destruct (Join_Persist_load _ _ _ _ _ _ _ _ _ _ _ no_faults "d" false (mkFS ∅ ∅ 18) ex_home
    ex_join_ok HP) as [(id & Hl & Hp & _) _].
  exists id. split; [exact Hl|exact Hp].
Defined.
