(* ===== verification/PairingNet.v ===== *)
(** * Pairing on a hostile network

    [Complete_sound] and [Join_authentic] say what each end of
    [src/internal/pki/pairing.go] and [src/internal/pairing/client.go] knows by
    itself.  Here both ends run at once, over a network that belongs to an
    attacker: it calls the coordinator with what it wants, answers the joiners
    with what it wants over TLS connections that show the certificate it wants,
    and repeats every message it saw.  The coordinator is the system of
    [PairerSys.v]; a joiner is [Join], split at the point where it waits for the
    answer to [Complete].

    The only thing the attacker cannot do is to make the MAC of a message under
    a key derived from a code it does not know; [secret] is the set of these
    codes. *)
From stdpp Require Import relations.
From S2P Require Import Prelude GoStrings GoTime GoOS GoNet Labels Crypto SymCrypto GoGrpc PkiCA.
From S2P Require Import PkiPairing PairerSys Transport PairingServer PairingClient.
Local Open Scope Z_scope.

(** ** The two halves of [Join] *)

(** What [Join] holds when it sends its request: the arguments that it uses
    again, its fresh key, the request it made, the answer to [Begin] and the
    certificate of the server. *)
Record Opened := mkOpened {
  op_code : string; op_nodeID : string; op_addr : string;
  op_key : PrivateKey; op_csr : string;
  op_begin : BeginPairingResponse; op_cert : Certificate
}.

Section Halves.
Context {C : Crypto}.

Definition join_begin (dial : result unit) (addr code nodeID : string) (key_rnd : option string)
    (csr_rnd : string) (reply : Reply BeginPairingResponse) : result Opened :=
  check? ValidateCodeFormat code in
  let? key := NewKey key_rnd in
  let? csr := NewCSR nodeID key csr_rnd in
  check? wrap_err "pairing: dial %s: %w" dial in
  let? begin := wrap_err "pairing: begin: %w" reply.1 in
  let? serverCert := certFromPeer reply.2 in
  Ok (mkOpened code nodeID addr key csr begin serverCert).

Definition op_sid (o : Opened) : string := br_SessionId (op_begin o).
Definition op_k (o : Opened) : string := DeriveKey (op_code o) (br_Salt (op_begin o)).

(** The message that it authenticates, and the request that it sends. *)
Definition op_msg (o : Opened) : string :=
  client_msg (op_sid o) (CertHash (op_cert o)) (op_csr o).
Definition op_request (o : Opened) : CompletePairingRequest :=
  mkCompleteReq (op_sid o) (op_csr o) (hmac_sha256 (op_k o) (op_msg o)).

Definition join_end (o : Opened) (reply : Reply CompletePairingResponse) (now1 now2 : Time)
  : result JoinResult :=
  let? resp := wrap_err "pairing: complete: %w" reply.1 in
  join_checks (op_key o) (op_k o) (op_nodeID o) (op_addr o) (op_begin o) (op_cert o)
    resp reply.2 now1 now2.

(** [Join] is the two halves, one after the other. *)
Lemma Join_halves dial begin_rpc complete_rpc addr code nodeID kr cr now1 now2 :
  Join dial begin_rpc complete_rpc addr code nodeID kr cr now1 now2 =
  let? o := join_begin dial addr code nodeID kr cr (begin_rpc (mkBeginReq nodeID)) in
  join_end o (complete_rpc (op_request o)) now1 now2.
Proof.
  unfold Join, join_begin. destruct (ValidateCodeFormat code) as [[]|]; [cbn [rbind]|done].
  destruct (NewKey kr) as [key|]; [cbn [rbind]|done].
  destruct (NewCSR nodeID key cr) as [csr|]; [cbn [rbind]|done].
  destruct dial as [[]|]; [cbn [rbind wrap_err]|done].
  destruct (begin_rpc (mkBeginReq nodeID)) as [[begin|] p]; [cbn [rbind wrap_err fst snd]|done].
  destruct (certFromPeer p) as [sc|]; [cbn [rbind]|done].
  unfold join_end, op_request, op_msg, op_k, op_sid, ClientMAC. cbn.
  by destruct (complete_rpc _) as [[] ?].
Qed.

Lemma join_begin_Ok dial addr code nodeID kr cr reply o :
  join_begin dial addr code nodeID kr cr reply = Ok o →
  NewCSR (op_nodeID o) (op_key o) cr = Ok (op_csr o) ∧
  op_code o = code ∧ op_nodeID o = nodeID ∧ op_addr o = addr ∧
  NewKey kr = Ok (op_key o) ∧ reply.1 = Ok (op_begin o) ∧ certFromPeer reply.2 = Ok (op_cert o).
Proof.
  unfold join_begin. intros ([] & _ & H)%rbind_Ok. apply rbind_Ok in H as (key & Hk & H).
  apply rbind_Ok in H as (csr & Hc & H). apply rbind_Ok in H as ([] & _ & H).
  apply rbind_Ok in H as (begin & Hb%wrap_err_Ok & H). apply rbind_Ok in H as (sc & Hs & H).
  by apply Ok_inj in H as <-.
Qed.
End Halves.

(** ** The network *)

(** The coordinator, the attempts it admitted with the bundle it answered, the
    joiners that sent their request, those that finished, and a history: every
    MAC that one of them made, as its key and its message. *)
Record Net := mkNet {
  n_sys : Sys;
  n_admitted : list (Attempt * Bundle);
  n_opened : list Opened;
  n_joined : list (Opened * JoinResult);
  n_macs : list (string * string)
}.

Section Network.
Context {C : Crypto} (secret : string → Prop) (ca : CA) (sc : Certificate).

(** A key derived from a code that the attacker does not know, for any salt. *)
Definition secret_key (k : string) : Prop := ∃ c salt, secret c ∧ k = DeriveKey c salt.

(** The attacker can send [mac]: if it is the MAC of a message under such a
    key, one of the honest parties made it. *)
Definition unforged (macs : list (string * string)) (mac : string) : Prop :=
  ∀ k m, secret_key k → hmac_sha256 k m = mac → (k, m) ∈ macs.

(** The message of an attempt, and the one of the answer to it. *)
Definition at_msg (a : Attempt) : string :=
  client_msg (ID (at_session a)) (CertHash sc) (at_csr a).
Definition bundle_msg (a : Attempt) (b : Bundle) : string :=
  server_msg (ID (at_session a)) (Raw (CACert b)) (Raw (NodeCert b)).

(** The steps of the coordinator on which the attacker's MAC has no part. *)
Definition own_label (l : label) : Prop :=
  match l with LClaim _ | LAdmit _ => False | _ => True end.

(** An attempt that passed the second section of [Complete] and is signed. *)
Definition signed (p : Pairer) (a : Attempt) (e : IssueEnv) : result Bundle :=
  complete_sign p (at_session a) (at_key a) (at_csr a) e.

Inductive net_step : Net → Net → Prop :=
| net_own l s s' ads os js ms :
    lstep None l s s' → own_label l →
    net_step (mkNet s ads os js ms) (mkNet s' ads os js ms)
| net_claim sid csr mac cands now p p' fl iss us fs se cs c k ads os js ms :
    unforged ms mac →
    complete_start sid now p = (p', Ok (se, cs)) →
    cands ≡ₚ (map_to_list cs).*1 →
    match_codes (CertHash (serverCert p')) se csr mac cands = (c, k) →
    net_step (mkNet (mkSys now p fl iss us fs) ads os js ms)
      (mkNet (mkSys now p' (mkAttempt se csr c k :: fl) iss us fs) ads os js ms)
| net_admit fl1 fl2 a now p p' iss us fs u e b ads os js ms :
    complete_finish (at_matched a) now p = (p', Ok u) →
    signed p' a e = Ok b →
    net_step (mkNet (mkSys now p (fl1 ++ a :: fl2) iss us fs) ads os js ms)
      (mkNet (mkSys now p' (fl1 ++ fl2) iss (at_matched a :: us) fs)
         ((a, b) :: ads) os js ((at_key a, bundle_msg a b) :: ms))
| net_bad_request fl1 fl2 a now p p' iss us fs u e err ads os js ms :
    complete_finish (at_matched a) now p = (p', Ok u) →
    signed p' a e = Err err →
    net_step (mkNet (mkSys now p (fl1 ++ a :: fl2) iss us fs) ads os js ms)
      (mkNet (mkSys now p' (fl1 ++ fl2) iss (at_matched a :: us) fs) ads os js ms)
| net_open dial addr code nodeID kr cr reply o s ads os js ms :
    join_begin dial addr code nodeID kr cr reply = Ok o →
    net_step (mkNet s ads os js ms)
      (mkNet s ads (o :: os) js ((op_k o, op_msg o) :: ms))
| net_close o resp peer now1 now2 r s ads os js ms :
    o ∈ os → unforged ms (cr_ServerMac resp) →
    join_end o (Ok resp, peer) now1 now2 = Ok r →
    net_step (mkNet s ads os js ms) (mkNet s ads os ((o, r) :: js) ms).

(** The network starts with a coordinator that issued nothing, whose CA is in
    working order. *)
Definition net_initial (σ : Net) : Prop :=
  wf_CA ca ∧ ParseCertificate (Raw (Cert ca)) = Some (Cert ca) ∧
  ∃ now ttl, σ = mkNet (mkSys now (mkPairer ca sc ttl ∅ ∅ []) [] [] [] []) [] [] [] [].
Definition net_reachable (σ : Net) : Prop := ∃ σ0, net_initial σ0 ∧ rtc net_step σ0 σ.

Lemma net_reachable_ind (P : Net → Prop) :
  (∀ σ, net_initial σ → P σ) → (∀ σ σ', net_step σ σ' → P σ → P σ') →
  ∀ σ, net_reachable σ → P σ.
Proof. intros H0 Hs σ (σ0 & Hi & Hr). apply H0 in Hi. clear H0. induction Hr; eauto. Qed.

Lemma net_reachable_steps σ σ' : net_reachable σ → rtc net_step σ σ' → net_reachable σ'.
Proof. intros (σ0 & Hi & Hr) Hs. exists σ0. split; [done|by etrans]. Qed.

(** *** The coordinator on the network is the coordinator of [PairerSys.v] *)

Lemma net_step_sys σ σ' : net_step σ σ' → rtc (step None) (n_sys σ) (n_sys σ').
Proof.
  intros []; cbn [n_sys]; try reflexivity; apply rtc_once; eexists;
    [eassumption|by eapply step_start|by eapply step_finish..].
Qed.
End Network.

Lemma net_reachable_sys {C : Crypto} secret ca sc σ :
  net_reachable secret ca sc σ → reachable None (n_sys σ).
Proof.
  apply (net_reachable_ind secret ca sc (λ σ, reachable None (n_sys σ))).
  - intros ? (_ & _ & now & ttl & ->). exists (mkSys now (mkPairer ca sc ttl ∅ ∅ []) [] [] [] []).
    split; [by exists now, ca, sc, ttl|reflexivity].
  - intros ? ? Hs%net_step_sys H. by eapply reachable_steps.
Qed.

(** ** What the network keeps *)

(** No operation changes the CA or the certificate of the coordinator. *)
Lemma lstep_fixed {C : Crypto} limit l s s' :
  lstep limit l s s' →
  pairer_ca (pairer s') = pairer_ca (pairer s) ∧ serverCert (pairer s') = serverCert (pairer s).
Proof.
  intros []; cbn [pairer]; try done.
  - unfold Issue in *. repeat case_match; by simplify_eq.
  - unfold PkiPairing.Begin. by repeat case_match.
  - match goal with H : complete_start ?i ?t ?q = _ |- _ =>
      pose proof (complete_start_state i t q) as E; rewrite H in E end.
    cbn in E. by subst.
  - match goal with H : complete_start ?i ?t ?q = _ |- _ =>
      pose proof (complete_start_state i t q) as E; rewrite H in E end.
    cbn in E. by subst.
  - unfold complete_finish in *. by repeat case_match; simplify_eq.
  - match goal with H : complete_finish _ _ _ = _ |- _ => apply complete_finish_Ok in H as (_ & _ & ->) end.
    done.
Qed.

(** A step of the coordinator alone makes no new attempt. *)
Lemma own_inflight {C : Crypto} limit l s s' a :
  lstep limit l s s' → own_label l → a ∈ inflight s' → a ∈ inflight s.
Proof.
  intros []; cbn [inflight own_label]; try done.
  intros _. rewrite !elem_of_app, elem_of_cons. tauto.
Qed.

Section Invariant.
Context {C : Crypto} (secret : string → Prop) (ca : CA) (sc : Certificate).

(** Every MAC was made by a joiner for its request, or by the coordinator for an
    attempt that it admitted. *)
Definition mac_made (σ : Net) (km : string * string) : Prop :=
  (∃ o, o ∈ n_opened σ ∧ km = (op_k o, op_msg o)) ∨
  (∃ a b, (a, b) ∈ n_admitted σ ∧ km = (at_key a, bundle_msg a b)).

(** An attempt that some code answered has a MAC made by an honest party, if
    its key is secret. *)
Definition good_attempt (macs : list (string * string)) (a : Attempt) : Prop :=
  slen (ID (at_session a)) = SessionIDLen ∧
  (at_matched a ≠ "" →
   at_key a = DeriveKey (at_matched a) (Salt (at_session a)) ∧
   (secret_key secret (at_key a) → (at_key a, at_msg sc a) ∈ macs)).

Definition good_admitted (macs : list (string * string)) (ab : Attempt * Bundle) : Prop :=
  good_attempt macs ab.1 ∧ at_matched ab.1 ≠ "" ∧
  ∃ p e, pairer_ca p = ca ∧ signed p ab.1 e = Ok ab.2.

Definition good_joined (macs : list (string * string)) (or : Opened * JoinResult) : Prop :=
  ∃ resp peer now1 now2,
    unforged secret macs (cr_ServerMac resp) ∧ join_end or.1 (Ok resp, peer) now1 now2 = Ok or.2.

Record net_inv (σ : Net) : Prop := mkInv {
  inv_wf : wf_sys (n_sys σ);
  inv_fixed : pairer_ca (pairer (n_sys σ)) = ca ∧ serverCert (pairer (n_sys σ)) = sc;
  inv_macs : Forall (mac_made σ) (n_macs σ);
  inv_flight : Forall (good_attempt (n_macs σ)) (inflight (n_sys σ));
  inv_admitted : Forall (good_admitted (n_macs σ)) (n_admitted σ);
  inv_opened : Forall (λ o, ∃ cr, NewCSR (op_nodeID o) (op_key o) cr = Ok (op_csr o)) (n_opened σ);
  inv_joined : Forall (good_joined (n_macs σ)) (n_joined σ)
}.

(** More MACs keep what is known of the old ones. *)
Lemma good_attempt_mono ms ms' a : ms ⊆ ms' → good_attempt ms a → good_attempt ms' a.
Proof. intros Hs [Hl Hm]. split; [done|]. intros [Hk Hin]%Hm. auto. Qed.
Lemma good_admitted_mono ms ms' ab : ms ⊆ ms' → good_admitted ms ab → good_admitted ms' ab.
Proof. intros Hs [Ha Hb]. split; [by eapply good_attempt_mono|done]. Qed.
Lemma good_joined_mono ms ms' or : ms ⊆ ms' → good_joined ms or → good_joined ms' or.
Proof.
  intros Hs (resp & peer & n1 & n2 & Hu & H). exists resp, peer, n1, n2. split; [|done].
  intros k m Hk Hm. apply Hs. by apply Hu.
Qed.

Lemma mac_made_mono σ σ' km :
  n_opened σ ⊆ n_opened σ' → n_admitted σ ⊆ n_admitted σ' → mac_made σ km → mac_made σ' km.
Proof. intros Ho Ha [(o & Hin & ->)|(a & b & Hin & ->)]; [left|right]; eauto 6. Qed.

Lemma net_step_coord σ σ' :
  net_step secret σ σ' →
  wf_sys (n_sys σ) ∧ pairer_ca (pairer (n_sys σ)) = ca ∧ serverCert (pairer (n_sys σ)) = sc →
  wf_sys (n_sys σ') ∧ pairer_ca (pairer (n_sys σ')) = ca ∧ serverCert (pairer (n_sys σ')) = sc.
Proof.
  intros Hr%net_step_sys. induction Hr as [|s1 s2 s3 Hs _ IH]; [done|].
  intros (Hw & Hca & Hsc). apply IH. pose proof (wf_sys_step _ _ _ Hs Hw) as Hw'.
  destruct Hs as [l Hl]. apply lstep_fixed in Hl as [-> ->]. done.
Qed.

(** An attempt is born: the MAC that a code answers is the one that came. *)
Lemma claim_good ms sid csr mac cands now p p' se cs c k :
  wf_pairer p → serverCert p = sc → unforged secret ms mac →
  complete_start sid now p = (p', Ok (se, cs)) →
  match_codes (CertHash (serverCert p')) se csr mac cands = (c, k) →
  good_attempt ms (mkAttempt se csr c k).
Proof.
  intros (_ & Hw & _) Hsc Hu (Hs & _ & _ & _ & ->)%complete_start_Ok Hm.
  destruct (Hw _ _ Hs) as (Hid & Hl & _). split; [cbn; congruence|]. cbn. intros Hne.
  apply match_codes_spec in Hm as [(_ & Hd & Hm)|[-> _]]; [|done].
  split; [exact Hd|]. intros Hk. cbn in Hm. rewrite Hsc in Hm. by apply Hu.
Qed.

(** What is left in flight when an attempt ends. *)
Lemma flight_drop (P : Attempt → Prop) (fl1 fl2 : list Attempt) a :
  Forall P (fl1 ++ a :: fl2) → P a ∧ Forall P (fl1 ++ fl2).
Proof. rewrite !Forall_app, Forall_cons. tauto. Qed.

(** What was known before a step holds with what it adds. *)
Lemma inv_grow σ s' ads' os' js' ms' :
  net_inv σ → n_macs σ ⊆ ms' → n_opened σ ⊆ os' → n_admitted σ ⊆ ads' →
  Forall (mac_made (mkNet s' ads' os' js' ms')) (n_macs σ) ∧
  Forall (good_attempt ms') (inflight (n_sys σ)) ∧
  Forall (good_admitted ms') (n_admitted σ) ∧ Forall (good_joined ms') (n_joined σ).
Proof.
  intros [_ _ Hm Hfl Had _ Hj] Hms Hos Hads.
  split_and!; eapply Forall_impl; try eassumption; intros ? H.
  - by eapply mac_made_mono.
  - by eapply good_attempt_mono.
  - by eapply good_admitted_mono.
  - by eapply good_joined_mono.
Qed.

Lemma net_inv_step σ σ' : net_step secret σ σ' → net_inv σ → net_inv σ'.
Proof.
  intros Hs Hi. pose proof Hi as [Hw Hf Hm Hfl Had Ho Hj].
  destruct (net_step_coord _ _ Hs (conj Hw Hf)) as [Hw' Hf'].
  pose proof (inv_grow _ (n_sys σ') (n_admitted σ') (n_opened σ') (n_joined σ') (n_macs σ') Hi)
    as Hg.
  destruct Hs; cbn in *;
    (destruct Hg as (Gm & Gfl & Gad & Gj); [set_solver..|]);
    split; try exact Hw'; try exact Hf'; try done; cbn in *; try (apply Forall_cons; split; [|done]).
  - apply Forall_forall. intros a Ha. eapply (proj1 (Forall_forall _ _) Gfl). by eapply own_inflight.
  - by eapply claim_good; [|apply Hf| | |]; [apply Hw|..].
  - right. exists a, b. split; [set_solver|done].
  - by apply (flight_drop _ fl1 fl2 a).
  - apply flight_drop in Gfl as [Ga _]. split; [exact Ga|].
    split; [by eapply complete_finish_Ok|]. exists p', e. split; [apply Hf'|done].
  - by apply (flight_drop _ fl1 fl2 a).
  - left. exists o. split; [set_solver|done].
  - exists cr. by eapply join_begin_Ok.
  - by exists resp, peer, now1, now2.
Qed.

Lemma net_reachable_inv σ : net_reachable secret ca sc σ → net_inv σ.
Proof.
  apply (net_reachable_ind secret ca sc net_inv); [|apply net_inv_step].
  intros ? (_ & _ & now & ttl & ->). split; try apply Forall_nil_2; [apply wf_new|done].
Qed.
End Invariant.

Section Agreement.
Context {C : Crypto} {L : CryptoLaws C} (secret : string → Prop) (ca : CA) (sc : Certificate).

Lemma net_reachable_CA σ :
  net_reachable secret ca sc σ → wf_CA ca ∧ ParseCertificate (Raw (Cert ca)) = Some (Cert ca).
Proof. intros (σ0 & (H1 & H2 & _) & _). done. Qed.

(** The request that a joiner makes holds its name and its key. *)
Lemma NewCSR_request nodeID key cr csr :
  NewCSR nodeID key cr = Ok csr →
  ∃ req, ParseCertificateRequest csr = Some req ∧ csr_cn req = nodeID ∧
    csr_pub req = ECDSAPub (priv_pub key).
Proof.
  unfold NewCSR. destruct (validateLabel nodeID); [|done]. cbn.
  intros (req & Hp & Hcn & Hpk & _)%of_option_Ok%csr_parse. by exists req.
Qed.

(** The bundle of an admitted attempt. *)
Lemma signed_Ok p a e b :
  pairer_ca p = ca → wf_CA ca → signed p a e = Ok b →
  CACert b = Cert ca ∧ ParseCertificate (Raw (NodeCert b)) = Some (NodeCert b) ∧
  ∃ req pub, ParseCertificateRequest (at_csr a) = Some req ∧ csr_pub req = ECDSAPub pub ∧
    cert_pub (NodeCert b) = ECDSAPub pub ∧
    PrincipalFromCert (NodeCert b) = Ok (mkPrincipal (ca_MeshID ca) RoleNode (csr_cn req)).
Proof.
  intros Hca Hwf (req & cert & Hreq & HS & ->)%complete_sign_Ok. rewrite Hca in *. cbn.
  destruct (SignCSR_issued _ _ _ _ _ _ (proj2 Hwf) HS) as (req' & pub & Hreq' & _ & Hk & _ & Hp & HP).
  rewrite Hreq in Hreq'. injection Hreq' as <-.
  apply SignCSR_Sign in HS as [pub' HS]. split; [done|].
  split; [by eapply Sign_parses|]. by exists req, pub.
Qed.

(** A client's MAC was made by a joiner, a server's for an admitted attempt. *)
Lemma client_mac_made σ k s h csr :
  net_inv secret ca sc σ → (k, client_msg s h csr) ∈ n_macs σ →
  ∃ o, o ∈ n_opened σ ∧ op_k o = k ∧ op_msg o = client_msg s h csr.
Proof.
  intros Hi Hm. apply (proj1 (Forall_forall _ _) (inv_macs _ _ _ _ Hi)) in Hm
    as [(o & Ho & E)|(a & b & _ & E)]; apply pair_equal_spec in E as [-> E].
  - by exists o.
  - by apply client_server_msg_ne in E.
Qed.

Lemma server_mac_made σ k s x y :
  net_inv secret ca sc σ → (k, server_msg s x y) ∈ n_macs σ →
  ∃ a b, (a, b) ∈ n_admitted σ ∧ at_key a = k ∧ bundle_msg a b = server_msg s x y.
Proof.
  intros Hi Hm. apply (proj1 (Forall_forall _ _) (inv_macs _ _ _ _ Hi)) in Hm
    as [(o & _ & E)|(a & b & Ha & E)]; apply pair_equal_spec in E as [-> E].
  - by destruct (client_server_msg_ne _ _ _ _ _ _ (eq_sym E)).
  - by exists a, b.
Qed.

(** An admitted attempt whose key is secret repeats what a joiner authenticated. *)
Lemma admitted_opened σ a b :
  net_inv secret ca sc σ → (a, b) ∈ n_admitted σ → secret_key secret (at_key a) →
  ∃ o, o ∈ n_opened σ ∧ op_k o = at_key a ∧
    (slen (op_sid o) = SessionIDLen →
     op_sid o = ID (at_session a) ∧ CertHash (op_cert o) = CertHash sc ∧ op_csr o = at_csr a).
Proof.
  intros Hi Ha Hk.
  destruct (proj1 (Forall_forall _ _) (inv_admitted _ _ _ _ Hi) _ Ha) as ([Hl Hm] & Hne & _).
  destruct (client_mac_made _ _ _ _ _ Hi (proj2 (Hm Hne) Hk)) as (o & Ho & E & Hmsg).
  exists o. split_and!; [done|done|]. intros Hlo.
  apply client_msg_inj in Hmsg; [done|exact (eq_trans Hlo (eq_sym Hl))|by unfold CertHash; rewrite !sha256_len].
Qed.

(** A joiner that finished under a secret code holds the bundle of an admitted
    attempt. *)
Lemma joined_admitted σ o r :
  net_reachable secret ca sc σ → (o, r) ∈ n_joined σ → secret (op_code o) →
  ∃ a b, (a, b) ∈ n_admitted σ ∧ at_key a = op_k o ∧
    (slen (op_sid o) = SessionIDLen →
     op_sid o = ID (at_session a) ∧ CACert (jr_Bundle r) = CACert b ∧
     NodeCert (jr_Bundle r) = NodeCert b).
Proof.
  intros Hr Hin Hs. pose proof (net_reachable_inv _ _ _ _ Hr) as Hi.
  destruct (net_reachable_CA _ Hr) as [Hwf Hpc].
  destruct (proj1 (Forall_forall _ _) (inv_joined _ _ _ _ Hi) _ Hin)
    as (resp & peer & n1 & n2 & Hu & H).
  apply rbind_Ok in H as (resp' & [= <-]%wrap_err_Ok & H).
  apply join_checks_Ok in H as (c2 & sp & host & port & _ & (Hp1 & Hp2) & Hv & _ & _ & _ & E).
  apply VerifyBundle_Ok in Hv as [Hmac _]. cbn [fst snd] in *.
  assert (Hb : Bundle_ServerMAC (jr_Bundle r) = cr_ServerMac resp) by by rewrite E.
  rewrite Hb in Hmac. apply Hu in Hmac; [|by exists (op_code o), (br_Salt (op_begin o))].
  destruct (server_mac_made _ _ _ _ _ Hi Hmac) as (a & b & Ha & Hk & Hmsg).
  destruct (proj1 (Forall_forall _ _) (inv_admitted _ _ _ _ Hi) _ Ha)
    as ([Hl _] & _ & p & e & Hca & Hsign). cbn [fst snd] in *.
  destruct (signed_Ok _ _ _ _ Hca Hwf Hsign) as (EC & Hpn & _).
  exists a, b. split_and!; [done|done|]. intros Hlo. unfold bundle_msg in Hmsg.
  eapply server_msg_inj in Hmsg as (Es & Er1 & Er2);
    [|unfold op_sid in Hlo; congruence|by rewrite EC|by rewrite (parse_Raw _ _ Hp1)].
  rewrite EC in Er1 |- *. rewrite (parse_Raw _ _ Hp1) in Er1. rewrite (parse_Raw _ _ Hp2) in Er2.
  rewrite <-Er1, Hpc in Hp1. rewrite <-Er2, Hpn in Hp2. unfold op_sid; split_and!; congruence.
Qed.

(** So it is in the coordinator's mesh. *)
Lemma joined_mesh σ o r :
  net_reachable secret ca sc σ → (o, r) ∈ n_joined σ → secret (op_code o) →
  slen (op_sid o) = SessionIDLen →
  CACert (jr_Bundle r) = Cert ca ∧ Bundle_MeshID (jr_Bundle r) = ca_MeshID ca ∧
  ∃ resp peer now1 now2,
    join_checks (op_key o) (op_k o) (op_nodeID o) (op_addr o) (op_begin o) (op_cert o) resp peer
      now1 now2 = Ok r.
Proof.
  intros Hr Hin Hs Hl. destruct (joined_admitted _ _ _ Hr Hin Hs) as (a & b & Ha & _ & Hag).
  destruct (Hag Hl) as (_ & Eca & _).
  pose proof (net_reachable_inv _ _ _ _ Hr) as Hi.
  destruct (proj1 (Forall_forall _ _) (inv_admitted _ _ _ _ Hi) _ Ha) as (_ & _ & p & e & Hca & Hsg).
  destruct (signed_Ok _ _ _ _ Hca (proj1 (net_reachable_CA _ Hr)) Hsg) as (EC & _).
  cbn in EC. rewrite EC in Eca. split; [done|].
  destruct (proj1 (Forall_forall _ _) (inv_joined _ _ _ _ Hi) _ Hin)
    as (resp & peer & n1 & n2 & _ & H).
  apply rbind_Ok in H as (resp' & [= <-]%wrap_err_Ok & H). split; [|by exists resp, peer, n1, n2].
  apply join_checks_Ok in H as (c2 & sp & host & port & _ & _ & Hv & _).
  apply VerifyBundle_Ok in Hv as [_ (_ & _ & Hm)%VerifyAgainst_Ok]. cbn in Hm, Eca.
  by rewrite Eca in Hm.
Qed.
End Agreement.

(** The admitted attempts consumed their codes. *)
Lemma own_used {C : Crypto} limit l s s' : lstep limit l s s' → own_label l → used s' = used s.
Proof. by intros []. Qed.

Lemma admitted_used {C : Crypto} secret ca sc σ :
  net_reachable secret ca sc σ → at_matched <$> (n_admitted σ).*1 ⊆+ used (n_sys σ).
Proof.
  apply (net_reachable_ind secret ca sc (λ σ, at_matched <$> (n_admitted σ).*1 ⊆+ used (n_sys σ))).
  - by intros ? (_ & _ & now & ttl & ->).
  - intros ? ? [] Hi; cbn in *; try done.
    + match goal with Hl : lstep _ _ _ _ |- _ => by rewrite (own_used _ _ _ _ Hl) end.
    + by apply submseteq_skip.
    + by apply submseteq_cons.
Qed.

(** ** Properties *)

(** C4: the coordinator admits nobody but the joiners that know the code.  On a
    network that belongs to the attacker, an attempt admitted under a key that
    the attacker does not have was made by a joiner with this very key; and
    when the joiner's session ID has the 16 bytes that the coordinator's have,
    it was made for this session, for a TLS connection that showed the
    coordinator's own certificate, and for this request: the certificate that
    was signed has the joiner's fresh key and names the joiner's node_id. *)
Theorem admitted_is_joiner {C : Crypto} {L : CryptoLaws C} secret ca sc σ a b :
  net_reachable secret ca sc σ → (a, b) ∈ n_admitted σ → secret_key secret (at_key a) →
  ∃ o, o ∈ n_opened σ ∧ op_k o = at_key a ∧
    (slen (op_sid o) = SessionIDLen →
     op_sid o = ID (at_session a) ∧ CertHash (op_cert o) = CertHash sc ∧
     cert_pub (NodeCert b) = ECDSAPub (priv_pub (op_key o)) ∧
     PrincipalFromCert (NodeCert b) = Ok (mkPrincipal (ca_MeshID ca) RoleNode (op_nodeID o))).
Proof.
  intros Hr Ha Hk. pose proof (net_reachable_inv _ _ _ _ Hr) as Hi.
  destruct (admitted_opened _ _ _ _ a b Hi Ha Hk) as (o & Ho & Ek & Hag).
  exists o. split_and!; [done|done|]. intros Hl. destruct (Hag Hl) as (Es & Eh & Ec).
  destruct (proj1 (Forall_forall _ _) (inv_admitted _ _ _ _ Hi) _ Ha) as (_ & _ & p & e & Hca & Hsg).
  destruct (net_reachable_CA _ _ _ _ Hr) as [Hwf _].
  destruct (signed_Ok _ _ _ _ _ Hca Hwf Hsg) as (_ & _ & req & pub & Hreq & Hpub & Hcp & HP).
  destruct (proj1 (Forall_forall _ _) (inv_opened _ _ _ _ Hi) _ Ho) as [cr Hcsr].
  cbn [fst snd] in *. apply NewCSR_request in Hcsr as (req' & Hreq' & Hcn & Hpk).
  rewrite Ec, Hreq in Hreq'. injection Hreq' as <-.
  split_and!; [done|done|congruence|by rewrite HP, Hcn].
Qed.

(** C5: a joiner never ends up in another mesh.  A [Join] that succeeds on the
    attacker's network, with a code that the attacker does not know, was
    answered by the coordinator: it admitted an attempt under the joiner's key;
    and when the session ID that the joiner was given has 16 bytes, the attempt
    is of this session, and the joiner holds the coordinator's own CA, the mesh
    of this CA, and the very node certificate that was issued; the certificate
    of the server it talked to was given by this CA to a node. *)
Theorem joiner_not_misled {C : Crypto} {L : CryptoLaws C} secret ca sc σ o r :
  net_reachable secret ca sc σ → (o, r) ∈ n_joined σ → secret (op_code o) →
  ∃ a b, (a, b) ∈ n_admitted σ ∧ at_key a = op_k o ∧
    (slen (op_sid o) = SessionIDLen →
     ID (at_session a) = op_sid o ∧ CACert (jr_Bundle r) = Cert ca ∧
     Bundle_MeshID (jr_Bundle r) = ca_MeshID ca ∧ NodeCert (jr_Bundle r) = NodeCert b ∧
     ∃ now, VerifyAgainst (Cert ca) (op_cert o) now =
              Ok (mkPrincipal (ca_MeshID ca) RoleNode (jr_CoordinatorNodeID r))).
Proof.
  intros Hr Hin Hs. destruct (joined_admitted _ _ _ _ _ _ Hr Hin Hs) as (a & b & Ha & Ek & Hag).
  exists a, b. split_and!; [done|done|]. intros Hl. destruct (Hag Hl) as (Es & _ & Ecert).
  destruct (joined_mesh _ _ _ _ _ _ Hr Hin Hs Hl) as (Eca & Em & resp & peer & n1 & n2 & H).
  apply join_checks_Ok in H as
    (c2 & sp & host & port & _ & _ & _ & _ & (Hsp & Hro & Hn) & _ & E).
  rewrite Eca in Hsp. split_and!; try done. exists n2. rewrite Hsp. f_equal.
  assert (Hc : jr_CoordinatorNodeID r = cr_CoordinatorNodeId resp) by by rewrite E.
  apply VerifyAgainst_Ok in Hsp as (_ & _ & Hm').
  destruct sp as [m ro n]. cbn in *. by rewrite Hro, Hc, <-Hn, Hm'.
Qed.

(** C6: a machine that paired on the attacker's network trusts its mesh and no
    other.  What [Persist] leaves of a [Join] under a code that the attacker
    does not know, and a session ID of 16 bytes, is loaded as the identity of
    this node in the coordinator's mesh, with the joiner's key and the
    coordinator's CA; and whoever then completes a handshake with it, as its
    server or as its client, holds the key of a certificate that this CA signed
    for this mesh. *)
Theorem paired_node_trusts_its_mesh {C : Crypto} {L : CryptoLaws C}
    secret ca sc σ o r env dir ow fs fs' :
  net_reachable secret ca sc σ → (o, r) ∈ n_joined σ → secret (op_code o) →
  slen (op_sid o) = SessionIDLen → Persist env r dir ow fs = (fs', Ok tt) →
  ∃ id now0, LoadNodeIdentity env dir now0 fs' = (fs', Ok id) ∧
    id_Principal id = mkPrincipal (ca_MeshID ca) RoleNode (op_nodeID o) ∧
    id_Key id = op_key o ∧ id_CACert id = Cert ca ∧
    let member peer now leaf := holds_key peer leaf ∧ x509_Verify leaf (Cert ca) now = true ∧
      ∃ p, PrincipalFromCert leaf = Ok p ∧ MeshID p = ca_MeshID ca in
    (∀ peer nodeID now pcs seen,
       tls_connect peer (ClientTLS id nodeID) now = Ok (pcs, seen) →
       ∃ leaf rest, seen = leaf :: rest ∧ member peer now leaf) ∧
    (∀ peer now pcs seen,
       tls_connect (ServerTLS id) peer now = Ok (pcs, seen) →
       ∃ leaf rest, pcs = leaf :: rest ∧ member peer now leaf).
Proof.
  intros Hr Hin Hs Hl HP.
  destruct (joined_mesh _ _ _ _ _ _ Hr Hin Hs Hl) as (Eca & Em & resp & peer & n1 & n2 & H).
  destruct (Persist_checked _ _ _ _ _ _ _ _ _ _ _ _ _ _ _ _ H HP)
    as ((id & Hld & Hp & Hk & _ & Hc & Hpool) & _).
  apply join_checks_Ok in H as (? & ? & ? & ? & _ & _ & _ & _ & _ & _ & E).
  assert (Ek : jr_Key r = op_key o) by by rewrite E.
  assert (Emesh : id_MeshID id = ca_MeshID ca) by (unfold id_MeshID; by rewrite Hp).
  rewrite Eca in Hc, Hpool. rewrite Em in Hp. rewrite Ek in Hk.
  exists id, n1. cbv zeta. split_and!; try done.
  - intros q nodeID now pcs seen (leaf & rest & p & -> & Hh & Hv & _ & Hpc & Hm)%(client_sees _ (Cert ca));
      [|done]. rewrite Emesh in Hm. exists leaf, rest. split_and!; eauto.
  - intros q now pcs seen (leaf & rest & p & -> & Hh & Hv & Hpc & Hm)%(server_sees _ (Cert ca));
      [|done]. rewrite Emesh in Hm. exists leaf, rest. split_and!; eauto.
Qed.

(** C7: one certificate per code, on the attacker's network too.  The codes that
    the admitted attempts answered are covered, one for one, by the codes that
    were issued, and the key of an attempt is the one of its code and of its
    session's salt. *)
Theorem one_certificate_per_code {C : Crypto} secret ca sc σ :
  net_reachable secret ca sc σ →
  at_matched <$> (n_admitted σ).*1 ⊆+ issued (n_sys σ) ∧
  ∀ a b, (a, b) ∈ n_admitted σ → at_key a = DeriveKey (at_matched a) (Salt (at_session a)).
Proof.
  intros Hr. split.
  - etrans; [by eapply admitted_used|].
    etrans; [|apply (reachable_ind None inv_used) with (σ := n_sys σ)];
      [by apply submseteq_inserts_r| |apply inv_used_step|by eapply net_reachable_sys].
    intros ? (now & ca' & sc' & ttl & ->). unfold inv_used, keys. cbn. by rewrite map_to_list_empty.
  - intros a b Ha. pose proof (net_reachable_inv _ _ _ _ Hr) as Hi.
    destruct (proj1 (Forall_forall _ _) (inv_admitted _ _ _ _ Hi) _ Ha) as ([_ Hk] & Hne & _).
    apply (Hk Hne).
Qed.

(** *** A run, for the witnesses *)

Definition ex_secret (c : string) : Prop := c = ex_code.

(** In the symbolic instance a MAC tells its key and its message. *)
Lemma made_unforged secret ms k m :
  (k, m) ∈ ms → unforged secret ms (hmac_sha256 k m).
Proof.
  intros Hin k' m' _ E. change (enc_list [k'; m'] = enc_list [k; m]) in E. apply (f_equal dec_list) in E. rewrite !dec_enc in E.
  injection E as -> ->. done.
Qed.

Definition ex_begin_answer : Reply BeginPairingResponse :=
  honest_begin (Some "session") (Some "salt") ex_now ex_now ex_srv1 (mkBeginReq "laptop").
Definition ex_open_result : result Opened :=
  join_begin (Ok tt) "10.0.0.5:7444" ex_code "laptop" (Some "joiner") "r" ex_begin_answer.
Definition ex_opened : Opened :=
  match ex_open_result with
  | Ok o => o
  | Err _ => mkOpened "" "" "" ex_joiner "" ex_begin_reply ex_server_cert
  end.
Definition ex_admitted : Attempt := mkAttempt ex_session ex_join_csr ex_code ex_key.
Definition ex_answer : Reply CompletePairingResponse :=
  honest_complete id ex_now ex_now ex_env ex_server (op_request ex_opened).
Definition ex_resp : CompletePairingResponse :=
  match ex_answer.1 with Ok r => r | Err _ => mkCompleteResp "" "" "" "" "" "" end.

Definition ex_macs1 : list (string * string) := [(op_k ex_opened, op_msg ex_opened)].
Definition ex_macs2 : list (string * string) :=
  (at_key ex_admitted, bundle_msg ex_admitted ex_bundle) :: ex_macs1.
Definition ex_claimed : Net :=
  mkNet (mkSys ex_now ex_p1' [ex_admitted] [ex_code] [] []) [] [ex_opened] [] ex_macs1.
Definition ex_signed : Net :=
  mkNet (mkSys ex_now ex_done.1 [] [ex_code] [ex_code] []) [(ex_admitted, ex_bundle)]
    [ex_opened] [] ex_macs2.
Definition ex_net : Net :=
  mkNet (n_sys ex_signed) (n_admitted ex_signed) [ex_opened] [(ex_opened, ex_result)] ex_macs2.

Lemma ex_net_claimed : net_reachable ex_secret ex_ca ex_server_cert ex_claimed.
Proof.
  exists (mkNet ex_sys0 [] [] [] []). split.
  { split; [exact ex_ca_wf|]. split; [vm_compute; reflexivity|]. by eexists _, _. }
  eapply rtc_l; [apply net_own with (l := LIssue ex_code) (s' := mkSys ex_now ex_p1 [] [ex_code] [] []); [|done]|].
  { apply (step_issue None 0 42 ex_now ex_now ex_pairer [] [] [] [] ex_p1
      (mkIssued ex_code (time_Add ex_now DefaultCodeTTL)));
      [unfold codeSpace; lia|done|vm_compute; reflexivity]. }
  eapply rtc_l; [apply net_own with (l := LOpen ex_sid) (s' := ex_sys2); [|done]|].
  { exact (step_begin None (Some "session") (Some "salt") ex_now ex_now ex_p1 [] [ex_code] [] []
      (Z.le_refl _)). }
  eapply rtc_l; [apply (net_open _ (Ok tt) "10.0.0.5:7444" ex_code "laptop" (Some "joiner") "r"
    ex_begin_answer ex_opened); vm_compute; reflexivity|].
  apply rtc_once.
  apply (net_claim _ ex_sid ex_join_csr ex_mac [ex_code] ex_now ex_p2 ex_p1' [] [ex_code] [] []
    ex_session (codes ex_p1')).
  - replace ex_mac with (hmac_sha256 (op_k ex_opened) (op_msg ex_opened)) by (vm_compute; reflexivity).
    apply made_unforged. left.
  - vm_compute. reflexivity.
  - vm_compute. reflexivity.
  - vm_compute. reflexivity.
Qed.

Lemma ex_net_reach : net_reachable ex_secret ex_ca ex_server_cert ex_net.
Proof.
  apply (net_reachable_steps _ _ _ ex_claimed); [apply ex_net_claimed|].
  eapply rtc_l with (y := ex_signed).
  - apply (net_admit _ [] [] ex_admitted ex_now ex_p1' ex_done.1 [ex_code] [] [] tt ex_env ex_bundle);
      vm_compute; reflexivity.
  - apply rtc_once. apply (net_close _ ex_opened ex_resp ex_answer.2 ex_now ex_now); [left| |vm_compute; reflexivity].
    replace (cr_ServerMac ex_resp) with (hmac_sha256 (at_key ex_admitted) (bundle_msg ex_admitted ex_bundle))
      by (vm_compute; reflexivity).
    apply made_unforged. left.
Qed.

Lemma ex_key_secret : secret_key ex_secret ex_key.
Proof. by exists ex_code, ex_salt. Qed.

Lemma admitted_is_joiner_witness :
  net_reachable ex_secret ex_ca ex_server_cert ex_net ∧
  op_k ex_opened = ex_key ∧ op_sid ex_opened = ex_sid ∧
  cert_pub (NodeCert ex_bundle) = ECDSAPub (priv_pub (op_key ex_opened)).
Proof.
  split; [exact ex_net_reach|].
  destruct (admitted_is_joiner ex_secret ex_ca ex_server_cert ex_net ex_admitted ex_bundle
    ex_net_reach ltac:(left) ex_key_secret) as (o & Ho & Hk & H).
  apply list_elem_of_singleton in Ho. subst o.
  destruct H as (Hs & _ & Hc & _); [vm_compute; reflexivity|]. auto.
Defined.

Lemma joiner_not_misled_witness :
  (ex_opened, ex_result) ∈ n_joined ex_net ∧ CACert (jr_Bundle ex_result) = Cert ex_ca ∧
  NodeCert (jr_Bundle ex_result) = NodeCert ex_bundle.
Proof.
  split; [left|].
  destruct (joiner_not_misled ex_secret ex_ca ex_server_cert ex_net ex_opened ex_result
    ex_net_reach ltac:(left) ltac:(vm_compute; reflexivity)) as (a & b & Ha & _ & H).
  apply list_elem_of_singleton in Ha. apply pair_equal_spec in Ha as [-> ->].
  destruct H as (_ & H1 & _ & H2 & _); [vm_compute; reflexivity|]. auto.
Defined.

Lemma paired_node_trusts_its_mesh_witness :
  Persist no_faults ex_result "d" false (mkFS ∅ ∅ 18) = (ex_home, Ok tt) ∧
  ∃ id now0, LoadNodeIdentity no_faults "d" now0 ex_home = (ex_home, Ok id) ∧
    id_CACert id = Cert ex_ca ∧ id_Principal id = mkPrincipal "home" RoleNode "laptop".
Proof.
  assert (HP : Persist no_faults ex_result "d" false (mkFS ∅ ∅ 18) = (ex_home, Ok tt))
    by (vm_compute; reflexivity).
  split; [exact HP|].
  destruct (paired_node_trusts_its_mesh ex_secret ex_ca ex_server_cert ex_net ex_opened ex_result
    no_faults "d" false (mkFS ∅ ∅ 18) ex_home ex_net_reach ltac:(left) ltac:(vm_compute; reflexivity)
    ltac:(vm_compute; reflexivity) HP) as (id & now0 & Hl & Hp & _ & Hc & _).
  exists id, now0. split; [exact Hl|split; [exact Hc|exact Hp]].
Defined.

Lemma one_certificate_per_code_witness :
  net_reachable ex_secret ex_ca ex_server_cert ex_net ∧ [ex_code] ⊆+ issued (n_sys ex_net).
Proof.
  split; [exact ex_net_reach|].
  exact (proj1 (one_certificate_per_code ex_secret ex_ca ex_server_cert ex_net ex_net_reach)).
Defined.

(** *** The length of a session ID *)

(** The joiner takes a session ID of any length, though the coordinator's have
    16 bytes and the MAC's message has no separators.  Given one of 48 bytes by
    a server with another certificate, it makes the MAC of a 16-byte session,
    the coordinator's certificate and a longer request: the coordinator's
    certificate is not what its own connection showed.  The theorems above ask
    for the length for this reason. *)
Theorem session_length_unchecked {C : Crypto} dial addr code nodeID kr cr begin peer o sid cert :
  join_begin dial addr code nodeID kr cr (Ok begin, peer) = Ok o →
  br_SessionId begin = sid +:+ CertHash cert →
  op_msg o = client_msg sid (CertHash cert) (CertHash (op_cert o) +:+ op_csr o).
Proof.
  intros (_ & _ & _ & _ & _ & [= Hb] & _)%join_begin_Ok E.
  unfold op_msg, client_msg, op_sid. by rewrite <-Hb, E, app_assoc_s.
Qed.
