(* ===== verification/Coordinator.v ===== *)
(** * Package [internal/coordinator], the admin API

    Models [src/internal/coordinator/admin.go], the dispatch of its one method
    in [src/proto/lcm/v1/admin_grpc.pb.go], and the guard that [meshd] puts in
    front of it.  The [Pairer] is shared with the pairing listener, so it is
    the state that the handlers pass on. *)
From S2P Require Import Prelude GoStrings GoTime GoFormat Labels Crypto SymCrypto GoGrpc PkiCA PkiPairing.
From S2P Require Import Transport PairingServer.
Local Open Scope Z_scope.

Definition AdminServicePrefix : string := "/lcm.v1.AdminService/".
Definition MaxPairingCodeTTL : Duration := 10 * Minute.
Definition AdminService_CreatePairingCode_FullMethodName : string :=
  "/lcm.v1.AdminService/CreatePairingCode".

(** Messages of [proto/lcm/v1/admin.proto]; [ttl_seconds] is a uint32. *)
Record CreatePairingCodeRequest := mkCreateReq { TtlSeconds : Z }.
Record CreatePairingCodeResponse := mkCreateResp {
  cc_Code : string; cc_ExpiresAt : Time; cc_PairAddr : string }.
Definition is_uint32 (n : Z) : bool := in_range 0 4294967295 n.

Record Admin := mkAdmin { adm_pairAddr : string }.
Definition NewAdmin (pairAddr : string) : Admin := mkAdmin pairAddr.

(** [Admin.CreatePairingCode]; the caller's name is only logged. *)
Definition CreatePairingCode (a : Admin) (rnd : option Z) (now now_gc : Time)
    (req : CreatePairingCodeRequest) (p : Pairer) : Pairer * (CreatePairingCodeResponse + Status) :=
  let ttl := dur_mul (TtlSeconds req) Second in
  if MaxPairingCodeTTL <? ttl
  then (p, inr (mkStatus codes_InvalidArgument (Errorf "ttl_seconds must be ≤ %d")))
  else match Issue ttl rnd now now_gc p with
  | (p, Err err) => (p, inr (mkStatus codes_Internal err))
  | (p, Ok issued) =>
      (p, inl (mkCreateResp (Code issued) (Issued_ExpiresAt issued) (adm_pairAddr a)))
  end.

Section Guard.
Context {C : Crypto}.

Definition AdminInterceptors : Interceptor * Interceptor :=
  RequireRole AdminServicePrefix [RoleAdmin].

(** [_AdminService_CreatePairingCode_Handler]: decode, then call the method, or
    hand it to the interceptor when there is one. *)
Definition AdminService_CreatePairingCode_Handler {S : Type}
    (method : CreatePairingCodeRequest → S → S * (CreatePairingCodeResponse + Status))
    (dec : CreatePairingCodeRequest + Status) (interceptor : option Interceptor) (ctx : Context_)
    (st : S) : S * (CreatePairingCodeResponse + Status) :=
  match dec with
  | inr err => (st, inr err)
  | inl req =>
      match interceptor with
      | None => method req st
      | Some i => intercept i ctx AdminService_CreatePairingCode_FullMethodName
                    (λ _, method req) st
      end
  end.

(** The interceptor that gRPC hands to a handler: the chain of the server's. *)
Definition server_interceptor (s : GServer) : option Interceptor :=
  match gs_unary s with [] => None | l => Some (chain l) end.

(** The control-plane server of a coordinator, as [meshd] builds it. *)
Definition coordinator_server (id : Identity) : GServer :=
  id_NewServer id [ChainUnaryInterceptor AdminInterceptors.1;
                   ChainStreamInterceptor AdminInterceptors.2].

(** A call of the admin API over a connection that showed [certs]. *)
Definition admin_call (id : Identity) (a : Admin) (rnd : option Z) (now now_gc : Time)
    (dec : CreatePairingCodeRequest + Status) (pcs : list Certificate) (p : Pairer)
  : Pairer * (CreatePairingCodeResponse + Status) :=
  AdminService_CreatePairingCode_Handler (CreatePairingCode a rnd now now_gc) dec
    (server_interceptor (coordinator_server id)) (mkCtx (Some (TLSInfo pcs))) p.
End Guard.

(** ** Lemmas *)

Lemma ttl_no_overflow n : is_uint32 n = true → dur_mul n Second = n * Second.
Proof.
  unfold is_uint32. intros Hn%in_range_true. unfold dur_mul.
  apply int64_wrap_id. unfold min_int, max_int, Second. lia.
Qed.

Lemma coordinator_interceptor {C : Crypto} id ctx method :
  match server_interceptor (coordinator_server id) with
  | Some i => i ctx method = AdminInterceptors.1 ctx method
  | None => False
  end.
Proof. cbn. by destruct (RequireRole_check _ _ ctx method). Qed.

Lemma admin_call_eq {C : Crypto} id a rnd now now_gc req pcs p :
  admin_call id a rnd now now_gc (inl req) pcs p =
    match PeerPrincipal (mkCtx (Some (TLSInfo pcs))) with
    | None => (p, inr (mkStatus codes_Unauthenticated ErrNoPeerCert))
    | Some q => if bool_decide (Role q = RoleAdmin) then CreatePairingCode a rnd now now_gc req p
                else (p, inr (mkStatus codes_PermissionDenied ErrNotAuthorized))
    end.
Proof.
  unfold admin_call, AdminService_CreatePairingCode_Handler, intercept.
  pose proof (coordinator_interceptor id (mkCtx (Some (TLSInfo pcs)))
                AdminService_CreatePairingCode_FullMethodName) as Hi.
  destruct (server_interceptor (coordinator_server id)) as [i|]; [|done].
  rewrite Hi. unfold AdminInterceptors, RequireRole. cbn [fst]. rewrite RequireRole_check_spec.
  change (HasPrefix AdminService_CreatePairingCode_FullMethodName AdminServicePrefix) with true.
  cbv iota. destruct (PeerPrincipal _) as [q|]; [|done].
  rewrite (bool_decide_ext (Role q ∈ [RoleAdmin]) (Role q = RoleAdmin)) by apply list_elem_of_singleton.
  by case_bool_decide.
Qed.

(** Every answer of [CreatePairingCode]. *)
Lemma CreatePairingCode_spec a n now now_gc req p :
  is_uint32 (TtlSeconds req) = true → 0 ≤ n < codeSpace →
  let '(p', out) := CreatePairingCode a (Some n) now now_gc req p in
  if 600 <? TtlSeconds req then p' = p ∧ ∃ m, out = inr (mkStatus codes_InvalidArgument m)
  else
    ∃ resp, out = inl resp ∧ cc_PairAddr resp = adm_pairAddr a ∧
      ValidateCodeFormat (cc_Code resp) = Ok tt ∧
      cc_ExpiresAt resp = now + (if TtlSeconds req =? 0 then 60 else TtlSeconds req) * Second ∧
      now < cc_ExpiresAt resp ≤ now + MaxPairingCodeTTL ∧
      codes p' = <[cc_Code resp := cc_ExpiresAt resp]> (codes (gcLocked now_gc p)).
Proof.
  intros Hu Hn. unfold CreatePairingCode. rewrite ttl_no_overflow by done.
  unfold is_uint32 in Hu. apply in_range_true in Hu. set (k := TtlSeconds req) in *.
  assert ((MaxPairingCodeTTL <? k * Second) = (600 <? k)) as ->.
  { unfold MaxPairingCodeTTL, Minute, Second. lia. }
  destruct (Z.ltb_spec 600 k) as [Hk|Hk]; [split; [done|by eexists]|].
  cbn [Issue GenerateCode]. eexists. split; [done|]. cbn [cc_PairAddr cc_Code cc_ExpiresAt Code Issued_ExpiresAt].
  assert ((if k * Second <=? 0 then DefaultCodeTTL else k * Second) =
          (if k =? 0 then 60 else k) * Second) as ->.
  { unfold DefaultCodeTTL, Second. destruct (Z.leb_spec (k * 1000000000) 0), (Z.eqb_spec k 0); lia. }
  pose proof (ValidateCodeFormat_code (Sprintf_0d CodeDigits n)) as Hv.
  rewrite (proj1 (code_value n Hn)) in Hv.
  unfold time_Add. split_and!; try done.
  - by destruct (ValidateCodeFormat _) as [[]|].
  - unfold Second. destruct (Z.eqb_spec k 0); lia.
  - unfold MaxPairingCodeTTL, Minute, Second. destruct (Z.eqb_spec k 0); lia.
Qed.

(** ** Properties *)

(** C18: the admin API is for administrators.  On the server that a coordinator
    runs, [CreatePairingCode] reaches the [Pairer] exactly for a caller whose
    certificate names an administrator; a caller without a mesh principal is
    Unauthenticated, a node is PermissionDenied, and the [Pairer] is untouched. *)
Theorem admin_only {C : Crypto} id a rnd now now_gc req pcs p :
  match PeerPrincipal (mkCtx (Some (TLSInfo pcs))) with
  | Some q =>
      admin_call id a rnd now now_gc (inl req) pcs p =
      if bool_decide (Role q = RoleAdmin) then CreatePairingCode a rnd now now_gc req p
      else (p, inr (mkStatus codes_PermissionDenied ErrNotAuthorized))
  | None =>
      admin_call id a rnd now now_gc (inl req) pcs p =
      (p, inr (mkStatus codes_Unauthenticated ErrNoPeerCert))
  end.
Proof. rewrite admin_call_eq. by destruct (PeerPrincipal _). Qed.

(** C36: pairing gives no rights over pairing: a certificate issued through
    [Complete] never passes the guard of the admin API. *)
Theorem paired_node_is_not_admin {C : Crypto} {L : CryptoLaws C}
    order now1 now2 e sid csr mac p p' b id a rnd t t' req q :
  is_label (ca_MeshID (pairer_ca p)) = true → (∀ l, order l ≡ₚ l) →
  PkiPairing.Complete order now1 now2 e sid csr mac p = (p', Ok b) →
  admin_call id a rnd t t' (inl req) [NodeCert b] q =
    (q, inr (mkStatus codes_PermissionDenied ErrNotAuthorized)).
Proof.
  intros Hm Ho H. rewrite admin_call_eq. unfold PeerPrincipal. cbn [ctx_peer].
  apply Complete_Ok in H as (s & c & exp & _ & _ & _ & _ & _ & _ & _ & _ & Hs); [|done].
  apply complete_sign_Ok in Hs as (r & cert & _ & HS & ->).
  apply SignCSR_issued in HS as (_ & _ & _ & _ & _ & _ & _ & HP); [|done]. cbn [NodeCert].
  rewrite HP. by rewrite bool_decide_false.
Qed.

(** What [CreatePairingCode] grants.  For every uint32 of seconds the
    duration is exact; more than ten minutes is InvalidArgument and changes
    nothing; otherwise a valid code becomes active and expires after the time
    asked for, or after 60 seconds when none was. *)
Theorem CreatePairingCode_ttl a n now now_gc req p :
  is_uint32 (TtlSeconds req) = true → 0 ≤ n < codeSpace →
  let '(p', out) := CreatePairingCode a (Some n) now now_gc req p in
  if 600 <? TtlSeconds req then p' = p ∧ ∃ m, out = inr (mkStatus codes_InvalidArgument m)
  else
    ∃ resp, out = inl resp ∧ cc_PairAddr resp = adm_pairAddr a ∧
      ValidateCodeFormat (cc_Code resp) = Ok tt ∧
      cc_ExpiresAt resp = now + (if TtlSeconds req =? 0 then 60 else TtlSeconds req) * Second ∧
      now < cc_ExpiresAt resp ≤ now + MaxPairingCodeTTL ∧
      codes p' = <[cc_Code resp := cc_ExpiresAt resp]> (codes (gcLocked now_gc p)).
Proof. apply CreatePairingCode_spec. Qed.

Lemma paired_node_is_not_admin_witness :
  admin_call (ex_id_of RoleNode "coord" "coord") (NewAdmin "10.0.0.5:7444") (Some 1) ex_now ex_now
    (inl (mkCreateReq 60)) [NodeCert ex_bundle] ex_p1
    = (ex_p1, inr (mkStatus codes_PermissionDenied ErrNotAuthorized)).
Proof.
  apply (paired_node_is_not_admin id ex_now ex_now ex_env ex_sid ex_join_csr ex_mac ex_p2
    ex_done.1 ex_bundle); [vm_compute; reflexivity|intros l; apply Permutation_refl|exact ex_complete].
Defined.

Lemma CreatePairingCode_ttl_witness :
  ∃ resp, (CreatePairingCode (NewAdmin "a:1") (Some 7) ex_now ex_now (mkCreateReq 0) ex_pairer).2
            = inl resp ∧ cc_ExpiresAt resp = ex_now + 60 * Second.
Proof.
  pose proof (CreatePairingCode_ttl (NewAdmin "a:1") 7 ex_now ex_now (mkCreateReq 0) ex_pairer
    eq_refl ltac:(unfold codeSpace; lia)) as H.
  destruct (CreatePairingCode (NewAdmin "a:1") (Some 7) ex_now ex_now (mkCreateReq 0) ex_pairer)
    as [p' out].
  destruct H as (resp & -> & _ & _ & He & _). exists resp. split; [reflexivity|exact He].
Defined.
