(* ===== verification/CoordinatorSys.v ===== *)
(** * The coordinator as its callers meet it

    The admin API and the pairing listener of one coordinator share a [Pairer].
    A run is a sequence of calls, each with the certificates its connection
    showed, its randomness and the clock; the replies are what the callers see. *)
From stdpp Require Import relations.
From S2P Require Import Prelude GoStrings GoTime Labels Crypto SymCrypto GoGrpc PkiCA PkiPairing PairerSys.
From S2P Require Import Transport PairingServer Coordinator.
Local Open Scope Z_scope.

Inductive call :=
  | CallCreate (certs : list Certificate) (req : CreatePairingCodeRequest) (rnd : option Z) (now gc : Time)
  | CallBegin (req : BeginPairingRequest) (r1 r2 : option string) (gc now : Time)
  | CallComplete (req : CompletePairingRequest) (order : list string → list string)
      (now1 now2 : Time) (e : IssueEnv).

Inductive reply :=
  | RCreate (r : CreatePairingCodeResponse + Status)
  | RBegin (r : BeginPairingResponse + Status)
  | RComplete (r : CompletePairingResponse + Status).

Section Serve.
Context {C : Crypto}.

(** The handler of a call. *)
Definition serve_call (a : Admin) (c : call) (s : Server) : Server * reply :=
  match c with
  | CallCreate certs req rnd now gc =>
      let '(p, r) := admin_call (srv_Identity s) a rnd now gc (inl req) certs (srv_pairer s) in
      (set_pairer p s, RCreate r)
  | CallBegin req r1 r2 gc now =>
      let '(s, r) := Begin r1 r2 gc now req s in (s, RBegin r)
  | CallComplete req order now1 now2 e =>
      let '(s, r) := Complete order now1 now2 e req s in (s, RComplete r)
  end.

Fixpoint serve_calls (a : Admin) (cs : list call) (s : Server) : Server * list reply :=
  match cs with
  | [] => (s, [])
  | c :: cs =>
      let '(s, r) := serve_call a c s in
      let '(s, rs) := serve_calls a cs s in (s, r :: rs)
  end.

(** ** The clock, and what is random *)

(** A call that starts after [t] and reads the clock in its order. *)
Definition call_ok (t : Time) (c : call) : Prop :=
  match c with
  | CallCreate _ _ rnd now gc =>
      t ≤ now ≤ gc ∧ match rnd with Some n => 0 ≤ n < codeSpace | None => True end
  | CallBegin _ _ _ gc now => t ≤ gc ≤ now
  | CallComplete _ order now1 now2 _ => t ≤ now1 ≤ now2 ∧ ∀ l, order l ≡ₚ l
  end.
Definition call_end (c : call) : Time :=
  match c with
  | CallCreate _ _ _ _ gc => gc
  | CallBegin _ _ _ _ now => now
  | CallComplete _ _ _ now2 _ => now2
  end.
Fixpoint calls_ok (t : Time) (cs : list call) : Prop :=
  match cs with
  | [] => True
  | c :: cs => call_ok t c ∧ calls_ok (call_end c) cs
  end.

(** ** What is counted *)

Definition granted (r : reply) : nat := match r with RCreate (inl _) => 1 | _ => 0 end.
Definition admitted (r : reply) : nat := match r with RComplete (inl _) => 1 | _ => 0 end.
Definition by_admin (c : call) : bool :=
  match c with
  | CallCreate certs _ _ _ _ =>
      match PeerPrincipal (mkCtx (Some (TLSInfo certs))) with
      | Some p => bool_decide (Role p = RoleAdmin)
      | None => false
      end
  | _ => false
  end.
Definition total (f : reply → nat) (rs : list reply) : nat := sum_list_with f rs.

(** ** A call is a run of the interleaved system *)

(** The history grows by what the reply says. *)
Definition grows (r : reply) (σ σ' : Sys) : Prop :=
  length (issued σ') = (length (issued σ) + granted r)%nat ∧
  (length (used σ) + admitted r ≤ length (used σ'))%nat.

Lemma CreatePairingCode_steps a rnd now gc req p iss us fs t :
  t ≤ now ≤ gc → match rnd with Some n => 0 ≤ n < codeSpace | None => True end →
  let '(p', out) := CreatePairingCode a rnd now gc req p in
  ∃ iss', rtc (step (Some 1%nat)) (mkSys t p [] iss us fs) (mkSys gc p' [] iss' us fs) ∧
    length iss' = (length iss + granted (RCreate out))%nat.
Proof.
  intros Ht Hr. assert (Htick : rtc (step (Some 1%nat)) (mkSys t p [] iss us fs) (mkSys gc p [] iss us fs))
    by (apply step_to; lia).
  unfold CreatePairingCode. destruct (MaxPairingCodeTTL <? _).
  { exists iss. split; [exact Htick|]. cbn. lia. }
  destruct rnd as [n|]; [|exists iss; split; [exact Htick|cbn; lia]].
  destruct (Issue _ (Some n) now gc p) as [p' [i|e]] eqn:Ei; [|by cbn in Ei].
  exists (Code i :: iss). split; [|cbn; lia]. eapply rtc_r; [exact Htick|].
  eexists. apply (step_issue _ (dur_mul (TtlSeconds req) Second) n now); [done|lia|done].
Qed.

Lemma serve_call_steps a c s s' r iss us fs t :
  call_ok t c → serve_call a c s = (s', r) →
  ∃ iss' us' fs', let σ := mkSys t (srv_pairer s) [] iss us fs in
    let σ' := mkSys (call_end c) (srv_pairer s') [] iss' us' fs' in
    rtc (step (Some 1%nat)) σ σ' ∧ grows r σ σ'.
Proof.
  intros Hok H. destruct c as [certs req rnd now gc|req r1 r2 gc now|req order now1 now2 e];
    cbn [call_ok call_end serve_call] in *.
  - destruct Hok as [Ht Hr]. rewrite admin_call_eq in H.
    assert (Hno : ∀ st, (s', r) = (set_pairer (srv_pairer s) s, RCreate (inr st)) →
      ∃ iss' us' fs', let σ := mkSys t (srv_pairer s) [] iss us fs in
        let σ' := mkSys gc (srv_pairer s') [] iss' us' fs' in
        rtc (step (Some 1%nat)) σ σ' ∧ grows r σ σ').
    { intros st [= -> ->]. exists iss, us, fs. split; [apply step_to; lia|split; cbn; lia]. }
    destruct (PeerPrincipal _) as [q|]; [|by eapply Hno].
    case_bool_decide; [|by eapply Hno].
    pose proof (CreatePairingCode_steps a rnd now gc req (srv_pairer s) iss us fs t Ht Hr) as HC.
    destruct (CreatePairingCode a rnd now gc req (srv_pairer s)) as [p' out].
    destruct HC as (iss' & Hs & Hl). injection H as <- <-. exists iss', us, fs.
    split; [exact Hs|]. split; [exact Hl|cbn; lia].
  - exists iss, us, fs. unfold Begin in H.
    assert (Hp : srv_pairer s' = (PkiPairing.Begin r1 r2 gc now (srv_pairer s)).1 ∧
                 granted r = 0%nat ∧ admitted r = 0%nat).
    { destruct (PkiPairing.Begin r1 r2 gc now (srv_pairer s)) as [p [x|x]]; by injection H as <- <-. }
    destruct Hp as (-> & Hg & Ha). split; [|unfold grows; cbn; rewrite Hg, Ha; lia].
    eapply rtc_l; [eexists; apply (step_tick _ _ _ _ _ _ _ gc); lia|].
    apply rtc_once. eexists. apply step_begin. lia.
  - destruct Hok as [Ht Ho].
    pose proof (Complete_steps order now1 now2 e (cq_SessionId req) (cq_CsrDer req) (cq_ClientMac req)
                  (srv_pairer s) iss us fs Ho ltac:(lia)) as HC.
    unfold Complete in H.
    destruct (PkiPairing.Complete order now1 now2 e _ _ _ (srv_pairer s)) as [p' out] eqn:E.
    destruct HC as (c & us' & fs' & Ha & Hc & Hs).
    assert (Hp : srv_pairer s' = p' ∧ granted r = 0%nat ∧
                 admitted r = if is_ok out then 1%nat else 0%nat).
    { destruct out; by injection H as <- <-. }
    destruct Hp as (-> & Hg & Had). exists iss, us', fs'. split.
    + eapply rtc_l; [eexists; apply (step_tick _ _ _ _ _ _ _ now1); lia|exact Hs].
    + split; cbn; [lia|]. rewrite Had. destruct (is_ok out) eqn:Eo.
      * destruct (Hc eq_refl) as [x ->]. destruct Ha as [-> _]. cbn. lia.
      * destruct c; destruct Ha as [-> _]; cbn; lia.
Qed.

Lemma serve_calls_steps a cs s s' rs iss us fs t :
  calls_ok t cs → serve_calls a cs s = (s', rs) →
  ∃ t' iss' us' fs', let σ := mkSys t (srv_pairer s) [] iss us fs in
    let σ' := mkSys t' (srv_pairer s') [] iss' us' fs' in
    rtc (step (Some 1%nat)) σ σ' ∧
    length iss' = (length iss + total granted rs)%nat ∧
    (length us + total admitted rs ≤ length us')%nat.
Proof.
  revert s rs iss us fs t. induction cs as [|c cs IH]; intros s rs iss us fs t Hok H; cbn in H.
  - injection H as <- <-. exists t, iss, us, fs. split; [done|]. cbn. lia.
  - destruct Hok as [Hc Hok]. destruct (serve_call a c s) as [s1 r] eqn:E1.
    destruct (serve_calls a cs s1) as [s2 rs'] eqn:E2. injection H as <- <-.
    destruct (serve_call_steps a c s s1 r iss us fs t Hc E1) as (iss1 & us1 & fs1 & Hs1 & Hg & Ha).
    destruct (IH s1 rs' iss1 us1 fs1 (call_end c) Hok E2) as (t' & iss2 & us2 & fs2 & Hs2 & Hg2 & Ha2).
    exists t', iss2, us2, fs2. split; [by etrans|]. unfold grows, total in *. cbn in *. lia.
Qed.

(** Only an administrator's call is granted a code. *)
Lemma granted_by_admin a cs s s' rs :
  serve_calls a cs s = (s', rs) → (total granted rs ≤ length (List.filter by_admin cs))%nat.
Proof.
  revert s rs. induction cs as [|c cs IH]; intros s rs H; cbn in H; [by injection H as <- <-|].
  destruct (serve_call a c s) as [s1 r] eqn:E1. destruct (serve_calls a cs s1) as [s2 rs'] eqn:E2.
  injection H as <- <-. apply IH in E2. cbn [List.filter]. unfold total in *. cbn [sum_list_with].
  assert (granted r ≤ if by_admin c then 1 else 0)%nat as Hg.
  { destruct c as [certs req rnd now gc|req r1 r2 gc now|req order now1 now2 e]; cbn [serve_call] in E1; cbn [by_admin].
    - rewrite admin_call_eq in E1. destruct (PeerPrincipal _) as [q|]; [|by injection E1 as _ <-].
      case_bool_decide; [|by injection E1 as _ <-].
      destruct (CreatePairingCode _ _ _ _ _ _). injection E1 as _ <-. cbn. case_match; lia.
    - destruct (Begin _ _ _ _ _ _). injection E1 as _ <-. done.
    - destruct (Complete _ _ _ _ _ _). injection E1 as _ <-. done. }
  destruct (by_admin c); cbn; lia.
Qed.
End Serve.

(** ** Properties *)

(** C12: every node was let in by an administrator.  From a coordinator that just
    started, whatever calls arrive and whoever makes them, at most as many nodes
    get a certificate as codes were given out, and codes are given out to
    callers with an administrator's certificate only, one for a call. *)
Theorem nodes_need_an_administrator {C : Crypto} a cfg s t cs :
  NewServer cfg = Ok s → calls_ok t cs →
  let '(s', rs) := serve_calls a cs s in
  (total admitted rs ≤ total granted rs)%nat ∧
  (total granted rs ≤ length (List.filter by_admin cs))%nat.
Proof.
  intros Hs Hok. destruct (serve_calls a cs s) as [s' rs] eqn:E.
  split; [|by apply (granted_by_admin a cs s s')].
  destruct (serve_calls_steps a cs s s' rs [] [] [] t Hok E) as (t' & iss & us & fs & Hr & Hi & Hu).
  apply NewServer_Ok in Hs as (id & ca & _ & _ & _ & _ & _ & _ & Ep). rewrite Ep in Hr.
  assert (reachable (Some 1%nat) (mkSys t' (srv_pairer s') [] iss us fs)) as Hreach.
  { eexists. split; [|exact Hr]. by eexists _, _, _, _. }
  apply (reachable_ind (Some 1%nat) inv_used) in Hreach; [| |apply inv_used_step].
  - unfold inv_used in Hreach. cbn in Hreach. apply submseteq_length in Hreach.
    rewrite length_app in Hreach. cbn in *. lia.
  - intros ? (now & ca' & sc & ttl & ->). unfold inv_used, keys. cbn. by rewrite map_to_list_empty.
Qed.

(** *** An evening at the coordinator, for the witness *)

Definition ex_coord_id : Identity := ex_id_of RoleNode "box" "coord".
Definition ex_coord : result Server := NewServer (mkServerConfig (Some ex_coord_id) (Some ex_ca) 7443 0).
Definition ex_coord_mac : string := ClientMAC ex_key ex_sid (CertHash (id_Cert ex_coord_id)) ex_join_csr.
Definition ex_calls : list call :=
  [ CallCreate [ex_cert_of RoleNode "nosy" "nosy"] (mkCreateReq 60) (Some 41) ex_now ex_now;
    CallCreate [ex_cert_of RoleAdmin "admin" "admin"] (mkCreateReq 60) (Some 42) ex_now ex_now;
    CallBegin (mkBeginReq "laptop") (Some "session") (Some "salt") ex_now ex_now;
    CallComplete (mkCompleteReq ex_sid ex_join_csr ex_coord_mac) id ex_now ex_now ex_env;
    CallComplete (mkCompleteReq ex_sid ex_join_csr ex_coord_mac) id ex_now ex_now ex_env ].

Lemma nodes_need_an_administrator_witness :
  ∃ s s' rs, ex_coord = Ok s ∧ serve_calls (NewAdmin "10.0.0.5:7444") ex_calls s = (s', rs) ∧
    total admitted rs = 1%nat ∧ total granted rs = 1%nat ∧ List.filter by_admin ex_calls ≠ [].
Proof.
  destruct ex_coord as [s|e] eqn:Es; [|vm_compute in Es; discriminate Es].
  assert (Hok : calls_ok ex_now ex_calls)
    by (repeat split; try (vm_compute; discriminate); intros; apply Permutation_refl).
  pose proof (nodes_need_an_administrator (NewAdmin "10.0.0.5:7444") _ s ex_now ex_calls Es Hok) as H.
  destruct (serve_calls _ ex_calls s) as [s' rs] eqn:E. exists s, s', rs.
  assert (Er : total admitted rs = 1%nat).
  { vm_compute in Es. injection Es as <-. vm_compute in E. by injection E as _ <-. }
  destruct H as [H1 H2]. split; [done|]. split; [done|].
  assert (length (List.filter by_admin ex_calls) = 1%nat) as E1 by (vm_compute; reflexivity).
  split; [done|]. split; [lia|]. intros E0. rewrite E0 in E1. discriminate E1.
Defined.
