(* ===== verification/Meshctl.v ===== *)
(** * Command [meshctl]

    Models [src/cmd/meshctl/main.go]: the command line with its flags, and the
    commands [init], [pair] and [join].  [init_with], [pair_with] and
    [join_with] are the commands behind the parsing of their flags.  A command
    returns what it prints about; the text is in [MeshctlOut.v].  Randomness, the readings
    of the clock and the answers of the network are arguments. *)
From S2P Require Import Prelude GoStrings GoUtf8 GoTime GoFormat GoFloat GoDuration GoOS GoNet GoFlag Labels Identity Crypto SymCrypto.
From S2P Require Import GoGrpc PkiCA PkiPem PkiPairing Transport PairingServer PairingClient Peer.
From S2P Require Import Ifaces Mdns Coordinator.
Local Open Scope Z_scope.

Definition defaultGRPCPort : Z := 7443.
Definition discoverTimeout : Duration := 5 * Second.

(** [lcm] is the environment variable, empty when it is not set. *)
Definition defaultDataDir (lcm : string) (home : result string) : string :=
  if bool_decide (lcm = "") then
    match home with Err _ => ".lcm" | Ok home => path_string (GoOS.Join home ".lcm") end
  else lcm.

(** ** Flags *)

Record InitFlags := mkInitFlags {
  if_dataDir : string; if_meshID : string; if_adminName : string; if_nodeID : string;
  if_force : bool }.
Record PairFlags := mkPairFlags { pf_dataDir : string; pf_addr : string; pf_ttl : Duration }.
Record JoinFlags := mkJoinFlags {
  jf_dataDir : string; jf_code : string; jf_coordinator : string; jf_nodeID : string;
  jf_force : bool }.

Definition init_flags : list (string * FlagValue InitFlags) :=
  [("data-dir", StringFlag (λ v f, mkInitFlags v (if_meshID f) (if_adminName f) (if_nodeID f) (if_force f)));
   ("mesh-id", StringFlag (λ v f, mkInitFlags (if_dataDir f) v (if_adminName f) (if_nodeID f) (if_force f)));
   ("admin-name", StringFlag (λ v f, mkInitFlags (if_dataDir f) (if_meshID f) v (if_nodeID f) (if_force f)));
   ("node-id", StringFlag (λ v f, mkInitFlags (if_dataDir f) (if_meshID f) (if_adminName f) v (if_force f)));
   ("force", BoolFlag (λ b f, mkInitFlags (if_dataDir f) (if_meshID f) (if_adminName f) (if_nodeID f) b))].

Definition pair_flags : list (string * FlagValue PairFlags) :=
  [("data-dir", StringFlag (λ v f, mkPairFlags v (pf_addr f) (pf_ttl f)));
   ("addr", StringFlag (λ v f, mkPairFlags (pf_dataDir f) v (pf_ttl f)));
   ("ttl", DurationFlag (λ d f, mkPairFlags (pf_dataDir f) (pf_addr f) d))].

Definition join_flags : list (string * FlagValue JoinFlags) :=
  [("data-dir", StringFlag (λ v f, mkJoinFlags v (jf_code f) (jf_coordinator f) (jf_nodeID f) (jf_force f)));
   ("code", StringFlag (λ v f, mkJoinFlags (jf_dataDir f) v (jf_coordinator f) (jf_nodeID f) (jf_force f)));
   ("coordinator", StringFlag (λ v f, mkJoinFlags (jf_dataDir f) (jf_code f) v (jf_nodeID f) (jf_force f)));
   ("node-id", StringFlag (λ v f, mkJoinFlags (jf_dataDir f) (jf_code f) (jf_coordinator f) v (jf_force f)));
   ("force", BoolFlag (λ b f, mkJoinFlags (jf_dataDir f) (jf_code f) (jf_coordinator f) (jf_nodeID f) b))].

(** What [identity] needs of the environment: the table of [unicode.ToLower],
    three random bytes and the host name. *)
Record IdEnv := mkIdEnv { ie_tab : Z → Z; ie_rnd : rand3; ie_host : string }.

Section Commands.
Context {C : Crypto} (env : OSEnv).

Definition resolveNodeID (dataDir flagValue : string) (overwrite : bool) (ie : IdEnv) : M string :=
  do! (if bool_decide (flagValue = "") then ret tt
       else Set_ (ie_tab ie) env dataDir flagValue overwrite (ie_rnd ie) (ie_host ie)) in
  LoadOrCreate (ie_tab ie) env dataDir (ie_rnd ie) (ie_host ie).

(** *** init *)

(** What the random source and the clock give to each step. *)
Record InitEnv := mkInitEnv {
  in_id : IdEnv;
  in_ca_key : option string; in_ca : IssueEnv;
  in_node_key : option string; in_node : IssueEnv;
  in_admin_key : option string; in_admin : IssueEnv
}.

Record InitResult := mkInitResult {
  ir_nodeID : string; ir_ca : CA; ir_nodeKey : PrivateKey; ir_nodeCert : Certificate;
  ir_adminKey : PrivateKey; ir_adminCert : Certificate
}.

(** Everything up to the first write of a key or certificate. *)
Definition init_issue (f : InitFlags) (nodeID : string) (ie : InitEnv) : result InitResult :=
  let mesh := if_meshID f in
  let? ca := NewCA mesh (in_ca_key ie) (in_ca ie) in
  let? nodeKey := NewKey (in_node_key ie) in
  let? nodeCert :=
    Sign ca (mkSignRequest (mkPrincipal mesh RoleNode nodeID) (Some (priv_pub nodeKey))
               DefaultNodeCertTTL) (in_node ie) in
  let? adminKey := NewKey (in_admin_key ie) in
  let? adminCert :=
    Sign ca (mkSignRequest (mkPrincipal mesh RoleAdmin (if_adminName f)) (Some (priv_pub adminKey))
               DefaultAdminCertTTL) (in_admin ie) in
  Ok (mkInitResult nodeID ca nodeKey nodeCert adminKey adminCert).

(** The list [writes], in its order. *)
Definition init_writes (dir : string) (force : bool) (r : InitResult) : list (M unit) :=
  [WriteCert env dir CACertFile (Cert (ir_ca r)) force;
   WriteKey env dir CAKeyFile (Key (ir_ca r)) force;
   WriteCert env dir NodeCertFile (ir_nodeCert r) force;
   WriteKey env dir NodeKeyFile (ir_nodeKey r) force;
   WriteCert env dir AdminCertFile (ir_adminCert r) force;
   WriteKey env dir AdminKeyFile (ir_adminKey r) force].

Fixpoint run_writes (ws : list (M unit)) : M unit :=
  match ws with
  | [] => ret tt
  | w :: ws => do! wrapM "write %s: %w" w in run_writes ws
  end.

Definition init_with (f : InitFlags) (ie : InitEnv) : M InitResult :=
  if bool_decide (if_meshID f = "") then fail (ErrorsNew "--mesh-id is required")
  else
    let! st := try (Stat env (GoOS.Join (if_dataDir f) CAKeyFile)) in
    if is_ok st && negb (if_force f)
    then fail (Errorf "%s already contains a mesh CA; use --force to replace it")
    else
      let! nodeID := resolveNodeID (if_dataDir f) (if_nodeID f) (if_force f) (in_id ie) in
      let! r := lift (init_issue f nodeID ie) in
      do! run_writes (init_writes (if_dataDir f) (if_force f) r) in
      ret r.

(** *** pair *)

(** What the machine's conversion to [uint32] gives outside its range. *)
Context (u32 : float64 → Z).

(** [rpc] is the call of [CreatePairingCode] over the connection that [Dial]
    opens; it gets the address and the options of the connection. *)
Definition pair_with (f : PairFlags) (now : Time)
    (rpc : string * list DialOption → CreatePairingCodeRequest → result CreatePairingCodeResponse)
  : M CreatePairingCodeResponse :=
  let! a := try (LoadAdminIdentity env (pf_dataDir f) now) in
  match a with
  | Err e =>
      if errors_Is e ErrNotExist
      then fail (Errorf "no admin identity in %s; `meshctl pair` runs where `meshctl init` ran")
      else fail e
  | Ok admin =>
      let! nodeCert := wrapM "read local node cert: %w" (ReadCert env (pf_dataDir f) NodeCertFile) in
      let! local := lift (PrincipalFromCert nodeCert) in
      let conn := Dial admin (pf_addr f) (Name local) [] in
      lift (wrap_err "is meshd --coordinator running at %s? %w"
              (rpc conn (mkCreateReq (uint32_of u32 (Seconds (pf_ttl f))))))
  end.

(** *** join *)

(** The loop of [discoverCoordinator]: the events it reads until the context is
    done. *)
Fixpoint wait_coordinator (evs : list PeerEvent) : result string :=
  match evs with
  | [] => Err (ErrorsNew "no coordinator found over mDNS; pass --coordinator host:port from `meshctl pair`")
  | ev :: evs =>
      if bool_decide (Kind ev = PeerAdded) && IsCoordinator (ev_Peer ev)
      then Ok (PairAddr (ev_Peer ev)) else wait_coordinator evs
  end.

Definition browse_config (nodeID : string) : MDNSConfig :=
  mkMDNSConfig (mkAd nodeID AnyMesh 1 0 "") None 0 0 true.

(** [net] gives the answers of [Start] and the events that arrive in time. *)
Record MdnsNet := mkMdnsNet {
  mn_ifaces : result (list Interface); mn_resolver : result unit; mn_browse : result unit;
  mn_events : list PeerEvent
}.
Definition discoverCoordinator (net : MdnsNet) (nodeID : string) : result string :=
  let? md := NewMDNS (browse_config nodeID) in
  match Start (mn_ifaces net) (Ok tt) (mn_resolver net) (mn_browse net) md with
  | (_, Err e) => Err e
  | (_, Ok _) => wait_coordinator (mn_events net)
  end.

Definition join_with (f : JoinFlags) (ie : IdEnv) (net : MdnsNet)
    (join : string → string → string → result JoinResult) : M (string * JoinResult) :=
  do! lift (wrap_err "--code: %w" (ValidateCodeFormat (jf_code f))) in
  let! st := try (Stat env (GoOS.Join (jf_dataDir f) NodeKeyFile)) in
  if is_ok st && negb (jf_force f)
  then fail (Errorf "%s already has a node identity; use --force to re-pair")
  else
    let! nodeID := resolveNodeID (jf_dataDir f) (jf_nodeID f) (jf_force f) ie in
    let! addr := lift (if bool_decide (jf_coordinator f = "")
                       then discoverCoordinator net nodeID else Ok (jf_coordinator f)) in
    let! res := lift (join addr (jf_code f) nodeID) in
    do! Persist env res (jf_dataDir f) (jf_force f) in
    ret (nodeID, res).

(** *** The commands on their arguments, and [run] *)

(** What surrounds a run: the two sources of the default directory, and what
    each command meets. *)
Record CtlEnv := mkCtlEnv {
  ce_lcm : string; ce_home : result string;
  ce_init : InitEnv;
  ce_now : Time;
  ce_rpc : string * list DialOption → CreatePairingCodeRequest → result CreatePairingCodeResponse;
  ce_id : IdEnv;
  ce_net : MdnsNet;
  ce_join : string → string → string → result JoinResult
}.
Definition ce_dataDir (ce : CtlEnv) : string := defaultDataDir (ce_lcm ce) (ce_home ce).

Definition cmdInit (ce : CtlEnv) (args : list string) : M InitResult :=
  let! p := lift (Parse init_flags args
                    (mkInitFlags (ce_dataDir ce) "" "admin" "" false)) in
  init_with p.1 (ce_init ce).

Definition cmdPair (ce : CtlEnv) (args : list string) : M CreatePairingCodeResponse :=
  let! p := lift (Parse pair_flags args
                    (mkPairFlags (ce_dataDir ce) ("127.0.0.1:" +:+ Itoa defaultGRPCPort) DefaultCodeTTL)) in
  pair_with p.1 (ce_now ce) (ce_rpc ce).

Definition cmdJoin (ce : CtlEnv) (args : list string) : M (string * JoinResult) :=
  let! p := lift (Parse join_flags args
                    (mkJoinFlags (ce_dataDir ce) "" "" "" false)) in
  join_with p.1 (ce_id ce) (ce_net ce) (ce_join ce).

(** What a run prints about. *)
Inductive output :=
  | Initialised (r : InitResult)
  | Paired (r : CreatePairingCodeResponse)
  | Joined (nodeID : string) (r : JoinResult)
  | PrintedVersion
  | PrintedUsage.

Definition run (ce : CtlEnv) (args : list string) : M output :=
  match args with
  | [] => fail (ErrorsNew "no command")
  | cmd :: rest =>
      if bool_decide (cmd = "init") then let! r := cmdInit ce rest in ret (Initialised r)
      else if bool_decide (cmd = "pair") then let! r := cmdPair ce rest in ret (Paired r)
      else if bool_decide (cmd = "join") then let! r := cmdJoin ce rest in ret (Joined r.1 r.2)
      else if bool_decide (cmd ∈ ["version"; "--version"; "-v"]) then ret PrintedVersion
      else if bool_decide (cmd ∈ ["help"; "-h"; "--help"]) then ret PrintedUsage
      else fail (Errorf "unknown command %q")
  end.
End Commands.

(** ** Lemmas: a list of writes in one directory *)

Section Writes.
Context (dir : string).

(** A write of the file [n], and what it leaves behind. *)
Record wspec := mkWspec { w_name : string; w_run : M unit; w_post : FS → Prop }.

Definition w_sound (w : wspec) : Prop :=
  plain_name (w_name w) = true ∧
  (∀ fs fs', w_run w fs = (fs', Ok tt) →
     w_post w fs' ∧ frame (λ q, q = GoOS.Join dir (w_name w)) fs fs') ∧
  (∀ n fs fs', plain_name n = true → w_name w ≠ n → w_post w fs →
     frame (λ q, q = GoOS.Join dir n) fs fs' → w_post w fs').

Lemma run_writes_keep ws (P : FS → Prop) fs fs' :
  Forall w_sound ws →
  (∀ w g g', w ∈ ws → P g → frame (λ q, q = GoOS.Join dir (w_name w)) g g' → P g') →
  P fs → run_writes (map w_run ws) fs = (fs', Ok tt) → P fs'.
Proof.
  revert fs. induction ws as [|w ws IH]; intros fs Hs Hk HP H; cbn [map run_writes] in H.
  - by injection H as <-.
  - apply Forall_cons in Hs as [(_ & Hw & _) Hs].
    apply bind_Ok in H as (fs1 & [] & H1%wrapM_Ok & H).
    apply Hw in H1 as [_ F]. apply (IH fs1 Hs); [|exact (Hk w _ _ (list_elem_of_here _ _) HP F)|done].
    intros w' g g' Hin. apply Hk. by apply list_elem_of_further.
Qed.

Lemma run_writes_posts ws fs fs' :
  Forall w_sound ws → NoDup (map w_name ws) →
  run_writes (map w_run ws) fs = (fs', Ok tt) → Forall (λ w, w_post w fs') ws.
Proof.
  revert fs. induction ws as [|w ws IH]; intros fs Hs Hn H; [constructor|].
  cbn [map run_writes] in H. apply bind_Ok in H as (fs1 & [] & H1%wrapM_Ok & H).
  pose proof Hs as Hs'. apply Forall_cons in Hs' as [(_ & Hw & Hst) Hs'].
  apply NoDup_cons in Hn as [Hnot Hn]. apply Hw in H1 as [HP _].
  apply Forall_cons. split; [|by apply (IH fs1)].
  apply (run_writes_keep ws (w_post w) fs1 fs'); [done| |done|done].
  intros w' g g' Hin Hg F. apply (Hst (w_name w') g g'); [| |done|done].
  - by destruct (proj1 (Forall_forall _ _) Hs' w' Hin).
  - intros E. apply Hnot. rewrite E. apply list_elem_of_fmap. by exists w'.
Qed.
End Writes.

Section InitFacts.
Context {C : Crypto} {L : CryptoLaws C} (env : OSEnv).

Definition cert_write (dir name : string) (cert : Certificate) (ow : bool) : wspec :=
  mkWspec name (WriteCert env dir name cert ow) (cert_stored env dir name cert).
Definition key_write (dir name : string) (key : PrivateKey) (ow : bool) : wspec :=
  mkWspec name (WriteKey env dir name key ow) (key_stored env dir name key).

Lemma cert_write_sound dir name cert ow :
  plain_name name = true → w_sound dir (cert_write dir name cert ow).
Proof.
  intros Hn. split_and!; [done|intros fs fs'; apply WriteCert_Ok|].
  intros n fs fs' Hn' Hne Hs F. exact (cert_beside env dir name n cert fs fs' Hn Hn' Hne Hs F).
Qed.

Lemma key_write_sound dir name key ow :
  plain_name name = true → w_sound dir (key_write dir name key ow).
Proof.
  intros Hn. split_and!; [done|intros fs fs'; apply WriteKey_Ok|].
  intros n fs fs' Hn' Hne Hs F. exact (key_beside env dir name n key fs fs' Hn Hn' Hne Hs F).
Qed.

Definition init_specs (dir : string) (force : bool) (r : InitResult) : list wspec :=
  [cert_write dir CACertFile (Cert (ir_ca r)) force; key_write dir CAKeyFile (Key (ir_ca r)) force;
   cert_write dir NodeCertFile (ir_nodeCert r) force; key_write dir NodeKeyFile (ir_nodeKey r) force;
   cert_write dir AdminCertFile (ir_adminCert r) force;
   key_write dir AdminKeyFile (ir_adminKey r) force].

Lemma init_specs_sound dir force r : Forall (w_sound dir) (init_specs dir force r).
Proof.
  repeat (apply Forall_cons; split; [(by apply cert_write_sound) || (by apply key_write_sound)|]).
  by apply Forall_nil.
Qed.

(** The state after the writes of [init]. *)
Definition mesh_stored (dir : string) (r : InitResult) (fs : FS) : Prop :=
  cert_stored env dir CACertFile (Cert (ir_ca r)) fs ∧ key_stored env dir CAKeyFile (Key (ir_ca r)) fs ∧
  cert_stored env dir NodeCertFile (ir_nodeCert r) fs ∧ key_stored env dir NodeKeyFile (ir_nodeKey r) fs ∧
  cert_stored env dir AdminCertFile (ir_adminCert r) fs ∧
  key_stored env dir AdminKeyFile (ir_adminKey r) fs.

Lemma init_writes_stored dir force r fs fs' :
  run_writes (init_writes env dir force r) fs = (fs', Ok tt) → mesh_stored dir r fs'.
Proof.
  intros H. change (init_writes env dir force r) with (map w_run (init_specs dir force r)) in H.
  apply (run_writes_posts dir) in H; [|apply init_specs_sound|].
  - unfold init_specs in H. rewrite !Forall_cons in H. unfold mesh_stored. tauto.
  - apply (bool_decide_unpack _). vm_compute. exact I.
Qed.

(** [init] inverted. *)
Lemma cmdInit_Ok f ie fs fs' r :
  init_with env f ie fs = (fs', Ok r) →
  ∃ fs1,
    resolveNodeID env (if_dataDir f) (if_nodeID f) (if_force f) (in_id ie) fs = (fs1, Ok (ir_nodeID r)) ∧
    init_issue f (ir_nodeID r) ie = Ok r ∧
    run_writes (init_writes env (if_dataDir f) (if_force f) r) fs1 = (fs', Ok tt).
Proof.
  unfold init_with. case_bool_decide; [done|]. intros H'.
  apply bind_Ok in H' as (fs0 & st & Hst & H').
  assert (fs0 = fs) as -> by (unfold try, Stat in Hst; by injection Hst as <- _).
  destruct (is_ok st && negb (if_force f)); [done|].
  apply bind_Ok in H' as (fs1 & nodeID & Hr & H').
  apply bind_Ok in H' as (fs2 & r' & Hi & H'). unfold lift in Hi. injection Hi as <- Hi.
  apply bind_Ok in H' as (fs3 & [] & Hw & H'). unfold ret in H'. injection H' as <- <-.
  assert (ir_nodeID r' = nodeID) as ->; [|by exists fs1].
  clear Hw. unfold init_issue in Hi. inv_ok. done.
Qed.
End InitFacts.

Section ResolveFacts.
Context {C : Crypto} {L : CryptoLaws C} (env : OSEnv).

(** The node_id that a command uses, and the file that holds it. *)
Lemma resolveNodeID_Ok dir flagv ow ie fs fs' id :
  resolveNodeID env dir flagv ow ie fs = (fs', Ok id) →
  is_label id = true ∧ (flagv ≠ "" → id = flagv) ∧
  ∃ f, holds env (id_path dir) f fs' ∧ TrimSpace (fdata f) = id.
Proof.
  unfold resolveNodeID. intros H. apply bind_Ok in H as (fs1 & [] & Hs & H).
  destruct (LoadOrCreate_holds _ _ _ _ _ _ _ _ H) as [Hl Hf]. split_and!; try done.
  intros Hne. rewrite bool_decide_false in Hs by done.
  apply (Set_then_load _ _ _ _ _ _ _ _ _ _ (ie_rnd ie) (ie_host ie)) in Hs as [_ Hs].
  rewrite H in Hs. by injection Hs.
Qed.

Lemma framed_resolveNodeID dir flagv ow ie :
  framed (λ q, q = id_path dir) (resolveNodeID env dir flagv ow ie).
Proof.
  unfold resolveNodeID. apply framed_bind.
  - case_bool_decide; [apply framed_ret|apply framed_Set].
  - intros _. apply framed_LoadOrCreate.
Qed.

(** What [init] issues. *)
Lemma init_issue_Ok f nodeID ie r :
  init_issue f nodeID ie = Ok r →
  let mesh := if_meshID f in
  ∃ reqN reqA,
    NewCA mesh (in_ca_key ie) (in_ca ie) = Ok (ir_ca r) ∧
    (Sign (ir_ca r) reqN (in_node ie) = Ok (ir_nodeCert r) ∧
     req_Principal reqN = mkPrincipal mesh RoleNode nodeID ∧
     req_PublicKey reqN = Some (priv_pub (ir_nodeKey r))) ∧
    (Sign (ir_ca r) reqA (in_admin ie) = Ok (ir_adminCert r) ∧
     req_Principal reqA = mkPrincipal mesh RoleAdmin (if_adminName f) ∧
     req_PublicKey reqA = Some (priv_pub (ir_adminKey r))).
Proof.
  unfold init_issue. cbv zeta. intros H. inv_ok. cbn. eexists _, _. by split_and!; try eassumption.
Qed.

(** A signed certificate with its key is an identity, while it is valid. *)
Lemma Sign_identity ca req e cert key now :
  wf_CA ca → Sign ca req e = Ok cert → req_PublicKey req = Some (priv_pub key) →
  NotBefore cert ≤ now ≤ NotAfter cert → NotBefore (Cert ca) ≤ now ≤ NotAfter (Cert ca) →
  NewIdentity (Cert ca) cert key now =
    Ok (mkIdentity (req_Principal req) (Cert ca) cert key (mkTLSCert [Raw cert] key cert) [Cert ca]) ∧
  ParseCertificate (Raw cert) = Some cert.
Proof.
  intros Hwf Hs Hk Hn Hn'. pose proof (Sign_verifies _ _ _ _ _ Hwf Hs Hn Hn') as Hv.
  apply Sign_issued in Hs as (pub & sn & der & Hp & _ & _ & Hder & E & _); [|apply Hwf].
  rewrite Hk in Hp. injection Hp as <-. split.
  - apply NewIdentity_Ok. split_and!; [by rewrite E|done|done].
  - by rewrite (parse_Raw _ _ Hder).
Qed.

Definition identity_of (ca : CA) (p : Principal) (cert : Certificate) (key : PrivateKey) : Identity :=
  mkIdentity p (Cert ca) cert key (mkTLSCert [Raw cert] key cert) [Cert ca].
Definition init_node (f : InitFlags) (r : InitResult) : Identity :=
  identity_of (ir_ca r) (mkPrincipal (if_meshID f) RoleNode (ir_nodeID r)) (ir_nodeCert r) (ir_nodeKey r).
Definition init_admin (f : InitFlags) (r : InitResult) : Identity :=
  identity_of (ir_ca r) (mkPrincipal (if_meshID f) RoleAdmin (if_adminName f)) (ir_adminCert r)
    (ir_adminKey r).

(** The three certificates of a new mesh are valid. *)
Definition init_valid (r : InitResult) (now : Time) : Prop :=
  NotBefore (ir_nodeCert r) ≤ now ≤ NotAfter (ir_nodeCert r) ∧
  NotBefore (ir_adminCert r) ≤ now ≤ NotAfter (ir_adminCert r) ∧
  NotBefore (Cert (ir_ca r)) ≤ now ≤ NotAfter (Cert (ir_ca r)).
End ResolveFacts.

(** The identities that [init] leaves on disk. *)
Lemma init_identities {C : Crypto} {L : CryptoLaws C} env f ie fs fs' r now :
  init_with env f ie fs = (fs', Ok r) → init_valid r now →
  (wf_CA (ir_ca r) ∧ ca_MeshID (ir_ca r) = if_meshID f) ∧
  NewIdentity (Cert (ir_ca r)) (ir_nodeCert r) (ir_nodeKey r) now = Ok (init_node f r) ∧
  LoadNodeIdentity env (if_dataDir f) now fs' = (fs', Ok (init_node f r)) ∧
  NewIdentity (Cert (ir_ca r)) (ir_adminCert r) (ir_adminKey r) now = Ok (init_admin f r) ∧
  LoadAdminIdentity env (if_dataDir f) now fs' = (fs', Ok (init_admin f r)).
Proof.
  intros (fs1 & _ & Hi & Hw)%cmdInit_Ok (Hn & Ha & Hc).
  apply init_issue_Ok in Hi as (rN & rA & Hca & (HsN & HpN & HkN) & (HsA & HpA & HkA)).
  pose proof (NewCA_parses _ _ _ _ Hca) as Hp.
  apply NewCA_Ok in Hca as (Hwf & Hm & _).
  apply init_writes_stored in Hw as (S1 & _ & S3 & S4 & S5 & S6).
  destruct (Sign_identity _ _ _ _ _ _ Hwf HsN HkN Hn Hc) as [HiN HrN].
  destruct (Sign_identity _ _ _ _ _ _ Hwf HsA HkA Ha Hc) as [HiA HrA].
  rewrite HpN in HiN. rewrite HpA in HiA. split_and!; try done.
  - apply (LoadIdentity_stored _ _ _ _ _ _ _ _ _ _ S1 S3 S4 Hp HrN HiN).
  - apply (LoadIdentity_stored _ _ _ _ _ _ _ _ _ _ S1 S5 S6 Hp HrA HiA).
Qed.

(** *** Commands without --force *)

Section Keeps.
Context {C : Crypto} (env : OSEnv).

Lemma keeps_run_writes K ws : Forall (keeps K) ws → keeps K (run_writes ws).
Proof.
  induction 1 as [|w ws Hw _ IH]; cbn [run_writes]; [auto with keeps|].
  apply keeps_bind; auto with keeps.
Qed.

Lemma keeps_Stat K p : keeps K (Stat env p).
Proof. by intros fs q f. Qed.

Lemma keeps_resolve (K : path → Prop) dir flagv ie :
  (K (id_path dir) → stat_fault env (id_path dir) = false) →
  keeps K (resolveNodeID env dir flagv false ie).
Proof.
  intros Hst. unfold resolveNodeID. apply keeps_bind.
  - case_bool_decide; [auto with keeps|by apply keeps_Set].
  - intros _. apply keeps_LoadOrCreate.
Qed.

Lemma keeps_cmdInit (K : path → Prop) f ie :
  if_force f = false → (K (id_path (if_dataDir f)) → stat_fault env (id_path (if_dataDir f)) = false) →
  keeps K (init_with env f ie).
Proof.
  intros Hf Hst. unfold init_with. rewrite Hf. case_bool_decide; [auto with keeps|].
  apply keeps_bind; [apply keeps_try, keeps_Stat|]. intros st.
  destruct (is_ok st && negb false); [auto with keeps|].
  apply keeps_bind; [by apply keeps_resolve|]. intros nodeID.
  apply keeps_bind; [auto with keeps|]. intros r.
  apply keeps_bind; [|auto with keeps]. apply keeps_run_writes. unfold init_writes.
  repeat (apply Forall_cons; split; [apply keeps_WriteCert || apply keeps_WriteKey|]).
  by apply Forall_nil.
Qed.

Lemma keeps_cmdJoin (K : path → Prop) f ie net join :
  jf_force f = false → (K (id_path (jf_dataDir f)) → stat_fault env (id_path (jf_dataDir f)) = false) →
  keeps K (join_with env f ie net join).
Proof.
  intros Hf Hst. unfold join_with, Persist. rewrite Hf.
  apply keeps_bind; [auto with keeps|]. intros _.
  apply keeps_bind; [apply keeps_try, keeps_Stat|]. intros st.
  destruct (is_ok st && negb false); [auto with keeps|].
  apply keeps_bind; [by apply keeps_resolve|]. intros nodeID.
  apply keeps_bind; [auto with keeps|]. intros addr.
  apply keeps_bind; [auto with keeps|]. intros res.
  apply keeps_bind; [|auto with keeps].
  apply keeps_bind; [apply keeps_WriteCert|]. intros _.
  apply keeps_bind; [apply keeps_WriteCert|]. intros _. apply keeps_WriteKey.
Qed.
End Keeps.

(** ** Properties *)

(** C23: [init] leaves a working mesh.  When it succeeds, the directory holds the
    CA, which [ReadCA] loads, the identity of this node and the one of the
    operator, which load as long as their certificates are valid, all in the
    mesh that was named; and the node_id that the node's certificate names is
    the one that [identity] returns from then on. *)
Theorem cmdInit_loads {C : Crypto} {L : CryptoLaws C} env f ie fs fs' r :
  init_with env f ie fs = (fs', Ok r) →
  ReadCA env (if_dataDir f) fs' = (fs', Ok (ir_ca r)) ∧
  ca_MeshID (ir_ca r) = if_meshID f ∧
  (∀ tab rnd host,
     LoadOrCreate tab env (if_dataDir f) rnd host fs' = (fs', Ok (ir_nodeID r))) ∧
  (if_nodeID f ≠ "" → ir_nodeID r = if_nodeID f) ∧
  ∀ now, init_valid r now →
    LoadNodeIdentity env (if_dataDir f) now fs' = (fs', Ok (init_node f r)) ∧
    LoadAdminIdentity env (if_dataDir f) now fs' = (fs', Ok (init_admin f r)).
Proof.
  intros H. pose proof H as (fs1 & Hr & Hi & Hw)%cmdInit_Ok.
  apply init_issue_Ok in Hi as (rN & rA & Hca & _ & _).
  apply resolveNodeID_Ok in Hr as (Hl & Hflag & g & Hh & Hg).
  pose proof (NewCA_parses _ _ _ _ Hca) as Hp. apply NewCA_Ok in Hca as (Hwf & Hm & Hload & _).
  pose proof (init_writes_stored _ _ _ _ _ _ Hw) as (S1 & S2 & _).
  split_and!; try done.
  - by apply ReadCA_stored.
  - intros tab rnd host. rewrite <-Hg. apply LoadOrCreate_reads; [|by rewrite Hg].
    change (init_writes env (if_dataDir f) (if_force f) r)
      with (map w_run (init_specs env (if_dataDir f) (if_force f) r)) in Hw.
    apply (run_writes_keep (if_dataDir f) _ (holds env (id_path (if_dataDir f)) g) fs1 fs'
             (init_specs_sound env (if_dataDir f) (if_force f) r)); [|done|done].
    intros w x x' Hin Hx F. pose proof (init_specs_sound env (if_dataDir f) (if_force f) r) as Hs.
    rewrite Forall_forall in Hs. destruct (Hs w Hin) as (Hpl & _).
    eapply (holds_beside env _ nodeIDFile (w_name w)); [done|done| |exact Hx|exact F].
    intros E. unfold init_specs in Hin. rewrite !elem_of_cons, elem_of_nil in Hin.
    by destruct Hin as [->|[->|[->|[->|[->|[->|[]]]]]]].
  - intros now Hv. destruct (init_identities _ _ _ _ _ _ now H Hv) as (_ & _ & ? & _ & ?). done.
Qed.

(** C25: without [--force], [init] and [join] change no file that exists, whether
    they succeed or stop half way, whatever else fails; with one exception: the
    file [node_id] of their directory is kept when [os.Stat] can look it up (see
    [Identity.Set_trusts_any_stat_error] for what happens otherwise).  And [init]
    on a directory with a CA key stops before it does anything. *)
Theorem no_force_keeps_files {C : Crypto} env fs q file :
  files fs !! q = Some file →
  (∀ f ie, if_force f = false →
     (q = id_path (if_dataDir f) → stat_fault env (id_path (if_dataDir f)) = false) →
     files (init_with env f ie fs).1 !! q = Some file) ∧
  (∀ f ie net join, jf_force f = false →
     (q = id_path (jf_dataDir f) → stat_fault env (id_path (jf_dataDir f)) = false) →
     files (join_with env f ie net join fs).1 !! q = Some file) ∧
  (∀ f ie, if_force f = false → if_meshID f ≠ "" →
     (Stat env (GoOS.Join (if_dataDir f) CAKeyFile) fs).2 = Ok tt →
     init_with env f ie fs =
       (fs, Err (Errorf "%s already contains a mesh CA; use --force to replace it"))).
Proof.
  intros Hq. split_and!.
  - intros f ie Hf Hs. by apply (keeps_cmdInit env (λ p, q = p)).
  - intros f ie net join Hf Hs. by apply (keeps_cmdJoin env (λ p, q = p)).
  - intros f ie Hf Hm Hst. unfold init_with. rewrite bool_decide_false by done.
    unfold bind at 1, try. rewrite (surjective_pairing (Stat _ _ _)), Hst.
    cbn [is_ok]. by rewrite Hf.
Qed.

(** The coordinator that runs with the identity of [init], seen from the
    connection that [Dial] sets up: both handshakes, then the admin API. *)
Definition coordinator_rpc {C : Crypto} (srv : Identity) (a : Admin) (rnd : option Z) (now : Time)
    (p : Pairer) (conn : string * list DialOption) (req : CreatePairingCodeRequest)
  : result CreatePairingCodeResponse :=
  match conn.2 with
  | WithTransportCredentials c :: _ =>
      let? seen := tls_connect (ServerTLS srv) c now in
      match (admin_call srv a rnd now now (inl req) seen.1 p).2 with
      | inl resp => Ok resp
      | inr st => Err (st_msg st)
      end
  | _ => Err (ErrorsNew "grpc: no transport security set")
  end.

Lemma whole_seconds ttl :
  0 ≤ ttl ≤ MaxPairingCodeTTL →
  is_uint32 (ttl / Second) = true ∧ (600 <? ttl / Second) = false ∧
  (if ttl / Second =? 0 then 60 else ttl / Second) = (if ttl <? Second then 60 else ttl / Second).
Proof.
  intros Ht. pose proof (Z.div_pos ttl Second ltac:(lia) ltac:(done)).
  pose proof (Z.div_le_mono ttl MaxPairingCodeTTL Second ltac:(done) ltac:(lia)) as Hm.
  change (MaxPairingCodeTTL / Second) with 600 in Hm. split_and!.
  - apply in_range_true. lia.
  - by apply Z.ltb_ge.
  - destruct (Z.ltb_spec ttl Second), (Z.eqb_spec (ttl / Second) 0) as [E|E]; try done.
    + rewrite Z.div_small in E by lia. done.
    + apply Z.div_small_iff in E; unfold Second in *; lia.
Qed.

(** A [--ttl] below zero, or of [2 ^ 32] seconds and more, is not refused: what
    is asked for is then up to the conversion of the machine. *)
Lemma ttl_not_checked u32 :
  uint32_of u32 (Seconds (- Second)) = u32 (f64 (-1)) ∧
  uint32_of u32 (Seconds (2 ^ 32 * Second)) = u32 (f64 (2 ^ 32)).
Proof. split; vm_compute; reflexivity. Qed.

(** [pair] on the machine of [init] gets the coordinator's answer for the whole
    seconds of [--ttl]. *)
Lemma pair_with_after_init {C : Crypto} {L : CryptoLaws C} env u32 f ie fs fs' r pf a rnd now p :
  init_with env f ie fs = (fs', Ok r) → init_valid r now →
  pf_dataDir pf = if_dataDir f → 0 ≤ pf_ttl pf < 2 ^ 23 * Second →
  pair_with env u32 pf now (coordinator_rpc (init_node f r) a rnd now p) fs' =
    (fs', wrap_err "is meshd --coordinator running at %s? %w"
            match (CreatePairingCode a rnd now now (mkCreateReq (pf_ttl pf / Second)) p).2 with
            | inl resp => Ok resp
            | inr st => Err (st_msg st)
            end).
Proof.
  intros HI Hv Hd Httl.
  destruct (init_identities _ _ _ _ _ _ now HI Hv) as ((Hwf & _) & HiN & _ & HiA & HlA).
  pose proof HI as (fs1 & _ & Hi & Hw)%cmdInit_Ok.
  apply init_issue_Ok in Hi as (rN & rA & _ & (HsN & HpN & HkN) & (HsA & HpA & HkA)).
  apply init_writes_stored in Hw as (_ & _ & S3 & _).
  pose proof Hv as (Hn1 & Hn2 & Hn3).
  destruct (peers_connect (ir_ca r) rN _ _ _ _ rA _ _ _ _ now Hwf HsN HsA Hn1 Hn2 Hn3 HiN HiA)
    as (Hc & Hpp); [by rewrite HpN|].
  destruct (Sign_identity _ _ _ _ _ _ Hwf HsN HkN Hn1 Hn3) as [_ HrN].
  apply NewIdentity_Ok in HiN as (_ & (_ & HPN & _)%VerifyAgainst_Ok & _).
  unfold pair_with. rewrite Hd, Seconds_whole by done.
  rewrite (run_bind _ _ fs' fs' (Ok (init_admin f r))) by by apply run_try.
  rewrite (run_bind _ _ fs' fs' (ir_nodeCert r)).
  2:{ by rewrite (run_wrap _ _ _ _ _ (ReadCert_stored _ _ _ _ _ HrN S3)). }
  rewrite (run_bind _ _ fs' fs' (id_Principal (init_node f r))).
  2:{ unfold lift. by rewrite HPN. }
  unfold coordinator_rpc, Dial. cbn [snd app]. rewrite Hc. cbn [rbind fst]. rewrite admin_call_eq, Hpp.
  by rewrite bool_decide_true.
Qed.

(** C33: [init], then [pair].  On the machine where [init] ran, [pair] reaches
    the coordinator that runs there and gets a valid code, for every [--ttl] up
    to ten minutes; the code lives for the whole seconds of it, and for 60
    seconds when it is below one. *)
Theorem cmdPair_after_init {C : Crypto} {L : CryptoLaws C} env u32 f ie fs fs' r pf a n now p :
  init_with env f ie fs = (fs', Ok r) → init_valid r now →
  pf_dataDir pf = if_dataDir f → 0 ≤ pf_ttl pf ≤ MaxPairingCodeTTL →
  0 ≤ n < codeSpace →
  ∃ resp,
    pair_with env u32 pf now (coordinator_rpc (init_node f r) a (Some n) now p) fs'
      = (fs', Ok resp) ∧
    ValidateCodeFormat (cc_Code resp) = Ok tt ∧
    cc_ExpiresAt resp = now + (if pf_ttl pf <? Second then 60 else pf_ttl pf / Second) * Second.
Proof.
  intros HI Hv Hd Httl Hn. destruct (whole_seconds _ Httl) as (Hu & E600 & Esec).
  rewrite (pair_with_after_init env u32 f ie fs fs' r pf a (Some n) now p HI Hv Hd)
    by (unfold MaxPairingCodeTTL, Minute, Second in *; lia).
  pose proof (CreatePairingCode_spec a n now now (mkCreateReq (pf_ttl pf / Second)) p Hu Hn) as HC.
  destruct (CreatePairingCode a (Some n) now now (mkCreateReq (pf_ttl pf / Second)) p) as [p' out].
  cbn [TtlSeconds] in HC. rewrite E600 in HC. destruct HC as (resp & -> & _ & Hcode & Hexp & _).
  exists resp. split_and!; [done|done|]. by rewrite Hexp, Esec.
Qed.

Lemma cmdJoin_Ok {C : Crypto} env f ie net join fs fs' nodeID res :
  join_with env f ie net join fs = (fs', Ok (nodeID, res)) →
  ∃ fs1 addr,
    resolveNodeID env (jf_dataDir f) (jf_nodeID f) (jf_force f) ie fs = (fs1, Ok nodeID) ∧
    join addr (jf_code f) nodeID = Ok res ∧
    Persist env res (jf_dataDir f) (jf_force f) fs1 = (fs', Ok tt).
Proof.
  unfold join_with. intros H. apply bind_Ok in H as (fs0 & [] & Hc & H).
  unfold lift in Hc. injection Hc as <- _. apply bind_Ok in H as (fs1 & st & Hst & H).
  assert (fs1 = fs) as -> by (unfold try, Stat in Hst; by injection Hst as <- _).
  destruct (is_ok st && negb (jf_force f)); [done|].
  apply bind_Ok in H as (fs2 & id & Hr & H). apply bind_Ok in H as (fs3 & addr & Ha & H).
  unfold lift in Ha. injection Ha as <- _. apply bind_Ok in H as (fs4 & r & Hj & H).
  unfold lift in Hj. injection Hj as <- Hj. apply bind_Ok in H as (fs5 & [] & Hp & H).
  unfold ret in H. injection H as <- <- <-. by exists fs2, addr.
Qed.

(** C24: [join] leaves a node that can start.  When it succeeds, whatever answered
    on the network, the directory holds the identity of this node_id, with the
    key that was generated, and [LoadNodeIdentity] loads it. *)
Theorem cmdJoin_loads {C : Crypto} {L : CryptoLaws C}
    env f ie net dial begin_rpc complete_rpc kr cr now1 now2 fs fs' nodeID res :
  join_with env f ie net
    (λ addr code nodeID, PairingClient.Join dial begin_rpc complete_rpc addr code nodeID kr cr now1 now2)
    fs = (fs', Ok (nodeID, res)) →
  (jf_nodeID f ≠ "" → nodeID = jf_nodeID f) ∧
  ∃ id, LoadNodeIdentity env (jf_dataDir f) now1 fs' = (fs', Ok id) ∧
    id_Principal id = mkPrincipal (Bundle_MeshID (jr_Bundle res)) RoleNode nodeID ∧
    id_Key id = jr_Key res.
Proof.
  intros (fs1 & addr & Hr & Hj & Hp)%cmdJoin_Ok. split; [by apply resolveNodeID_Ok in Hr as (_ & ? & _)|].
  destruct (Persist_loads _ _ _ _ _ _ _ _ _ _ _ _ _ _ _ _ Hj Hp) as [(id & Hl & Hp' & Hk & _) _].
  by exists id.
Qed.

(** How a joiner finds the coordinator.  It takes the first peer added that
    has a pairing port and ignores everything else, updates included; with
    usable interfaces the search fails only when no such peer is added in time.
    The address is empty when that peer has no addresses. *)
Theorem discoverCoordinator_spec net nodeID ifi ifs :
  nodeID ≠ "" → mn_ifaces net = Ok (ifi :: ifs) → mn_resolver net = Ok tt → mn_browse net = Ok tt →
  let found ev := bool_decide (Kind ev = PeerAdded) && IsCoordinator (ev_Peer ev) in
  match List.find found (mn_events net) with
  | Some ev => discoverCoordinator net nodeID = Ok (PairAddr (ev_Peer ev)) ∧
               (p_Addrs (ev_Peer ev) = [] → PairAddr (ev_Peer ev) = "")
  | None => is_ok (discoverCoordinator net nodeID) = false
  end.
Proof.
  intros Hn Hi Hr Hb found. unfold discoverCoordinator, NewMDNS, browse_config. cbn [cfg_Ad ad_NodeID].
  rewrite bool_decide_false by done. cbn. unfold Start. cbn. rewrite Hi. cbn. rewrite Hr, Hb.
  induction (mn_events net) as [|ev evs IH]; [done|]. cbn [List.find wait_coordinator].
  fold (found ev). destruct (found ev); [|exact IH]. split; [done|].
  unfold PairAddr. intros ->. by destruct (p_PairPort (ev_Peer ev) =? 0).
Qed.

(** *** Command lines *)

Definition force_arg (b : bool) : list string := if b then ["--force"] else [].
Definition init_args (f : InitFlags) : list string :=
  "init" :: "--data-dir" :: if_dataDir f :: "--mesh-id" :: if_meshID f ::
  "--admin-name" :: if_adminName f :: "--node-id" :: if_nodeID f :: force_arg (if_force f).
Definition pair_args (f : PairFlags) (ttl : string) : list string :=
  ["pair"; "--data-dir"; pf_dataDir f; "--addr"; pf_addr f; "--ttl"; ttl].
Definition join_args (f : JoinFlags) : list string :=
  "join" :: "--data-dir" :: jf_dataDir f :: "--code" :: jf_code f ::
  "--coordinator" :: jf_coordinator f :: "--node-id" :: jf_nodeID f :: force_arg (jf_force f).

Lemma init_args_parse f r :
  Parse init_flags (tail (init_args f)) (mkInitFlags r "" "admin" "" false) = Ok (f, []).
Proof. by destruct f as [a b c d []]. Qed.
Lemma pair_args_parse f ttl r :
  ParseDuration ttl = Some (pf_ttl f) → Parse pair_flags (tail (pair_args f ttl)) r = Ok (f, []).
Proof.
  intros Ht. destruct f as [a b t]. cbn [pf_ttl] in Ht.
  transitivity (let? q := match ParseDuration ttl with
                          | Some d => Ok (mkPairFlags a b d)
                          | None => Err (Errorf "invalid value %q for flag -%s: %v")
                          end in Ok (q, @nil string)); [reflexivity|by rewrite Ht].
Qed.
Lemma join_args_parse f r :
  Parse join_flags (tail (join_args f)) (mkJoinFlags r "" "" "" false) = Ok (f, []).
Proof. by destruct f as [a b c d []]. Qed.

(** The command line.  Every setting of the flags of [init], [pair] and
    [join] can be written, whatever bytes the values hold, and is then what the
    command runs with; without flags the defaults are; and a line that names no
    command, or has a flag the command does not know, is an error that touches
    no file. *)
Theorem run_command_line {C : Crypto} env u32 ce :
  (∀ f, run env u32 ce (init_args f) =
     let! r := init_with env f (ce_init ce) in ret (Initialised r)) ∧
  (∀ f, min_int ≤ pf_ttl f ≤ max_int →
     run env u32 ce (pair_args f (Duration_String (pf_ttl f))) =
     let! r := pair_with env u32 f (ce_now ce) (ce_rpc ce) in ret (Paired r)) ∧
  (∀ f, run env u32 ce (join_args f) =
     let! r := join_with env f (ce_id ce) (ce_net ce) (ce_join ce) in ret (Joined r.1 r.2)) ∧
  run env u32 ce ["pair"] =
    (let! r := pair_with env u32
                 (mkPairFlags (ce_dataDir ce) "127.0.0.1:7443" (60 * Second)) (ce_now ce) (ce_rpc ce) in
     ret (Paired r)) ∧
  (∀ cmd arg name v rest fs, cmd ∈ ["init"; "pair"; "join"] → classify arg = Named name v →
     lookup_flag init_flags name = None → lookup_flag pair_flags name = None →
     lookup_flag join_flags name = None →
     ∃ e, run env u32 ce (cmd :: arg :: rest) fs = (fs, Err e)) ∧
  (∀ cmd rest fs,
     cmd ∉ ["init"; "pair"; "join"; "version"; "--version"; "-v"; "help"; "-h"; "--help"] →
     run env u32 ce (cmd :: rest) fs = (fs, Err (Errorf "unknown command %q"))).
Proof.
  split_and!.
  - intros f. cbn [run init_args]. rewrite bool_decide_true by done. unfold cmdInit.
    by rewrite (init_args_parse f).
  - intros f Ht%ParseDuration_String. cbn [run pair_args]. rewrite bool_decide_false, bool_decide_true by done.
    unfold cmdPair. by rewrite (pair_args_parse f _ _ Ht).
  - intros f. cbn [run join_args]. rewrite !(bool_decide_false ("join" = _)), bool_decide_true by done.
    unfold cmdJoin. by rewrite (join_args_parse f).
  - reflexivity.
  - intros cmd arg name v rest fs Hc Ha H1 H2 H3.
    assert (Hbad : ∀ R (fl : list (string * FlagValue R)) r, lookup_flag fl name = None →
              ∃ e, Parse fl (arg :: rest) r = Err e).
    { intros R fl r Hl. cbn [Parse]. rewrite Ha, Hl. case_match; by eexists. }
    rewrite !elem_of_cons, elem_of_nil in Hc. destruct Hc as [->|[->|[->|[]]]].
    + destruct (Hbad _ init_flags (mkInitFlags (ce_dataDir ce) "" "admin" "" false) H1) as [e He].
      exists e. cbn [run]. rewrite bool_decide_true by done. unfold cmdInit. by rewrite He.
    + destruct (Hbad _ pair_flags (mkPairFlags (ce_dataDir ce) ("127.0.0.1:" +:+ Itoa defaultGRPCPort)
        DefaultCodeTTL) H2) as [e He].
      exists e. cbn [run]. rewrite bool_decide_false, bool_decide_true by done. unfold cmdPair. by rewrite He.
    + destruct (Hbad _ join_flags (mkJoinFlags (ce_dataDir ce) "" "" "" false) H3) as [e He].
      exists e. cbn [run]. rewrite !(bool_decide_false ("join" = _)), bool_decide_true by done.
      unfold cmdJoin. by rewrite He.
  - intros cmd rest fs Hc. rewrite !elem_of_cons, elem_of_nil in Hc. cbn [run].
    rewrite !bool_decide_false; [done|..]; rewrite ?elem_of_cons, ?elem_of_nil; tauto.
Qed.

(** *** Runs, for the witnesses *)

Definition ex_ie : IdEnv := mkIdEnv id (Some ("001", "002", "003")%char) "Box.local".
Definition ex_init_env : InitEnv :=
  mkInitEnv ex_ie (Some "k") ex_env (Some "nk") ex_env (Some "ak") ex_env.
Definition ex_init_flags : InitFlags := mkInitFlags "d" "home" "admin" "" false.
Definition ex_init : FS * result InitResult := init_with no_faults ex_init_flags ex_init_env (mkFS ∅ ∅ 18).
Definition ex_init_r : InitResult :=
  match ex_init.2 with
  | Ok r => r
  | Err _ => mkInitResult "" ex_ca ex_joiner (Cert ex_ca) ex_joiner (Cert ex_ca)
  end.

Lemma ex_init_ok :
  init_with no_faults ex_init_flags ex_init_env (mkFS ∅ ∅ 18) = (ex_init.1, Ok ex_init_r).
Proof. vm_compute. reflexivity. Qed.

Lemma ex_init_valid : init_valid ex_init_r ex_now.
Proof. vm_compute. repeat split; discriminate. Qed.

Lemma cmdInit_loads_witness :
  ir_nodeID ex_init_r = "box-010203" ∧
  LoadNodeIdentity no_faults "d" ex_now ex_init.1 =
    (ex_init.1, Ok (init_node ex_init_flags ex_init_r)).
Proof.
  split; [vm_compute; reflexivity|].
  destruct (cmdInit_loads no_faults ex_init_flags ex_init_env (mkFS ∅ ∅ 18) ex_init.1 ex_init_r
    ex_init_ok) as (_ & _ & _ & _ & H).
  exact (proj1 (H ex_now ex_init_valid)).
Defined.

Lemma no_force_keeps_files_witness :
  ∃ f, files ex_init.1 !! GoOS.Join "d" CAKeyFile = Some f ∧
    init_with no_faults ex_init_flags ex_init_env ex_init.1 =
      (ex_init.1, Err (Errorf "%s already contains a mesh CA; use --force to replace it")).
Proof.
  destruct (files ex_init.1 !! GoOS.Join "d" CAKeyFile) as [f|] eqn:E.
  - exists f. split; [reflexivity|].
    apply (no_force_keeps_files no_faults ex_init.1 _ f E); [reflexivity|discriminate|].
    vm_compute. reflexivity.
  - exfalso. vm_compute in E. discriminate E.
Defined.

Lemma cmdPair_after_init_witness :
  ∃ resp,
    pair_with no_faults (λ _, 0) (mkPairFlags "d" "127.0.0.1:7443" (Second / 2)) ex_now
      (coordinator_rpc (init_node ex_init_flags ex_init_r) (NewAdmin "a:1") (Some 42) ex_now ex_pairer)
      ex_init.1 = (ex_init.1, Ok resp) ∧
    cc_ExpiresAt resp = ex_now + 60 * Second.
Proof.
  destruct (cmdPair_after_init no_faults (λ _, 0) ex_init_flags ex_init_env (mkFS ∅ ∅ 18)
    ex_init.1 ex_init_r (mkPairFlags "d" "127.0.0.1:7443" (Second / 2)) (NewAdmin "a:1") 42 ex_now
    ex_pairer ex_init_ok ex_init_valid eq_refl ltac:(vm_compute; split; discriminate)
    ltac:(unfold codeSpace; lia)) as (resp & H1 & _ & H2).
  exists resp. split; [exact H1|exact H2].
Defined.

Definition ex_join_flags (nodeID : string) (force : bool) : JoinFlags :=
  mkJoinFlags "d" ex_code "10.0.0.5:7444" nodeID force.
Definition ex_net : MdnsNet := mkMdnsNet (Ok [mkInterface 2 "en0" 19]) (Ok tt) (Ok tt) [].
Definition ex_joined : FS * result (string * JoinResult) :=
  join_with no_faults (ex_join_flags "laptop" false) ex_ie ex_net
    (λ addr code nodeID, PairingClient.Join (Ok tt)
       (honest_begin (Some "session") (Some "salt") ex_now ex_now ex_srv1)
       (honest_complete id ex_now ex_now ex_env ex_server) addr code nodeID
       (Some "joiner") "r" ex_now ex_now) (mkFS ∅ ∅ 18).

Lemma cmdJoin_loads_witness :
  ∃ id, LoadNodeIdentity no_faults "d" ex_now ex_joined.1 = (ex_joined.1, Ok id) ∧
        id_Principal id = mkPrincipal "home" RoleNode "laptop".
Proof.
  assert (H : ex_joined = (ex_joined.1, Ok ("laptop", ex_result))) by (vm_compute; reflexivity).
  destruct (cmdJoin_loads no_faults (ex_join_flags "laptop" false) ex_ie ex_net (Ok tt)
    (honest_begin (Some "session") (Some "salt") ex_now ex_now ex_srv1)
    (honest_complete id ex_now ex_now ex_env ex_server) (Some "joiner") "r" ex_now ex_now
    (mkFS ∅ ∅ 18) ex_joined.1 "laptop" ex_result H) as [_ (id & Hl & Hp & _)].
  exists id. split; [exact Hl|exact Hp].
Defined.

Definition ex_found : PeerEvent :=
  mkEvent PeerAdded (mkPeer "coord" "home" "" "" [srepeat "009" 4] 7443 7444 0).

Lemma discoverCoordinator_spec_witness :
  discoverCoordinator (mkMdnsNet (Ok [mkInterface 2 "en0" 19]) (Ok tt) (Ok tt) [ex_found]) "laptop"
    = Ok "9.9.9.9:7444".
Proof.
  exact (proj1 (discoverCoordinator_spec
    (mkMdnsNet (Ok [mkInterface 2 "en0" 19]) (Ok tt) (Ok tt) [ex_found]) "laptop"
    (mkInterface 2 "en0" 19) [] ltac:(discriminate) eq_refl eq_refl eq_refl)).
Defined.

(** With [--force], a [join] that fails can leave the directory split: the
    node_id is rewritten before the network is asked, so it no longer is the
    one that the certificate, still in place, names. *)
Theorem force_join_failure_splits :
  let '(fs', out) := join_with no_faults (ex_join_flags "other" true) ex_ie ex_net
                       (λ _ _ _, Err ErrBadCode) ex_joined.1 in
  out = Err ErrBadCode ∧
  (LoadOrCreate id no_faults "d" None "" fs').2 = Ok "other" ∧
  ∃ id, (LoadNodeIdentity no_faults "d" ex_now fs').2 = Ok id ∧ Name (id_Principal id) = "laptop".
Proof. vm_compute. split; [done|]. split; [done|]. by eexists. Qed.

Definition ex_ctl : CtlEnv :=
  mkCtlEnv "" (Ok "/home/u") ex_init_env ex_now (λ _ _, Err ErrBadCode) ex_ie ex_net
    (λ _ _ _, Err ErrBadCode).

Lemma run_command_line_witness :
  ∃ e, run no_faults (λ _, 0) ex_ctl ["join"; "-mesh=home"] (mkFS ∅ ∅ 18) = (mkFS ∅ ∅ 18, Err e).
Proof.
  destruct (run_command_line no_faults (λ _, 0) ex_ctl) as (_ & _ & _ & _ & H & _).
  apply (H "join" "-mesh=home" "mesh" (Some "home") [] (mkFS ∅ ∅ 18)); [|reflexivity..].
  do 2 (apply elem_of_cons; right). apply elem_of_cons. left. reflexivity.
Defined.

Example ex_default_dir : ce_dataDir ex_ctl = "/home/u/.lcm".
Proof. reflexivity. Qed.
