(* ===== verification/MeshctlOut.v ===== *)
(** * What [meshctl] prints

    The commands of [src/cmd/meshctl/main.go] again, with the text that they
    write to standard output and the exit status of [main].  Without the text
    they are the commands of [Meshctl.v] ([print_run_quiet]).  Writes to standard
    output are taken to succeed, as the code ignores their errors; what goes to
    standard error is left out. *)
From S2P Require Import Prelude GoStrings GoUtf8 GoTime GoFormat GoFloat GoDuration GoOS GoNet GoFlag Labels Identity Crypto.
From S2P Require Import SymCrypto GoGrpc PkiCA PkiPem PkiPairing Transport PairingServer PairingClient.
From S2P Require Import Peer Ifaces Mdns Coordinator Meshctl.
Local Open Scope Z_scope.

(** ** Steps that print *)

Definition PM (A : Type) : Type := FS → FS * (string * result A).
Definition pret {A} (a : A) : PM A := λ fs, (fs, ("", Ok a)).
Definition pfail {A} (e : error) : PM A := λ fs, (fs, ("", Err e)).
Definition quiet {A} (m : M A) : PM A := λ fs, let '(fs, r) := m fs in (fs, ("", r)).
Definition say (text : string) : PM unit := λ fs, (fs, (text, Ok tt)).
Definition pbind {A B} (m : PM A) (k : A → PM B) : PM B := λ fs,
  match m fs with
  | (fs, (s, Ok a)) => let '(fs, (t, r)) := k a fs in (fs, (s +:+ t, r))
  | (fs, (s, Err e)) => (fs, (s, Err e))
  end.

Notation "'let*' x := m 'in' k" := (pbind m (λ x, k))
  (at level 10, x name, m at level 100, k at level 200) : go_scope.
Notation "'do*' m 'in' k" := (pbind m (λ _, k))
  (at level 10, m at level 100, k at level 200) : go_scope.

(** Everything but the text. *)
Definition mute {A} (m : PM A) : M A := λ fs, let '(fs, (_, r)) := m fs in (fs, r).

Definition nl : string := String "010" "".

(** Lines, each with its end. *)
Fixpoint unlines (ls : list string) : string :=
  match ls with [] => "" | l :: ls => l +:+ nl +:+ unlines ls end.

(** [version] is set by the linker. *)
Section Print.
Context {C : Crypto} (env : OSEnv) (u32 : float64 → Z) (print_tab : Z → bool) (version : string).

Definition usage : string := unlines
  ["usage: meshctl <command> [flags]"; "";
   "commands:";
   "  init     create a new mesh: CA, this node's certificate, and an admin certificate";
   "  pair     mint a one-time code for another node to join (run on the coordinator)";
   "  join     join an existing mesh with a code from 'meshctl pair'";
   "  version  print version"; "";
   "run 'meshctl <command> -h' for flags"].

(** *** init *)

Definition init_text (f : InitFlags) (r : InitResult) : string := unlines
  ["mesh " +:+ Quote print_tab (if_meshID f) +:+ " initialised in " +:+ if_dataDir f;
   "  node_id         " +:+ ir_nodeID r;
   "  CA fingerprint  " +:+ Fingerprint (Cert (ir_ca r));
   "  node cert       expires " +:+ RFC3339 (NotAfter (ir_nodeCert r));
   "  admin cert      " +:+ if_adminName f +:+ ", expires " +:+ RFC3339 (NotAfter (ir_adminCert r));
   "";
   "start the coordinator:  meshd --coordinator";
   "then add nodes with:    meshctl pair"].

Definition print_init (ce : CtlEnv) (args : list string) : PM InitResult :=
  let* p := quiet (lift (Parse init_flags args
                           (mkInitFlags (ce_dataDir ce) "" "admin" "" false))) in
  let* r := quiet (init_with env p.1 (ce_init ce)) in
  do* say (init_text p.1 r) in
  pret r.

(** *** pair *)

Definition printed_validity (ttl : Duration) : Duration := Round ttl Second.

Definition join_hint (code : string) : string := "  meshctl join --code " +:+ code.
Definition join_hint_at (code addr : string) : string :=
  "  meshctl join --code " +:+ code +:+ " --coordinator " +:+ addr.

Definition validity_line (ttl : Duration) (code : string) : string :=
  "pairing code: " +:+ code +:+ "   (valid for " +:+ Duration_String (printed_validity ttl) +:+ ", single use)".

Definition pair_text (ttl : Duration) (resp : CreatePairingCodeResponse) : string := unlines
  [validity_line ttl (cc_Code resp); "";
   "on the new node, run:"; join_hint (cc_Code resp);
   "or, if mDNS does not reach it:"; join_hint_at (cc_Code resp) (cc_PairAddr resp)].

Definition print_pair (ce : CtlEnv) (args : list string) : PM CreatePairingCodeResponse :=
  let* p := quiet (lift (Parse pair_flags args
              (mkPairFlags (ce_dataDir ce) ("127.0.0.1:" +:+ Itoa defaultGRPCPort) DefaultCodeTTL))) in
  let* resp := quiet (pair_with env u32 p.1 (ce_now ce) (ce_rpc ce)) in
  do* say (pair_text (pf_ttl p.1) resp) in
  pret resp.

(** *** join *)

Definition join_text (nodeID : string) (res : JoinResult) : string := unlines
  ["joined mesh " +:+ Quote print_tab (Bundle_MeshID (jr_Bundle res)) +:+ " as " +:+ nodeID;
   "  coordinator     " +:+ jr_CoordinatorNodeID res +:+ " (" +:+ jr_CoordinatorGRPCAddr res +:+ ")";
   "  CA fingerprint  " +:+ Fingerprint (CACert (jr_Bundle res));
   "  node cert       expires " +:+ RFC3339 (NotAfter (NodeCert (jr_Bundle res)));
   "";
   "start the node:  meshd"].

(** The command behind its flags: it reports before and after the search. *)
Definition print_join_with (f : JoinFlags) (ie : IdEnv) (net : MdnsNet)
    (join : string → string → string → result JoinResult) : PM (string * JoinResult) :=
  do* quiet (lift (wrap_err "--code: %w" (ValidateCodeFormat (jf_code f)))) in
  let* st := quiet (try (Stat env (GoOS.Join (jf_dataDir f) NodeKeyFile))) in
  if is_ok st && negb (jf_force f)
  then pfail (Errorf "%s already has a node identity; use --force to re-pair")
  else
    let* nodeID := quiet (resolveNodeID env (jf_dataDir f) (jf_nodeID f) (jf_force f) ie) in
    let* addr :=
      (if bool_decide (jf_coordinator f = "") then
         do* say (unlines ["looking for a coordinator on the local network..."]) in
         let* addr := quiet (lift (discoverCoordinator net nodeID)) in
         do* say (unlines ["found coordinator at " +:+ addr]) in
         pret addr
       else pret (jf_coordinator f)) in
    let* res := quiet (lift (join addr (jf_code f) nodeID)) in
    do* quiet (Persist env res (jf_dataDir f) (jf_force f)) in
    do* say (join_text nodeID res) in
    pret (nodeID, res).

Definition print_join (ce : CtlEnv) (args : list string) : PM (string * JoinResult) :=
  let* p := quiet (lift (Parse join_flags args
                           (mkJoinFlags (ce_dataDir ce) "" "" "" false))) in
  print_join_with p.1 (ce_id ce) (ce_net ce) (ce_join ce).

(** *** run and main *)

Definition print_run (ce : CtlEnv) (args : list string) : PM output :=
  match args with
  | [] => pfail (ErrorsNew "no command")
  | cmd :: rest =>
      if bool_decide (cmd = "init") then let* r := print_init ce rest in pret (Initialised r)
      else if bool_decide (cmd = "pair") then let* r := print_pair ce rest in pret (Paired r)
      else if bool_decide (cmd = "join") then let* r := print_join ce rest in pret (Joined r.1 r.2)
      else if bool_decide (cmd ∈ ["version"; "--version"; "-v"])
      then do* say (unlines ["meshctl " +:+ version]) in pret PrintedVersion
      else if bool_decide (cmd ∈ ["help"; "-h"; "--help"])
      then do* say usage in pret PrintedUsage
      else pfail (Errorf "unknown command %q")
  end.

(** The exit status. *)
Definition main (ce : CtlEnv) (args : list string) (fs : FS) : FS * string * Z :=
  let '(fs, (text, r)) := print_run ce args fs in (fs, text, if is_ok r then 0 else 1).
End Print.

(** ** Lemmas: what a run is without its text *)

Section Mute.
Context {A B : Type}.

Lemma mute_quiet (m : M A) fs : mute (quiet m) fs = m fs.
Proof. unfold mute, quiet. by destruct (m fs). Qed.

Lemma mute_pbind (m : PM A) (k : A → PM B) (m' : M A) (k' : A → M B) fs :
  (∀ fs, mute m fs = m' fs) → (∀ a fs, mute (k a) fs = k' a fs) →
  mute (pbind m k) fs = bind m' k' fs.
Proof.
  intros Hm Hk. unfold bind. rewrite <-Hm. unfold mute at 1 2, pbind.
  destruct (m fs) as [fs1 [s [a|e]]]; [|done]. rewrite <-Hk. unfold mute.
  by destruct (k a fs1) as [fs2 [t r]].
Qed.

Lemma mute_said (text : string) (k : PM B) fs : mute (pbind (say text) (λ _, k)) fs = mute k fs.
Proof. unfold mute, pbind, say. by destruct (k fs) as [fs1 [t r]]. Qed.
End Mute.

(** What a successful step printed. *)
Lemma pbind_Ok {A B} (m : PM A) (k : A → PM B) fs fs' text b :
  pbind m k fs = (fs', (text, Ok b)) ↔
  ∃ fs1 s t a, m fs = (fs1, (s, Ok a)) ∧ k a fs1 = (fs', (t, Ok b)) ∧ text = s +:+ t.
Proof.
  unfold pbind. split.
  - destruct (m fs) as [fs1 [s [a|e]]]; [|done].
    destruct (k a fs1) as [fs2 [t r]] eqn:E. intros [= <- <- ->]. by exists fs1, s, t, a.
  - intros (fs1 & s & t & a & -> & -> & ->). done.
Qed.
Lemma quiet_Ok {A} (m : M A) fs fs' text a :
  quiet m fs = (fs', (text, Ok a)) ↔ m fs = (fs', Ok a) ∧ text = "".
Proof.
  unfold quiet. destruct (m fs) as [fs1 r]. split; [by intros [= -> <- ->]|by intros [[= -> ->] ->]].
Qed.

Lemma pbind_Err {A B} (m : PM A) (k : A → PM B) fs fs' text e :
  pbind m k fs = (fs', (text, Err e)) →
  m fs = (fs', (text, Err e)) ∨
  ∃ fs1 s t a, m fs = (fs1, (s, Ok a)) ∧ k a fs1 = (fs', (t, Err e)) ∧ text = s +:+ t.
Proof.
  unfold pbind. destruct (m fs) as [fs1 [s [a|e']]]; [|by intros [= <- <- <-]; left].
  destruct (k a fs1) as [fs2 [t r]] eqn:E. intros [= <- <- ->]. right. by exists fs1, s, t, a.
Qed.
Lemma quiet_text {A} (m : M A) fs fs' text r : quiet m fs = (fs', (text, r)) → text = "".
Proof. unfold quiet. destruct (m fs). by intros [= _ <- _]. Qed.

(** A step that fails silently whenever it fails. *)
Definition fails_silent {A} (m : PM A) : Prop :=
  ∀ fs fs' text e, m fs = (fs', (text, Err e)) → text = "".
Lemma fails_silent_quiet {A} (m : M A) : fails_silent (quiet m).
Proof. intros fs fs' text e. apply quiet_text. Qed.
Lemma fails_silent_quiet_bind {A B} (m : M A) (k : A → PM B) :
  (∀ a, fails_silent (k a)) → fails_silent (pbind (quiet m) k).
Proof.
  intros Hk fs fs' text e [H|(fs1 & s & t & a & H1 & H2 & ->)]%pbind_Err.
  - by apply quiet_text in H.
  - apply quiet_text in H1 as ->. rewrite app_nil_l_s. by eapply Hk.
Qed.
Lemma fails_silent_said {A} (text : string) (a : A) : fails_silent (pbind (say text) (λ _, pret a)).
Proof. by intros fs fs' t e. Qed.

Section PrintFacts.
Context {C : Crypto} (env : OSEnv) (u32 : float64 → Z) (print_tab : Z → bool) (version : string).

Lemma print_join_quiet f ie net join fs :
  mute (print_join_with env print_tab f ie net join) fs = join_with env f ie net join fs.
Proof.
  unfold print_join_with, join_with. apply mute_pbind; [apply mute_quiet|]. intros _ fs1.
  apply mute_pbind; [apply mute_quiet|]. intros st fs2.
  destruct (is_ok st && negb (jf_force f)); [done|].
  apply mute_pbind; [apply mute_quiet|]. intros nodeID fs3.
  apply mute_pbind.
  { intros fs4. case_bool_decide; [|done]. rewrite mute_said.
    unfold mute, pbind, quiet, lift, say, pret. by destruct (discoverCoordinator net nodeID). }
  intros addr fs4. apply mute_pbind; [apply mute_quiet|]. intros res fs5.
  apply mute_pbind; [apply mute_quiet|]. intros [] fs6. by rewrite mute_said.
Qed.

(** A printing run is the run of [Meshctl.v], with its text. *)
Lemma print_run_quiet ce args fs :
  mute (print_run env u32 print_tab version ce args) fs = run env u32 ce args fs.
Proof.
  destruct args as [|cmd rest]; [done|]. cbn [print_run run].
  destruct (bool_decide (cmd = "init")).
  { apply mute_pbind; [|done]. intros fs1. unfold print_init, cmdInit.
    apply mute_pbind; [apply mute_quiet|]. intros p fs2. unfold mute, pbind, quiet, say, pret.
    by destruct (init_with env p.1 (ce_init ce) fs2) as [fs3 [r|e]]. }
  destruct (bool_decide (cmd = "pair")).
  { apply mute_pbind; [|done]. intros fs1. unfold print_pair, cmdPair.
    apply mute_pbind; [apply mute_quiet|]. intros p fs2. unfold mute, pbind, quiet, say, pret.
    by destruct (pair_with env u32 p.1 (ce_now ce) (ce_rpc ce) fs2) as [fs3 [r|e]]. }
  destruct (bool_decide (cmd = "join")).
  { apply mute_pbind; [|done]. intros fs1. unfold print_join, cmdJoin.
    apply mute_pbind; [apply mute_quiet|]. intros p fs2. apply print_join_quiet. }
  repeat (case_bool_decide; [done|]). done.
Qed.

Definition searching : string := unlines ["looking for a coordinator on the local network..."].
Definition search_found (addr : string) : string :=
  unlines ["looking for a coordinator on the local network..."; "found coordinator at " +:+ addr].
Definition search_text (text : string) : Prop :=
  text = "" ∨ text = searching ∨ ∃ addr, text = search_found addr.

(** A [join] that fails has printed at most the progress of the search. *)
Lemma print_join_fails f ie net join fs fs' text e :
  print_join_with env print_tab f ie net join fs = (fs', (text, Err e)) → search_text text.
Proof.
  unfold print_join_with.
  intros [H|(fs1 & s1 & t1 & [] & H1 & H & ->)]%pbind_Err; [by left; eapply quiet_text|].
  apply quiet_text in H1 as ->. rewrite app_nil_l_s.
  apply pbind_Err in H as [H|(fs2 & s2 & t2 & st & H2 & H & ->)]; [by left; eapply quiet_text|].
  apply quiet_text in H2 as ->. rewrite app_nil_l_s.
  destruct (is_ok st && negb (jf_force f)); [by left; injection H as _ <- _|].
  apply pbind_Err in H as [H|(fs3 & s3 & t3 & nodeID & H3 & H & ->)]; [by left; eapply quiet_text|].
  apply quiet_text in H3 as ->. rewrite app_nil_l_s.
  apply pbind_Err in H as [H|(fs4 & s4 & t4 & addr & H4 & H & ->)].
  { case_bool_decide; [|by injection H]. unfold pbind, say, quiet, lift, pret in H.
    destruct (discoverCoordinator net nodeID); [done|]. right. left. by injection H as _ <- _. }
  assert (t4 = "") as ->.
  { revert H. apply (fails_silent_quiet_bind _ _). intros res. apply fails_silent_quiet_bind. intros [].
    apply fails_silent_said. }
  rewrite app_nil_r_s. case_bool_decide; [|by injection H4 as _ <- _; left].
  unfold pbind, say, quiet, lift, pret in H4. destruct (discoverCoordinator net nodeID) as [x|]; [|done].
  right. right. exists x. injection H4 as _ <- _. unfold search_found. cbn [unlines].
  by rewrite !app_nil_l_s, !app_nil_r_s, !app_assoc_s.
Qed.
End PrintFacts.

(** ** Lemmas: lines and words of a text *)

Definition lines (text : string) : list string := Split text "010".

(** How a shell splits a line that has no quoting. *)
Definition words (line : string) : list string := filter (λ w, w ≠ "") (Split line " ").

Lemma lacks_sall c (P : ascii → bool) s : (∀ a, P a = true → a ≠ c) → sall P s = true → lacks c s = true.
Proof.
  intros HP. unfold lacks. apply sall_impl. intros a Ha. apply HP in Ha. by rewrite bool_decide_false.
Qed.
Lemma lacks_cons c a s : lacks c (String a s) = negb (bool_decide (a = c)) && lacks c s.
Proof. done. Qed.

Lemma is_digit_ne a c : is_digit a = true → is_digit c = false → a ≠ c.
Proof. intros H H' ->. congruence. Qed.

Lemma lacks_digits c s : is_digit c = false → sall is_digit s = true → lacks c s = true.
Proof. intros Hc. apply lacks_sall. intros a Ha. by apply (is_digit_ne a c). Qed.

Lemma lacks_Itoa c z : is_digit c = false → 0 ≤ z → lacks c (Itoa z) = true.
Proof. intros Hc Hz. apply lacks_digits; [done|]. by apply Itoa_digits. Qed.

Lemma frac_go_lacks c prec print v acc : is_digit c = false → lacks c acc = true →
  0 ≤ v → let '(_, v', acc') := frac_go prec print v acc in 0 ≤ v' ∧ lacks c acc' = true.
Proof.
  intros Hc. revert print v acc. induction prec as [|prec IH]; intros print v acc Ha Hv; [done|].
  cbn [frac_go]. apply IH; [|by apply Z.div_pos].
  case_match; [|done]. rewrite lacks_cons, Ha, andb_true_r, bool_decide_false; [done|].
  apply is_digit_ne; [|done]. apply digit_is_digit, Z.mod_pos_bound. done.
Qed.
Lemma fmtFrac_lacks c v prec acc : is_digit c = false → c ≠ "."%char → lacks c acc = true → 0 ≤ v →
  let '(v', acc') := fmtFrac v prec acc in 0 ≤ v' ∧ lacks c acc' = true.
Proof.
  intros Hc Hdot Ha Hv. unfold fmtFrac. pose proof (frac_go_lacks c prec false v acc Hc Ha Hv) as H.
  destruct (frac_go prec false v acc) as [[print v'] acc']. destruct H as [Hv' Ha'].
  split; [done|]. case_match; [|done]. rewrite lacks_cons, Ha', bool_decide_false; done.
Qed.

(** A duration is printed in one line. *)
Lemma Duration_String_line d : lacks "010" (Duration_String d) = true.
Proof.
  unfold Duration_String. assert (Hu : 0 ≤ Z.abs d) by lia. set (u := Z.abs d) in *. cbv zeta.
  assert (∀ t, lacks "010" t = true → lacks "010" (if d <? 0 then String "-" t else t) = true) as Hs
    by (intros t Ht; case_match; by rewrite ?lacks_cons, ?Ht).
  assert (Hf : ∀ prec acc, lacks "010" acc = true →
    let '(v, acc') := fmtFrac u prec acc in 0 ≤ v ∧ lacks "010" acc' = true)
    by (intros; by apply fmtFrac_lacks).
  apply Hs. destruct (u <? Second).
  - destruct (u =? 0); [done|].
    assert (let '(v, acc) := if u <? Microsecond then fmtFrac u 0 "ns"
              else if u <? Millisecond then fmtFrac u 3 micro_s else fmtFrac u 6 "ms" in
            0 ≤ v ∧ lacks "010" acc = true) as H
      by (destruct (u <? Microsecond); [|destruct (u <? Millisecond)]; by apply Hf).
    destruct (if u <? Microsecond then _ else _) as [v acc]. destruct H as [Hv Ha].
    by rewrite lacks_app, Ha, lacks_Itoa.
  - pose proof (Hf 9%nat "s" eq_refl) as H. destruct (fmtFrac u 9 "s") as [v acc]. destruct H as [Hv Ha].
    assert (∀ z, lacks "010" (Itoa (z mod 60)) = true) as Hm
      by (intros z; apply lacks_Itoa; [done|]; apply Z.mod_pos_bound; done).
    assert (0 ≤ v / 60 ∧ 0 ≤ v / 60 / 60) as [Hv1 Hv2] by (split; repeat apply Z.div_pos; lia).
    destruct (0 <? v / 60); [destruct (0 <? v / 60 / 60)|];
      rewrite ?lacks_app, ?lacks_cons, ?lacks_app, ?lacks_cons, ?lacks_app, ?Hm, ?Ha, ?lacks_Itoa; done.
Qed.


Lemma Split_unlines ls : Forall (λ l, lacks "010" l = true) ls → lines (unlines ls) = ls ++ [""].
Proof.
  induction 1 as [|l ls Hl _ IH]; [done|]. cbn [unlines]. unfold nl, lines in *.
  rewrite app_cons_s, app_nil_l_s, Split_app by done. by rewrite IH.
Qed.

(** The lines of what [pair] prints. *)
Lemma pair_text_lines ttl resp :
  lacks "010" (cc_Code resp) = true → lacks "010" (cc_PairAddr resp) = true →
  lines (pair_text ttl resp) !! 0%nat = Some (validity_line ttl (cc_Code resp)) ∧
  lines (pair_text ttl resp) !! 3%nat = Some (join_hint (cc_Code resp)) ∧
  lines (pair_text ttl resp) !! 5%nat = Some (join_hint_at (cc_Code resp) (cc_PairAddr resp)).
Proof.
  intros Hc Ha. pose proof (Duration_String_line (printed_validity ttl)) as Hd.
  unfold pair_text. rewrite Split_unlines; [done|]. unfold join_hint, join_hint_at, validity_line.
  repeat (apply Forall_cons; split; [rewrite ?lacks_app, ?Hc, ?Ha, ?Hd; reflexivity|]). by apply Forall_nil.
Qed.

Lemma words_cons w t : lacks " " w = true → w ≠ "" → words (w +:+ String " " t) = w :: words t.
Proof. intros Hw Hne. unfold words. rewrite Split_app by done. by rewrite filter_cons_True. Qed.
Lemma words_one w : lacks " " w = true → w ≠ "" → words w = [w].
Proof. intros Hw Hne. unfold words. rewrite Split_lacks by done. by rewrite filter_cons_True. Qed.

Lemma join_hint_words code :
  lacks " " code = true → code ≠ "" → words (join_hint code) = ["meshctl"; "join"; "--code"; code].
Proof.
  intros Hc Hn. transitivity ("meshctl" :: "join" :: "--code" :: words code); [reflexivity|].
  by rewrite words_one.
Qed.
Lemma join_hint_at_words code addr :
  lacks " " code = true → code ≠ "" → lacks " " addr = true → addr ≠ "" →
  words (join_hint_at code addr) = ["meshctl"; "join"; "--code"; code; "--coordinator"; addr].
Proof.
  intros Hc Hn Ha Hna.
  transitivity ("meshctl" :: "join" :: "--code" :: words (code +:+ String " " ("--coordinator " +:+ addr))); [reflexivity|].
  rewrite (words_cons code ("--coordinator " +:+ addr)) by done. do 4 f_equal.
  transitivity ("--coordinator" :: words addr); [reflexivity|]. by rewrite words_one.
Qed.

Lemma code_plain code : ValidateCodeFormat code = Ok tt →
  lacks " " code = true ∧ lacks "010" code = true ∧ code ≠ "".
Proof.
  intros Hv. pose proof (ValidateCodeFormat_code code) as H. rewrite Hv in H. symmetry in H.
  unfold is_code in H. apply andb_true_iff in H as [Hl%Nat.eqb_eq Hd].
  split_and!; [by apply lacks_digits..|]. by intros ->.
Qed.

(** ** Properties *)

(** C34: the commands that [pair] prints work.  When the coordinator answers with a
    valid code and an address in one word, the fourth and the sixth line of
    what [pair] prints are command lines: run in any environment, they join
    with this code into the default directory, the first through discovery and
    the second at the coordinator's address. *)
Theorem printed_commands_join {C : Crypto} env u32 tab version ce rest fs fs' text resp :
  print_run env u32 tab version ce ("pair" :: rest) fs = (fs', (text, Ok (Paired resp))) →
  ValidateCodeFormat (cc_Code resp) = Ok tt →
  lacks " " (cc_PairAddr resp) = true → lacks "010" (cc_PairAddr resp) = true → cc_PairAddr resp ≠ "" →
  ∃ args args', (words <$> lines text !! 3%nat) = Some ("meshctl" :: args) ∧
    (words <$> lines text !! 5%nat) = Some ("meshctl" :: args') ∧
  ∀ env' ce',
    run env' u32 ce' args =
      (let! r := join_with env' (mkJoinFlags (ce_dataDir ce') (cc_Code resp) "" "" false)
                   (ce_id ce') (ce_net ce') (ce_join ce') in ret (Joined r.1 r.2)) ∧
    run env' u32 ce' args' =
      (let! r := join_with env' (mkJoinFlags (ce_dataDir ce') (cc_Code resp) (cc_PairAddr resp) "" false)
                   (ce_id ce') (ce_net ce') (ce_join ce') in ret (Joined r.1 r.2)).
Proof.
  intros H Hv Has Han Hane. destruct (code_plain _ Hv) as (Hcs & Hcn & Hce).
  exists ["join"; "--code"; cc_Code resp], ["join"; "--code"; cc_Code resp; "--coordinator"; cc_PairAddr resp].
  cbn [print_run] in H. rewrite bool_decide_false, bool_decide_true in H by done.
  apply pbind_Ok in H as (fs1 & s & t & r & H & Hr & ->). unfold pret in Hr. injection Hr as <- <- ->.
  unfold print_pair in H. apply pbind_Ok in H as (fs2 & s1 & t1 & p & [_ ->]%quiet_Ok & H & ->).
  apply pbind_Ok in H as (fs3 & s2 & t2 & r & [_ ->]%quiet_Ok & H & ->).
  apply pbind_Ok in H as (fs4 & s3 & t3 & [] & Hsay & Hr & ->).
  unfold pret in Hr. injection Hr as <- <- ->. unfold say in Hsay. injection Hsay as _ <-.
  rewrite !app_nil_l_s, !app_nil_r_s.
  destruct (pair_text_lines (pf_ttl p.1) resp Hcn Han) as (_ & -> & ->). cbn [fmap option_fmap option_map].
  rewrite join_hint_words, join_hint_at_words by done. split_and!; [done..|].
  intros env' ce'. split; reflexivity.
Qed.

(** The command line of [pair], printing. *)
Lemma print_pair_args {C : Crypto} env u32 tab version ce f fs :
  min_int ≤ pf_ttl f ≤ max_int →
  print_run env u32 tab version ce (pair_args f (Duration_String (pf_ttl f))) fs =
  match pair_with env u32 f (ce_now ce) (ce_rpc ce) fs with
  | (fs', Ok resp) => (fs', (pair_text (pf_ttl f) resp, Ok (Paired resp)))
  | (fs', Err e) => (fs', ("", Err e))
  end.
Proof.
  intros Ht%ParseDuration_String. cbn [print_run pair_args]. rewrite bool_decide_false, bool_decide_true by done.
  unfold print_pair. pose proof (pair_args_parse f _
    (mkPairFlags (ce_dataDir ce) ("127.0.0.1:" +:+ Itoa defaultGRPCPort) DefaultCodeTTL) Ht) as Hp.
  cbn [tail pair_args] in Hp. rewrite Hp. unfold pbind, quiet, lift, say, pret.
  destruct (pair_with env u32 (f, []).1 (ce_now ce) (ce_rpc ce) fs) as [fs' [resp|e]] eqn:E; cbn [fst] in E; rewrite E.
  - by rewrite !app_nil_l_s, !app_nil_r_s.
  - done.
Qed.

(** C35: the validity that [pair] prints.  On the machine of [init], for every
    [--ttl] up to ten minutes, in the notation of Go's durations, the command
    line [pair] succeeds and its first line names the [ttl] rounded to the
    second.  It is the time that the coordinator grants exactly when the [ttl]
    is at least one second and its fraction of a second is below a half: the
    request carries the whole seconds, and zero asks for the default of 60
    seconds. *)
Theorem pair_prints_lifetime {C : Crypto} {L : CryptoLaws C} env u32 tab version f ie fs fs' r ce pf a n p :
  init_with env f ie fs = (fs', Ok r) → init_valid r (ce_now ce) →
  ce_rpc ce = coordinator_rpc (init_node f r) a (Some n) (ce_now ce) p →
  pf_dataDir pf = if_dataDir f → 0 ≤ pf_ttl pf ≤ MaxPairingCodeTTL → 0 ≤ n < codeSpace →
  let ttl := pf_ttl pf in
  ∃ text resp, print_run env u32 tab version ce (pair_args pf (Duration_String ttl)) fs' =
      (fs', (text, Ok (Paired resp))) ∧
    (lacks "010" (cc_PairAddr resp) = true →
     lines text !! 0%nat =
       Some ("pairing code: " +:+ cc_Code resp +:+ "   (valid for " +:+
             Duration_String (printed_validity ttl) +:+ ", single use)")) ∧
    cc_ExpiresAt resp - ce_now ce = (if ttl <? Second then 60 * Second else ttl - ttl mod Second) ∧
    (printed_validity ttl = cc_ExpiresAt resp - ce_now ce ↔ Second ≤ ttl ∧ ttl mod Second < Second / 2).
Proof.
  intros HI Hv Hrpc Hdir Httl Hn ttl. set (now := ce_now ce) in *.
  destruct (whole_seconds ttl Httl) as (Hu & E600 & Esec).
  rewrite print_pair_args by (unfold MaxPairingCodeTTL, Minute, Second, min_int, max_int in *; lia).
  fold now. rewrite Hrpc, (pair_with_after_init env u32 f ie fs fs' r pf a (Some n) now p HI Hv Hdir)
    by (unfold MaxPairingCodeTTL, Minute, Second in *; lia). fold ttl.
  pose proof (CreatePairingCode_spec a n now now (mkCreateReq (ttl / Second)) p Hu Hn) as HC.
  destruct (CreatePairingCode _ _ _ _ _ p) as [p' out]. cbn [TtlSeconds] in HC. rewrite E600 in HC.
  destruct HC as (resp & -> & _ & Hcode & Hexp & _). exists (pair_text ttl resp), resp. split; [done|].
  destruct (code_plain _ Hcode) as (_ & Hcn & _).
  pose proof (Z.div_mod ttl Second ltac:(done)) as Hdiv. pose proof (Z.mod_pos_bound ttl Second ltac:(done)).
  assert (cc_ExpiresAt resp - now = if ttl <? Second then 60 * Second else ttl - ttl mod Second) as E.
  { rewrite Hexp, Esec. destruct (ttl <? Second); lia. }
  split_and!; [|done|].
  - intros Ha. by destruct (pair_text_lines ttl resp Hcn Ha) as [? _].
  - rewrite E. unfold printed_validity.
    rewrite Round_second by (unfold MaxPairingCodeTTL, Minute, Second, max_int in *; lia).
    assert ((ttl + Second / 2) / Second = ttl / Second + (if ttl mod Second <? Second / 2 then 0 else 1)) as ->.
    { change (Second / 2) with 500000000 in *. symmetry.
      destruct (Z.ltb_spec (ttl mod Second) 500000000).
      - apply (Z.div_unique_pos _ _ _ (ttl mod Second + 500000000)); unfold Second in *; lia.
      - apply (Z.div_unique_pos _ _ _ (ttl mod Second - 500000000)); unfold Second in *; lia. }
    change (Second / 2) with 500000000 in *.
    destruct (Z.ltb_spec ttl Second); [rewrite Z.div_small, Z.mod_small by lia|];
      destruct (Z.ltb_spec (ttl mod Second) 500000000), (Z.ltb_spec ttl 500000000); unfold Second in *; lia.
Qed.

(** C38: what a run reports.  The exit status is 0 exactly when the command
    succeeded, the files and the outcome are those of the command without its
    text, and a failed command prints nothing but the progress of the search
    for a coordinator: never that a mesh was made or joined. *)
Theorem main_reports {C : Crypto} env u32 tab version ce args fs :
  let '(fs', text, status) := main env u32 tab version ce args fs in
  match run env u32 ce args fs with
  | (fs1, Ok _) => fs' = fs1 ∧ status = 0
  | (fs1, Err _) => fs' = fs1 ∧ status = 1 ∧
      (text = "" ∨ ∃ rest, args = "join" :: rest ∧ search_text text)
  end.
Proof.
  unfold main. pose proof (print_run_quiet env u32 tab version ce args fs) as Hq. unfold mute in Hq.
  destruct (print_run env u32 tab version ce args fs) as [fs' [text r]] eqn:E. rewrite <-Hq.
  destruct r as [o|e]; [done|]. split; [done|]. split; [done|].
  destruct args as [|cmd rest]; [by left; injection E as _ <- _|]. cbn [print_run] in E.
  assert (Hk : ∀ A (k : A → output) (m : PM A) fs fs' text e,
    pbind m (λ a, pret (k a)) fs = (fs', (text, Err e)) → m fs = (fs', (text, Err e)))
    by (intros A k m fs1 fs2 t e1 [H|(? & ? & ? & ? & _ & H & _)]%pbind_Err; done).
  destruct (bool_decide (cmd = "init")).
  { left. apply Hk in E. revert E. apply fails_silent_quiet_bind. intros p.
    apply fails_silent_quiet_bind. intros r. apply fails_silent_said. }
  destruct (bool_decide (cmd = "pair")).
  { left. apply Hk in E. revert E. apply fails_silent_quiet_bind. intros p.
    apply fails_silent_quiet_bind. intros r. apply fails_silent_said. }
  destruct (bool_decide (cmd = "join")) eqn:Ej.
  { right. exists rest. apply bool_decide_eq_true in Ej as ->. split; [done|]. apply Hk in E.
    apply pbind_Err in E as [E|(fs1 & s & t & p & H1 & E & ->)]; [by left; eapply quiet_text|].
    apply quiet_text in H1 as ->. rewrite app_nil_l_s. by eapply print_join_fails. }
  left. repeat (case_bool_decide; [done|]). by injection E as _ <- _.
Qed.

(** *** An operator at the keyboard, for the witnesses *)

Definition ex_desk : CtlEnv :=
  mkCtlEnv "" (Ok "/home/u") ex_init_env ex_now
    (coordinator_rpc (init_node ex_init_flags ex_init_r) (NewAdmin "10.0.0.5:7444") (Some 42) ex_now ex_pairer)
    ex_ie ex_net (λ _ _ _, Err ErrBadCode).
Definition ex_pair_run : FS * (string * result output) :=
  print_run no_faults (λ _, 0) (λ _, false) "dev" ex_desk ["pair"; "--data-dir"; "d"] ex_init.1.
Definition ex_pair_resp : CreatePairingCodeResponse :=
  match ex_pair_run with (_, (_, Ok (Paired r))) => r | _ => mkCreateResp "" 0 "" end.

Lemma printed_commands_join_witness :
  ∃ text args args', ex_pair_run = (ex_init.1, (text, Ok (Paired ex_pair_resp))) ∧
    (words <$> lines text !! 3%nat) = Some ("meshctl" :: args) ∧
    (words <$> lines text !! 5%nat) = Some ("meshctl" :: args') ∧
    args' = ["join"; "--code"; "00000042"; "--coordinator"; "10.0.0.5:7444"].
Proof.
  assert (E : ex_pair_run = (ex_init.1, (pair_text (60 * Second) ex_pair_resp, Ok (Paired ex_pair_resp))))
    by (vm_compute; reflexivity).
  destruct (printed_commands_join no_faults (λ _, 0) (λ _, false) "dev" ex_desk
    ["--data-dir"; "d"] ex_init.1 ex_init.1 _ ex_pair_resp E) as (args & args' & H1 & H2 & _);
    [vm_compute; reflexivity..|vm_compute; discriminate|].
  exists (pair_text (60 * Second) ex_pair_resp), args, args'. split; [exact E|]. split; [exact H1|].
  split; [exact H2|]. vm_compute in H2. injection H2 as <-. reflexivity.
Defined.

Lemma pair_prints_lifetime_witness :
  ∃ text resp, print_run no_faults (λ _, 0) (λ _, false) "dev" ex_desk
      ["pair"; "--data-dir"; "d"; "--addr"; "127.0.0.1:7443"; "--ttl"; "500ms"] ex_init.1 =
      (ex_init.1, (text, Ok (Paired resp))) ∧
    cc_ExpiresAt resp - ex_now = 60 * Second ∧ printed_validity (500 * Millisecond) = Second.
Proof.
  destruct (pair_prints_lifetime no_faults (λ _, 0) (λ _, false) "dev" ex_init_flags ex_init_env (mkFS ∅ ∅ 18)
    ex_init.1 ex_init_r ex_desk (mkPairFlags "d" "127.0.0.1:7443" (500 * Millisecond)) (NewAdmin "10.0.0.5:7444")
    42 ex_pairer ex_init_ok ex_init_valid eq_refl eq_refl)
    as (text & resp & H & _ & He & _); [vm_compute; split; discriminate|unfold codeSpace; lia|].
  exists text, resp. split; [exact H|]. split; [exact He|reflexivity].
Defined.

Example ex_init_report :
  lines (init_text (λ _, false) ex_init_flags ex_init_r) !! 4%nat =
    Some "  admin cert      admin, expires 1971-01-01T00:16:40Z".
Proof. vm_compute. reflexivity. Qed.
