(* ===== verification/Meshd.v ===== *)
(** * The daemon [meshd]

    Models [src/cmd/meshd/main.go]: the flags, what [run] sets up, in its order,
    the loop it then stays in, and its helpers.  Listeners, the
    system's interfaces, the clock and the answers of the mDNS library are
    arguments; what is logged is left out. *)
From S2P Require Import Prelude GoStrings GoUtf8 GoTime GoFormat GoDuration GoOS GoNet GoFlag Labels Crypto SymCrypto GoGrpc.
From S2P Require Import PkiCA PkiPem PkiPairing Transport PairingServer Peer Ifaces Mdns.
From S2P Require Import Coordinator.
Local Open Scope Z_scope.

Definition defaultGRPCPort : Z := 7443.
Definition defaultPairPort : Z := 7444.

Record config := mkConfig {
  dataDir : string; grpcPort : Z; pairPort : Z; coordinator : bool;
  advertiseHost : string; ifaces : string; logLevel : string; logFormat : string
}.

Definition defaultDataDir (lcm : string) (home : result string) : string :=
  if bool_decide (lcm = "") then
    match home with Err _ => ".lcm" | Ok home => path_string (GoOS.Join home ".lcm") end
  else lcm.

(** The flags, beside [-version]. *)
Definition run_flags : list (string * FlagValue (config * bool)) :=
  let on (g : config → config) (p : config * bool) := (g p.1, p.2) in
  [("data-dir", StringFlag (λ v, on (λ c, mkConfig v (grpcPort c) (pairPort c) (coordinator c)
      (advertiseHost c) (ifaces c) (logLevel c) (logFormat c))));
   ("grpc-port", IntFlag (λ v, on (λ c, mkConfig (dataDir c) v (pairPort c) (coordinator c)
      (advertiseHost c) (ifaces c) (logLevel c) (logFormat c))));
   ("pair-port", IntFlag (λ v, on (λ c, mkConfig (dataDir c) (grpcPort c) v (coordinator c)
      (advertiseHost c) (ifaces c) (logLevel c) (logFormat c))));
   ("coordinator", BoolFlag (λ v, on (λ c, mkConfig (dataDir c) (grpcPort c) (pairPort c) v
      (advertiseHost c) (ifaces c) (logLevel c) (logFormat c))));
   ("advertise-host", StringFlag (λ v, on (λ c, mkConfig (dataDir c) (grpcPort c) (pairPort c)
      (coordinator c) v (ifaces c) (logLevel c) (logFormat c))));
   ("ifaces", StringFlag (λ v, on (λ c, mkConfig (dataDir c) (grpcPort c) (pairPort c)
      (coordinator c) (advertiseHost c) v (logLevel c) (logFormat c))));
   ("log-level", StringFlag (λ v, on (λ c, mkConfig (dataDir c) (grpcPort c) (pairPort c)
      (coordinator c) (advertiseHost c) (ifaces c) v (logFormat c))));
   ("log-format", StringFlag (λ v, on (λ c, mkConfig (dataDir c) (grpcPort c) (pairPort c)
      (coordinator c) (advertiseHost c) (ifaces c) (logLevel c) v)));
   ("version", BoolFlag (λ b p, (p.1, b)))].

Definition default_config (dir : string) : config :=
  mkConfig dir defaultGRPCPort defaultPairPort false "" "" "info" "json".

Definition parse_args (dir : string) (args : list string) : result ((config * bool) * list string) :=
  Parse run_flags args (default_config dir, false).

(** ** The logger *)

Section Logger.
Context (upper_tab : Z → Z).

Definition ascii_upper (a : ascii) : ascii :=
  if in_range 97 122 (byte_val a) then byte_of (byte_val a - 32) else a.
Definition unicode_ToUpper (r : Z) : Z :=
  if r <=? 0x7F then (if in_range 97 122 r then r - 32 else r) else upper_tab r.

(** [strings.ToUpper]; outside ASCII the table of [unicode.ToUpper]. *)
Definition ToUpper (s : string) : string :=
  if sall (λ a, negb (non_ascii a)) s then smap ascii_upper s
  else write_runes (unicode_ToUpper <$> runes s).

(** [strings.IndexAny(s, "+-")] *)
Fixpoint index_sign (s : string) : option nat :=
  match s with
  | "" => None
  | String a s' =>
      if bool_decide (a = "+"%char) || bool_decide (a = "-"%char) then Some 0%nat
      else S <$> index_sign s'
  end.

Definition level_names : list (string * Z) := [("DEBUG", -4); ("INFO", 0); ("WARN", 4); ("ERROR", 8)].

(** [slog.Level.UnmarshalText]: a name, and an offset behind its sign. *)
Definition parse_level (s : string) : option Z :=
  let name_offset :=
    match index_sign s with
    | None => Some (s, 0)
    | Some i => match Atoi (sdrop i s) with inl n => Some (stake i s, n) | inr _ => None end
    end in
  match name_offset with
  | None => None
  | Some (name, offset) =>
      match List.find (λ p, bool_decide (p.1 = ToUpper name)) level_names with
      | Some (_, l) => Some (int64_wrap (l + offset))
      | None => None
      end
  end.

Record Logger := mkLogger { lg_level : Z; lg_json : bool }.

Definition newLogger (level format : string) : result Logger :=
  match parse_level level with
  | None => Err (Errorf "bad --log-level %q")
  | Some l =>
      if bool_decide (format = "json") then Ok (mkLogger l true)
      else if bool_decide (format = "text") then Ok (mkLogger l false)
      else Err (Errorf "bad --log-format %q")
  end.
End Logger.

Example parse_level_offset : parse_level id "Info+3" = Some 3.
Proof. reflexivity. Qed.

(** ** Interfaces *)

Section Interfaces.
Context (InterfaceByName : string → result Interface).

(** The loop of [parseIfaces]; [out] is what it has appended so far. *)
Fixpoint lookup_ifaces (names : list string) (out : list Interface) : result (list Interface) :=
  match names with
  | [] => Ok out
  | name :: names =>
      let name := TrimSpace name in
      if bool_decide (name = "") then lookup_ifaces names out
      else let? ifi := wrap_err "--ifaces: %w" (InterfaceByName name) in
           lookup_ifaces names (out ++ [ifi])
  end.

(** [None] is the nil slice. *)
Definition parseIfaces (s : string) : result (option (list Interface)) :=
  if bool_decide (TrimSpace s = "") then Ok None
  else
    let? out := lookup_ifaces (Split s ",") [] in
    if (length out =? 0)%nat then Err (ErrorsNew "--ifaces: no interfaces given")
    else Ok (Some out).
End Interfaces.

Section LanIPv4.
Context (Interfaces : result (list Interface)) (Addrs : Interface → result (list Addr)).

Fixpoint first_v4 (addrs : list Addr) : option IP :=
  match addrs with
  | [] => None
  | IPNet ip :: addrs => match To4 ip with Some _ => Some ip | None => first_v4 addrs end
  | OtherAddr _ :: addrs => first_v4 addrs
  end.

Fixpoint lan_go (ifis : list Interface) : string :=
  match ifis with
  | [] => "127.0.0.1"
  | ifi :: ifis =>
      let addrs := match Addrs ifi with Ok l => l | Err _ => [] end in
      match first_v4 addrs with Some ip => IP_String ip | None => lan_go ifis end
  end.

Definition lanIPv4 : string :=
  match DefaultInterfaces Interfaces Addrs with Err _ => "127.0.0.1" | Ok ifis => lan_go ifis end.
End LanIPv4.

(** ** [run] *)

(** The world around a start of the daemon: the table of [unicode.ToUpper], the
    clock when the identity is checked, what the system says of its interfaces,
    the two calls of [net.Listen] by their address, and the answers of the mDNS
    library. *)
Record StartEnv := mkStartEnv {
  se_upper : Z → Z;
  se_now : Time;
  se_by_name : string → result Interface;
  se_interfaces : result (list Interface);
  se_addrs : Interface → result (list Addr);
  se_listen_grpc : string → result unit;
  se_listen_pair : string → result unit;
  se_register : result unit;
  se_resolver : result unit;
  se_browse : result unit
}.

(** A running daemon: its logger and identity, the control-plane server, the
    pairing server with the admin service that shares its [Pairer], and the
    mDNS browser. *)
Record Daemon := mkDaemon {
  d_log : Logger;
  d_id : Identity;
  d_srv : GServer;
  d_pair : option (Server * Admin);
  d_md : MDNS
}.

Section Daemon.
Context {C : Crypto} (env : OSEnv).

Definition listen_addr (port : Z) : string := ":" +:+ Itoa port.

(** The block under [if cfg.coordinator]. *)
Definition start_coordinator (cfg : config) (se : StartEnv) (id : Identity) : M (Server * Admin) :=
  let! ca := wrapM "coordinator needs the mesh CA in %s (created by `meshctl init`): %w"
               (ReadCA env (dataDir cfg)) in
  let! pairSrv := lift (NewServer (mkServerConfig (Some id) (Some ca) (grpcPort cfg) 0)) in
  do! lift (wrap_err "listen pair port: %w" (se_listen_pair se (listen_addr (pairPort cfg)))) in
  let host := if bool_decide (advertiseHost cfg = "")
              then lanIPv4 (se_interfaces se) (se_addrs se) else advertiseHost cfg in
  ret (pairSrv, NewAdmin (JoinHostPort host (Itoa (pairPort cfg)))).

Definition mdns_config (cfg : config) (id : Identity) (ifs : option (list Interface)) : MDNSConfig :=
  mkMDNSConfig
    (mkAd (Name (id_Principal id)) (id_MeshID id) (grpcPort cfg)
       (if coordinator cfg then pairPort cfg else 0) (id_Fingerprint id))
    ifs 0 0 false.

(** The interceptors of a coordinator, before any other option. *)
Definition server_opts (coordinator : bool) : list ServerOption :=
  if coordinator
  then [ChainUnaryInterceptor AdminInterceptors.1; ChainStreamInterceptor AdminInterceptors.2]
  else [].

(** [run] up to its loop. *)
Definition start (cfg : config) (se : StartEnv) : M Daemon :=
  let! log := lift (newLogger (se_upper se) (logLevel cfg) (logFormat cfg)) in
  let! loaded := try (LoadNodeIdentity env (dataDir cfg) (se_now se)) in
  match loaded with
  | Err e =>
      if errors_Is e ErrNotExist
      then fail (Errorf "no node identity in %s: run `meshctl init` (first node) or `meshctl join --code ...`")
      else fail e
  | Ok id =>
      let! ifs := lift (parseIfaces (se_by_name se) (ifaces cfg)) in
      do! lift (wrap_err "listen grpc port: %w" (se_listen_grpc se (listen_addr (grpcPort cfg)))) in
      let srv := id_NewServer id (server_opts (coordinator cfg)) in
      let! pair := (if coordinator cfg
                    then let! c := start_coordinator cfg se id in ret (Some c)
                    else ret None) in
      let! md := lift (NewMDNS (mdns_config cfg id ifs)) in
      match Start (DefaultInterfaces (se_interfaces se) (se_addrs se)) (se_register se)
              (se_resolver se) (se_browse se) md with
      | (_, Err e) => fail e
      | (md, Ok _) => ret (mkDaemon log id srv pair md)
      end
  end.

Definition set_md (md : MDNS) (d : Daemon) : Daemon :=
  mkDaemon (d_log d) (d_id d) (d_srv d) (d_pair d) md.

Inductive run_state := Serving (d : Daemon) | Shutdown (d : Daemon) | Crashed.

(** The loop of [run] beside the goroutine of the browser, in the order of
    their steps: [CtxDone] is the signal, which both see, [Recv] the receive
    from [md.Events], anything else a step of the browser while it runs.  On
    the signal the deferred [md.Stop] waits for the browser. *)
Fixpoint serve (l : list item) (d : Daemon) : run_state :=
  match l with
  | [] => Serving d
  | CtxDone :: _ => Shutdown (set_md (Stop (d_md d)) d)
  | Recv :: l => serve l (set_md (recv (d_md d)) d)
  | it :: l =>
      if done_ (d_md d) then serve l d
      else match loop [it] (d_md d) with
      | Running m | Returned m => serve l (set_md m d)
      | Panicked => Crashed
      end
  end.

Inductive run_result := PrintedVersion | Ran (s : run_state).

(** [dir] is the default of [--data-dir]. *)
Definition run (dir : string) (args : list string) (se : StartEnv) (l : list item) : M run_result :=
  let! p := lift (parse_args dir args) in
  if p.1.2 then ret PrintedVersion
  else let! d := start p.1.1 se in ret (Ran (serve l d)).

(** What [main] prints to standard output and its exit status, [None] while the
    daemon runs; a panic of a goroutine ends the process with status 2. *)
Definition main (version dir : string) (args : list string) (se : StartEnv) (l : list item) (fs : FS)
  : string * option Z :=
  match (run dir args se l fs).2 with
  | Err _ => ("", Some 1)
  | Ok PrintedVersion => ("meshd " +:+ version +:+ String "010" "", Some 0)
  | Ok (Ran (Serving _)) => ("", None)
  | Ok (Ran (Shutdown _)) => ("", Some 0)
  | Ok (Ran Crashed) => ("", Some 2)
  end.
End Daemon.

(** ** Lemmas *)

Section StartFacts.
Context {C : Crypto} (env : OSEnv).

Lemma reads_ReadCert dir name : reads (ReadCert env dir name).
Proof. unfold ReadCert. eauto with reads. Qed.
Lemma reads_ReadKey dir name : reads (ReadKey env dir name).
Proof. unfold ReadKey. eauto with reads. Qed.
Hint Resolve reads_ReadCert reads_ReadKey : reads.

Lemma reads_LoadNodeIdentity dir now : reads (LoadNodeIdentity env dir now).
Proof.
  unfold LoadNodeIdentity, LoadIdentity.
  repeat (apply reads_bind; [eauto with reads|intros ?]). auto with reads.
Qed.
Lemma reads_ReadCA dir : reads (ReadCA env dir).
Proof. unfold ReadCA. repeat (apply reads_bind; [eauto with reads|intros ?]). auto with reads. Qed.
Hint Resolve reads_LoadNodeIdentity reads_ReadCA : reads.

(** The daemon's start writes no file. *)
Lemma reads_start cfg se : reads (start env cfg se).
Proof.
  unfold start, start_coordinator. apply reads_bind; [auto with reads|]. intros log.
  apply reads_bind; [auto with reads|]. intros [id|e]; [|case_match; auto with reads].
  apply reads_bind; [auto with reads|]. intros ifs.
  apply reads_bind; [auto with reads|]. intros _.
  apply reads_bind.
  - destruct (coordinator cfg); [|auto with reads].
    apply reads_bind; [|auto with reads].
    repeat (apply reads_bind; [auto with reads|intros ?]). auto with reads.
  - intros pair. apply reads_bind; [auto with reads|]. intros md.
    destruct (Start _ _ _ _ md) as [? []]; auto with reads.
Qed.

Lemma start_coordinator_Ok cfg se id fs fs' s a :
  start_coordinator env cfg se id fs = (fs', Ok (s, a)) →
  fs' = fs ∧
  ∃ ca, ReadCA env (dataDir cfg) fs = (fs, Ok ca) ∧
    NewServer (mkServerConfig (Some id) (Some ca) (grpcPort cfg) 0) = Ok s ∧
    is_ok (se_listen_pair se (listen_addr (pairPort cfg))) = true ∧
    a = NewAdmin (JoinHostPort
          (if bool_decide (advertiseHost cfg = "")
           then lanIPv4 (se_interfaces se) (se_addrs se) else advertiseHost cfg)
          (Itoa (pairPort cfg))).
Proof.
  unfold start_coordinator. intros (fs1 & ca & Hca%wrapM_Ok & H)%bind_Ok.
  pose proof (reads_run _ _ _ _ (reads_ReadCA _) Hca) as ->.
  apply bind_Ok in H as (fs2 & s' & Hs & H). unfold lift in Hs. injection Hs as <- Hs.
  apply bind_Ok in H as (fs3 & [] & Hl & H). unfold lift in Hl. injection Hl as <- Hl.
  unfold ret in H. injection H as <- <- <-. split; [done|]. exists ca. split_and!; try done.
  by destruct (se_listen_pair se _).
Qed.

(** A start that succeeded, inverted. *)
Lemma start_Ok cfg se fs fs' d :
  start env cfg se fs = (fs', Ok d) →
  fs' = fs ∧
  newLogger (se_upper se) (logLevel cfg) (logFormat cfg) = Ok (d_log d) ∧
  LoadNodeIdentity env (dataDir cfg) (se_now se) fs = (fs, Ok (d_id d)) ∧
  is_ok (se_listen_grpc se (listen_addr (grpcPort cfg))) = true ∧
  d_srv d = id_NewServer (d_id d) (server_opts (coordinator cfg)) ∧
  (match d_pair d with
   | None => coordinator cfg = false
   | Some sa => coordinator cfg = true ∧ start_coordinator env cfg se (d_id d) fs = (fs, Ok sa)
   end) ∧
  ∃ ifs m, parseIfaces (se_by_name se) (ifaces cfg) = Ok ifs ∧
    NewMDNS (mdns_config cfg (d_id d) ifs) = Ok m ∧
    Start (DefaultInterfaces (se_interfaces se) (se_addrs se)) (se_register se) (se_resolver se)
      (se_browse se) m = (d_md d, Ok tt).
Proof.
  intros H. pose proof (reads_run _ _ _ _ (reads_start _ _) H) as ->. split; [done|].
  unfold start in H. apply bind_Ok in H as (fs1 & log & Hlog & H).
  unfold lift in Hlog. injection Hlog as <- Hlog.
  apply bind_Ok in H as (fs2 & loaded & Hid & H).
  unfold try in Hid. destruct (LoadNodeIdentity _ _ _ fs) as [fs2' r] eqn:El.
  injection Hid as <- <-. pose proof (reads_run _ _ _ _ (reads_LoadNodeIdentity _ _) El) as ->.
  destruct r as [id|e]; [|by case_match].
  apply bind_Ok in H as (fs3 & ifs & Hifs & H). unfold lift in Hifs. injection Hifs as <- Hifs.
  apply bind_Ok in H as (fs4 & [] & Hl & H). unfold lift in Hl. injection Hl as <- Hl.
  apply bind_Ok in H as (fs5 & pair & Hp & H).
  apply bind_Ok in H as (fs6 & m & Hm & H). unfold lift in Hm. injection Hm as <- Hm.
  destruct (Start _ _ _ _ m) as [md [[]|e]] eqn:Es; [|done]. unfold ret in H.
  injection H as -> <-. cbn. split_and!; try done.
  - by destruct (se_listen_grpc se _).
  - destruct (coordinator cfg); [|by injection Hp as <-].
    apply bind_Ok in Hp as (fs7 & c & Hc & Hp). unfold ret in Hp. injection Hp as -> <-.
    by split.
  - by exists ifs, m.
Qed.
End StartFacts.

(** *** The loop *)

(** A browser that was started with a period its ticker accepts. *)
Definition browsing (m : MDNS) : Prop := cancel m = true ∧ 3 ≤ ExpireAfter (cfg m).

Lemma browser_step it m :
  browsing m → done_ m = false → it ≠ CtxDone →
  ∃ m', (loop [it] m = Running m' ∨ loop [it] m = Returned m') ∧ browsing m'.
Proof.
  intros [Hc He] Hd Hit. unfold loop.
  destruct (Z.leb_spec (Z.quot (ExpireAfter (cfg m)) 3) 0) as [Hq|_].
  { pose proof (Z.quot_le_mono 3 (ExpireAfter (cfg m)) 3 ltac:(lia) He) as H3.
    change (Z.quot 3 3) with 1 in H3. lia. }
  destruct it as [|e now| |now order|]; cbn [loop_go]; [done|..].
  - eexists. split; [by left|]. unfold browsing.
    destruct (handleEntry_fixed e now m) as [-> _]. by destruct (handleEntry_handles e now m) as [-> _].
  - unfold close_done. rewrite Hd. eexists. split; [by right|done].
  - eexists. split; [by left|]. unfold browsing.
    destruct (expire_fixed order now m) as [-> _]. by destruct (expire_handles order now m) as [-> _].
  - eexists. split; [by left|done].
Qed.

Definition same_parts (d d' : Daemon) : Prop :=
  d_log d' = d_log d ∧ d_id d' = d_id d ∧ d_srv d' = d_srv d ∧ d_pair d' = d_pair d.

(** The loop never crashes, and ends with the signal only. *)
Lemma serve_outcome l d :
  browsing (d_md d) →
  if existsb (λ it, match it with CtxDone => true | _ => false end) l
  then ∃ d', serve l d = Shutdown d' ∧ same_parts d d' ∧
         server (d_md d') = None ∧ cancel (d_md d') = false ∧ done_ (d_md d') = true
  else ∃ d', serve l d = Serving d' ∧ same_parts d d' ∧ browsing (d_md d').
Proof.
  revert d. induction l as [|it l IH]; intros d Hb; [by exists d|].
  assert (Hgo : ∀ m, browsing m → serve (it :: l) d = serve l (set_md m d) → it ≠ CtxDone →
    if existsb (λ it, match it with CtxDone => true | _ => false end) (it :: l)
    then ∃ d', serve (it :: l) d = Shutdown d' ∧ same_parts d d' ∧
           server (d_md d') = None ∧ cancel (d_md d') = false ∧ done_ (d_md d') = true
    else ∃ d', serve (it :: l) d = Serving d' ∧ same_parts d d' ∧ browsing (d_md d')).
  { intros m Hm -> Hit. replace (existsb _ (it :: l)) with
      (existsb (λ it, match it with CtxDone => true | _ => false end) l) by by destruct it.
    exact (IH (set_md m d) Hm). }
  assert (Hdead : done_ (d_md d) = true → it ≠ CtxDone → it ≠ Recv → serve (it :: l) d = serve l d).
  { intros Hd Hc Hr. destruct it; try done; cbn [serve]; by rewrite Hd. }
  assert (Hstep : it ≠ CtxDone → it ≠ Recv →
    ∃ m, browsing m ∧ serve (it :: l) d = serve l (set_md m d)).
  { intros Hc Hr. destruct (done_ (d_md d)) eqn:Hd.
    - exists (d_md d). split; [done|]. rewrite Hdead by done. by destruct d.
    - destruct (browser_step it (d_md d) Hb Hd Hc) as (m & [E|E] & Hm); exists m;
        (split; [done|]); destruct it; try done; cbn [serve]; by rewrite Hd, E. }
  destruct it as [|e now| |now order|]; try (destruct Hstep as (m & Hm & E); [done..|by apply (Hgo m)]).
  - cbn [existsb serve orb]. eexists. split; [done|]. split; [done|]. cbn [set_md d_md]. unfold Stop.
    destruct Hb as [-> _]. by destruct (server (d_md d)).
  - by apply (Hgo (recv (d_md d))).
Qed.

Lemma Start_Ok ifs reg res browse m m' :
  Start ifs reg res browse m = (m', Ok tt) → BrowseOnly (cfg m) = false →
  m' = set_cancel true (set_server (Some (mkZServer (ad_NodeID (cfg_Ad (cfg m))) (ad_GRPCPort (cfg_Ad (cfg m)))
                         (TXT (cfg_Ad (cfg m))))) m).
Proof.
  unfold Start. intros H Hb. rewrite Hb in H.
  destruct (match cfg_Interfaces (cfg m) with Some l => Ok l | None => _ end) as [[|i l]|]; try done.
  destruct reg; [|done]. destruct res; [|done]. destruct browse; [|done]. by injection H as <-.
Qed.

(** What a start leaves in the browser. *)
Lemma start_md {C : Crypto} env cfg se fs fs' d :
  start env cfg se fs = (fs', Ok d) →
  let ad := mkAd (Name (id_Principal (d_id d))) (id_MeshID (d_id d)) (grpcPort cfg)
              (if coordinator cfg then pairPort cfg else 0) (id_Fingerprint (d_id d)) in
  browsing (d_md d) ∧ server (d_md d) = Some (mkZServer (ad_NodeID ad) (ad_GRPCPort ad) (TXT ad)) ∧
  ad_NodeID ad ≠ "" ∧ ad_MeshID ad ≠ "" ∧ 1 ≤ ad_GRPCPort ad ≤ 65535.
Proof.
  intros (_ & _ & _ & _ & _ & _ & ifs & m & _ & Hm & Hs)%start_Ok ad.
  apply NewMDNS_Ok in Hm as ((Hn & Hmesh & _ & Hg) & Em). subst m.
  apply Start_Ok in Hs as ->; [|done]. split; [split; [done|cbn; unfold Second; lia]|].
  exact (conj eq_refl (conj Hn (conj Hmesh Hg))).
Qed.

(** The part of the world that a start needs, with default interfaces. *)
Definition world_ready (cfg : config) (se : StartEnv) : Prop :=
  is_ok (newLogger (se_upper se) (logLevel cfg) (logFormat cfg)) = true ∧
  (TrimSpace (ifaces cfg) = "" ∧
   ∃ i l, DefaultInterfaces (se_interfaces se) (se_addrs se) = Ok (i :: l)) ∧
  (se_listen_grpc se (listen_addr (grpcPort cfg)) = Ok tt ∧
   se_listen_pair se (listen_addr (pairPort cfg)) = Ok tt) ∧
  (se_register se = Ok tt ∧ se_resolver se = Ok tt ∧ se_browse se = Ok tt) ∧
  1 ≤ grpcPort cfg ≤ 65535.

Lemma start_coordinator_runs {C : Crypto} env cfg se fs id ca :
  ReadCA env (dataDir cfg) fs = (fs, Ok ca) → ca_MeshID ca = id_MeshID id →
  se_listen_pair se (listen_addr (pairPort cfg)) = Ok tt →
  ∃ c, start_coordinator env cfg se id fs = (fs, Ok c).
Proof.
  intros Hrd Em Hl. unfold start_coordinator.
  rewrite (run_bind _ _ fs fs ca); [|by rewrite (run_wrap _ _ _ _ _ Hrd)].
  destruct (NewServer (mkServerConfig (Some id) (Some ca) (grpcPort cfg) 0)) as [s|e] eqn:E.
  - rewrite (run_bind _ _ fs fs s) by done.
    rewrite (run_bind _ _ fs fs tt) by (unfold lift; by rewrite Hl).
    by eexists.
  - exfalso. unfold NewServer in E. cbn [sc_Identity sc_CA] in E. by rewrite bool_decide_true in E.
Qed.

(** Then an identity is all that a start is missing, and the CA for a coordinator. *)
Lemma start_runs {C : Crypto} env cfg se fs id :
  world_ready cfg se → LoadNodeIdentity env (dataDir cfg) (se_now se) fs = (fs, Ok id) →
  (Name (id_Principal id) ≠ "" ∧ id_MeshID id ≠ "" ∧ id_MeshID id ≠ AnyMesh) →
  (coordinator cfg = true → ∃ ca, ReadCA env (dataDir cfg) fs = (fs, Ok ca) ∧ ca_MeshID ca = id_MeshID id) →
  ∃ d, start env cfg se fs = (fs, Ok d).
Proof.
  intros (Hlog & (Hif & i & l & Hdef) & (Hl1 & Hl2) & (Hr & Hv & Hb) & Hg) Hid (Hn & Hm & Hany) Hca.
  unfold start. destruct (newLogger _ _ _) as [log|]; [|done].
  rewrite (run_bind _ _ fs fs log) by done.
  rewrite (run_bind _ _ fs fs (Ok id)) by by apply run_try.
  rewrite (run_bind _ _ fs fs None); [|by unfold lift, parseIfaces; rewrite bool_decide_true].
  rewrite (run_bind _ _ fs fs tt); [|by unfold lift; rewrite Hl1].
  assert (∃ pair, (if coordinator cfg
             then let! c := start_coordinator env cfg se id in ret (Some c)
             else ret None) fs = (fs, Ok pair)) as [pair Hpair].
  { destruct (coordinator cfg); [|by eexists]. destruct (Hca eq_refl) as (ca & Hrd & Em).
    destruct (start_coordinator_runs env cfg se fs id ca Hrd Em Hl2) as [c Hc].
    exists (Some c). by rewrite (run_bind _ _ _ _ _ Hc). }
  rewrite (run_bind _ _ fs fs pair) by done.
  rewrite (run_bind _ _ fs fs (mkMDNS (mkMDNSConfig (cfg_Ad (mdns_config cfg id None)) None (90 * Second) 64 false)
    [] ∅ None false false)).
  - unfold Start. cbn [Mdns.cfg cfg_Interfaces]. rewrite Hdef. cbn [wrap_err]. rewrite Hr, Hv, Hb.
    by eexists.
  - unfold lift, NewMDNS, mdns_config. cbn [cfg_Ad ad_NodeID ad_MeshID ad_GRPCPort BrowseOnly].
    rewrite !bool_decide_false by done. cbn [andb].
    rewrite (proj2 (Z.ltb_ge _ 1)), (proj2 (Z.ltb_ge 65535 _)) by lia. done.
Qed.

(** ** Properties *)

(** C22: a daemon that started is what its certificate says.  It changed no file;
    its identity is the one that the data directory holds; what it advertises
    is read back by every peer as its node_id, mesh, fingerprint and ports, and
    it is seen as a coordinator exactly when it is one (with a pairing port);
    then the admin API behind its guard and the pairing server with the CA of
    the same mesh are there, without any active code, and otherwise neither. *)
Theorem start_sound {C : Crypto} env cfg se fs fs' d :
  start env cfg se fs = (fs', Ok d) → pairPort cfg ≤ 65535 →
  let id := d_id d in
  (fs' = fs ∧ LoadNodeIdentity env (dataDir cfg) (se_now se) fs = (fs, Ok id)) ∧
  (∃ z p, server (d_md d) = Some z ∧ ParseTXT (zs_text z) = Ok p ∧
     p = mkPeer (Name (id_Principal id)) (id_MeshID id) (id_Fingerprint id) "" [] (grpcPort cfg)
           (if coordinator cfg then Z.max 0 (pairPort cfg) else 0) time_zero ∧
     IsCoordinator p = coordinator cfg && (0 <? pairPort cfg)) ∧
  match d_pair d with
  | None => coordinator cfg = false ∧ gs_unary (d_srv d) = []
  | Some (s, a) =>
      coordinator cfg = true ∧ d_srv d = coordinator_server id ∧
      srv_Identity s = id ∧ ca_MeshID (srv_CA s) = id_MeshID id ∧ srv_GRPCPort s = grpcPort cfg ∧
      srv_pairer s = mkPairer (srv_CA s) (id_Cert id) DefaultNodeCertTTL ∅ ∅ []
  end.
Proof.
  intros H Hp id. pose proof (start_md _ _ _ _ _ _ H) as (_ & Hz & Hn & Hm & Hg).
  apply start_Ok in H as (-> & _ & Hid & _ & Hsrv & Hpair & _). split; [done|]. split.
  - eexists _, _. split; [exact Hz|]. split; [apply TXT_parses; [done..|]; cbn; destruct (coordinator cfg); lia|].
    cbn. unfold IsCoordinator. cbn. split; [by destruct (coordinator cfg)|].
    destruct (coordinator cfg); cbn; [|done]. lia.
  - destruct (d_pair d) as [[s a]|].
    + destruct Hpair as [Hc Hs]. apply start_coordinator_Ok in Hs as (_ & ca & _ & Hs & _ & _).
      apply NewServer_Ok in Hs as (id' & ca' & [= <-] & [= <-] & Hmesh & E1 & E2 & E3 & E4).
      rewrite Hc in Hsrv. rewrite E1, E2, E3, E4. by split_and!.
    + split; [done|]. rewrite Hsrv, Hpair. done.
Qed.

(** C37: the daemon runs until it is told to stop, and then stops cleanly.
    Whatever entries, sweeps, reads and even a closed browser come before, the
    run neither crashes nor returns; the signal ends it with the advertisement
    withdrawn, the browser stopped, no error, and exit status 0. *)
Theorem run_until_signal {C : Crypto} env dir args cfg rest se fs d l :
  parse_args dir args = Ok ((cfg, false), rest) → start env cfg se fs = (fs, Ok d) →
  if existsb (λ it, match it with CtxDone => true | _ => false end) l
  then ∃ d', run env dir args se l fs = (fs, Ok (Ran (Shutdown d'))) ∧ same_parts d d' ∧
         server (d_md d') = None ∧ cancel (d_md d') = false ∧ done_ (d_md d') = true ∧
         ∀ version, main env version dir args se l fs = ("", Some 0)
  else ∃ d', run env dir args se l fs = (fs, Ok (Ran (Serving d'))) ∧ same_parts d d' ∧
         cancel (d_md d') = true ∧ ∀ version, main env version dir args se l fs = ("", None).
Proof.
  intros Ha H. pose proof (start_md _ _ _ _ _ _ H) as (Hb & _).
  assert (E : run env dir args se l fs = (fs, Ok (Ran (serve l d)))).
  { unfold run. rewrite Ha. unfold bind at 1, lift. cbn. by rewrite (run_bind _ _ _ _ _ H). }
  unfold main. rewrite E. pose proof (serve_outcome l d Hb) as Ho. destruct (existsb _ l).
  - destruct Ho as (d' & -> & ? & ? & ? & ?). by exists d'.
  - destruct Ho as (d' & -> & ? & ? & _). by exists d'.
Qed.

(** A command line that sets every flag. *)
Definition config_args (c : config) : list string :=
  ["--data-dir"; dataDir c; "--grpc-port"; Itoa (grpcPort c); "--pair-port"; Itoa (pairPort c);
   "--advertise-host"; advertiseHost c; "--ifaces"; ifaces c; "--log-level"; logLevel c;
   "--log-format"; logFormat c; if coordinator c then "--coordinator" else "--coordinator=false"].

(** The daemon's flags.  Every configuration with non-negative ports can be
    written on the command line and is then what the daemon runs with, whatever
    bytes its strings hold; without flags it has the default ports, is no
    coordinator and logs JSON at the level info. *)
Theorem config_roundtrip dir c :
  0 ≤ grpcPort c ≤ max_int → 0 ≤ pairPort c ≤ max_int →
  parse_args dir (config_args c) = Ok ((c, false), []) ∧
  parse_args dir [] = Ok ((mkConfig dir 7443 7444 false "" "" "info" "json", false), []).
Proof.
  intros Hg Hp. split; [|reflexivity].
  apply ParseInt_Itoa in Hg, Hp. destruct c as [d g p co a i l f]. cbn [grpcPort pairPort] in Hg, Hp.
  unfold config_args. cbn [dataDir grpcPort pairPort coordinator advertiseHost ifaces logLevel logFormat].
  revert Hg Hp. generalize (Itoa g) (Itoa p). intros sg sp Hg Hp.
  unfold parse_args. cbv -[ParseInt ParseDuration]. rewrite Hg. cbv -[ParseInt ParseDuration]. rewrite Hp. by destruct co.
Qed.

Lemma config_roundtrip_witness :
  parse_args "x" (config_args (mkConfig "-d" 7443 0 true "=" "en0,en1" "info" "text")) =
    Ok ((mkConfig "-d" 7443 0 true "=" "en0,en1" "info" "text", false), []).
Proof.
  apply (config_roundtrip "x" (mkConfig "-d" 7443 0 true "=" "en0,en1" "info" "text"));
    cbn; unfold max_int; lia.
Defined.

(** *** Interfaces and addresses *)

(** The fields of [--ifaces]. *)
Definition iface_names (s : string) : list string :=
  List.filter (λ n, negb (bool_decide (n = ""))) (map TrimSpace (Split s ",")).

Lemma lookup_ifaces_spec by_name names out res :
  lookup_ifaces by_name names out = Ok res ↔
  ∃ r, res = out ++ r ∧
    Forall2 (λ n i, by_name n = Ok i)
      (List.filter (λ n, negb (bool_decide (n = ""))) (map TrimSpace names)) r.
Proof.
  revert out. induction names as [|n names IH]; intros out; cbn [lookup_ifaces map List.filter].
  - split.
    + intros [= <-]. exists []. by rewrite app_nil_r.
    + intros (r & -> & ->%Forall2_nil_inv_l). by rewrite app_nil_r.
  - case_bool_decide; cbn [negb]; [apply IH|]. rewrite rbind_Ok. split.
    + intros (i & Hi%wrap_err_Ok & (r & -> & Hr)%IH). exists (i :: r).
      split; [by rewrite <-app_assoc|by constructor].
    + intros (r & -> & (i & r' & Hi & Hr & ->)%Forall2_cons_inv_l). exists i.
      rewrite wrap_err_Ok. split; [done|]. apply IH. exists r'. by rewrite <-app_assoc.
Qed.

(** [--ifaces].  An empty flag, white space aside, means the library's choice;
    otherwise the daemon uses the interfaces of exactly the non-empty fields, in
    their order, and refuses the flag when one of them does not exist or no
    field is left. *)
Theorem parseIfaces_spec by_name s :
  (parseIfaces by_name s = Ok None ↔ TrimSpace s = "") ∧
  (∀ out, parseIfaces by_name s = Ok (Some out) ↔
     TrimSpace s ≠ "" ∧ iface_names s ≠ [] ∧
     Forall2 (λ n i, by_name n = Ok i) (iface_names s) out).
Proof.
  unfold parseIfaces. case_bool_decide as Ht.
  - split; [done|]. intros out. split; [done|tauto].
  - assert (∀ out, lookup_ifaces by_name (Split s ",") [] = Ok out ↔
              Forall2 (λ n i, by_name n = Ok i) (iface_names s) out) as Hl.
    { intros out. rewrite lookup_ifaces_spec. split; [intros (r & -> & ?); done|]. by exists out. }
    split.
    + split; [|done]. intros (r & _ & H)%rbind_Ok. by destruct (length r =? 0)%nat.
    + intros out. rewrite rbind_Ok. split.
      * intros (r & Hr%Hl & H). destruct (Nat.eqb_spec (length r) 0) as [|Hne]; [done|].
        injection H as ->. split_and!; [done| |done]. intros E. rewrite E in Hr.
        by apply Forall2_nil_inv_l in Hr as ->.
      * intros (_ & Hne & H). exists out. split; [by apply Hl|].
        destruct (Nat.eqb_spec (length out) 0) as [E|]; [|done].
        apply nil_length_inv in E as ->. by apply Forall2_nil_inv_r in H.
Qed.

Lemma first_v4_spec addrs ip :
  first_v4 addrs = Some ip → IPNet ip ∈ addrs ∧ is_Some (To4 ip).
Proof.
  induction addrs as [|[ip'|s] addrs IH]; cbn [first_v4]; [done| |].
  - destruct (To4 ip') eqn:E.
    + intros [= <-]. split; [by left|by eexists].
    + intros [? ?]%IH. split; [by right|done].
  - intros [? ?]%IH. split; [by right|done].
Qed.

Lemma first_v4_none addrs ip : first_v4 addrs = None → IPNet ip ∈ addrs → To4 ip = None.
Proof.
  induction addrs as [|[ip'|s] addrs IH]; cbn [first_v4]; intros H Hin.
  - by apply not_elem_of_nil in Hin.
  - destruct (To4 ip') eqn:E; [done|]. apply elem_of_cons in Hin as [[= ->]|Hin]; [done|by apply IH].
  - apply elem_of_cons in Hin as [|Hin]; [done|by apply IH].
Qed.

(** The address that a coordinator prints for joiners.  It is the text of an
    IPv4 address of an interface that mDNS may use, and 127.0.0.1 only when
    there is none that is not loopback itself; and with any port it is read
    back by [SplitHostPort]. *)
Theorem lanIPv4_spec ifs addrs port :
  let lan := lanIPv4 (Ok ifs) addrs in
  let usable_ip ip := ∃ ifi l, ifi ∈ ifs ∧ usable ifi = true ∧ addrs ifi = Ok l ∧
                               IPNet ip ∈ l ∧ is_Some (To4 ip) in
  ((∃ ip, usable_ip ip ∧ lan = IP_String ip) ∨ (lan = "127.0.0.1" ∧ ∀ ip, ¬ usable_ip ip)) ∧
  (0 ≤ port → SplitHostPort (JoinHostPort lan (Itoa port)) = Ok (lan, Itoa port)).
Proof.
  intros lan usable_ip. unfold lan, lanIPv4, DefaultInterfaces. cbn [rbind].
  assert (Hspec : (∃ ip, usable_ip ip ∧ lan_go addrs (pick_interfaces addrs ifs) = IP_String ip) ∨
    (lan_go addrs (pick_interfaces addrs ifs) = "127.0.0.1" ∧ ∀ ip, ¬ usable_ip ip)).
  { unfold usable_ip. clear. induction ifs as [|ifi ifs IH]; cbn [pick_interfaces].
    - right. split; [done|]. intros ip (ifi & l & Hin & _). by apply not_elem_of_nil in Hin.
    - assert (Hsk : (∀ ip l, usable ifi = true → addrs ifi = Ok l → IPNet ip ∈ l → To4 ip = None) →
        (∃ ip, (∃ i l, i ∈ ifi :: ifs ∧ usable i = true ∧ addrs i = Ok l ∧ IPNet ip ∈ l ∧ is_Some (To4 ip)) ∧
           lan_go addrs (pick_interfaces addrs ifs) = IP_String ip) ∨
        (lan_go addrs (pick_interfaces addrs ifs) = "127.0.0.1" ∧
           ∀ ip, ¬ ∃ i l, i ∈ ifi :: ifs ∧ usable i = true ∧ addrs i = Ok l ∧ IPNet ip ∈ l ∧ is_Some (To4 ip))).
      { intros Hno. destruct IH as [(ip & (i & l & Hin & ?) & E)|[E Hn]].
        - left. exists ip. split; [|done]. exists i, l. split; [by right|done].
        - right. split; [done|]. intros ip (i & l & Hin & Hu & Ha & Hip & [x Hx]).
          apply elem_of_cons in Hin as [->|Hin].
          + by rewrite (Hno ip l Hu Ha Hip) in Hx.
          + apply (Hn ip). exists i, l. split_and!; [done..|by exists x]. }
      destruct (usable ifi) eqn:Hu; cbn [negb]; [|apply Hsk; by intros].
      destruct (addrs ifi) as [[|a l]|e] eqn:Ha; [apply Hsk; intros ip l _ [= <-] []%not_elem_of_nil| |
        apply Hsk; by intros].
      cbn [lan_go]. rewrite Ha. destruct (first_v4 (a :: l)) as [ip|] eqn:Ef.
      + left. exists ip. split; [|done]. apply first_v4_spec in Ef as [? ?].
        exists ifi, (a :: l). split_and!; try done. by left.
      + apply Hsk. intros ip l' _ [= <-]. by apply first_v4_none. }
  split; [exact Hspec|]. intros Hp. apply Split_Join; [|by apply Itoa_plain_port].
  destruct Hspec as [(ip & _ & ->)|[-> _]]; [apply IP_String_plain|done].
Qed.

(** *** A coordinator, for the witnesses *)

Definition ex_store : M unit :=
  do! WriteCert no_faults "d" CACertFile (Cert ex_ca) false in
  do! WriteKey no_faults "d" CAKeyFile (Key ex_ca) false in
  do! WriteCert no_faults "d" NodeCertFile (ex_cert_of RoleNode "coord" "coord") false in
  WriteKey no_faults "d" NodeKeyFile (ex_key_of "coord") false.
Definition ex_dir : FS := (ex_store (mkFS ∅ ∅ 18)).1.

Definition ex_start_env : StartEnv :=
  mkStartEnv id ex_now (λ n, Err (ErrorsNew "no such network interface"))
    (Ok [mkInterface 2 "en0" 19]) (λ _, Ok [IPNet (String "010" (String "000" (String "000" (String "005" ""))))])
    (λ _, Ok tt) (λ _, Ok tt) (Ok tt) (Ok tt) (Ok tt).
Definition ex_config : config := mkConfig "d" 7443 7444 true "" "" "info" "json".
Definition ex_args : list string := ["--data-dir=d"; "-coordinator"].
Definition ex_daemon : option Daemon :=
  match (start no_faults ex_config ex_start_env ex_dir).2 with Ok d => Some d | Err _ => None end.

Lemma ex_started :
  match ex_daemon with
  | Some d => start no_faults ex_config ex_start_env ex_dir = (ex_dir, Ok d)
  | None => False
  end.
Proof. vm_compute. reflexivity. Qed.

Lemma start_sound_witness :
  ∃ d s a, ex_daemon = Some d ∧ d_pair d = Some (s, a) ∧ d_srv d = coordinator_server (d_id d).
Proof.
  pose proof ex_started as H. destruct ex_daemon as [d|] eqn:Ed; [|destruct H].
  destruct (start_sound no_faults ex_config ex_start_env ex_dir ex_dir d H ltac:(cbn; lia))
    as (_ & _ & Hp).
  destruct (d_pair d) as [[s a]|] eqn:Ep; [|destruct Hp as [Hp _]; discriminate Hp].
  exists d, s, a. destruct Hp as (_ & Hs & _). split; [reflexivity|split; [exact Ep|exact Hs]].
Defined.

Lemma run_until_signal_witness :
  ∃ d', run no_faults "x" ex_args ex_start_env [EntriesClosed; Recv; CtxDone] ex_dir =
    (ex_dir, Ok (Ran (Shutdown d'))) ∧ server (d_md d') = None.
Proof.
  pose proof ex_started as H. destruct ex_daemon as [d|] eqn:Ed; [|destruct H].
  destruct (run_until_signal no_faults "x" ex_args ex_config [] ex_start_env ex_dir d
    [EntriesClosed; Recv; CtxDone] eq_refl H)
    as (d' & Hr & _ & Hs & _).
  exists d'. split; [exact Hr|exact Hs].
Defined.

Example ex_pair_addr : option_map (λ d, option_map (λ sa, adm_pairAddr sa.2) (d_pair d)) ex_daemon
                       = Some (Some "10.0.0.5:7444").
Proof. vm_compute. reflexivity. Qed.
