(* ===== verification/MeshdLife.v ===== *)
(** * The life of a daemon: what [run] sets up and takes down

    [run] in [src/cmd/meshd/main.go] opens two listeners, starts two servers and
    the mDNS service, each with a deferred call that stops it, and returns from
    a dozen places.  [Meshd.v] models what it computes; here the same code runs
    with a record of what it does to the world, in order, and with the stack of
    its deferred calls, which every return runs.  The servers that [run] starts
    may fail at any moment in between: that is an act of the world. *)
From S2P Require Import Prelude GoStrings GoTime GoOS GoNet GoFlag Labels Crypto SymCrypto GoGrpc.
From S2P Require Import PkiCA PkiPem PkiPairing Transport PairingServer Peer Ifaces Mdns.
From S2P Require Import Coordinator Meshd.
Local Open Scope Z_scope.

(** ** What [run] does to the world *)

Inductive listener := GrpcPort | PairPort.
#[export] Instance listener_eq_dec : EqDecision listener.
Proof. solve_decision. Defined.

(** The signals are watched or not; a port is bound; a service is registered with
    the control-plane server; a goroutine serves a port, and [Stop] ends it and
    closes its listener; the mDNS service is announced, browses, is withdrawn.
    [Failed] is not an act of [run]: the goroutine that serves a port comes to its
    end because gRPC's [Serve] returned an error, having closed the listener; the
    goroutine logs it and [run] never learns of it, so it can come at any time. *)
Inductive act :=
  | Notify | Unnotify
  | Listened (l : listener) (addr : string)
  | Registered (svc : string)
  | Served (l : listener)
  | Stopped (l : listener)
  | Failed (l : listener)
  | Advertised (ad : Advertisement)
  | Browsed
  | Withdrawn.

(** What was done, in order, and the deferred calls, the last one first. *)
Record Life := mkLife { acts : list act; defers : list (list act) }.

(** A part of [run]: it reads and writes the file system and the record above. *)
Definition L (A : Type) : Type := Life → FS → FS * (Life * result A).
Definition lret {A} (a : A) : L A := λ w fs, (fs, (w, Ok a)).
Definition lbind {A B} (m : L A) (k : A → L B) : L B := λ w fs,
  match m w fs with
  | (fs, (w, Ok a)) => k a w fs
  | (fs, (w, Err e)) => (fs, (w, Err e))
  end.
Definition liftL {A} (m : M A) : L A := λ w fs, let '(fs, r) := m fs in (fs, (w, r)).
Definition emit_acts (l : list act) : L unit := λ w fs, (fs, (mkLife (acts w ++ l) (defers w), Ok tt)).
Definition defer (l : list act) : L unit := λ w fs, (fs, (mkLife (acts w) (l :: defers w), Ok tt)).

Declare Scope life_scope.
Delimit Scope life_scope with life.
Notation "'let^' x := m 'in' k" := (lbind m (λ x, k))
  (at level 10, x name, m at level 100, k at level 200) : life_scope.
Notation "'do^' m 'in' k" := (lbind m (λ _, k))
  (at level 10, m at level 100, k at level 200) : life_scope.
Local Open Scope life_scope.

Definition healthService : string := "grpc.health.v1.Health".
Definition adminService : string := "lcm.v1.AdminService".

(** [MDNS.Start]: what it does before it returns, error or not. *)
Definition start_acts (default_ifs : result (list Interface)) (reg res browse : result unit)
    (m : MDNS) : list act :=
  match (match cfg_Interfaces (cfg m) with Some l => Ok l | None => default_ifs end) with
  | Err _ | Ok [] => []
  | Ok (_ :: _) =>
      let advertised := if BrowseOnly (cfg m) then Ok []
                        else match reg with Err e => Err e | Ok _ => Ok [Advertised (cfg_Ad (cfg m))] end in
      let withdrawn := if BrowseOnly (cfg m) then [] else [Withdrawn] in
      match advertised with
      | Err _ => []
      | Ok l => match res, browse with Ok _, Ok _ => l ++ [Browsed] | _, _ => l ++ withdrawn end
      end
  end.

Section Life.
Context {C : Crypto} (env : OSEnv).

(** The block under [if cfg.coordinator]. *)
Definition life_coordinator (cfg : config) (se : StartEnv) (id : Identity) : L (Server * Admin) :=
  let^ ca := liftL (wrapM "coordinator needs the mesh CA in %s (created by `meshctl init`): %w"
                      (ReadCA env (dataDir cfg))) in
  let^ pairSrv := liftL (lift (NewServer (mkServerConfig (Some id) (Some ca) (grpcPort cfg) 0))) in
  do^ liftL (lift (wrap_err "listen pair port: %w" (se_listen_pair se (listen_addr (pairPort cfg))))) in
  do^ emit_acts [Listened PairPort (listen_addr (pairPort cfg))] in
  let host := if bool_decide (advertiseHost cfg = "")
              then lanIPv4 (se_interfaces se) (se_addrs se) else advertiseHost cfg in
  do^ emit_acts [Registered adminService] in
  do^ emit_acts [Served PairPort] in
  do^ defer [Stopped PairPort] in
  lret (pairSrv, NewAdmin (JoinHostPort host (Itoa (pairPort cfg)))).

(** [run] up to its loop. *)
Definition life_start (cfg : config) (se : StartEnv) : L Daemon :=
  let^ log := liftL (lift (newLogger (se_upper se) (logLevel cfg) (logFormat cfg))) in
  let^ loaded := liftL (try (LoadNodeIdentity env (dataDir cfg) (se_now se))) in
  match loaded with
  | Err e =>
      if errors_Is e ErrNotExist
      then liftL (fail (Errorf "no node identity in %s: run `meshctl init` (first node) or `meshctl join --code ...`"))
      else liftL (fail e)
  | Ok id =>
      let^ ifs := liftL (lift (parseIfaces (se_by_name se) (ifaces cfg))) in
      do^ emit_acts [Notify] in
      do^ defer [Unnotify] in
      do^ liftL (lift (wrap_err "listen grpc port: %w" (se_listen_grpc se (listen_addr (grpcPort cfg))))) in
      do^ emit_acts [Listened GrpcPort (listen_addr (grpcPort cfg))] in
      let srv := id_NewServer id (server_opts (coordinator cfg)) in
      do^ emit_acts [Registered healthService] in
      let^ pair := (if coordinator cfg
                    then let^ c := life_coordinator cfg se id in lret (Some c)
                    else lret None) in
      do^ emit_acts [Served GrpcPort] in
      do^ defer [Stopped GrpcPort] in
      let^ md := liftL (lift (NewMDNS (mdns_config cfg id ifs))) in
      let dflt := DefaultInterfaces (se_interfaces se) (se_addrs se) in
      do^ emit_acts (start_acts dflt (se_register se) (se_resolver se) (se_browse se) md) in
      match Start dflt (se_register se) (se_resolver se) (se_browse se) md with
      | (_, Err e) => liftL (fail e)
      | (md, Ok _) => do^ defer [Withdrawn] in lret (mkDaemon log id srv pair md)
      end
  end.

(** The deferred calls run when [run] returns, by an error or by a signal; a panic
    of the browser's goroutine ends the process without them. *)
Definition life_run (dir : string) (args : list string) (se : StartEnv) (l : list item) (fs : FS)
  : list act * result run_result :=
  match parse_args dir args with
  | Err e => ([], Err e)
  | Ok p =>
      if p.1.2 then ([], Ok PrintedVersion)
      else match life_start p.1.1 se (mkLife [] []) fs with
      | (_, (w, Err e)) => (acts w ++ concat (defers w), Err e)
      | (_, (w, Ok d)) =>
          match serve l d with
          | Shutdown d' => (acts w ++ concat (defers w), Ok (Ran (Shutdown d')))
          | s => (acts w, Ok (Ran s))
          end
      end
  end.
End Life.

(** ** The same program *)

Section Erasure.
Context {C : Crypto} (env : OSEnv).

(** [m] computes what [m0] does, whatever was recorded before. *)
Definition erases {A} (m : L A) (m0 : M A) : Prop :=
  ∀ w fs, m0 fs = ((m w fs).1, (m w fs).2.2).

Lemma erases_lift {A} (m0 : M A) : erases (liftL m0) m0.
Proof. intros w fs. unfold liftL. by destruct (m0 fs). Qed.
Lemma erases_ret {A} (a : A) : erases (lret a) (ret a).
Proof. done. Qed.
Lemma erases_bind {A B} (m : L A) (m0 : M A) (k : A → L B) (k0 : A → M B) :
  erases m m0 → (∀ a, erases (k a) (k0 a)) → erases (lbind m k) (bind m0 k0).
Proof.
  intros Hm Hk w fs. unfold lbind, bind. rewrite (Hm w fs).
  destruct (m w fs) as [fs1 [w1 [a|e]]]; [|done]. apply Hk.
Qed.
Lemma erases_acts {B} l (k : unit → L B) m0 : erases (k tt) m0 → erases (lbind (emit_acts l) k) m0.
Proof. intros Hk w fs. apply Hk. Qed.
Lemma erases_defer {B} l (k : unit → L B) m0 : erases (k tt) m0 → erases (lbind (defer l) k) m0.
Proof. intros Hk w fs. apply Hk. Qed.

Ltac erase :=
  repeat first
    [ apply erases_acts | apply erases_defer | apply erases_lift | apply erases_ret
    | apply erases_bind; [|intros ?] ].

Lemma erases_coordinator cfg se id :
  erases (life_coordinator env cfg se id) (start_coordinator env cfg se id).
Proof. unfold life_coordinator, start_coordinator. erase. Qed.

Lemma erases_start cfg se : erases (life_start env cfg se) (start env cfg se).
Proof.
  unfold life_start, start. apply erases_bind; [apply erases_lift|intros log].
  apply erases_bind; [apply erases_lift|intros [id|e]]; [|case_match; apply erases_lift].
  apply erases_bind; [apply erases_lift|intros ifs]. do 2 (apply erases_acts || apply erases_defer).
  apply erases_bind; [apply erases_lift|intros _]. apply erases_acts, erases_acts.
  apply erases_bind; [|intros pair].
  - destruct (coordinator cfg); [|apply erases_ret].
    apply erases_bind; [apply erases_coordinator|intros c; apply erases_ret].
  - apply erases_acts, erases_defer. apply erases_bind; [apply erases_lift|intros md].
    apply erases_acts. destruct (Start _ _ _ _ md) as [md' [u|e]]; erase.
Qed.
End Erasure.

(** ** The order of things *)

(** Every return of [m], started with the record [w], is in [Q]. *)
Definition ends {A} (m : L A) (w : Life) (Q : Life → result A → Prop) : Prop :=
  ∀ fs, Q (m w fs).2.1 (m w fs).2.2.

Lemma ends_lift {A} (m0 : M A) w (Q : Life → result A → Prop) : (∀ r, Q w r) → ends (liftL m0) w Q.
Proof. intros H fs. unfold liftL. by destruct (m0 fs). Qed.
Lemma ends_ret {A} (a : A) w (Q : Life → result A → Prop) : Q w (Ok a) → ends (lret a) w Q.
Proof. by intros H fs. Qed.
Lemma ends_fail {A} e w (Q : Life → result A → Prop) : Q w (Err e) → ends (liftL (fail e)) w Q.
Proof. by intros H fs. Qed.
Lemma ends_bind {A B} (m : L A) (k : A → L B) w (Q : Life → result B → Prop) :
  ends m w (λ w r, match r with Ok a => ends (k a) w Q | Err e => Q w (Err e) end) →
  ends (lbind m k) w Q.
Proof.
  intros H fs. specialize (H fs). unfold lbind. destruct (m w fs) as [fs1 [w1 [a|e]]]; cbn in *; [|done].
  apply H.
Qed.
Lemma ends_acts {B} l (k : unit → L B) w Q :
  ends (k tt) (mkLife (acts w ++ l) (defers w)) Q → ends (lbind (emit_acts l) k) w Q.
Proof. done. Qed.
Lemma ends_defer {B} l (k : unit → L B) w Q :
  ends (k tt) (mkLife (acts w) (l :: defers w)) Q → ends (lbind (defer l) k) w Q.
Proof. done. Qed.
Lemma ends_mono {A} (m : L A) w (Q Q' : Life → result A → Prop) :
  ends m w Q → (∀ w' r, Q w' r → Q' w' r) → ends m w Q'.
Proof. intros H HQ fs. apply HQ, H. Qed.

(** One call whose outcome is left open. *)
Ltac call := apply ends_bind, ends_lift; intros [?|?].

Section Stages.
Context {C : Crypto} (env : OSEnv) (cfg : config) (se : StartEnv).

(** What is up once both servers serve, and what the deferred calls take down. *)
Definition setup : list act :=
  [Notify; Listened GrpcPort (listen_addr (grpcPort cfg)); Registered healthService] ++
  (if coordinator cfg
   then [Listened PairPort (listen_addr (pairPort cfg)); Registered adminService; Served PairPort]
   else []) ++ [Served GrpcPort].
Definition teardown : list (list act) :=
  [Stopped GrpcPort] :: (if coordinator cfg then [[Stopped PairPort]] else []) ++ [[Unnotify]].

(** The advertisement of the daemon with the identity [id]. *)
Definition life_ad (id : Identity) : Advertisement := cfg_Ad (mdns_config cfg id None).

(** Where [run] can return before its loop, and where it enters it. *)
Inductive stage : Life → result Daemon → Prop :=
| stage_early e : stage (mkLife [] []) (Err e)
| stage_listen e : stage (mkLife [Notify] [[Unnotify]]) (Err e)
| stage_coordinator e :
    stage (mkLife [Notify; Listened GrpcPort (listen_addr (grpcPort cfg)); Registered healthService]
             [[Unnotify]]) (Err e)
| stage_serving e : stage (mkLife setup teardown) (Err e)
| stage_announced e id : stage (mkLife (setup ++ [Advertised (life_ad id); Withdrawn]) teardown) (Err e)
| stage_running d :
    stage (mkLife (setup ++ [Advertised (life_ad (d_id d)); Browsed]) ([Withdrawn] :: teardown)) (Ok d).

(** The record when the coordinator's block is reached. *)
Definition at_coordinator : Life :=
  mkLife [Notify; Listened GrpcPort (listen_addr (grpcPort cfg)); Registered healthService] [[Unnotify]].

Lemma life_coordinator_stage id :
  coordinator cfg = true →
  ends (life_coordinator env cfg se id) at_coordinator
    (λ w r, match r with
            | Err e => stage w (Err e)
            | Ok _ => acts w ++ [Served GrpcPort] = setup ∧ defers w = tail teardown
            end).
Proof.
  intros Hc. unfold life_coordinator. do 3 (call; [|constructor]).
  apply ends_acts, ends_acts, ends_acts, ends_defer, ends_ret.
  unfold setup, teardown. by rewrite Hc.
Qed.

(** The browser's part: [Start] of a browser that also advertises. *)
Lemma start_acts_cases dflt reg res browse m :
  BrowseOnly (Mdns.cfg m) = false →
  match (Start dflt reg res browse m).2 with
  | Err _ => start_acts dflt reg res browse m = [] ∨
             start_acts dflt reg res browse m = [Advertised (cfg_Ad (Mdns.cfg m)); Withdrawn]
  | Ok _ => start_acts dflt reg res browse m = [Advertised (cfg_Ad (Mdns.cfg m)); Browsed]
  end.
Proof.
  intros Hb. unfold Start, start_acts. rewrite Hb.
  destruct (cfg_Interfaces _) as [[|i l]|]; [by left| |destruct dflt as [[|i l]|]; [by left| |by left]];
    (destruct reg; [|by left]; destruct res; [|by right]; destruct browse; [done|by right]).
Qed.

Lemma life_start_stage : ends (life_start env cfg se) (mkLife [] []) stage.
Proof.
  unfold life_start. call; [|constructor]. apply ends_bind, ends_lift. intros [[id|e]|e];
    [|case_match; apply ends_fail; constructor|constructor].
  call; [|constructor]. apply ends_acts, ends_defer. call; [|constructor].
  apply ends_acts, ends_acts. change (mkLife _ _) with at_coordinator. apply ends_bind.
  apply (ends_mono _ _ (λ w r, match r with
           | Err e => stage w (Err e)
           | Ok _ => acts w ++ [Served GrpcPort] = setup ∧ defers w = tail teardown end)).
  { destruct (coordinator cfg) eqn:Hc.
    - apply ends_bind. eapply ends_mono; [by apply life_coordinator_stage|]. intros w [c|e] H; [by apply ends_ret|done].
    - apply ends_ret. unfold setup, teardown. by rewrite Hc. }
  intros w [pair|e]; [|done]. intros [Ha Hd]. apply ends_acts, ends_defer. cbn [acts defers].
  rewrite Ha, Hd. change ([Stopped GrpcPort] :: tail teardown) with teardown.
  apply ends_bind. intros fs. unfold liftL, lift. cbn [snd fst].
  destruct (NewMDNS _) as [md|e] eqn:Em; [|constructor].
  assert (cfg_Ad (Mdns.cfg md) = life_ad id ∧ BrowseOnly (Mdns.cfg md) = false) as [Had Hb]
    by (apply NewMDNS_Ok in Em as [_ ->]; done).
  apply ends_acts. cbn [acts defers].
  pose proof (start_acts_cases (DefaultInterfaces (se_interfaces se) (se_addrs se))
    (se_register se) (se_resolver se) (se_browse se) md Hb) as H. rewrite Had in H.
  destruct (Start _ _ _ _ md) as [md' [u|e']]; cbn [snd] in H.
  - rewrite H. apply ends_defer, ends_ret. cbn [acts defers].
    exact (stage_running (mkDaemon _ id _ pair md')).
  - apply ends_fail. destruct H as [->| ->]; [rewrite app_nil_r|]; constructor.
Qed.
End Stages.

(** ** The world *)

(** The address each port is bound to and whether connections are taken there, the
    services of the control plane, what is announced, whether the signals are
    watched; [w_began] says that the control-plane server has been served, and
    [w_late] that a service was registered with it after that, which gRPC answers
    by ending the process. *)
Record World := mkWorld {
  w_grpc : option string; w_pair : option string;
  w_grpc_served : bool; w_pair_served : bool;
  w_services : list string;
  w_ad : option Advertisement;
  w_signals : bool;
  w_began : bool; w_late : bool
}.
Definition world0 : World := mkWorld None None false false [] None false false false.

Definition world_step (w : World) (a : act) : World :=
  let '(mkWorld g p gs ps svcs ad sg began late) := w in
  match a with
  | Notify => mkWorld g p gs ps svcs ad true began late
  | Unnotify => mkWorld g p gs ps svcs ad false began late
  | Listened GrpcPort x => mkWorld (Some x) p gs ps svcs ad sg began late
  | Listened PairPort x => mkWorld g (Some x) gs ps svcs ad sg began late
  | Registered s => mkWorld g p gs ps (s :: svcs) ad sg began (late || began)
  | Served GrpcPort => mkWorld g p true ps svcs ad sg true late
  | Served PairPort => mkWorld g p gs true svcs ad sg began late
  | Stopped GrpcPort => mkWorld None p false ps svcs ad sg began late
  | Stopped PairPort => mkWorld g None gs false svcs ad sg began late
  | Failed GrpcPort => if gs then mkWorld None p false ps svcs ad sg began late else w
  | Failed PairPort => if ps then mkWorld g None gs false svcs ad sg began late else w
  | Advertised x => mkWorld g p gs ps svcs (Some x) sg began late
  | Browsed => w
  | Withdrawn => mkWorld g p gs ps svcs None sg began late
  end.
Definition world_after (w : World) (tr : list act) : World := fold_left world_step tr w.

(** After the acts [tr] whatever is announced can be reached: the announced ports
    are bound and served, unless their server has failed, with the health service,
    and with the admin service if a pairing port is announced; no service came too
    late; the signals are watched while anything is served. *)
Definition announced_ok (tr : list act) (w : World) (ad : Advertisement) : Prop :=
  (Failed GrpcPort ∈ tr ∨ (w_grpc w = Some (listen_addr (ad_GRPCPort ad)) ∧ w_grpc_served w = true)) ∧
  healthService ∈ w_services w ∧
  (ad_PairPort ad ≠ 0 →
   (Failed PairPort ∈ tr ∨ (w_pair w = Some (listen_addr (ad_PairPort ad)) ∧ w_pair_served w = true)) ∧
   adminService ∈ w_services w).
Definition world_ok (tr : list act) (w : World) : Prop :=
  match w_ad w with Some ad => announced_ok tr w ad | None => True end ∧
  (w_grpc_served w = true ∨ w_pair_served w = true → w_signals w = true) ∧ w_late w = false.

(** At every moment of a run. *)
Fixpoint always (P : World → Prop) (w : World) (tr : list act) : Prop :=
  P w ∧ match tr with [] => True | a :: tr => always P (world_step w a) tr end.

Lemma always_prefix P w tr tr' : always P w (tr ++ tr') → P (world_after w tr).
Proof. revert w. induction tr as [|a tr IH]; intros w; [by destruct tr' as [|? ?]; intros []|]. intros [_ H]. by apply IH. Qed.
Lemma always_app P w tr tr' : always P w tr → always P (world_after w tr) tr' → always P w (tr ++ tr').
Proof.
  revert w. induction tr as [|a tr IH]; intros w; [by cbn|]. intros [Hw H] H'. split; [done|]. by apply IH.
Qed.
Lemma always_start P w tr tr' : always P w (tr ++ tr') → always P w tr.
Proof.
  revert w. induction tr as [|a tr IH]; intros w; [destruct tr'; by intros []|]. intros [Hw H]. split; auto.
Qed.

(** Nothing runs: no server, no pairing port, no announcement, no signal handler;
    and nothing is left when the control-plane port is free too. *)
Definition nothing_runs (w : World) : Prop :=
  w_grpc_served w = false ∧ w_pair_served w = false ∧ w_pair w = None ∧ w_ad w = None ∧ w_signals w = false.
Definition nothing_left (w : World) : Prop := nothing_runs w ∧ w_grpc w = None.

(** At every return the deferred calls leave nothing that runs, and they free the
    control-plane port if it was ever served; a daemon in its loop is announced. *)
Lemma stage_worlds {C : Crypto} cfg w r :
  stage cfg w r →
  always (world_ok []) world0 (acts w ++ concat (defers w)) ∧
  nothing_runs (world_after world0 (acts w ++ concat (defers w))) ∧
  (w_grpc (world_after world0 (acts w ++ concat (defers w))) = None ∨
   (is_ok r = false ∧ ¬ Served GrpcPort ∈ acts w ++ concat (defers w))) ∧
  (is_ok r = true → is_Some (w_ad (world_after world0 (acts w)))).
Proof.
  destruct 1; cbn [acts defers];
    unfold setup, teardown, life_ad, mdns_config, world_ok, nothing_runs, announced_ok;
    destruct (coordinator cfg); cbn; split_and?; try done;
    try (by left); try (right; split; [done|]); set_solver.
Qed.

(** *** Servers that fail *)

(** The acts of [run] itself. *)
Definition own (a : act) : bool := match a with Failed _ => false | _ => true end.

Lemma world_snoc w tr a : world_after w (tr ++ [a]) = world_step (world_after w tr) a.
Proof. apply fold_left_app. Qed.

(** A port in the world with failures, beside the one without: the same, or
    its server has failed and it is not more bound or served than there. *)
Definition port_sim (failed : Prop) (b b' : option string) (s s' : bool) : Prop :=
  (b' = b ∧ s' = s) ∨ (failed ∧ (b' = b ∨ b' = None) ∧ (s' = true → s = true)).
Definition world_sim (tr : list act) (w w' : World) : Prop :=
  port_sim (Failed GrpcPort ∈ tr) (w_grpc w) (w_grpc w') (w_grpc_served w) (w_grpc_served w') ∧
  port_sim (Failed PairPort ∈ tr) (w_pair w) (w_pair w') (w_pair_served w) (w_pair_served w') ∧
  (w_services w', w_ad w', w_signals w', w_began w', w_late w') =
  (w_services w, w_ad w, w_signals w, w_began w, w_late w).

Lemma port_sim_mono (f f' : Prop) b b' s s' : (f → f') → port_sim f b b' s s' → port_sim f' b b' s s'.
Proof. unfold port_sim. tauto. Qed.

Lemma world_sim_step tr w w' a :
  world_sim tr w w' → world_sim (tr ++ [a]) (if own a then world_step w a else w) (world_step w' a).
Proof.
  intros (Hg & Hp & E).
  assert (Hm : ∀ l, Failed l ∈ tr → Failed l ∈ tr ++ [a]) by (intros l; rewrite elem_of_app; auto).
  apply (port_sim_mono _ _ _ _ _ _ (Hm GrpcPort)) in Hg. apply (port_sim_mono _ _ _ _ _ _ (Hm PairPort)) in Hp.
  assert (Hf : ∀ l, a = Failed l → Failed l ∈ tr ++ [a])
    by (intros l ->; apply elem_of_app; right; by apply list_elem_of_singleton).
  destruct w as [g p gs ps svcs ad sg be la], w' as [g' p' gs' ps' svcs' ad' sg' be' la'].
  cbn in *. injection E as -> -> -> -> ->. unfold world_sim, port_sim in *.
  destruct a as [| |[] ?|?|[]|[]|[]|?| |]; cbn; try (specialize (Hf _ eq_refl));
    [..|destruct gs'|destruct ps'| | |]; cbn; split_and!; try done; intuition congruence.
Qed.

Lemma world_sim_after tr : world_sim tr (world_after world0 (List.filter own tr)) (world_after world0 tr).
Proof.
  induction tr as [|a tr IH] using rev_ind; [split; [by left|split; [by left|done]]|].
  apply (world_sim_step _ _ _ a) in IH. rewrite world_snoc, List.filter_app. cbn [List.filter].
  destruct (own a); [by rewrite world_snoc|by rewrite app_nil_r].
Qed.

Lemma port_sim_serves f b b' s s' x :
  port_sim f b b' s s' → b = Some x → s = true → f ∨ (b' = Some x ∧ s' = true).
Proof. unfold port_sim. intuition congruence. Qed.
Lemma port_sim_free f b b' s s' : port_sim f b b' s s' → b = None → b' = None.
Proof. unfold port_sim. intuition congruence. Qed.
Lemma port_sim_idle f b b' s s' : port_sim f b b' s s' → s = false → s' = false.
Proof. intros [[_ ->]|(_ & _ & H)] E; [done|]. destruct s'; [|done]. by rewrite H in E. Qed.

Lemma sim_ok tr w w' : world_sim tr w w' → world_ok [] w → world_ok tr w'.
Proof.
  intros (Hg & Hp & E) (Had & Hsg & Hl). injection E as Ev Ea Es _ El. split_and!.
  - rewrite Ea. destruct (w_ad w) as [ad|]; [|done]. destruct Had as ([Hn|[B S]] & Hh & Hpair);
      [by apply not_elem_of_nil in Hn|]. unfold announced_ok. rewrite Ev. split_and!; [|done|].
    + by apply (port_sim_serves _ _ _ _ _ _ Hg).
    + intros Hz. destruct (Hpair Hz) as [[Hn|[B' S']] Ha]; [by apply not_elem_of_nil in Hn|].
      split; [|done]. by apply (port_sim_serves _ _ _ _ _ _ Hp).
  - rewrite Es. intros Hs. apply Hsg.
    destruct Hs as [Hs|Hs]; [left|right]; apply not_false_iff_true; intros Hf;
      [apply (port_sim_idle _ _ _ _ _ Hg) in Hf|apply (port_sim_idle _ _ _ _ _ Hp) in Hf]; congruence.
  - by rewrite El.
Qed.

Lemma sim_runs tr w w' : world_sim tr w w' → nothing_runs w → nothing_runs w'.
Proof.
  intros (Hg & Hp & E) (G & P & B & A & S). injection E as _ Ea Es _ _. split_and!; [| | |congruence..].
  - by apply (port_sim_idle _ _ _ _ _ Hg).
  - by apply (port_sim_idle _ _ _ _ _ Hp).
  - by apply (port_sim_free _ _ _ _ _ Hp).
Qed.

(** What a run leaves when it has returned, and what holds while it goes on. *)
Definition at_end (tr : list act) (w : World) (out : result run_result) : Prop :=
  match out with
  | Ok (Ran (Serving _)) => is_Some (w_ad w)
  | Ok (Ran Crashed) => False
  | Ok _ => nothing_left w
  | Err _ => nothing_runs w ∧ (w_grpc w = None ∨ ¬ Served GrpcPort ∈ tr)
  end.

Lemma sim_end tr w w' out :
  world_sim tr w w' → at_end (List.filter own tr) w out → at_end tr w' out.
Proof.
  intros H. pose proof (sim_runs _ _ _ H) as Hr. destruct H as (Hg & _ & E). injection E as _ Ea _ _ _.
  pose proof (port_sim_free _ _ _ _ _ Hg) as Hf.
  destruct out as [[|[d|d|]]|e]; cbn; unfold nothing_left; [tauto|by rewrite Ea|tauto|done|].
  intros [Hn [Hb|Hb]]; split; [tauto| |tauto|]; [left; auto|]. right. intros Hin. apply Hb.
  apply list_elem_of_In, filter_In. split; [|done]. by apply list_elem_of_In.
Qed.

(** A property of the acts of [run] alone holds with failures in between. *)
Lemma interleaved tr out :
  always (world_ok []) world0 tr → at_end tr (world_after world0 tr) out →
  ∀ tr', List.filter own tr' = tr →
    (∀ tr1 tr2, tr' = tr1 ++ tr2 → world_ok tr1 (world_after world0 tr1)) ∧
    at_end tr' (world_after world0 tr') out.
Proof.
  intros Hal He tr' Hf. split.
  - intros tr1 tr2 ->. rewrite List.filter_app in Hf. subst tr.
    exact (sim_ok _ _ _ (world_sim_after tr1) (always_prefix _ _ _ _ Hal)).
  - subst tr. exact (sim_end _ _ _ _ (world_sim_after tr') He).
Qed.

Lemma life_run_start {C : Crypto} env dir args se l fs cfg rest :
  parse_args dir args = Ok ((cfg, false), rest) →
  let '(fs', (w, r)) := life_start env cfg se (mkLife [] []) fs in
  start env cfg se fs = (fs', r) ∧ stage cfg w r ∧
  life_run env dir args se l fs =
    match r with
    | Err e => (acts w ++ concat (defers w), Err e)
    | Ok d => match serve l d with
              | Shutdown d' => (acts w ++ concat (defers w), Ok (Ran (Shutdown d')))
              | s => (acts w, Ok (Ran s))
              end
    end.
Proof.
  intros Ha. pose proof (life_start_stage env cfg se fs) as Hs.
  pose proof (erases_start env cfg se (mkLife [] []) fs) as He.
  unfold life_run. rewrite Ha. cbn [fst snd].
  destruct (life_start env cfg se (mkLife [] []) fs) as [fs' [w r]]. cbn [fst snd] in Hs, He.
  rewrite He. split; [done|]. split; [done|]. by destruct r.
Qed.

(** ** Properties *)

(** C21: whatever a daemon announces can be reached, at every moment of its life,
    the ones between two calls of [run] included, as long as its servers do not
    fail.  [tr] is what [run] does; [tr'] is any life with the same acts in which
    servers fail at any moments.  At every moment the announced control-plane port
    is bound and served, unless its server has failed, with the health service
    registered, and if a pairing port is announced it is bound and served, unless
    its server has failed, and the admin service registered; no service is
    registered with a server that has begun to serve, and signals are watched while
    one runs.  A run that returns by a signal leaves no server, no announcement, no
    signal handler and no bound port; one that returns an error does too, except
    for the control-plane port when it was never served; one that goes on is
    announced; and the browser does not crash it.  The record changes nothing: the
    outcome is the one of [run]. *)
Theorem announced_is_reachable {C : Crypto} env dir args se l fs :
  let '(tr, out) := life_run env dir args se l fs in
  out = (run env dir args se l fs).2 ∧
  ∀ tr', List.filter own tr' = tr →
    (∀ tr1 tr2, tr' = tr1 ++ tr2 → world_ok tr1 (world_after world0 tr1)) ∧
    at_end tr' (world_after world0 tr') out.
Proof.
  assert (Hidle : always (world_ok []) world0 []) by (repeat split; cbn; naive_solver).
  destruct (parse_args dir args) as [[[cfg v] rest]|e] eqn:Ha; [destruct v|].
  - unfold life_run, run. rewrite Ha. split; [done|]. by apply interleaved.
  - pose proof (life_run_start env dir args se l fs cfg rest Ha) as H.
    destruct (life_start env cfg se (mkLife [] []) fs) as [fs' [w r]]. destruct H as (Hst & Hs & ->).
    destruct (stage_worlds _ _ _ Hs) as (Hal & Hn & Hg & Had).
    assert (Hrun : (run env dir args se l fs).2 = let? d := r in Ok (Ran (serve l d))).
    { unfold run. rewrite Ha. unfold bind at 1, lift. cbn. destruct r as [d|e].
      - by rewrite (run_bind _ _ _ _ _ Hst).
      - by rewrite (run_bind_Err _ _ _ _ _ Hst). }
    rewrite Hrun. destruct r as [d|e]; cbn [rbind].
    + pose proof (serve_outcome l d (proj1 (start_md env cfg se fs _ d Hst))) as Ho.
      destruct (existsb _ l); destruct Ho as (d' & -> & _); (split; [done|]); apply interleaved.
      * done.
      * by destruct Hg as [Hg|[Hg _]].
      * by apply (always_start _ _ _ (concat (defers w))).
      * by apply Had.
    + split; [done|]. apply interleaved; [done|]. split; [done|]. tauto.
  - unfold life_run, run. rewrite Ha. split; [done|]. apply interleaved; [done|].
    cbn. by split; [|left].
Qed.

(** A server that fails goes on being announced: the goroutine only logs the
    error of [Serve], and the daemon stays in its loop. *)
Theorem failed_server_stays_announced :
  let '(tr, out) := life_run no_faults "x" ex_args ex_start_env [Recv] ex_dir in
  (∃ d, out = Ok (Ran (Serving d))) ∧
  let w := world_after world0 (tr ++ [Failed GrpcPort; Failed PairPort]) in
  is_Some (w_ad w) ∧ w_grpc w = None ∧ w_pair w = None.
Proof. vm_compute. split; [by eexists|]. split; [by eexists|done]. Qed.

(** [run] returns with its control-plane port still bound when the block of the
    coordinator fails: the listener that it opened is closed by [srv.Stop], which
    is deferred only later. *)
Theorem coordinator_error_keeps_port :
  let se := mkStartEnv (se_upper ex_start_env) (se_now ex_start_env) (se_by_name ex_start_env)
              (se_interfaces ex_start_env) (se_addrs ex_start_env) (se_listen_grpc ex_start_env)
              (λ _, Err (ErrorsNew "bind: address already in use"))
              (se_register ex_start_env) (se_resolver ex_start_env) (se_browse ex_start_env) in
  let '(tr, out) := life_run no_faults "x" ex_args se [] ex_dir in
  is_ok out = false ∧ w_grpc (world_after world0 tr) = Some ":7443".
Proof. vm_compute. done. Qed.

(** A coordinator's life, from its start to the signal. *)
Example ex_life :
  (life_run no_faults "x" ex_args ex_start_env [EntriesClosed; Recv; CtxDone] ex_dir).1 =
  let ad := mkAd "coord" "home" 7443 7444
              (match ex_daemon with Some d => id_Fingerprint (d_id d) | None => "" end) in
  [Notify; Listened GrpcPort ":7443"; Registered healthService;
   Listened PairPort ":7444"; Registered adminService; Served PairPort; Served GrpcPort;
   Advertised ad; Browsed;
   Withdrawn; Stopped GrpcPort; Stopped PairPort; Unnotify].
Proof. vm_compute. reflexivity. Qed.

(** The control-plane server fails while the daemon is in its loop. *)
Definition ex_failing : list act :=
  let tr := (life_run no_faults "x" ex_args ex_start_env [CtxDone] ex_dir).1 in
  take 9 tr ++ Failed GrpcPort :: drop 9 tr.

Lemma announced_is_reachable_witness :
  List.filter own ex_failing = (life_run no_faults "x" ex_args ex_start_env [CtxDone] ex_dir).1 ∧
  Failed GrpcPort ∈ ex_failing ∧ nothing_left (world_after world0 ex_failing).
Proof.
  assert (Hf : List.filter own ex_failing = (life_run no_faults "x" ex_args ex_start_env [CtxDone] ex_dir).1)
    by (vm_compute; reflexivity).
  split; [exact Hf|]. split; [apply elem_of_app; right; apply elem_of_cons; by left|].
  assert (Hd : match (life_run no_faults "x" ex_args ex_start_env [CtxDone] ex_dir).2 with
               | Ok (Ran (Shutdown _)) => true | _ => false end = true) by (vm_compute; reflexivity).
  pose proof (announced_is_reachable no_faults "x" ex_args ex_start_env [CtxDone] ex_dir) as H.
  destruct (life_run no_faults "x" ex_args ex_start_env [CtxDone] ex_dir) as [tr out].
  destruct H as [_ H]. destruct (H ex_failing Hf) as [_ He]. cbn [snd] in Hd.
  destruct out as [[|[d|d|]]|e]; try discriminate Hd. exact He.
Defined.
