(* ===== verification/Discovery.v ===== *)
(** * Machines that find each other

    The advertisement that a daemon registers ([Meshd.v]), heard by a browser
    ([Mdns.v]): that of another daemon, whose table then leads to a TLS
    connection ([Transport.v]), and that of [meshctl join] ([Meshctl.v]), which
    gets the address that it dials.  The mDNS library carries the instance, the
    port and the TXT record of a service, with a host name and addresses. *)
From S2P Require Import Prelude GoStrings GoTime GoOS GoNet Labels Crypto SymCrypto GoGrpc.
From S2P Require Import PkiCA PkiPem PkiPairing Transport PairingServer PairingClient Peer Ifaces.
From S2P Require Import Mdns Coordinator Meshctl Meshd.
Local Open Scope Z_scope.

(** What a browser hears of a registered service. *)
Definition heard (z : ZServer) (host : string) (v4 v6 : list IP) : ServiceEntry :=
  mkEntry (zs_instance z) host (zs_port z) (zs_text z) v4 v6.

Definition browser (nodeID : string) : MDNS :=
  mkMDNS (mkMDNSConfig (mkAd nodeID AnyMesh 1 0 "") None (90 * Second) 64 true) [] ∅ None false false.

Lemma browser_new nodeID : nodeID ≠ "" → NewMDNS (browse_config nodeID) = Ok (browser nodeID).
Proof. intros Hn. unfold NewMDNS, browse_config. cbn [cfg_Ad ad_NodeID]. by rewrite bool_decide_false. Qed.

Lemma find_first {A} (f : A → bool) l x l' :
  Forall (λ y, f y = false) l → f x = true → List.find f (l ++ x :: l') = Some x.
Proof. intros Hl Hx. induction Hl as [|y l Hy _ IH]; cbn; [by rewrite Hx|by rewrite Hy]. Qed.

(** What a browser makes of the service of a daemon. *)
Lemma heard_peer {C : Crypto} env cfg se fs fs' d self host v4 v6 now :
  start env cfg se fs = (fs', Ok d) → pairPort cfg ≤ 65535 →
  ad_NodeID self ≠ Name (id_Principal (d_id d)) →
  (ad_MeshID self = AnyMesh ∨ ad_MeshID self = id_MeshID (d_id d)) →
  ∃ z, server (d_md d) = Some z ∧
    entry_peer self (heard z host v4 v6) now =
      Some (mkPeer (Name (id_Principal (d_id d))) (id_MeshID (d_id d)) (id_Fingerprint (d_id d))
              (normalizeHost host) (v4 ++ v6) (grpcPort cfg)
              (if coordinator cfg then Z.max 0 (pairPort cfg) else 0) now).
Proof.
  intros Hs Hpp Hne Hmesh. pose proof (start_md _ _ _ _ _ _ Hs) as (_ & Hz & HnI & HnM & Hg).
  eexists. split; [exact Hz|]. unfold entry_peer. cbn [heard e_Text zs_text].
  rewrite TXT_parses by (done || (cbn; destruct (coordinator cfg); lia)).
  cbn [p_NodeID p_MeshID p_Fingerprint p_GRPCPort p_PairPort ad_NodeID ad_MeshID ad_Fingerprint ad_PairPort ad_GRPCPort] in *.
  rewrite bool_decide_false by (intros E; by apply Hne).
  assert (negb (bool_decide (ad_MeshID self = AnyMesh)) &&
          negb (bool_decide (id_MeshID (d_id d) = ad_MeshID self)) = false) as ->.
  { destruct Hmesh as [E|E]; [by rewrite (bool_decide_true (_ = AnyMesh))|].
    by rewrite (bool_decide_true (_ = ad_MeshID self)), andb_false_r. }
  cbn [heard e_Port zs_port e_HostName e_AddrIPv4 e_AddrIPv6]. rewrite (proj2 (Z.ltb_lt 0 _)) by lia.
  by destruct (coordinator cfg).
Qed.

(** Items that leave a peer seen at [t] in place: entries of other nodes, sweeps
    before it has been silent for too long, reads. *)
Definition stays (name : string) (t limit : Z) (it : item) : Prop :=
  match it with
  | Entry e _ => match ParseTXT (e_Text e) with Ok p => p_NodeID p ≠ name | Err _ => True end
  | Sweep now _ => now ≤ t + limit
  | Recv => True
  | CtxDone | EntriesClosed => False
  end.

Lemma entry_peer_id ad e now p :
  entry_peer ad e now = Some p → ∃ q, ParseTXT (e_Text e) = Ok q ∧ p_NodeID p = p_NodeID q.
Proof.
  unfold entry_peer. destruct (ParseTXT (e_Text e)) as [q|]; [|done].
  case_bool_decide; [done|]. destruct (negb _ && negb _); [done|]. intros [= <-]. by exists q.
Qed.

Lemma emit_peers ev m : peers (emit ev m) = peers m.
Proof. unfold emit. by case_match. Qed.
Lemma handleEntry_peers e now m :
  peers (handleEntry e now m) =
    match entry_peer (cfg_Ad (Mdns.cfg m)) e now with
    | Some p => <[p_NodeID p := p]> (peers m)
    | None => peers m
    end.
Proof.
  unfold handleEntry. destruct (entry_peer _ e now) as [p|]; [|done].
  destruct (peers m !! p_NodeID p) as [q|]; [|by rewrite emit_peers].
  by destruct (peerChanged q p); rewrite ?emit_peers.
Qed.
Lemma expire_all_peers l m : peers (fold_left (λ m p, emit (mkEvent PeerExpired p) m) l m) = peers m.
Proof. revert m. induction l as [|p l IH]; intros m; [done|]. cbn [fold_left]. by rewrite IH, emit_peers. Qed.

Lemma peer_stays name p limit l m :
  ExpireAfter (Mdns.cfg m) = limit → min_int ≤ limit < max_int →
  peers m !! name = Some p → Forall (stays name (p_LastSeen p) limit) l →
  ∃ m', loop_go l m = Running m' ∧ peers m' !! name = Some p.
Proof.
  intros Hlim Hmax Hp Hl. revert m Hlim Hp. induction Hl as [|it l Hit _ IH]; intros m Hlim Hp; [by exists m|].
  destruct it as [|e now| |now order|]; cbn [stays] in Hit; try done; cbn [loop_go].
  - apply IH; rewrite ?(proj1 (handleEntry_fixed e now m)); [done|]. rewrite handleEntry_peers.
    destruct (entry_peer _ e now) as [q|] eqn:E; [|done]. apply entry_peer_id in E as (q' & Eq & E).
    rewrite Eq in Hit. rewrite lookup_insert_ne; [done|]. by rewrite E.
  - apply IH; rewrite ?(proj1 (expire_fixed order now m)); [done|]. unfold expire.
    rewrite expire_all_peers. cbn [peers set_peers]. rewrite map_lookup_filter, Hp. cbn.
    rewrite option_guard_True; [done|]. apply Z.ltb_ge. unfold time_Sub, min_int, max_int in *. lia.
  - by apply IH.
Qed.

Lemma loop_go_app l l' m m' : loop_go l m = Running m' → loop_go (l ++ l') m = loop_go l' m'.
Proof.
  revert m. induction l as [|it l IH]; intros m; cbn [loop_go app]; [by intros [= ->]|].
  destruct it; try done; try apply IH; unfold close_done; by case_match.
Qed.

Lemma loop_go_cfg l m m' : loop_go l m = Running m' → Mdns.cfg m' = Mdns.cfg m.
Proof.
  apply (loop_go_ind (λ _ x, Mdns.cfg x = Mdns.cfg m) (λ x, Mdns.cfg x = Mdns.cfg m)); try done.
  - intros e now _ x E. by rewrite (proj1 (handleEntry_fixed e now x)).
  - intros now order _ x E. by rewrite (proj1 (expire_fixed order now x)).
Qed.

(** The browser of a daemon. *)
Lemma daemon_browser {C : Crypto} env cfg se fs fs' d :
  start env cfg se fs = (fs', Ok d) →
  ad_NodeID (cfg_Ad (Mdns.cfg (d_md d))) = Name (id_Principal (d_id d)) ∧
  ad_MeshID (cfg_Ad (Mdns.cfg (d_md d))) = id_MeshID (d_id d) ∧
  ExpireAfter (Mdns.cfg (d_md d)) = 90 * Second.
Proof.
  intros (_ & _ & _ & _ & _ & _ & ifs & m & _ & Hm & Hs)%start_Ok.
  apply NewMDNS_Ok in Hm as (_ & Em). subst m. by apply Start_Ok in Hs as ->.
Qed.

(** An identity of the mesh CA is good at any time at which the certificates are. *)
Lemma daemon_identity {C : Crypto} {L : CryptoLaws C} env cfg se fs fs' d ca req e now :
  start env cfg se fs = (fs', Ok d) → wf_CA ca → id_CACert (d_id d) = Cert ca →
  Sign ca req e = Ok (id_Cert (d_id d)) →
  NotBefore (id_Cert (d_id d)) ≤ now ≤ NotAfter (id_Cert (d_id d)) →
  NotBefore (Cert ca) ≤ now ≤ NotAfter (Cert ca) →
  NewIdentity (Cert ca) (id_Cert (d_id d)) (id_Key (d_id d)) now = Ok (d_id d).
Proof.
  intros (_ & _ & Hid & _)%start_Ok Hwf Hca Hs Hn Hn'. apply LoadIdentity_new in Hid.
  rewrite Hca in Hid. apply NewIdentity_Ok in Hid as (Hk & Hv & E).
  destruct (Sign_tls ca _ _ _ now Hwf Hs Hn Hn') as (_ & Hp & Hv' & _).
  apply VerifyAgainst_Ok in Hv as (_ & Hp' & _). rewrite Hp in Hp'. injection Hp' as Hp'.
  apply NewIdentity_Ok. rewrite Hv', Hp'. by split_and!.
Qed.

(** *** The first service with a pairing port *)

(** What may come before it: services without a pairing port (or of the browser's
    own node_id) that are not of the node [name], sweeps and reads. *)
Definition quiet (self name : string) (it : item) : Prop :=
  match it with
  | Entry e _ =>
      match ParseTXT (e_Text e) with
      | Ok p => p_NodeID p = self ∨ (p_PairPort p = 0 ∧ p_NodeID p ≠ name)
      | Err _ => True
      end
  | _ => True
  end.

(** The test of [discoverCoordinator]. *)
Definition taken (ev : PeerEvent) : bool :=
  bool_decide (Kind ev = PeerAdded) && IsCoordinator (ev_Peer ev).

Lemma quiet_entry self name e now m :
  ad_NodeID (cfg_Ad (Mdns.cfg m)) = self → quiet self name (Entry e now) → peers m !! name = None →
  peers (handleEntry e now m) !! name = None ∧
  ∃ l, events (handleEntry e now m) = events m ++ l ∧ Forall (λ ev, taken ev = false) l.
Proof.
  intros Hs Hq Hp.
  assert (Hnil : ∃ l, events m = events m ++ l ∧ Forall (λ ev, taken ev = false) l)
    by (exists []; by rewrite app_nil_r).
  unfold quiet in Hq. unfold handleEntry, entry_peer.
  destruct (ParseTXT (e_Text e)) as [p|]; [|done]. rewrite Hs.
  case_bool_decide as Hself; [done|]. destruct Hq as [Hq|[Hz Hn]]; [done|].
  destruct (negb _ && negb _); [done|]. cbn [p_NodeID]. set (q := mkPeer _ _ _ _ _ _ _ _).
  set (m1 := set_peers _ m). change (events m) with (events m1) in *.
  assert (Hp1 : peers m1 !! name = None) by (cbn; by rewrite lookup_insert_ne).
  assert (Hem : ∀ k, peers (emit (mkEvent k q) m1) !! name = None ∧
    ∃ l, events (emit (mkEvent k q) m1) = events m1 ++ l ∧ Forall (λ ev, taken ev = false) l).
  { intros k. unfold emit. case_match; [|done]. split; [done|]. exists [mkEvent k q]. split; [done|].
    apply Forall_singleton. unfold taken, IsCoordinator. cbn. by rewrite Hz, andb_false_r. }
  destruct (peers m !! p_NodeID p) as [q'|]; [|apply Hem]. destruct (peerChanged q' q); [apply Hem|done].
Qed.

Lemma quiet_run self name l m m' :
  ad_NodeID (cfg_Ad (Mdns.cfg m)) = self → Forall (quiet self name) l → loop_go l m = Running m' →
  peers m !! name = None → Forall (λ ev, taken ev = false) (events m) →
  peers m' !! name = None ∧ Forall (λ ev, taken ev = false) (received l m ++ events m').
Proof.
  intros Hs Hl. revert m Hs. induction Hl as [|it l Hit _ IH]; intros m Hs Hrun Hp Hev;
    cbn [loop_go received] in *; [by injection Hrun as <-|].
  destruct it as [|e now| |now order|]; try (unfold close_done in Hrun; by destruct (done_ m)).
  - destruct (quiet_entry self name e now m Hs Hit Hp) as (Hp' & k & Ek & Hk).
    apply IH; [by rewrite (proj1 (handleEntry_fixed e now m))|done|done|].
    rewrite Ek. by apply Forall_app.
  - destruct (expire_appends order now m) as (k & Ek & Hk).
    apply IH; [by rewrite (proj1 (expire_fixed order now m))|done| |].
    + unfold expire. rewrite expire_all_peers. cbn [peers set_peers]. by rewrite map_lookup_filter, Hp.
    + rewrite Ek. apply Forall_app. split; [done|]. eapply Forall_impl; [exact Hk|].
      intros ev E. cbv beta in E. unfold taken. by rewrite E.
  - destruct (IH (recv m) Hs Hrun Hp) as [Hp' Hr].
    { unfold recv. cbn. destruct Hev; [constructor|done]. }
    split; [done|]. rewrite <-app_assoc. apply Forall_app. split; [by apply Forall_take|done].
Qed.

(** [join] with this node_id takes the address [addr] when its browser, fresh
    from [NewMDNS] as [m0], goes through the items (and goes on, or has ended):
    the events that [discoverCoordinator] gets are those read so far and those
    that wait. *)
Definition finds (nodeID : string) (m0 : MDNS) (items : list item) (addr : string) : Prop :=
  ∀ m net ifi ifs, loop_go items m0 = Running m ∨ loop_go items m0 = Returned m →
    mn_ifaces net = Ok (ifi :: ifs) → mn_resolver net = Ok tt → mn_browse net = Ok tt →
    mn_events net = received items m0 ++ events m →
    discoverCoordinator net nodeID = Ok addr.

(** [discoverCoordinator] returns the address of the first service with a pairing
    port that its browser hears while there is room in the channel. *)
Lemma first_coordinator nodeID m0 pre m1 e now p post m net ifi ifs :
  NewMDNS (browse_config nodeID) = Ok m0 →
  loop_go pre m0 = Running m1 → Z.of_nat (length (events m1)) < EventBuffer (Mdns.cfg m1) →
  Forall (quiet nodeID (p_NodeID p)) pre →
  entry_peer (cfg_Ad (Mdns.cfg m0)) e now = Some p → IsCoordinator p = true →
  loop_go (pre ++ Entry e now :: post) m0 = Running m ∨
  loop_go (pre ++ Entry e now :: post) m0 = Returned m →
  mn_ifaces net = Ok (ifi :: ifs) → mn_resolver net = Ok tt → mn_browse net = Ok tt →
  mn_events net = received (pre ++ Entry e now :: post) m0 ++ events m →
  discoverCoordinator net nodeID = Ok (PairAddr p).
Proof.
  intros Hnew Hpre Hroom Hq Hp Hc Hrun Hi Hr Hb Hev. apply NewMDNS_Ok in Hnew as ((Hn & _) & Em).
  cbn in Hn. assert (Hs : ad_NodeID (cfg_Ad (Mdns.cfg m0)) = nodeID) by by rewrite Em.
  destruct (quiet_run nodeID (p_NodeID p) pre m0 m1 Hs Hq Hpre) as [Hun Hst]; [by rewrite Em..|].
  rewrite (loop_go_app _ _ _ _ Hpre) in Hrun. cbn [loop_go] in Hrun.
  destruct (stream_grows _ _ _ Hrun) as [k Hk].
  rewrite (received_app _ _ _ _ Hpre), <-app_assoc in Hev. cbn [received] in Hev. rewrite Hk in Hev.
  assert (Hadd : events (handleEntry e now m1) = events m1 ++ [mkEvent PeerAdded p]).
  { unfold handleEntry. rewrite (loop_go_cfg _ _ _ Hpre), Hp, Hun. unfold emit.
    cbn [events set_peers Mdns.cfg]. by rewrite (proj2 (Z.ltb_lt _ _) Hroom). }
  rewrite Hadd, <-app_assoc, (app_assoc (received _ _)) in Hev. cbn [app] in Hev.
  pose proof (discoverCoordinator_spec net nodeID ifi ifs Hn Hi Hr Hb) as Hd. cbv zeta in Hd.
  rewrite Hev, (find_first _ _ (mkEvent PeerAdded p)) in Hd; [by destruct Hd as [-> _]|exact Hst|].
  by rewrite bool_decide_true.
Qed.

(** ** Properties *)

(** C19: the daemons of a mesh find and reach each other.  Two daemons run with
    certificates of one mesh CA, and the browser of the second hears the service
    of the first, then services of other nodes, and sweeps for up to 90 seconds.
    Then its table has the first under its node_id, with the mesh, the addresses
    and the port that the first listens on, and the fingerprint of the certificate
    that the first shows: dialling it as the peer of that entry completes the
    TLS handshake on both sides, where the first sees the principal of the second. *)
Theorem daemons_meet {C : Crypto} {L : CryptoLaws C}
    env1 cfg1 se1 fs1 fs1' d1 env2 cfg2 se2 fs2 fs2' d2 ca req1 e1 req2 e2 now pre m0 host v4 v6 t post :
  start env1 cfg1 se1 fs1 = (fs1', Ok d1) → start env2 cfg2 se2 fs2 = (fs2', Ok d2) →
  wf_CA ca → id_CACert (d_id d1) = Cert ca → id_CACert (d_id d2) = Cert ca →
  Sign ca req1 e1 = Ok (id_Cert (d_id d1)) → Sign ca req2 e2 = Ok (id_Cert (d_id d2)) →
  Role (req_Principal req1) = RoleNode → pairPort cfg1 ≤ 65535 →
  NotBefore (id_Cert (d_id d1)) ≤ now ≤ NotAfter (id_Cert (d_id d1)) →
  NotBefore (id_Cert (d_id d2)) ≤ now ≤ NotAfter (id_Cert (d_id d2)) →
  NotBefore (Cert ca) ≤ now ≤ NotAfter (Cert ca) →
  Name (id_Principal (d_id d2)) ≠ Name (id_Principal (d_id d1)) → v4 ++ v6 ≠ [] →
  loop_go pre (d_md d2) = Running m0 →
  Forall (stays (Name (id_Principal (d_id d1))) t (90 * Second)) post →
  ∃ z m p ip, server (d_md d1) = Some z ∧
    loop_go (pre ++ Entry (heard z host v4 v6) t :: post) (d_md d2) = Running m ∧
    peers m !! Name (id_Principal (d_id d1)) = Some p ∧
    p_NodeID p = Name (id_Principal (d_id d1)) ∧ p_MeshID p = id_MeshID (d_id d2) ∧
    p_Fingerprint p = Fingerprint (id_Cert (d_id d1)) ∧
    ip ∈ v4 ++ v6 ∧ GRPCAddr p = JoinHostPort (IP_String ip) (Itoa (grpcPort cfg1)) ∧
    tls_connect (ServerTLS (d_id d1)) (ClientTLS (d_id d2) (p_NodeID p)) now =
      Ok ([id_Cert (d_id d2)], [id_Cert (d_id d1)]) ∧
    PeerPrincipal (mkCtx (Some (TLSInfo [id_Cert (d_id d2)]))) = Some (id_Principal (d_id d2)).
Proof.
  intros S1 S2 Hwf Hca1 Hca2 Hs1 Hs2 Hr Hpp Hn1 Hn2 Hn Hne Hv Hpre Hpost.
  destruct (daemon_browser _ _ _ _ _ _ S2) as (EN & EM & EX).
  pose proof (daemon_identity _ _ _ _ _ _ ca req1 e1 now S1 Hwf Hca1 Hs1 Hn1 Hn) as I1.
  pose proof (daemon_identity _ _ _ _ _ _ ca req2 e2 now S2 Hwf Hca2 Hs2 Hn2 Hn) as I2.
  assert (Hmesh : id_MeshID (d_id d1) = id_MeshID (d_id d2)).
  { apply NewIdentity_Ok in I1 as (_ & (_ & _ & M1)%VerifyAgainst_Ok & _).
    apply NewIdentity_Ok in I2 as (_ & (_ & _ & M2)%VerifyAgainst_Ok & _). unfold id_MeshID. congruence. }
  destruct (heard_peer _ _ _ _ _ _ (cfg_Ad (Mdns.cfg (d_md d2))) host v4 v6 t S1 Hpp)
    as (z & Hz & Hp); [by rewrite EN|right; by rewrite EM|].
  set (p := mkPeer _ _ _ _ _ _ _ _) in Hp.
  pose proof (loop_go_cfg _ _ _ Hpre) as Hcfg.
  destruct (hostPort_ip (v4 ++ v6) Hv) as (ip & Hin & _ & Eip).
  destruct (peer_stays (p_NodeID p) p (90 * Second) post (handleEntry (heard z host v4 v6) t m0))
    as (m & Hm & Hpm).
  { by rewrite (proj1 (handleEntry_fixed _ _ _)), Hcfg. }
  { unfold Second, min_int, max_int. lia. }
  { rewrite handleEntry_peers, Hcfg, Hp. apply lookup_insert_eq. }
  { exact Hpost. }
  destruct (peers_connect ca req1 e1 _ _ _ req2 e2 _ _ _ now Hwf Hs1 Hs2 Hn1 Hn2 Hn I1 I2 Hr) as [Hc Hpc].
  exists z, m, p, ip. split; [done|]. split; [rewrite (loop_go_app _ _ _ _ Hpre); exact Hm|].
  split; [exact Hpm|]. split_and!; try done. apply Eip.
Qed.

(** C20: the coordinator that [join] finds is the first that it hears.  The
    coordinator [d] runs with a pairing port; a browser that has heard [pre] has
    room in its channel of events.  If nothing with a pairing port, nor anything of
    the coordinator's node_id, was heard before, and the browser now hears the
    service of [d], [discoverCoordinator] returns the address of its pairing
    listener: one of the addresses of its machine, an IPv4 one if there is any,
    with the port that its daemon listens on, whatever comes after ([post]) and
    whenever the events are read.  If instead it now hears another service with a
    pairing port, of whatever mesh, the address is that one's, even if the
    coordinator is heard later: nothing in the search tells the meshes apart. *)
Theorem coordinator_found {C : Crypto} env cfg se fs fs' d nodeID m0 pre m1 host v4 v6 now :
  start env cfg se fs = (fs', Ok d) → coordinator cfg = true → 1 ≤ pairPort cfg ≤ 65535 →
  NewMDNS (browse_config nodeID) = Ok m0 → nodeID ≠ Name (id_Principal (d_id d)) → v4 ++ v6 ≠ [] →
  loop_go pre m0 = Running m1 → Z.of_nat (length (events m1)) < EventBuffer (Mdns.cfg m1) →
  ∃ z ip, server (d_md d) = Some z ∧
    ip ∈ v4 ++ v6 ∧ (is_Some (To4 ip) ∨ Forall (λ ip, To4 ip = None) (v4 ++ v6)) ∧
    SplitHostPort (JoinHostPort (IP_String ip) (Itoa (pairPort cfg))) =
      Ok (IP_String ip, Itoa (pairPort cfg)) ∧
    (∀ post, Forall (quiet nodeID (Name (id_Principal (d_id d)))) pre →
      finds nodeID m0 (pre ++ Entry (heard z host v4 v6) now :: post)
        (JoinHostPort (IP_String ip) (Itoa (pairPort cfg)))) ∧
    (∀ e t q post, entry_peer (cfg_Ad (Mdns.cfg m0)) e t = Some q → IsCoordinator q = true →
      Forall (quiet nodeID (p_NodeID q)) pre →
      finds nodeID m0 (pre ++ Entry e t :: post) (PairAddr q)).
Proof.
  intros Hs Hco Hpp Hnew Hne Hv Hpre Hroom.
  assert (Hm : cfg_Ad (Mdns.cfg m0) = mkAd nodeID AnyMesh 1 0 "") by by apply NewMDNS_Ok in Hnew as (_ & ->).
  destruct (heard_peer env cfg se fs fs' d (cfg_Ad (Mdns.cfg m0)) host v4 v6 now Hs)
    as (z & Hz & Hp); [lia|by rewrite Hm|left; by rewrite Hm|]. rewrite Hco in Hp.
  destruct (hostPort_ip (v4 ++ v6) Hv) as (ip & Hin & H4 & Eip).
  exists z, ip. split; [done|]. split; [done|]. split; [done|].
  split; [apply Split_Join; [apply IP_String_plain|apply Itoa_plain_port; lia]|]. split.
  - intros post Hq m net ifi ifs. set (p := mkPeer _ _ _ _ _ _ _ _) in Hp.
    assert (JoinHostPort (IP_String ip) (Itoa (pairPort cfg)) = PairAddr p) as ->.
    { unfold PairAddr, p. cbn [p_PairPort p_Addrs]. rewrite Z.max_r by lia.
      rewrite (proj2 (Z.eqb_neq _ 0)) by lia. by rewrite Eip. }
    apply (first_coordinator nodeID m0 pre m1 _ now); try done.
    unfold IsCoordinator, p. cbn [p_PairPort]. apply Z.ltb_lt. lia.
  - intros e t q post Hq Hc Hpq m net ifi ifs. by apply (first_coordinator nodeID m0 pre m1 e t).
Qed.

Definition ex_lan : IP := String "010" (String "000" (String "000" (String "005" ""))).

(** A coordinator of another mesh. *)
Definition ex_rival : ServiceEntry :=
  mkEntry "other" "other.local." 7443 (TXT (mkAd "other" "office" 7443 7444 "")) [srepeat "009" 4] [].

Lemma coordinator_found_witness :
  ∃ z m m', discoverCoordinator (mkMdnsNet (Ok [mkInterface 2 "en0" 19]) (Ok tt) (Ok tt) (events m)) "laptop"
              = Ok "10.0.0.5:7444" ∧
    loop_go [Entry z ex_now; Entry ex_rival ex_now] (browser "laptop") = Running m ∧
    discoverCoordinator (mkMdnsNet (Ok [mkInterface 2 "en0" 19]) (Ok tt) (Ok tt) (events m')) "laptop"
              = Ok "9.9.9.9:7444" ∧
    loop_go [Entry ex_rival ex_now; Entry z ex_now] (browser "laptop") = Running m'.
Proof.
  pose proof ex_started as H. destruct ex_daemon as [d|] eqn:Ed; [|destruct H].
  assert (HN : Name (id_Principal (d_id d)) = "coord") by (vm_compute in Ed; injection Ed as <-; reflexivity).
  destruct (coordinator_found no_faults ex_config ex_start_env ex_dir ex_dir d "laptop" (browser "laptop") []
    (browser "laptop") "box.local." [ex_lan] [] ex_now H eq_refl) as (z & ip & Hz & Hin & _ & _ & Hd & Hr).
  - split; vm_compute; discriminate.
  - reflexivity.
  - rewrite HN. discriminate.
  - discriminate.
  - reflexivity.
  - reflexivity.
  - cbn in Hin. apply list_elem_of_singleton in Hin as ->.
    exists (heard z "box.local." [ex_lan] []). do 2 eexists. split; [|split; [reflexivity|split; [|reflexivity]]].
    + refine (Hd [Entry ex_rival ex_now] _ _ (mkMdnsNet _ _ _ _) (mkInterface 2 "en0" 19) [] (or_introl _) _ _ _ _);
        try reflexivity. constructor.
    + refine (Hr ex_rival ex_now (mkPeer "other" "office" "" "other.local" [srepeat "009" 4] 7443 7444 ex_now) [Entry (heard z "box.local." [ex_lan] []) ex_now] _ _ _ _ (mkMdnsNet _ _ _ _)
        (mkInterface 2 "en0" 19) [] (or_introl _) _ _ _ _); try reflexivity. constructor.
Defined.

(** *** A second daemon, for the witness *)

Definition ex_laptop_dir : FS :=
  ((do! WriteCert no_faults "l" CACertFile (Cert ex_ca) false in
    do! WriteCert no_faults "l" NodeCertFile (ex_cert_of RoleNode "laptop" "laptop") false in
    WriteKey no_faults "l" NodeKeyFile (ex_key_of "laptop") false) (mkFS ∅ ∅ 18)).1.
Definition ex_laptop_config : config := mkConfig "l" 7443 7444 false "" "" "info" "text".
Definition ex_laptop : option Daemon :=
  match (start no_faults ex_laptop_config ex_start_env ex_laptop_dir).2 with Ok d => Some d | Err _ => None end.

Lemma ex_laptop_started :
  match ex_laptop with
  | Some d => start no_faults ex_laptop_config ex_start_env ex_laptop_dir = (ex_laptop_dir, Ok d)
  | None => False
  end.
Proof. vm_compute. reflexivity. Qed.

Lemma daemons_meet_witness :
  ∃ d1 d2 m p, ex_daemon = Some d1 ∧ ex_laptop = Some d2 ∧ peers m !! "coord" = Some p ∧
    GRPCAddr p = "10.0.0.5:7443" ∧
    is_ok (tls_connect (ServerTLS (d_id d1)) (ClientTLS (d_id d2) (p_NodeID p)) ex_now) = true.
Proof.
  pose proof ex_started as H1. destruct ex_daemon as [d1|] eqn:E1; [|destruct H1].
  pose proof ex_laptop_started as H2. destruct ex_laptop as [d2|] eqn:E2; [|destruct H2].
  assert (C1 : id_Cert (d_id d1) = ex_cert_of RoleNode "coord" "coord" ∧ id_CACert (d_id d1) = Cert ex_ca ∧
               Name (id_Principal (d_id d1)) = "coord").
  { vm_compute in E1. injection E1 as <-. vm_compute. auto. }
  assert (C2 : id_Cert (d_id d2) = ex_cert_of RoleNode "laptop" "laptop" ∧ id_CACert (d_id d2) = Cert ex_ca ∧
               Name (id_Principal (d_id d2)) = "laptop").
  { vm_compute in E2. injection E2 as <-. vm_compute. auto. }
  destruct C1 as (C1 & A1 & N1), C2 as (C2 & A2 & N2).
  destruct (daemons_meet no_faults ex_config ex_start_env ex_dir ex_dir d1
    no_faults ex_laptop_config ex_start_env ex_laptop_dir ex_laptop_dir d2
    ex_ca (ex_req_of RoleNode "coord" "coord") ex_env (ex_req_of RoleNode "laptop" "laptop") ex_env
    ex_now [] (d_md d2) "box.local." [ex_lan] [] ex_now [Sweep (ex_now + 80 * Second) id] H1 H2 ex_ca_wf A1 A2)
    as (z & m & p & ip & _ & _ & Hp & HN & _ & _ & Hin & Hg & Hc & _).
  - rewrite C1. vm_compute. reflexivity.
  - rewrite C2. vm_compute. reflexivity.
  - reflexivity.
  - vm_compute. discriminate.
  - rewrite C1. vm_compute. split; discriminate.
  - rewrite C2. vm_compute. split; discriminate.
  - vm_compute. split; discriminate.
  - rewrite N1, N2. discriminate.
  - discriminate.
  - reflexivity.
  - apply Forall_singleton. vm_compute. discriminate.
  - exists d1, d2, m, p. rewrite N1 in Hp. cbn in Hin. apply list_elem_of_singleton in Hin as ->.
    split; [reflexivity|]. split; [reflexivity|]. split; [exact Hp|]. split; [exact Hg|]. by rewrite Hc.
Defined.
