(* ===== verification/Bootstrap.v ===== *)
(** * From an empty directory to a mesh

    The programs together: [meshctl init], [meshd --coordinator], [meshctl pair]
    and [meshctl join], and [meshd] again on the new node.  Nothing here models
    code of its own: the theorem composes the models of the commands, the daemon
    and the two sides of the pairing protocol. *)
From S2P Require Import Prelude GoStrings GoTime GoOS GoNet Labels Identity Crypto SymCrypto GoGrpc.
From S2P Require Import PkiCA PkiPem PkiPairing Transport PairingServer PairingClient Peer Ifaces.
From S2P Require Import Mdns Coordinator Meshctl Meshd.
Local Open Scope Z_scope.

(** A certificate that a coordinator with the default lifetime issues in [e] is
    valid at [now], and its dates can be encoded. *)
Definition issues_valid (e : IssueEnv) (now : Time) : Prop :=
  (∃ sn, serial_rnd e = Some sn ∧ 0 ≤ sn) ∧
  (x509_time (issue_now e - backdate) = true ∧ x509_time (issue_now e + DefaultNodeCertTTL) = true) ∧
  trunc_sec (issue_now e - backdate) ≤ now ≤ trunc_sec (issue_now e + DefaultNodeCertTTL).

Section Bootstrap.
Context {C : Crypto} {L : CryptoLaws C}.

(** What [init] stored, for the daemon. *)
Lemma init_stored env f ie fs fs' r :
  init_with env f ie fs = (fs', Ok r) →
  ReadCA env (if_dataDir f) fs' = (fs', Ok (ir_ca r)) ∧ wf_CA (ir_ca r) ∧
  ca_MeshID (ir_ca r) = if_meshID f ∧ is_label (if_meshID f) = true ∧ is_label (ir_nodeID r) = true ∧
  ParseCertificate (Raw (Cert (ir_ca r))) = Some (Cert (ir_ca r)).
Proof.
  intros H. pose proof H as (fs1 & Hr & Hi & Hw)%cmdInit_Ok.
  apply init_issue_Ok in Hi as (rN & rA & Hca & _ & _).
  apply resolveNodeID_Ok in Hr as (Hl & _). pose proof (NewCA_parses _ _ _ _ Hca) as Hp.
  apply NewCA_Ok in Hca as (Hwf & Hm & Hload & _).
  apply init_writes_stored in Hw as (S1 & S2 & _).
  split_and!; try done; [by apply ReadCA_stored|]. rewrite <-Hm. apply Hwf.
Qed.

(** The coordinator of a fresh mesh: no code, no session, and in working order. *)
Lemma fresh_coordinator env f ie fs fs' r cfg se d s a :
  init_with env f ie fs = (fs', Ok r) → init_valid r (se_now se) → dataDir cfg = if_dataDir f →
  start env cfg se fs' = (fs', Ok d) → d_pair d = Some (s, a) →
  d_id d = init_node f r ∧ srv_Identity s = init_node f r ∧ srv_CA s = ir_ca r ∧
  srv_GRPCPort s = grpcPort cfg ∧
  srv_pairer s = mkPairer (ir_ca r) (ir_nodeCert r) DefaultNodeCertTTL ∅ ∅ [] ∧
  coordinator_ready s.
Proof.
  intros HI Hv Hd Hs Hp.
  destruct (init_stored _ _ _ _ _ _ HI) as (Hca & Hwf & _ & _ & _ & Hparse).
  destruct (init_identities _ _ _ _ _ _ _ HI Hv) as (_ & _ & Hl & _).
  pose proof (start_md _ _ _ _ _ _ Hs) as (_ & _ & _ & _ & Hg).
  apply start_Ok in Hs as (_ & _ & Hid & _ & _ & Hpair & _).
  rewrite Hd, Hl in Hid. injection Hid as Hid. rewrite Hp in Hpair. destruct Hpair as [_ Hc].
  apply start_coordinator_Ok in Hc as (_ & ca & Hrd & Hn & _).
  rewrite Hd, Hca in Hrd. injection Hrd as <-.
  pose proof (NewServer_Ok _ _ Hn) as (id' & ca' & [= <-] & [= <-] & _ & E1 & E2 & E3 & E4).
  rewrite <-Hid in *. split_and!; try done.
  refine (NewServer_ready _ _ _ _ _ _ Hn Hwf Hparse _ _); [done|done|done|]. cbn in *. lia.
Qed.

Lemma gc_fresh now ca sc ttl : gcLocked now (mkPairer ca sc ttl ∅ ∅ []) = mkPairer ca sc ttl ∅ ∅ [].
Proof. unfold gcLocked, with_state. cbn. by rewrite !map_filter_empty. Qed.

Lemma gc_one now ca sc ttl c (exp : Time) :
  now ≤ exp → gcLocked now (mkPairer ca sc ttl {[c := exp]} ∅ []) = mkPairer ca sc ttl {[c := exp]} ∅ [].
Proof.
  intros He. unfold gcLocked, with_state. cbn. rewrite map_filter_empty.
  rewrite map_filter_singleton. cbn. unfold time_After.
  rewrite decide_True; [done|]. by apply Z.ltb_ge.
Qed.

Lemma CreatePairingCode_state a rnd now now_gc req p p' resp :
  CreatePairingCode a rnd now now_gc req p = (p', inl resp) →
  p' = set_codes (<[cc_Code resp := cc_ExpiresAt resp]> (codes (gcLocked now_gc p))) (gcLocked now_gc p).
Proof.
  unfold CreatePairingCode, Issue. destruct (_ <? _); [done|].
  destruct (GenerateCode rnd); [|done]. by intros [= <- <-].
Qed.

(** The operator's certificate, at the admin API of the new coordinator. *)
Lemma init_admin_call env f ie fs fs' r id a n now req p :
  init_with env f ie fs = (fs', Ok r) → init_valid r now →
  admin_call id a (Some n) now now (inl req) [ir_adminCert r] p =
    CreatePairingCode a (Some n) now now req p.
Proof.
  intros HI Hv. destruct (init_identities _ _ _ _ _ _ _ HI Hv) as (_ & _ & _ & HiA & _).
  apply NewIdentity_Ok in HiA as (_ & (_ & HP & _)%VerifyAgainst_Ok & _).
  rewrite admin_call_eq. unfold PeerPrincipal. cbn [ctx_peer]. rewrite HP. done.
Qed.

(** [Begin] on a coordinator with one active code. *)
Lemma Begin_one s ca sc ttl c (exp : Time) r1 r2 t req :
  srv_pairer s = mkPairer ca sc ttl {[c := exp]} ∅ [] → t ≤ exp →
  let id := read_bytes SessionIDLen r1 in
  let sess := mkSession id (read_bytes SaltLen r2) (time_Add t DefaultSessionTTL) in
  PairingServer.Begin (Some r1) (Some r2) t t req s =
    (set_pairer (mkPairer ca sc ttl {[c := exp]} {[id := sess]} []) s,
     inl (mkBeginResp id (Salt sess) (ca_MeshID (srv_CA s)) (ExpiresAt sess))).
Proof.
  intros Ep Ht id sess. unfold PairingServer.Begin, PkiPairing.Begin. rewrite Ep, gc_one by done.
  cbn [codes failures sessions]. rewrite map_size_singleton, map_size_empty. cbn.
  unfold set_sessions, with_state. cbn. by rewrite insert_empty.
Qed.

(** A new code leaves the coordinator ready. *)
Lemma ready_after_pair s a n now now_gc req p1 out :
  coordinator_ready s → 0 ≤ n < codeSpace →
  CreatePairingCode a (Some n) now now_gc req (srv_pairer s) = (p1, out) →
  coordinator_ready (set_pairer p1 s).
Proof.
  intros (Hc & (Hp1 & Hp2 & Hp3 & Hwf) & Hr & Hg) Hn H. unfold coordinator_ready. cbn [srv_pairer srv_CA srv_Identity srv_GRPCPort set_pairer].
  refine (conj Hc (conj _ (conj Hr Hg))). unfold CreatePairingCode in H.
  destruct (_ <? _); [by injection H as <- _|].
  destruct (Issue _ _ _ _ _) as [q [i|err]] eqn:Ei; [|done]. injection H as <- _.
  pose proof (wf_Issue _ (Some n) _ _ _ _ _ Hn Hwf Ei) as Hwf'. cbn in Ei. injection Ei as <- _.
  done.
Qed.

(** The mesh of a bundle is that of its CA. *)
Lemma Join_mesh dial begin_rpc complete_rpc addr code nodeID kr cr now1 now2 res ca :
  Join dial begin_rpc complete_rpc addr code nodeID kr cr now1 now2 = Ok res →
  CACert (jr_Bundle res) = Cert ca → Bundle_MeshID (jr_Bundle res) = ca_MeshID ca.
Proof.
  intros (csr & begin & bp & sc & resp & cp & _ & _ & _ & _ & _ & _ & H)%Join_Ok E.
  apply join_checks_Ok in H as (_ & _ & _ & _ & _ & _ & Hv & _).
  apply VerifyBundle_Ok in Hv as [_ (_ & _ & Hm)%VerifyAgainst_Ok]. rewrite E in Hm. exact Hm.
Qed.

(** The daemon of a node that joined. *)
Lemma start_after_join dial begin_rpc complete_rpc addr code nodeID kr cr now1 now2 res ca
    env ow fs fs' cfg se :
  Join dial begin_rpc complete_rpc addr code nodeID kr cr now1 now2 = Ok res →
  CACert (jr_Bundle res) = Cert ca → wf_CA ca → is_label nodeID = true →
  Persist env res (dataDir cfg) ow fs = (fs', Ok tt) → coordinator cfg = false →
  world_ready cfg se → se_now se = now1 →
  ∃ d, start env cfg se fs' = (fs', Ok d) ∧
    id_Principal (d_id d) = mkPrincipal (ca_MeshID ca) RoleNode nodeID ∧
    NewIdentity (Cert ca) (NodeCert (jr_Bundle res)) (jr_Key res) now1 = Ok (d_id d).
Proof.
  intros HJ Eca [_ Hwf] Hl HP Hco Hw Hnow.
  destruct (Persist_loads _ _ _ _ _ _ _ _ _ _ _ _ _ _ _ _ HJ HP) as [(id & Hid & Hp & Hk & Hc & Hca) _].
  pose proof (LoadIdentity_new _ _ _ _ _ _ _ _ Hid) as Hnew. rewrite Hk, Hc, Hca, Eca in Hnew.
  rewrite (Join_mesh _ _ _ _ _ _ _ _ _ _ _ _ HJ Eca) in Hp.
  destruct (start_runs env cfg se fs' id Hw) as [d Hd].
  - by rewrite Hnow.
  - unfold id_MeshID. rewrite Hp. cbn. split_and!; try by apply is_label_nonempty.
    intros E. by rewrite E in Hwf.
  - by rewrite Hco.
  - exists d. split; [done|]. apply start_Ok in Hd as (_ & _ & Hid' & _).
    rewrite Hnow, Hid in Hid'. injection Hid' as <-. done.
Qed.

(** [join] with the one active code of a coordinator in working order. *)
Lemma join_with_code s1 ca node c (exp : Time) now nodeID kr cr csr r1 r2 t t1 order e addr host port :
  coordinator_ready s1 → srv_CA s1 = ca →
  srv_pairer s1 = mkPairer ca node DefaultNodeCertTTL {[c := exp]} ∅ [] →
  NotBefore (Cert ca) ≤ now ≤ NotAfter (Cert ca) →
  VerifyAgainst (Cert ca) (id_Cert (srv_Identity s1)) now = Ok (id_Principal (srv_Identity s1)) →
  is_label nodeID = true → NewCSR nodeID (GenerateKey kr) cr = Ok csr →
  t ≤ exp → t1 ≤ exp → t1 ≤ t + DefaultSessionTTL →
  (∀ l, order l ≡ₚ l) → SplitHostPort addr = Ok (host, port) →
  issues_valid e now →
  let s2 := (PairingServer.Begin (Some r1) (Some r2) t t (mkBeginReq nodeID) s1).1 in
  ∃ res,
    Join (Ok tt) (honest_begin (Some r1) (Some r2) t t s1) (honest_complete order t1 t1 e s2)
      addr c nodeID (Some kr) cr now now = Ok res ∧
    CACert (jr_Bundle res) = Cert ca ∧ jr_CoordinatorNodeID res = Name (id_Principal (srv_Identity s1)) ∧
    jr_CoordinatorGRPCAddr res = JoinHostPort host (Itoa (srv_GRPCPort s1)) ∧
    ∃ reqN, Sign ca reqN e = Ok (NodeCert (jr_Bundle res)) ∧ Role (req_Principal reqN) = RoleNode ∧
      req_TTL reqN = DefaultNodeCertTTL.
Proof.
  intros Hrdy Eca Ep Hca Hid Hlab Hcsr Ht Ht1 Hts Ho Hh ((sn & Hsn & Hsn0) & (Hx1 & Hx2) & Hnow) s2.
  assert (HB := Begin_one s1 _ _ _ _ _ r1 r2 t (mkBeginReq nodeID) Ep Ht). cbv zeta in HB.
  set (begin := mkBeginResp _ _ _ _) in HB.
  assert (Es2 : s2 = (PairingServer.Begin (Some r1) (Some r2) t t (mkBeginReq nodeID) s1).1) by done.
  rewrite HB in Es2. cbn [fst] in Es2. rewrite <-Es2 in HB.
  destruct (Join_runs (Some r1) (Some r2) t t order t1 t1 e sn s1 s2 begin addr host port c
    exp nodeID kr cr csr now now) as (res & HJ & _ & Ec & En & Ea); try done.
  all: try (rewrite Es2; cbn [srv_pairer set_pairer failures codes]).
  - rewrite filter_nil. unfold maxFailuresPerMin. cbn. lia.
  - apply lookup_singleton_eq.
  - intros c' u [-> _]%lookup_singleton_Some _. done.
  - by rewrite Ep.
  - by rewrite Ep.
  - by rewrite Eca.
  - by rewrite Eca.
  - rewrite <-Es2 in *. exists res. rewrite <-Eca. split_and!; try done.
    pose proof Hrdy as ((Hwf & _) & _).
    destruct (honest_node_cert order t1 t1 e s2 _ _ _ _ _ _ _ _ _ _ Ho ltac:(by rewrite Es2, <-Eca) HJ)
      as (reqN & HS & HR & HT). exists reqN. rewrite Es2 in HS, HT. cbn in HS, HT. by rewrite Eca.
Qed.

(** A certificate that was issued for the default lifetime is valid when
    [issues_valid] says so. *)
Lemma issued_valid ca req e cert now :
  wf_CA ca → Sign ca req e = Ok cert → req_TTL req = DefaultNodeCertTTL → issues_valid e now →
  NotBefore cert ≤ now ≤ NotAfter cert.
Proof.
  intros Hwf HS HT (_ & _ & Hn). apply Sign_issued in HS as (pub & sn & der & _ & _ & _ & _ & E & _);
    [|apply Hwf]. rewrite E. cbn [issued_cert NotBefore NotAfter leaf_template]. rewrite HT. exact Hn.
Qed.

(** A node with a certificate of the mesh CA reaches the coordinator of [init]. *)
Lemma node_connects env f ie fs fs' r reqN e cert key idN now :
  init_with env f ie fs = (fs', Ok r) → init_valid r now →
  Sign (ir_ca r) reqN e = Ok cert → req_TTL reqN = DefaultNodeCertTTL → issues_valid e now →
  NewIdentity (Cert (ir_ca r)) cert key now = Ok idN →
  tls_connect (ServerTLS (init_node f r)) (ClientTLS idN (ir_nodeID r)) now = Ok ([cert], [ir_nodeCert r]) ∧
  PeerPrincipal (mkCtx (Some (TLSInfo [cert]))) = Some (id_Principal idN).
Proof.
  intros HI Hv HS HT He Hnew. destruct (init_identities _ _ _ _ _ _ _ HI Hv) as ((Hwf & _) & HiN & _).
  apply cmdInit_Ok in HI as (fs1 & _ & Hi & _).
  apply init_issue_Ok in Hi as (rN & rA & _ & (HsN & HpN & _) & _).
  apply (peers_connect (ir_ca r) rN _ _ _ (init_node f r) reqN e _ _ _ now Hwf HsN HS (proj1 Hv)
    (issued_valid _ _ _ _ _ Hwf HS HT He) (proj2 (proj2 Hv)) HiN Hnew). by rewrite HpN.
Qed.
End Bootstrap.

(** ** Properties *)

(** C1: from [init] to a second node.  After [meshctl init], in a world that
    allows it, [meshd --coordinator] starts from the same directory; an
    administrator's call then gets a code; [meshctl join] with this code from
    another machine, at any time the code and its session live, succeeds over
    the coordinator's pairing listener and returns the CA of the mesh, the
    coordinator's node_id and the address of its control plane; and the daemon
    of the new node starts from what [Persist] wrote, as this node_id in this
    mesh, and completes the mutual handshake with the control plane of the
    coordinator, which sees it under its own name. *)
Theorem mesh_bootstrap {C : Crypto} {L : CryptoLaws C} env f ie fs fs' r cfg se :
  init_with env f ie fs = (fs', Ok r) → init_valid r (se_now se) → dataDir cfg = if_dataDir f →
  coordinator cfg = true → world_ready cfg se →
  ∃ d s a, start env cfg se fs' = (fs', Ok d) ∧ d_pair d = Some (s, a) ∧
  ∀ now n req, init_valid r now → is_uint32 (TtlSeconds req) = true → TtlSeconds req ≤ 600 →
    0 ≤ n < codeSpace →
  ∃ p1 resp,
    admin_call (d_id d) a (Some n) now now (inl req) [ir_adminCert r] (srv_pairer s) = (p1, inl resp) ∧
    cc_ExpiresAt resp = now + (if TtlSeconds req =? 0 then 60 else TtlSeconds req) * Second ∧
  let s1 := set_pairer p1 s in
  ∀ nodeID kr cr csr r1 r2 t t1 order e addr host port,
    is_label nodeID = true → NewCSR nodeID (GenerateKey kr) cr = Ok csr →
    t ≤ cc_ExpiresAt resp → t1 ≤ cc_ExpiresAt resp → t1 ≤ t + DefaultSessionTTL →
    (∀ l, order l ≡ₚ l) → SplitHostPort addr = Ok (host, port) →
    issues_valid e now →
  let s2 := (PairingServer.Begin (Some r1) (Some r2) t t (mkBeginReq nodeID) s1).1 in
  ∃ res,
    Join (Ok tt) (honest_begin (Some r1) (Some r2) t t s1) (honest_complete order t1 t1 e s2)
      addr (cc_Code resp) nodeID (Some kr) cr now now = Ok res ∧
    CACert (jr_Bundle res) = Cert (ir_ca r) ∧ jr_CoordinatorNodeID res = ir_nodeID r ∧
    jr_CoordinatorGRPCAddr res = JoinHostPort host (Itoa (grpcPort cfg)) ∧
    ∀ env' ow fs2 fs2' cfg' se',
      Persist env' res (dataDir cfg') ow fs2 = (fs2', Ok tt) → coordinator cfg' = false →
      world_ready cfg' se' → se_now se' = now →
      ∃ d', start env' cfg' se' fs2' = (fs2', Ok d') ∧
        id_Principal (d_id d') = mkPrincipal (if_meshID f) RoleNode nodeID ∧
      ∃ pcs seen,
        tls_connect (ServerTLS (d_id d)) (ClientTLS (d_id d') (ir_nodeID r)) now = Ok (pcs, seen) ∧
        PeerPrincipal (mkCtx (Some (TLSInfo pcs))) = Some (id_Principal (d_id d')).
Proof.
  intros HI Hv0 Hdir Hco Hw.
  destruct (init_stored _ _ _ _ _ _ HI) as (Hca & Hwf & Hmesh & Hlm & Hln & Hparse).
  assert (Hany : if_meshID f ≠ AnyMesh) by (intros E; rewrite E in Hlm; discriminate Hlm).
  destruct (init_identities _ _ _ _ _ _ _ HI Hv0) as (_ & _ & Hl & _).
  destruct (start_runs env cfg se fs' (init_node f r)) as [d Hd]; try done.
  { by rewrite Hdir. }
  { split_and!; [by apply is_label_nonempty|by apply is_label_nonempty|done]. }
  { intros _. exists (ir_ca r). by rewrite Hdir. }
  pose proof (start_Ok _ _ _ _ _ _ Hd) as (_ & _ & _ & _ & _ & Hpair & _).
  destruct (d_pair d) as [[s a]|] eqn:Ep; [|congruence].
  destruct (fresh_coordinator _ _ _ _ _ _ _ _ _ _ _ HI Hv0 Hdir Hd Ep)
    as (Eid & Esid & Esca & Esg & Esp & Hrdy).
  exists d, s, a. split_and!; [done..|].
  intros now n req Hv Hu H600 Hn. rewrite Esp, (init_admin_call _ _ _ _ _ _ _ _ _ _ _ _ HI Hv).
  set (p0 := mkPairer (ir_ca r) (ir_nodeCert r) DefaultNodeCertTTL ∅ ∅ []).
  pose proof (CreatePairingCode_spec a n now now req p0 Hu Hn) as HC.
  destruct (CreatePairingCode a (Some n) now now req p0) as [p1 out] eqn:EC.
  rewrite (proj2 (Z.ltb_ge _ _)) in HC by lia. destruct HC as (resp & -> & _ & _ & Hexp & _).
  exists p1, resp. split; [done|]. split; [done|]. pose proof EC as EC0. apply CreatePairingCode_state in EC.
  unfold p0 in EC. rewrite gc_fresh in EC. unfold set_codes, with_state in EC. cbn in EC.
  rewrite insert_empty in EC.
  intros s1 nodeID kr cr csr r1 r2 t t1 order e addr host port Hlab Hcsr Ht Ht1 Hts Ho Hh He s2.
  pose proof (ready_after_pair s a n now now req p1 (inl resp) Hrdy Hn) as Hrdy1.
  rewrite Esp in Hrdy1. specialize (Hrdy1 EC0). fold s1 in Hrdy1.
  destruct (join_with_code s1 (ir_ca r) (ir_nodeCert r) (cc_Code resp) (cc_ExpiresAt resp) now nodeID
    kr cr csr r1 r2 t t1 order e addr host port) as (res & HJ & Ec & En & Ea & reqN & HSN & HRN & HTN); try done.
  - apply Hv.
  - unfold s1. cbn [srv_Identity set_pairer]. rewrite Esid.
    destruct (init_identities _ _ _ _ _ _ _ HI Hv) as (_ & HiN & _).
    by apply NewIdentity_Ok in HiN as (_ & HiN & _).
  - exists res. unfold s1 in En, Ea. cbn [srv_Identity srv_GRPCPort set_pairer] in En, Ea.
    rewrite Esid in En. rewrite Esg in Ea. split_and!; try done.
    intros env' ow fs2 fs2' cfg' se' HP Hco' Hw' Hnow'. rewrite <-Hmesh.
    destruct (start_after_join _ _ _ _ _ _ _ _ _ _ _ _ _ _ _ _ _ _ HJ Ec Hwf Hlab HP Hco' Hw' Hnow')
      as (d' & Hd' & Hp' & Hnew').
    exists d'. split; [done|]. split; [done|]. rewrite Eid. eexists _, _.
    exact (node_connects _ _ _ _ _ _ _ _ _ _ _ _ HI Hv HSN HTN He Hnew').
Qed.

(** *** Two machines, for the witness *)

Definition ex_world (dir : string) (coord : bool) : config := mkConfig dir 7443 7444 coord "" "" "info" "json".

Lemma ex_world_ready dir coord : world_ready (ex_world dir coord) ex_start_env.
Proof.
  split; [reflexivity|]. split; [split; [reflexivity|by eexists _, _]|].
  split; [split; reflexivity|]. split; [by split_and!|]. cbn. lia.
Qed.

Lemma mesh_bootstrap_witness :
  ∃ r1 r2 s1 s2 code res,
    Join (Ok tt) (honest_begin r1 r2 ex_now ex_now s1) (honest_complete id ex_now ex_now ex_env s2)
      "10.0.0.5:7444" code "laptop" (Some "joiner") "r" ex_now ex_now = Ok res ∧
    jr_CoordinatorNodeID res = "box-010203" ∧ jr_CoordinatorGRPCAddr res = "10.0.0.5:7443".
Proof.
  destruct (mesh_bootstrap no_faults ex_init_flags ex_init_env (mkFS ∅ ∅ 18) ex_init.1 ex_init_r
    (ex_world "d" true) ex_start_env ex_init_ok ex_init_valid eq_refl eq_refl (ex_world_ready "d" true))
    as (d & s & a & _ & _ & H).
  destruct (H ex_now 7 (mkCreateReq 0) ex_init_valid eq_refl ltac:(cbn; lia)
    ltac:(unfold codeSpace; lia)) as (p1 & resp & _ & Hexp & HJ).
  destruct (HJ "laptop" "joiner" "r" ex_join_csr "session" "salt" ex_now ex_now id ex_env
    "10.0.0.5:7444" "10.0.0.5" "7444") as (res & Hr & _ & Hn & Ha & _).
  all: lazymatch goal with
    | |- ∃ _, _ => eexists _, _, _, _, _, res; split; [exact Hr|split; [exact Hn|exact Ha]]
    | |- ∀ l, _ => intros l; apply Permutation_refl
    | |- _ = _ => vm_compute; reflexivity
    | |- _ ∧ _ => vm_compute; split; discriminate
    | |- issues_valid _ _ => split; [exists 7|]; vm_compute; repeat split; discriminate
    | |- _ ≤ cc_ExpiresAt _ => rewrite Hexp; vm_compute; discriminate
    | |- _ => vm_compute; discriminate
    end.
Defined.
